(* ===== verification/_CoqProject ===== *)
-Q . S2P
Prelude.v
Bytes.v
Cosmwasm.v
RefHost.v
Protocol.v
SignedInteger.v
HubState.v
HubStateFacts.v
Text.v
BigInt.v
Bignumber.v
HubMath.v
BignumberFacts.v
RefBigInt.v
UnitTests.v
HubCore.v
HubConfig.v
HubBond.v
HubUnbond.v
HubWithdraw.v
HubAutoCompound.v
HubContract.v
RewardsContract.v
Scenario.v
HubCoreFacts.v
HubBondFacts.v
HubUnbondFacts.v
HubAdminFacts.v
HubWithdrawFacts.v
HubInvariant.v
HubTypes.v
HubPayments.v
Book.v
HubSolvency.v
Chain.v
ChainFacts.v
ChainRuns.v
Backing.v
System.v
SystemFacts.v
SystemRuns.v
Compounding.v
HubProgress.v
HubWorking.v
HubUnbondProgress.v
HubBondProgress.v
SystemProgress.v
CompoundProgress.v
Termination.v
HubWhitelist.v
HubHistory.v
HubRefinement.v
ChainProgress.v
Runs.v
ChainScenario.v
SystemScenario.v
PropLedger.v
PropTypes.v
PropChain.v
PropSystem.v
PropRefinement.v
PropWithdraw.v
PropUnbond.v
PropBond.v
PropAdmin.v
PropStorage.v
PropRewards.v
PropBignumber.v
