(* ===== verification/Prelude.v ===== *)
(** * Prism auto-compounding cAsset contracts: a verification library

    ** The program

    Two CosmWasm contracts and their packages (paths under src/):

    - the hub (contracts/prism_hub) takes uluna, delegates it and has a token
      minted for it; the token's exchange rate grows when staking rewards are
      delegated again ("auto compounding") and falls with slashing.  Unbonding
      requests are collected in batches; at the end of an epoch a batch is
      undelegated; after the unbonding period it is released at a rate that
      spreads slashing over the batches, and its users can withdraw;
    - the rewards contract (contracts/prism_rewards) receives the hub's staking
      rewards and, asked by the hub, sends them all to the hub's
      UpdateExchangeRate;
    - packages: prism-protocol (messages, stored records), signed_integers
      (a magnitude and a sign), bignumber (256-bit numbers).

    The chain, the token contract, cosmwasm_std, cw_controllers, serde and rand
    are not part of the repository.  They are the classes of Cosmwasm.v: operations
    the contracts call, and laws their documentation promises.  RefHost.v is a
    concrete host satisfying every law; all witnesses are evaluated on it.  The
    bigint crate and the text form of cosmwasm_std's decimals are the classes of
    BigInt.v, with the concrete instances of RefBigInt.v.

    ** The model

    A handler is a function in the monad [cm HubStore]: from the store to an
    [outcome] (a value with the new store, an error, a panic, or - only for the
    loops below - exhausted fuel).  A handler that fails has no store, as the chain
    discards its writes.  Queries and chain state come from a [Querier] argument;
    messages to other modules are data in the [Response].

    - Protocol.v: hub.rs, rewards.rs and contract_error.rs, one record or inductive per
      type, and [State::update_exchange_rate];
    - SignedInteger.v: signed_integer.rs;
    - HubState.v: state.rs.  [HubStore] has a field per storage key; the wait list
      and the history are maps over the byte keys that the code builds (JSON
      encodings, big-endian numbers), so key clashes are not assumed away;
    - Text.v: the string functions of the Rust library that are used, numerals;
    - Bignumber.v: bignumber/src/math.rs, one Module per type; a [U256] is the
      array of four words that the code takes apart;
    - HubMath.v (math.rs), HubCore.v (utility.rs; slashing and the supply query of
      contract.rs), HubConfig.v (config.rs, migration.rs), HubBond.v (bond.rs),
      HubUnbond.v and HubWithdraw.v (unbond.rs), HubAutoCompound.v
      (autho_compounding.rs), HubContract.v (contract.rs: instantiate, execute,
      query, migrate);
    - RewardsContract.v: the rewards contract, in Module [Rewards];
    - Scenario.v: three unit tests of the hub replayed on the model;
    - UnitTests.v: the unit tests inside the packages' source files and in the
      hub's math.rs, one boolean definition each, all true.

    Numbers are N: [Uint128] and [Decimal] (in atomics of 10^-18) through checked
    operations that panic beyond 128 bits, [u64] likewise (the release profile has
    overflow checks on).  Loops over a list are structural.  The two loops of
    [process_withdraw_rate] run with fuel (size of the history + 1) and the loop of
    [pick_validator] with fuel (number of delegations + 1); HubWithdrawFacts.v and
    HubUnbondFacts.v prove that this fuel never runs out, and Termination.v that no
    entry point does.

    ** The theorems

    Facts about each component are in the files named after it (HubStateFacts.v,
    HubCoreFacts.v, HubBondFacts.v, HubUnbondFacts.v, HubAdminFacts.v,
    HubWithdrawFacts.v, HubWhitelist.v, HubHistory.v, BignumberFacts.v).  Frame
    conditions - which part of the store an operation leaves alone - are proved by
    the tactic [solve_keeps] over the hint database [keeps], what a handler returns
    by [solve_returns]; all are at the end of this file.  HubInvariant.v has the
    invariant of the unbonding ledger for all reachable stores, HubTypes.v the
    machine types of all stored numbers (hint database [widths]), HubPayments.v the
    effect of a withdrawal, HubSolvency.v solvency, HubProgress.v when a withdrawal
    cannot fail, HubUnbondProgress.v and HubBondProgress.v (on HubWorking.v) when an
    unbonding request and a payment cannot.

    Three compositions close the system around the hub.  Chain.v puts it on a chain
    whose bank and staking modules carry out its messages and answer its queries;
    users, the token and validators call it with anything, send it coins and may be
    slashed.  What the chain model assumes: a message's coins are credited before
    the handler runs, undelegated coins arrive later as any others, a message that
    spends more than there is aborts, and coins that the hub sends to itself count
    as sent.  ChainFacts.v has the effect of every handler on coins and stake,
    ChainRuns.v the invariants of all runs, ChainProgress.v the payment of claims.
    Backing.v composes the hub with its token, whose supply its messages change.
    ChainScenario.v has concrete runs of both.

    System.v runs whole transactions of both contracts: [dispatch] is the chain's
    queue of messages, which carries out a response's messages in order and those of
    a called contract before the rest, with the bank, staking, the token and both
    contracts; [sys_run] adds calls from outside, migrations, arriving coins,
    slashing and the token's own burns.  Assumed: staking rewards arrive at the
    rewards contract, in any amount (what validators pay on withdrawals is recorded,
    so that theorems can speak of it); only completed transactions are steps, as a
    failed one leaves no trace; the withdraw shares fit and rewards are not
    compounded onto an empty bond ([fair]).  In Chain.v and Backing.v the messages
    of a response take effect at once: SystemFacts.v and SystemRuns.v show that this
    is sound, every run of the system being a run of both.  Compounding.v computes
    what the transaction of UpdateGlobalIndex does across the contracts;
    SystemProgress.v and CompoundProgress.v show when the transactions of a payment,
    an unbonding request and UpdateGlobalIndex are carried out to the end.
    SystemScenario.v has an executable chain, proved to be one of System.v's, and a
    run on it.

    Book.v is the abstract specification of unbonding, a claim book without
    storage, keys or loops, with its accounting law; HubRefinement.v reads the
    book out of a store ([book_of]) and the book's event out of an executed
    message ([event_of]), and shows that every successful message is a step of the
    book.  The law of the book is thereby a law of the contract, and of the coins
    its bank messages send ([sent]).

    The properties themselves are in the Prop files, each with a witness:

    - PropChain.v: on a chain the hub is solvent, its bond follows its stake, the
      token is backed by the bond, and when claims get paid, slashed or not
      (liveness);
    - PropSystem.v: the same safety for transactions of both contracts; what the
      compounding transaction does; when it, an unbonding request (also at the end of
      an epoch) and a payment go through; that every entry point terminates;
    - PropTypes.v: no number leaves its machine type;
    - PropLedger.v: the ledger invariant, the hub can always pay;
    - PropRefinement.v: the contract implements the claim book; what was sent to a
      user and is owed adds up to what the requests are worth;
    - PropWithdraw.v: what a release and a withdrawal do, no double payment, the
      unbonding period, and three ways the code goes wrong (a small
      surplus or a batch worth nothing blocks withdrawals; early coins are forgotten);
    - PropUnbond.v: both ends of an unbonding request, exact undelegation, fees;
    - PropBond.v: bonding, the division, slashing, compounding, the peg; how
      burned tokens and a stale rate block bonding and unbonding;
    - PropAdmin.v: pause switch, administrator, configuration, whitelist,
      instantiation, migration;
    - PropStorage.v: wait list, requests, pagination, the withdrawable query;
    - PropRewards.v: the rewards contract, and the two contracts together;
    - PropBignumber.v: text round trip, exact reading, the helpers of math.rs.

    ** Not modelled

    JSON encoding of messages and of stored values (values are kept decoded; only
    the encoding of keys matters to the code and is a parameter); response
    attributes are kept but not printed; mock_querier.rs (commented out), schema
    examples.  Gas and the submessage protocol are the chain's. *)
From stdpp Require Export base list sorting gmap strings.
From Stdlib Require Export NArith Lia.

#[global] Open Scope N_scope.

(** ** Errors and outcomes

    [StdError] is cosmwasm_std's error type, with the variants that the program
    builds or propagates.  An [outcome] is the result of running Rust code that
    returns [StdResult<A>]: a value, an error value, or a panic (an [unwrap] of
    an error, an arithmetic overflow, an out of range draw).  [OutOfFuel] is the
    only artefact of the model: the value of a loop whose fuel ran out. *)

Inductive StdError :=
  | GenericErr (msg : string)
  | NotFound (kind : string)
  | OverflowErr
  | ParseErr (target : string)
  | HostErr.

#[global] Instance StdError_eq_dec : EqDecision StdError.
Proof. solve_decision. Defined.

Inductive outcome (A : Type) :=
  | Ok (a : A)
  | Err (e : StdError)
  | Panic
  | OutOfFuel.
Arguments Ok {_} _.
Arguments Err {_} _.
Arguments Panic {_}.
Arguments OutOfFuel {_}.

#[global] Instance outcome_ret : MRet outcome := @Ok.
#[global] Instance outcome_bind : MBind outcome := λ A B f m,
  match m with
  | Ok a => f a
  | Err e => Err e
  | Panic => Panic
  | OutOfFuel => OutOfFuel
  end.

Definition is_ok {A} (o : outcome A) : bool :=
  match o with Ok _ => true | _ => false end.

(** [r.unwrap()] and [r.expect(..)] on a [Result]. *)
Definition unwrap {A} (o : outcome A) : outcome A :=
  match o with Err _ => Panic | _ => o end.

(** [o.unwrap()] and [o.expect(..)] on an [Option]. *)
Definition unwrap_option {A} (o : option A) : outcome A :=
  match o with Some a => Ok a | None => Panic end.

(** [r.unwrap_or_default()] : an error is replaced, a panic is not. *)
Definition unwrap_or {A} (d : A) (o : outcome A) : outcome A :=
  match o with Err _ => Ok d | _ => o end.

(** [if let Ok(a) = r] : the error is observed, a panic is not. *)
Definition try_ok {A} (o : outcome A) : outcome (option A) :=
  match o with
  | Ok a => Ok (Some a)
  | Err _ => Ok None
  | Panic => Panic
  | OutOfFuel => OutOfFuel
  end.

(** [o.ok_or_else(|| e)] *)
Definition ok_or {A} (e : StdError) (o : option A) : outcome A :=
  match o with Some a => Ok a | None => Err e end.

(** [if b { return Err(e) }] *)
Definition fail_if (b : bool) (e : StdError) : outcome () :=
  if b then Err e else Ok ().

(** ** The contract monad

    A handler takes the contract's store and returns its value with the new
    store.  A handler that does not return [Ok] has no store: the chain discards
    the writes of a message that fails. *)
Definition cm (S A : Type) : Type := S → outcome (A * S).

#[global] Instance cm_ret S : MRet (cm S) := λ A a s, Ok (a, s).
#[global] Instance cm_bind S : MBind (cm S) := λ A B f m s,
  match m s with
  | Ok (a, s') => f a s'
  | Err e => Err e
  | Panic => Panic
  | OutOfFuel => OutOfFuel
  end.

(** Code that touches no storage, code that only reads it ([&dyn Storage]), and
    a write. *)
Definition lift {S A} (o : outcome A) : cm S A := λ s, a ← o; Ok (a, s).
Definition reads {S A} (f : S → outcome A) : cm S A := λ s, a ← f s; Ok (a, s).
Definition writes {S} (f : S → S) : cm S () := λ s, Ok ((), f s).
#[global] Arguments cm_bind : simpl never.
#[global] Arguments lift : simpl never.
#[global] Arguments reads : simpl never.
#[global] Arguments writes : simpl never.

(** ** Inverting successful runs *)
Ltac solve_ok :=
  repeat match goal with
    | |- _ ↔ _ => split
    | |- _ → _ => intros
    | H : _ ∧ _ |- _ => destruct H
    | H : _ ∨ _ |- _ => destruct H
    | H : ∃ _, _ |- _ => destruct H
    end; simplify_eq; eauto 10.

Section bind_lemmas.
  Context {S : Type}.

Lemma outcome_bind_ok {A B} (m : outcome A) (f : A → outcome B) b :
  m ≫= f = Ok b ↔ ∃ a, m = Ok a ∧ f a = Ok b.
Proof. unfold mbind, outcome_bind. destruct m; solve_ok. Qed.

Lemma cm_bind_ok {A B} (m : cm S A) (f : A → cm S B) s r :
  (m ≫= f) s = Ok r ↔ ∃ a s1, m s = Ok (a, s1) ∧ f a s1 = Ok r.
Proof. unfold mbind, cm_bind. destruct (m s) as [[??]| | |]; solve_ok. Qed.

Lemma cm_ret_ok {A} (a : A) (s : S) r :
  (mret a : cm S A) s = Ok r ↔ r = (a, s).
Proof. unfold mret, cm_ret. solve_ok. Qed.

Lemma lift_ok {A} (o : outcome A) (s : S) r :
  lift o s = Ok r ↔ ∃ a, o = Ok a ∧ r = (a, s).
Proof. unfold lift. rewrite outcome_bind_ok. solve_ok. Qed.

Lemma reads_ok {A} (f : S → outcome A) (s : S) r :
  reads f s = Ok r ↔ ∃ a, f s = Ok a ∧ r = (a, s).
Proof. unfold reads. rewrite outcome_bind_ok. solve_ok. Qed.

Lemma writes_ok (f : S → S) (s : S) r : writes f s = Ok r ↔ r = ((), f s).
Proof. unfold writes. solve_ok. Qed.

Lemma lift_bind_ok {A B} (o : outcome A) (f : A → cm S B) s r :
  (lift o ≫= f) s = Ok r ↔ ∃ a, o = Ok a ∧ f a s = Ok r.
Proof. rewrite cm_bind_ok. setoid_rewrite lift_ok. solve_ok. Qed.

Lemma reads_bind_ok {A B} (g : S → outcome A) (f : A → cm S B) s r :
  (reads g ≫= f) s = Ok r ↔ ∃ a, g s = Ok a ∧ f a s = Ok r.
Proof. rewrite cm_bind_ok. setoid_rewrite reads_ok. solve_ok. Qed.

Lemma writes_bind_ok {B} (g : S → S) (f : () → cm S B) s r :
  (writes g ≫= f) s = Ok r ↔ f () (g s) = Ok r.
Proof. rewrite cm_bind_ok. setoid_rewrite writes_ok. solve_ok. Qed.

(** Running out of fuel, effect by effect. *)
Lemma cm_bind_fuel {A B} (m : cm S A) (f : A → cm S B) s :
  m s ≠ OutOfFuel → (∀ a s1, m s = Ok (a, s1) → f a s1 ≠ OutOfFuel) →
  (m ≫= f) s ≠ OutOfFuel.
Proof. unfold mbind, cm_bind. destruct (m s) as [[??]| | |]; auto. Qed.

Lemma lift_bind_fuel {A B} (o : outcome A) (f : A → cm S B) s :
  o ≠ OutOfFuel → (∀ a, o = Ok a → f a s ≠ OutOfFuel) →
  (lift o ≫= f) s ≠ OutOfFuel.
Proof. unfold mbind, cm_bind, lift. destruct o; simpl; auto. Qed.

Lemma reads_bind_fuel {A B} (g : S → outcome A) (f : A → cm S B) s :
  g s ≠ OutOfFuel → (∀ a, g s = Ok a → f a s ≠ OutOfFuel) →
  (reads g ≫= f) s ≠ OutOfFuel.
Proof. unfold mbind, cm_bind, reads. destruct (g s); simpl; auto. Qed.

Lemma unwrap_ok {A} (o : outcome A) a : unwrap o = Ok a ↔ o = Ok a.
Proof. destruct o; simpl; solve_ok. Qed.

Lemma unwrap_option_ok {A} (o : option A) a :
  unwrap_option o = Ok a ↔ o = Some a.
Proof. destruct o; simpl; solve_ok. Qed.

Lemma ok_or_ok {A} e (o : option A) a : ok_or e o = Ok a ↔ o = Some a.
Proof. destruct o; simpl; solve_ok. Qed.

Lemma unwrap_or_ok {A} d (o : outcome A) a :
  unwrap_or d o = Ok a ↔ o = Ok a ∨ (∃ e, o = Err e) ∧ a = d.
Proof. destruct o; simpl; solve_ok. Qed.

Lemma try_ok_ok {A} (o : outcome A) r :
  try_ok o = Ok r ↔
  (∃ a, o = Ok a ∧ r = Some a) ∨ ((∃ e, o = Err e) ∧ r = None).
Proof. destruct o; simpl; solve_ok. Qed.

Lemma fail_if_ok b e u : fail_if b e = Ok u ↔ b = false.
Proof. destruct b, u; simpl; solve_ok. Qed.
End bind_lemmas.

(** [inv_ok] turns a hypothesis "this code returned [Ok]" into the facts its
    parts established: one named hypothesis per effect, substituted values. *)
Ltac inv_ok_step :=
  match goal with
  | H : Ok _ = Ok _ |- _ => injection H as H; subst
  | H : (_, _) = (_, _) |- _ => injection H as H; subst
  | H : (_ ≫= _) ?s = Ok _ |- _ => apply cm_bind_ok in H as (? & ? & ? & H)
  | H : _ ≫= _ = Ok _ |- _ => apply outcome_bind_ok in H as (? & ? & H)
  | H : mret _ _ = Ok _ |- _ => apply cm_ret_ok in H
  | H : lift _ _ = Ok _ |- _ => apply lift_ok in H as (? & ? & H)
  | H : reads _ _ = Ok _ |- _ => apply reads_ok in H as (? & ? & H)
  | H : writes _ _ = Ok _ |- _ => apply writes_ok in H
  | H : unwrap _ = Ok _ |- _ => apply unwrap_ok in H
  | H : unwrap_option _ = Ok _ |- _ => apply unwrap_option_ok in H
  | H : ok_or _ _ = Ok _ |- _ => apply ok_or_ok in H
  | H : fail_if _ _ = Ok _ |- _ => apply fail_if_ok in H
  | H : Err _ = Ok _ |- _ => discriminate H
  | H : Panic = Ok _ |- _ => discriminate H
  | H : OutOfFuel = Ok _ |- _ => discriminate H
  | H : _ = (_, _) |- _ => progress (injection H as H || subst)
  | u : () |- _ => destruct u
  end.
Ltac inv_ok := repeat (inv_ok_step; simpl in *; subst).

(** Stepping through a run by hand, with names: [bind H as x Hx] opens the first
    effect of the sequence that [H] says returned [Ok]. *)
Tactic Notation "bind" hyp(H) "as" ident(x) ident(Hx) :=
  lazymatch type of H with
  | (lift _ ≫= _) _ = _ => apply lift_bind_ok in H as (x & Hx & H)
  | (reads _ ≫= _) _ = _ => apply reads_bind_ok in H as (x & Hx & H)
  | _ ≫= _ = _ => apply outcome_bind_ok in H as (x & Hx & H)
  end; simpl in H.
Tactic Notation "bind" hyp(H) "as" ident(x) ident(s) ident(Hx) :=
  apply cm_bind_ok in H as (x & s & Hx & H); simpl in H.
Tactic Notation "bind" hyp(H) := apply writes_bind_ok in H; simpl in H.

(** ** 64-bit integers

    Release builds set [overflow-checks = true]: a [u64] operation that leaves
    the range panics. *)
Definition u64_bound : N := 2 ^ 64.
Definition u64_add (a b : N) : outcome N :=
  if a + b <? u64_bound then Ok (a + b) else Panic.
Definition u64_sub (a b : N) : outcome N :=
  if b <=? a then Ok (a - b) else Panic.

Lemma u64_add_ok a b c : u64_add a b = Ok c ↔ c = a + b ∧ a + b < u64_bound.
Proof. unfold u64_add. destruct (N.ltb_spec (a + b) u64_bound); solve_ok; lia. Qed.

Lemma u64_sub_ok a b c : u64_sub a b = Ok c ↔ c = a - b ∧ b ≤ a.
Proof. unfold u64_sub. destruct (N.leb_spec b a); solve_ok; lia. Qed.

(** ** Loops that stop early on an error *)
Fixpoint fold_o {A B} (f : B → A → outcome B) (l : list A) (b : B) : outcome B :=
  match l with
  | [] => Ok b
  | a :: l' => b' ← f b a; fold_o f l' b'
  end.

Lemma fold_o_app {A B} (f : B → A → outcome B) l1 l2 b :
  fold_o f (l1 ++ l2) b = (fold_o f l1 b ≫= fold_o f l2).
Proof.
  revert b; induction l1 as [|a l1 IH]; intros b; simpl; [done|].
  destruct (f b a); simpl; auto.
Qed.

(** ** Sums over the values of a map *)
Section map_sum.
  Context `{Countable K} {A : Type}.
  Implicit Types (m : gmap K A) (f : A → N).

Definition map_sum f m : N := map_fold (λ _ a acc, f a + acc) 0 m.

Lemma map_sum_empty f : map_sum f ∅ = 0.
Proof. apply map_fold_empty. Qed.

Lemma map_sum_insert_new f m k a :
  m !! k = None → map_sum f (<[k:=a]> m) = f a + map_sum f m.
Proof.
  intros Hk. unfold map_sum.
  rewrite map_fold_insert_L; [done| |done]. intros; lia.
Qed.

Lemma map_sum_delete f m k a :
  m !! k = Some a → map_sum f m = f a + map_sum f (delete k m).
Proof.
  intros Hk. rewrite <- (insert_id m k a) at 1 by done.
  rewrite <- (insert_delete_eq m k a), map_sum_insert_new;
    [done|apply lookup_delete_eq].
Qed.

Lemma map_sum_lookup_le f m k a : m !! k = Some a → f a ≤ map_sum f m.
Proof. intros Hk. rewrite (map_sum_delete _ _ _ _ Hk). lia. Qed.

(** Overwriting one entry moves the sum by the difference. *)
Lemma map_sum_insert f m k a :
  map_sum f (<[k:=a]> m) + from_option f 0 (m !! k) = map_sum f m + f a.
Proof.
  destruct (m !! k) as [b|] eqn:Hk; simpl.
  - rewrite (map_sum_delete f m k b Hk), <- insert_delete_eq.
    rewrite map_sum_insert_new by apply lookup_delete_eq. lia.
  - rewrite map_sum_insert_new by done. lia.
Qed.

Lemma map_sum_ext f g m :
  (∀ k a, m !! k = Some a → f a = g a) → map_sum f m = map_sum g m.
Proof.
  induction m as [|k a m Hk IH] using map_ind; intros Hfg.
  - by rewrite !map_sum_empty.
  - rewrite !map_sum_insert_new by done.
    rewrite (Hfg k a) by apply lookup_insert_eq.
    rewrite IH; [done|]. intros k' a' Hk'. apply (Hfg k').
    by rewrite lookup_insert_ne by congruence.
Qed.

Lemma map_sum_le f g m :
  (∀ k a, m !! k = Some a → f a ≤ g a) → map_sum f m ≤ map_sum g m.
Proof.
  induction m as [|k a m Hk IH] using map_ind; intros Hfg.
  - by rewrite !map_sum_empty.
  - rewrite !map_sum_insert_new by done.
    pose proof (Hfg k a (lookup_insert_eq _ _ _)).
    enough (map_sum f m ≤ map_sum g m) by lia.
    apply IH. intros k' a' Hk'. apply (Hfg k').
    by rewrite lookup_insert_ne by congruence.
Qed.

Lemma map_sum_zero f m :
  (∀ k a, m !! k = Some a → f a = 0) → map_sum f m = 0.
Proof.
  induction m as [|k a m Hk IH] using map_ind; [intros; apply map_sum_empty|].
  intros Hz. rewrite map_sum_insert_new by done.
  rewrite (Hz k a) by apply lookup_insert_eq. rewrite IH; [done|].
  intros k' a' Hk'. apply (Hz k'). by rewrite lookup_insert_ne by congruence.
Qed.
End map_sum.

(** Sums over lists. *)
Definition sum_of {A} (f : A → N) (l : list A) : N := foldr (λ a acc, f a + acc) 0 l.

Lemma sum_of_app {A} (f : A → N) l1 l2 :
  sum_of f (l1 ++ l2) = sum_of f l1 + sum_of f l2.
Proof. induction l1; simpl; lia. Qed.

Lemma sum_of_perm {A} (f : A → N) l1 l2 : l1 ≡ₚ l2 → sum_of f l1 = sum_of f l2.
Proof. induction 1; simpl; lia. Qed.

Lemma sum_of_le {A} (f g : A → N) l :
  (∀ a, a ∈ l → f a ≤ g a) → sum_of f l ≤ sum_of g l.
Proof.
  induction l as [|a l IH]; intros Hfg; simpl; [lia|].
  assert (f a ≤ g a) by (apply Hfg; left).
  enough (sum_of f l ≤ sum_of g l) by lia. apply IH. intros b ?. apply Hfg. by right.
Qed.

Lemma sum_of_ext {A} (f g : A → N) l :
  (∀ a, a ∈ l → f a = g a) → sum_of f l = sum_of g l.
Proof. intros Hfg. apply N.le_antisymm; apply sum_of_le; intros a Ha; by rewrite Hfg. Qed.

Lemma sum_of_add {A} (f g : A → N) l :
  sum_of (λ a, f a + g a) l = sum_of f l + sum_of g l.
Proof. induction l; simpl; lia. Qed.

Lemma sum_of_zero {A} (f : A → N) l : (∀ a, a ∈ l → f a = 0) → sum_of f l = 0.
Proof.
  induction l as [|a l IH]; intros Hz; simpl; [done|].
  rewrite (Hz a) by left. rewrite IH; [done|]. intros b ?. apply Hz. by right.
Qed.

Lemma sum_of_filter {A} (f : A → N) (p : A → bool) l :
  sum_of f (List.filter p l) = sum_of (λ a, if p a then f a else 0) l.
Proof. induction l as [|a l IH]; simpl; [done|]. destruct (p a); simpl; lia. Qed.

Lemma sum_of_fmap {A B} (f : B → N) (g : A → B) l :
  sum_of f (g <$> l) = sum_of (λ a, f (g a)) l.
Proof. induction l; csimpl; lia. Qed.

Lemma sum_of_elem {A} (f : A → N) l a : a ∈ l → f a ≤ sum_of f l.
Proof. induction 1; simpl; lia. Qed.

(** Terms outside a sublist that are all zero do not count. *)
Lemma sum_of_subset {A} `{EqDecision A} (f : A → N) l l' :
  NoDup l → NoDup l' → l' ⊆ l → (∀ a, a ∈ l → a ∉ l' → f a = 0) →
  sum_of f l = sum_of f l'.
Proof.
  intros Hl Hl' Hsub Hz.
  assert (l' ⊆+ l) as [k Hk]%submseteq_Permutation by by apply NoDup_submseteq.
  rewrite (sum_of_perm f _ _ Hk), sum_of_app, (sum_of_zero f k); [lia|].
  rewrite Hk in Hl. apply NoDup_app in Hl as (_ & Hdisj & _).
  intros a Ha. apply Hz; [rewrite Hk; apply elem_of_app; by right|].
  intros Ha'. by apply (Hdisj a).
Qed.

Lemma sum_of_Forall2_le {A B} (f : A → N) (g : B → N) l k :
  Forall2 (λ a b, f a ≤ g b) l k → sum_of f l ≤ sum_of g k.
Proof. induction 1; simpl; lia. Qed.

Lemma Forall_choice {A B} (R : A → B → Prop) l :
  Forall (λ a, ∃ b, R a b) l → ∃ k, Forall2 R l k.
Proof.
  induction 1 as [|a l [b Hb] _ [k Hk]]; [by exists []|]. exists (b :: k). by constructor.
Qed.

(** Sums of the floors of proportional shares. *)
Lemma div_add_le a b d : a / d + b / d ≤ (a + b) / d.
Proof.
  destruct (decide (d = 0)) as [->|Hd]; [by rewrite !N.div_0_r|].
  apply N.div_le_lower_bound; [done|]. rewrite N.mul_add_distr_l.
  pose proof (N.Div0.mul_div_le a d). pose proof (N.Div0.mul_div_le b d). lia.
Qed.

Lemma map_sum_floor `{Countable K} {A} (f : A → N) r d (m : gmap K A) :
  map_sum (λ a, f a * r / d) m ≤ map_sum f m * r / d.
Proof.
  induction m as [|k a m Hk IH] using map_ind; [by rewrite !map_sum_empty|].
  rewrite !map_sum_insert_new by done. rewrite N.mul_add_distr_r.
  etransitivity; [|apply div_add_le]. lia.
Qed.

(** ** The numbers 1 .. n *)
Definition upto (n : N) : list N := N.of_nat <$> seq 1 (N.to_nat n).

Lemma elem_of_upto n i : i ∈ upto n ↔ 1 ≤ i ≤ n.
Proof.
  unfold upto. rewrite list_elem_of_fmap. setoid_rewrite elem_of_seq. split.
  - intros (k & -> & ?). lia.
  - intros ?. exists (N.to_nat i). lia.
Qed.

Lemma NoDup_upto n : NoDup (upto n).
Proof. apply NoDup_fmap_2; [apply _|apply NoDup_seq]. Qed.

(** ** Frames: what a run leaves alone

    [keeps R m] says that a successful run of [m] relates the stores before and
    after by [R].  For a preorder [R] the rules below follow the code's
    structure; the hint database [keeps] collects them with the components'
    lemmas about their operations. *)
Definition keeps {S A} (R : relation S) (m : cm S A) : Prop :=
  ∀ s a s', m s = Ok (a, s') → R s s'.

Create HintDb keeps discriminated.

Section keeps.
  Context {S : Type} (R : relation S) {HR : PreOrder R}.

Lemma keeps_ret {A} (a : A) : keeps R (mret a : cm S A).
Proof. intros s x s' Hrun. apply cm_ret_ok in Hrun. by simplify_eq. Qed.
Lemma keeps_lift {A} (o : outcome A) : keeps R (lift o).
Proof. intros s x s' Hrun. apply lift_ok in Hrun as (? & ? & ?). by simplify_eq. Qed.
Lemma keeps_reads {A} (f : S → outcome A) : keeps R (reads f).
Proof. intros s x s' Hrun. apply reads_ok in Hrun as (? & ? & ?). by simplify_eq. Qed.
Lemma keeps_bind {A B} (m : cm S A) (f : A → cm S B) :
  keeps R m → (∀ a, keeps R (f a)) → keeps R (m ≫= f).
Proof.
  intros Hm Hf s b s' Hrun. apply cm_bind_ok in Hrun as (a & s1 & Ha & Hb).
  transitivity s1; [by apply (Hm s a)|by apply (Hf a s1 b)].
Qed.
Lemma keeps_writes (f : S → S) : (∀ s, R s (f s)) → keeps R (writes f).
Proof. intros Hf s x s' Hrun. apply writes_ok in Hrun. by simplify_eq. Qed.
End keeps.
#[export] Hint Resolve keeps_ret keeps_lift keeps_reads : keeps.

(** The frame most lemmas state: a part [π] of the store has not changed. *)
Definition preserves {S B} (π : S → B) : relation S := λ s s', π s' = π s.

#[global] Instance preserves_preorder {S B} (π : S → B) : PreOrder (preserves π).
Proof. split; unfold preserves; [by intros s|]. intros s1 s2 s3 ??. congruence. Qed.

#[export] Hint Extern 1 (keeps (preserves _) (writes _)) =>
  apply keeps_writes; intros ?; reflexivity : keeps.

(** [solve_keeps] follows the code; a write is left to the database, or to a
    proof of reflexivity after unfolding the relation. *)
Ltac solve_keeps :=
  repeat first
    [ solve [eauto with keeps typeclass_instances]
    | apply keeps_bind; [apply _| |intros ?]
    | match goal with |- ∀ _, _ => intros ? end
    | match goal with |- keeps _ (match ?x with _ => _ end) => destruct x end
    | match goal with |- keeps _ ((match ?x with _ => _ end) ≫= _) => destruct x end ].

(** ** What a run returns

    [returns P m]: the value of every successful run satisfies [P]. *)
Definition returns {S A} (P : A → Prop) (m : cm S A) : Prop :=
  ∀ s a s', m s = Ok (a, s') → P a.

Lemma returns_bind {S A B} (P : B → Prop) (m : cm S A) f :
  (∀ a, returns P (f a)) → returns P (m ≫= f).
Proof. intros Hf s b s' (a & s1 & _ & Hb)%cm_bind_ok. by eapply Hf. Qed.
Lemma returns_ret {S A} (P : A → Prop) a : P a → returns P (mret a : cm S A).
Proof. intros Ha s b s' [= -> ->]%cm_ret_ok. done. Qed.
Lemma returns_lift {S A} (P : A → Prop) o :
  (∀ a, o = Ok a → P a) → returns P (lift o : cm S A).
Proof. intros Ho s a s' (a' & Ha & [= -> ->])%lift_ok. by apply Ho. Qed.

(** [solve_returns tac] follows the code to the values returned and leaves them to
    [tac]. *)
Ltac solve_returns tac :=
  repeat first
    [ apply returns_bind; intros ?
    | apply returns_ret; solve [tac]
    | apply returns_lift; discriminate
    | match goal with |- returns _ (match ?x with _ => _ end) => destruct x end ].
