(* ===== verification/Bytes.v ===== *)
(** * Byte strings: storage keys

    Keys of the contract's storage are byte strings compared lexicographically.
    This file has that order, Rust's [u64::to_be_bytes], and the fact the
    pagination of the unbonding history rests on: big-endian encoding turns the
    order of numbers into the order of keys. *)
From S2P Require Import Prelude.

Definition bytes : Type := list N.

(** ** Lexicographic order *)
Fixpoint bytes_lt (a b : bytes) : bool :=
  match a, b with
  | _, [] => false
  | [], _ :: _ => true
  | x :: a', y :: b' => (x <? y) || ((x =? y) && bytes_lt a' b')
  end.

Lemma bytes_lt_irrefl a : bytes_lt a a = false.
Proof. induction a as [|x a IH]; simpl; [done|]. rewrite IH, N.ltb_irrefl. by destruct (x =? x). Qed.

Lemma bytes_lt_trans a b c : bytes_lt a b → bytes_lt b c → bytes_lt a c.
Proof.
  revert b c; induction a as [|x a IH]; intros [|y b] [|z c]; simpl; try done.
  destruct (N.ltb_spec x y), (N.ltb_spec y z), (N.ltb_spec x z),
    (N.eqb_spec x y), (N.eqb_spec y z), (N.eqb_spec x z); simpl; try lia; try done.
  apply IH.
Qed.

Lemma bytes_lt_total a b : bytes_lt a b ∨ a = b ∨ bytes_lt b a.
Proof.
  revert b; induction a as [|x a IH]; intros [|y b]; simpl; auto.
  destruct (N.ltb_spec x y), (N.ltb_spec y x), (N.eqb_spec x y), (N.eqb_spec y x);
    simpl; try lia; auto.
  subst. destruct (IH b) as [?|[->|?]]; auto.
Qed.

(** [a < b ++ c] for [a] as long as [b] and [c] not empty is [a <= b]. *)
Lemma bytes_lt_app a b c :
  length a = length b → c ≠ [] →
  bytes_lt a (b ++ c) = bytes_lt a b || bool_decide (a = b).
Proof.
  revert b; induction a as [|x a IH]; intros [|y b] Hlen Hc; simpl in *; try done.
  - by destruct c.
  - rewrite IH by (done || lia).
    destruct (N.ltb_spec x y), (N.eqb_spec x y), (bytes_lt a b); simpl; try done.
    all: repeat case_bool_decide; naive_solver.
Qed.

(** ** Big-endian encoding *)
Fixpoint be_bytes (k : nat) (x : N) : bytes :=
  match k with
  | O => []
  | S k' => x / 256 ^ N.of_nat k' mod 256 :: be_bytes k' x
  end.

(** [u64::to_be_bytes] *)
Definition to_be_bytes (x : N) : bytes := be_bytes 8 x.
#[global] Arguments to_be_bytes : simpl never.

Lemma length_be_bytes k x : length (be_bytes k x) = k.
Proof. induction k; simpl; auto. Qed.

Lemma be_bytes_mod k x y :
  x mod 256 ^ N.of_nat k = y mod 256 ^ N.of_nat k → be_bytes k x = be_bytes k y.
Proof.
  induction k as [|k IH]; simpl be_bytes; [done|]. intros Hxy.
  replace (256 ^ N.of_nat (S k)) with (256 ^ N.of_nat k * 256) in Hxy
    by (rewrite Nat2N.inj_succ, N.pow_succ_r'; lia).
  set (B := 256 ^ N.of_nat k) in *.
  assert (0 < B) by (apply N.neq_0_lt_0, N.pow_nonzero; lia).
  rewrite !N.Div0.mod_mul_r in Hxy.
  pose proof (N.mod_lt x B ltac:(lia)). pose proof (N.mod_lt y B ltac:(lia)).
  destruct (N.div_mod_unique B (x / B mod 256) (y / B mod 256) (x mod B) (y mod B))
    as [-> ?]; [done|done|lia|]. f_equal. by apply IH.
Qed.

Lemma be_bytes_lt k x y :
  x < 256 ^ N.of_nat k → y < 256 ^ N.of_nat k →
  bytes_lt (be_bytes k x) (be_bytes k y) = (x <? y).
Proof.
  revert x y; induction k as [|k IH]; intros x y Hx Hy.
  - simpl in *. symmetry. apply N.ltb_ge. lia.
  - rewrite Nat2N.inj_succ, N.pow_succ_r' in Hx, Hy. simpl be_bytes. simpl bytes_lt.
    set (B := 256 ^ N.of_nat k) in *.
    assert (0 < B) by (apply N.neq_0_lt_0, N.pow_nonzero; lia).
    rewrite !(N.mod_small (_ / B)) by (apply N.Div0.div_lt_upper_bound; lia).
    pose proof (N.mod_lt x B ltac:(lia)). pose proof (N.mod_lt y B ltac:(lia)).
    rewrite (be_bytes_mod k x (x mod B)), (be_bytes_mod k y (y mod B))
      by (subst B; by rewrite N.Div0.mod_mod).
    rewrite IH by lia.
    pose proof (N.Div0.div_mod x B). pose proof (N.Div0.div_mod y B).
    clearbody B. clear IH Hx Hy.
    set (qx := x / B) in *. set (qy := y / B) in *.
    set (rx := x mod B) in *. set (ry := y mod B) in *. clearbody qx qy rx ry.
    destruct (N.lt_trichotomy qx qy) as [Hq|[->|Hq]].
    + assert (B * qx + B ≤ B * qy) by nia.
      rewrite (proj2 (N.ltb_lt qx qy)), (proj2 (N.ltb_lt x y)) by lia. done.
    + rewrite N.ltb_irrefl, N.eqb_refl. simpl.
      destruct (N.ltb_spec rx ry), (N.ltb_spec x y); done || lia.
    + assert (B * qy + B ≤ B * qx) by nia.
      rewrite (proj2 (N.ltb_ge qx qy)), (proj2 (N.eqb_neq qx qy)),
        (proj2 (N.ltb_ge x y)) by lia. done.
Qed.

Lemma to_be_bytes_lt x y :
  x < u64_bound → y < u64_bound → bytes_lt (to_be_bytes x) (to_be_bytes y) = (x <? y).
Proof. intros. by apply be_bytes_lt. Qed.

Lemma to_be_bytes_inj x y :
  x < u64_bound → y < u64_bound → to_be_bytes x = to_be_bytes y → x = y.
Proof.
  intros Hx Hy Heq.
  pose proof (to_be_bytes_lt x y Hx Hy) as H1. pose proof (to_be_bytes_lt y x Hy Hx) as H2.
  rewrite Heq, bytes_lt_irrefl in H1. rewrite Heq, bytes_lt_irrefl in H2.
  symmetry in H1, H2. apply N.ltb_ge in H1, H2. lia.
Qed.

(** ** Sorted key lists *)
Definition keys_sorted (l : list bytes) : Prop := StronglySorted (λ a b, bytes_lt a b) l.

Lemma keys_sorted_NoDup l : keys_sorted l → NoDup l.
Proof.
  induction 1 as [|a l Hs IH Ha]; constructor; [|done].
  intros Hin. rewrite Forall_forall in Ha. specialize (Ha a Hin).
  by rewrite bytes_lt_irrefl in Ha.
Qed.

(** A sorted list is determined by its elements: what makes an iteration over a
    range a function of the stored entries. *)
Lemma keys_sorted_ext l1 l2 :
  keys_sorted l1 → keys_sorted l2 → (∀ k, k ∈ l1 ↔ k ∈ l2) → l1 = l2.
Proof.
  intros Hs1. revert l2; induction Hs1 as [|a l1 Hs1 IH Ha]; intros l2 Hs2 Hin.
  - destruct l2 as [|b l2]; [done|]. exfalso.
    apply (not_elem_of_nil b), Hin. left.
  - destruct Hs2 as [|b l2 Hs2 Hb].
    + exfalso. apply (not_elem_of_nil a), Hin. left.
    + rewrite Forall_forall in Ha, Hb.
      assert (a = b) as ->.
      { destruct (proj1 (elem_of_cons _ _ _) (proj1 (Hin a) ltac:(left))) as [?|H1]; [done|].
        destruct (proj1 (elem_of_cons _ _ _) (proj2 (Hin b) ltac:(left))) as [?|H2]; [done|].
        pose proof (bytes_lt_trans _ _ _ (Ha _ H2) (Hb _ H1)) as Hlt.
        by rewrite bytes_lt_irrefl in Hlt. }
      f_equal. apply IH; [done|]. intros k. specialize (Hin k).
      rewrite !elem_of_cons in Hin.
      split; intros Hk; destruct Hin as [Hin1 Hin2].
      * destruct Hin1 as [->|?]; auto. specialize (Ha _ Hk).
        by rewrite bytes_lt_irrefl in Ha.
      * destruct Hin2 as [->|?]; auto. specialize (Hb _ Hk).
        by rewrite bytes_lt_irrefl in Hb.
Qed.
