(* ===== verification/Cosmwasm.v ===== *)
(** * The host interface

    The contracts call code that is not part of this repository: cosmwasm_std
    (128-bit integers, decimals, addresses, the storage's range iteration, the
    querier), cw_controllers (the administrator), serde's JSON encoding of keys
    and rand's generator.  Each such service is a class of operations, and what
    its documentation promises is a second class of laws.  The contracts are
    defined over the operations; theorems assume the laws; RefHost.v
    has a concrete host that satisfies all of them. *)
From S2P Require Import Prelude Bytes.

(** ** Values *)

(** [Uint128] is a [u128], kept as an [N]; the operations below check its bound. *)
Abbreviation Uint128 := N (only parsing).
Definition u128_bound : N := 2 ^ 128.

(** [Decimal], a fixed-point number given by its atomics: 10^18 atomics are 1. *)
Record Decimal := mkDecimal { atomics : N }.
Definition dec_unit : N := 10 ^ 18.

#[global] Instance Decimal_eq_dec : EqDecision Decimal.
Proof. solve_decision. Defined.

(** A human readable address (also the validated [Addr], a newtype of it) and a
    canonical one (raw bytes). *)
Abbreviation Addr := string (only parsing).
Definition CanonicalAddr : Type := bytes.

Record Coin := mkCoin { denom : string; amount : Uint128 }.
#[global] Instance Coin_eq_dec : EqDecision Coin.
Proof. solve_decision. Defined.

(** [Env]: block height, block time in seconds, the contract's address. *)
Record Env := mkEnv {
  block_height : N;
  block_time : N;
  contract_address : Addr;
}.

Record MessageInfo := mkInfo { sender : Addr; funds : list Coin }.

(** [Delegation] and [FullDelegation], with the fields the program reads. *)
Record Delegation := mkDelegation { validator : string; del_amount : Coin }.
Record Validator := mkValidator { val_address : string }.
Record TokenInfoResponse := mkTokenInfo { total_supply : Uint128 }.

(** What the chain answers while one message runs. *)
Record Querier := mkQuerier {
  query_all_delegations : Addr → outcome (list Delegation);
  query_delegation : Addr → string → outcome (option Delegation);
  query_all_validators : outcome (list Validator);
  query_balance : Addr → string → outcome Coin;
  query_token_info : Addr → outcome TokenInfoResponse;
}.

(** Messages a contract emits; [P] is the type of messages to other contracts. *)
Inductive CosmosMsg (P : Type) :=
  | StakingDelegate (validator : string) (amount : Coin)
  | StakingUndelegate (validator : string) (amount : Coin)
  | StakingRedelegate (src_validator dst_validator : string) (amount : Coin)
  | BankSend (to_address : string) (amount : list Coin)
  | WasmExecute (contract_addr : string) (msg : P) (funds : list Coin)
  | SetWithdrawAddress (address : string)
  | WithdrawDelegatorReward (validator : string).
Arguments StakingDelegate {_} _ _.
Arguments StakingUndelegate {_} _ _.
Arguments StakingRedelegate {_} _ _ _.
Arguments BankSend {_} _ _.
Arguments WasmExecute {_} _ _ _.
Arguments SetWithdrawAddress {_} _.
Arguments WithdrawDelegatorReward {_} _.

(** Values of response attributes, before they are printed. *)
Inductive AttrValue :=
  | AStr (s : string)
  | AUint (u : Uint128)
  | ADec (d : Decimal).

Record Response (P : Type) := mkResponse {
  messages : list (CosmosMsg P);
  attributes : list (string * AttrValue);
}.
Arguments mkResponse {_} _ _.
Arguments messages {_} _.
Arguments attributes {_} _.

(** ** Arithmetic of cosmwasm_std

    [Uint128_mul_Decimal] is both [Uint128 * Decimal] and [Decimal * Uint128]. *)
Class Math := {
  Uint128_add : Uint128 → Uint128 → outcome Uint128;
  Uint128_checked_sub : Uint128 → Uint128 → outcome Uint128;
  Uint128_mul_Decimal : Uint128 → Decimal → outcome Uint128;
  Decimal_from_ratio : Uint128 → Uint128 → outcome Decimal;
  Decimal_add : Decimal → Decimal → outcome Decimal;
  Decimal_one : Decimal;
  Decimal_zero : Decimal;
  Decimal_lt : Decimal → Decimal → bool;
}.

(** The documented behaviour: additions and products panic when they leave 128
    bits, [checked_sub] returns an error, division rounds down, [from_ratio]
    panics on a zero denominator. *)
Class MathSpec (M : Math) : Prop := {
  Uint128_add_spec a b :
    Uint128_add a b = if a + b <? u128_bound then Ok (a + b) else Panic;
  Uint128_checked_sub_spec a b :
    Uint128_checked_sub a b = if b <=? a then Ok (a - b) else Err OverflowErr;
  Uint128_mul_Decimal_spec u d :
    Uint128_mul_Decimal u d =
      if u * atomics d / dec_unit <? u128_bound
      then Ok (u * atomics d / dec_unit) else Panic;
  Decimal_from_ratio_spec n d :
    Decimal_from_ratio n d =
      if d =? 0 then Panic
      else if n * dec_unit / d <? u128_bound
      then Ok (mkDecimal (n * dec_unit / d)) else Panic;
  Decimal_add_spec a b :
    Decimal_add a b =
      if atomics a + atomics b <? u128_bound
      then Ok (mkDecimal (atomics a + atomics b)) else Panic;
  Decimal_one_spec : atomics Decimal_one = dec_unit;
  Decimal_zero_spec : atomics Decimal_zero = 0;
  Decimal_lt_spec a b : Decimal_lt a b = (atomics a <? atomics b);
}.

(** ** Addresses *)
Class Api := {
  addr_validate : string → outcome Addr;
  addr_canonicalize : string → outcome CanonicalAddr;
  addr_humanize : CanonicalAddr → outcome Addr;
}.
(** [addr_humanize] is documented as the inverse of [addr_canonicalize];
    [addr_validate] returns its input. *)
Class ApiSpec (A : Api) : Prop := {
  addr_validate_spec a b : addr_validate a = Ok b → b = a;
  addr_humanize_canonicalize a c : addr_canonicalize a = Ok c → addr_humanize c = Ok a;
  addr_canonicalize_humanize a c : addr_humanize c = Ok a → addr_canonicalize a = Ok c;
}.

(** ** The administrator of cw_controllers

    The slot is the stored item: absent, or an optional address. *)
Definition AdminSlot : Type := option (option Addr).
Inductive AdminError := NotAdmin | AdminStd (e : StdError).

Class AdminCtl := {
  admin_get : AdminSlot → outcome (option Addr);
  admin_set : AdminSlot → option Addr → outcome AdminSlot;
  admin_assert : AdminSlot → Addr → AdminError + ();
  admin_execute_update :
    AdminSlot → MessageInfo → option Addr →
    AdminError + (AdminSlot * list (string * string));
}.
Class AdminSpec (A : AdminCtl) : Prop := {
  admin_get_spec o : admin_get (Some o) = Ok o;
  admin_get_none : ∃ e, admin_get None = Err e;
  admin_set_spec slot o : admin_set slot o = Ok (Some o);
  admin_assert_spec slot a : admin_assert slot a = inr () ↔ slot = Some (Some a);
  admin_assert_not_admin o a : o ≠ Some a → admin_assert (Some o) a = inl NotAdmin;
  admin_execute_update_ok slot info new :
    admin_assert slot (sender info) = inr () →
    ∃ attrs, admin_execute_update slot info new = inr (Some new, attrs);
  admin_execute_update_err slot info new e :
    admin_assert slot (sender info) = inl e → admin_execute_update slot info new = inl e;
}.

(** ** JSON encoding of storage keys *)
Class Serde := {
  u64_to_vec : N → outcome bytes;
  u64_from_slice : bytes → outcome N;
  string_to_vec : string → outcome bytes;
  string_from_slice : bytes → outcome string;
}.
Class SerdeSpec (S : Serde) : Prop := {
  u64_roundtrip x :
    x < u64_bound → ∃ k, u64_to_vec x = Ok k ∧ u64_from_slice k = Ok x;
  string_roundtrip a :
    ∃ k, string_to_vec a = Ok k ∧ string_from_slice k = Ok a;
}.

(** ** Range iteration over storage, ascending

    [kv_range m start] lists the entries of a (prefixed) key space with key at
    least [start], in increasing order of keys. *)
Class Kv := {
  kv_range : ∀ {V : Type}, gmap bytes V → option bytes → list (bytes * V);
}.
Definition key_from (start : option bytes) (k : bytes) : bool :=
  match start with None => true | Some b => negb (bytes_lt k b) end.
Class KvSpec (K : Kv) : Prop := {
  kv_range_elem {V} (m : gmap bytes V) start k v :
    (k, v) ∈ kv_range m start ↔ m !! k = Some v ∧ key_from start k;
  kv_range_sorted {V} (m : gmap bytes V) start : keys_sorted (kv_range m start).*1;
}.

(** ** Random draws

    [gen_range_from seed n] is [XorShiftRng::seed_from_u64(seed).gen_range(0, n)]:
    a fresh generator, one draw. *)
Class Rng := { gen_range_from : N → nat → outcome nat }.
Class RngSpec (R : Rng) : Prop := {
  gen_range_empty seed : gen_range_from seed 0 = Panic;
  gen_range_in seed n : (0 < n)%nat → ∃ r, gen_range_from seed n = Ok r ∧ (r < n)%nat;
}.

(** ** All of it *)
Class Host := {
  host_math :: Math;
  host_api :: Api;
  host_admin :: AdminCtl;
  host_serde :: Serde;
  host_kv :: Kv;
  host_rng :: Rng;
}.
Class HostSpec (H : Host) : Prop := {
  host_math_spec :: MathSpec host_math;
  host_api_spec :: ApiSpec host_api;
  host_admin_spec :: AdminSpec host_admin;
  host_serde_spec :: SerdeSpec host_serde;
  host_kv_spec :: KvSpec host_kv;
  host_rng_spec :: RngSpec host_rng;
}.

(** ** Consequences of the laws *)
Section math_lemmas.
  Context `{M : Math} {MS : MathSpec M}.

Lemma Uint128_add_ok a b c :
  Uint128_add a b = Ok c ↔ c = a + b ∧ a + b < u128_bound.
Proof. rewrite Uint128_add_spec. destruct (N.ltb_spec (a + b) u128_bound); solve_ok; lia. Qed.

Lemma Uint128_checked_sub_ok a b c :
  Uint128_checked_sub a b = Ok c ↔ c = a - b ∧ b ≤ a.
Proof. rewrite Uint128_checked_sub_spec. destruct (N.leb_spec b a); solve_ok; lia. Qed.

Lemma Uint128_mul_Decimal_ok u d r :
  Uint128_mul_Decimal u d = Ok r ↔
  r = u * atomics d / dec_unit ∧ u * atomics d / dec_unit < u128_bound.
Proof.
  rewrite Uint128_mul_Decimal_spec.
  destruct (N.ltb_spec (u * atomics d / dec_unit) u128_bound); solve_ok; lia.
Qed.

Lemma Decimal_from_ratio_ok n d r :
  Decimal_from_ratio n d = Ok r ↔
  d ≠ 0 ∧ r = mkDecimal (n * dec_unit / d) ∧ n * dec_unit / d < u128_bound.
Proof.
  rewrite Decimal_from_ratio_spec. destruct (N.eqb_spec d 0); [solve_ok; lia|].
  destruct (N.ltb_spec (n * dec_unit / d) u128_bound); solve_ok; lia.
Qed.

Lemma Decimal_add_ok a b r :
  Decimal_add a b = Ok r ↔
  r = mkDecimal (atomics a + atomics b) ∧ atomics a + atomics b < u128_bound.
Proof.
  rewrite Decimal_add_spec.
  destruct (N.ltb_spec (atomics a + atomics b) u128_bound); solve_ok; lia.
Qed.

Lemma Decimal_one_eq : Decimal_one = mkDecimal dec_unit.
Proof. rewrite <- Decimal_one_spec. by destruct Decimal_one. Qed.

(** A product with a decimal of at most 1 does not exceed the integer. *)
Lemma Uint128_mul_Decimal_le_one u d r :
  atomics d ≤ dec_unit → Uint128_mul_Decimal u d = Ok r → r ≤ u.
Proof.
  intros Hd [-> _]%Uint128_mul_Decimal_ok.
  apply N.Div0.div_le_upper_bound. rewrite (N.mul_comm dec_unit). by apply N.mul_le_mono_l.
Qed.
End math_lemmas.

(** [inv_cw] is [inv_ok] that also opens the host's arithmetic. *)
Ltac inv_cw_step :=
  match goal with
  | H : Uint128_add _ _ = Ok _ |- _ => apply Uint128_add_ok in H as [? ?]
  | H : Uint128_checked_sub _ _ = Ok _ |- _ => apply Uint128_checked_sub_ok in H as [? ?]
  | H : Uint128_mul_Decimal _ _ = Ok _ |- _ => apply Uint128_mul_Decimal_ok in H as [? ?]
  | H : Decimal_from_ratio _ _ = Ok _ |- _ => apply Decimal_from_ratio_ok in H as (? & ? & ?)
  | H : Decimal_add _ _ = Ok _ |- _ => apply Decimal_add_ok in H as [? ?]
  | H : u64_add _ _ = Ok _ |- _ => apply u64_add_ok in H as [? ?]
  | H : u64_sub _ _ = Ok _ |- _ => apply u64_sub_ok in H as [? ?]
  | _ => inv_ok_step
  end.
Ltac inv_cw := repeat (inv_cw_step; simpl in *; subst).

Section serde_lemmas.
  Context `{S : Serde} {SS : SerdeSpec S}.

Lemma u64_to_vec_inj x y k :
  x < u64_bound → y < u64_bound → u64_to_vec x = Ok k → u64_to_vec y = Ok k → x = y.
Proof.
  intros Hx Hy Hkx Hky.
  destruct (u64_roundtrip x Hx) as (k1 & ? & ?), (u64_roundtrip y Hy) as (k2 & ? & ?).
  congruence.
Qed.

Lemma string_to_vec_inj a b k :
  string_to_vec a = Ok k → string_to_vec b = Ok k → a = b.
Proof.
  intros Ha Hb.
  destruct (string_roundtrip a) as (k1 & ? & ?), (string_roundtrip b) as (k2 & ? & ?).
  congruence.
Qed.

Lemma u64_from_to x k : x < u64_bound → u64_to_vec x = Ok k → u64_from_slice k = Ok x.
Proof. intros Hx Hk. destruct (u64_roundtrip x Hx) as (k1 & ? & ?). congruence. Qed.

Lemma string_from_to a k : string_to_vec a = Ok k → string_from_slice k = Ok a.
Proof. intros Hk. destruct (string_roundtrip a) as (k1 & ? & ?). congruence. Qed.
End serde_lemmas.

Section kv_lemmas.
  Context `{K : Kv} {KS : KvSpec K} {V : Type}.
  Implicit Types m : gmap bytes V.

Lemma kv_range_keys_NoDup m start : NoDup (kv_range m start).*1.
Proof. apply keys_sorted_NoDup, kv_range_sorted. Qed.

(** Iterating over everything visits each entry once. *)
Lemma kv_range_all m : kv_range m None ≡ₚ map_to_list m.
Proof.
  apply NoDup_Permutation.
  - apply NoDup_fmap_1 with fst. apply kv_range_keys_NoDup.
  - apply NoDup_map_to_list.
  - intros [k v]. rewrite kv_range_elem, elem_of_map_to_list. by split; [intros [? _]|].
Qed.
End kv_lemmas.
