(* ===== verification/RefHost.v ===== *)
(** * A concrete host

    A host that computes and satisfies every law of Cosmwasm.v: the laws are
    consistent, and the theorems can be evaluated on concrete messages. *)
From Stdlib Require String.
From Stdlib Require Import Ascii.
From Stdlib Require Import DecimalString DecimalN.
From Stdlib Require DecimalPos.
From S2P Require Import Prelude Bytes Cosmwasm.

(** ** Strings as bytes *)
Definition bytes_of_string (s : string) : bytes := N_of_ascii <$> String.list_ascii_of_string s.
Definition string_of_bytes (b : bytes) : string := String.string_of_list_ascii (ascii_of_N <$> b).

Lemma string_of_bytes_of_string s : string_of_bytes (bytes_of_string s) = s.
Proof.
  unfold string_of_bytes, bytes_of_string. rewrite <- list_fmap_compose.
  rewrite <- (String.string_of_list_ascii_of_string s) at 2. f_equal.
  rewrite <- (list_fmap_id (String.list_ascii_of_string s)) at 2.
  apply list_fmap_ext. intros i c _. apply ascii_N_embedding.
Qed.

(** ** Arithmetic *)
#[local] Instance ref_math : Math := {|
  Uint128_add a b := if a + b <? u128_bound then Ok (a + b) else Panic;
  Uint128_checked_sub a b := if b <=? a then Ok (a - b) else Err OverflowErr;
  Uint128_mul_Decimal u d :=
    if u * atomics d / dec_unit <? u128_bound
    then Ok (u * atomics d / dec_unit) else Panic;
  Decimal_from_ratio n d :=
    if d =? 0 then Panic
    else if n * dec_unit / d <? u128_bound
    then Ok (mkDecimal (n * dec_unit / d)) else Panic;
  Decimal_add a b :=
    if atomics a + atomics b <? u128_bound
    then Ok (mkDecimal (atomics a + atomics b)) else Panic;
  Decimal_one := mkDecimal dec_unit;
  Decimal_zero := mkDecimal 0;
  Decimal_lt a b := atomics a <? atomics b;
|}.
#[local] Instance ref_math_spec : MathSpec ref_math.
Proof. by split. Qed.

(** ** Addresses: the canonical address is the string's bytes *)
#[local] Instance ref_api : Api := {|
  addr_validate a := Ok a;
  addr_canonicalize a := Ok (bytes_of_string a);
  addr_humanize c :=
    let a := string_of_bytes c in
    if decide (bytes_of_string a = c) then Ok a else Err HostErr;
|}.
#[local] Instance ref_api_spec : ApiSpec ref_api.
Proof.
  split; simpl.
  - by intros a b [= ->].
  - intros a c [= <-]. rewrite string_of_bytes_of_string. by rewrite decide_True.
  - intros a c. case_decide; [|done]. by intros [= <-]; f_equal.
Qed.

(** ** Administrator *)
Definition ref_assert (slot : AdminSlot) (a : Addr) : AdminError + () :=
  match slot with
  | None => inl (AdminStd (NotFound "admin"))
  | Some o => if decide (o = Some a) then inr () else inl NotAdmin
  end.
#[local] Instance ref_admin : AdminCtl := {|
  admin_get slot := match slot with Some o => Ok o | None => Err (NotFound "admin") end;
  admin_set slot o := Ok (Some o);
  admin_assert := ref_assert;
  admin_execute_update slot info new :=
    match ref_assert slot (sender info) with
    | inl e => inl e
    | inr _ => inr (Some new, [("action", "update_admin"); ("sender", sender info)])
    end;
|}.
#[local] Instance ref_admin_spec : AdminSpec ref_admin.
Proof.
  split; simpl; try done.
  - by eexists.
  - intros [o|] a; simpl; [|by split]. case_decide; split; congruence.
  - intros o a Ho. by rewrite decide_False.
  - intros slot info new ->. eauto.
  - intros slot info new e ->. done.
Qed.

(** ** JSON keys: numbers in decimal, strings between quotes *)
Definition ref_u64_to_vec (x : N) : bytes :=
  bytes_of_string (NilZero.string_of_uint (N.to_uint x)).
#[local] Instance ref_serde : Serde := {|
  u64_to_vec x := Ok (ref_u64_to_vec x);
  u64_from_slice k :=
    match NilZero.uint_of_string (string_of_bytes k) with
    | Some d => if N.of_uint d <? u64_bound then Ok (N.of_uint d) else Err (ParseErr "u64")
    | None => Err (ParseErr "u64")
    end;
  string_to_vec a := Ok (34 :: bytes_of_string a ++ [34]);
  string_from_slice k :=
    match k with
    | _ :: k' => Ok (string_of_bytes (removelast k'))
    | [] => Err (ParseErr "String")
    end;
|}.
#[local] Instance ref_serde_spec : SerdeSpec ref_serde.
Proof.
  split; simpl.
  - intros x Hx. eexists. split; [done|]. unfold ref_u64_to_vec.
    rewrite string_of_bytes_of_string, NilZero.usu
      by (destruct x; [done|apply DecimalPos.Unsigned.to_uint_nonnil]).
    rewrite Unsigned.of_to. by rewrite (proj2 (N.ltb_lt _ _)).
  - intros a. eexists. split; [done|]. simpl.
    by rewrite removelast_last, string_of_bytes_of_string.
Qed.

(** ** Range iteration: filter and sort *)
Definition key_le {V} (x y : bytes * V) : Prop := ¬ bytes_lt y.1 x.1.
#[local] Instance key_le_dec {V} : RelDecision (@key_le V).
Proof. intros x y. unfold key_le. apply _. Defined.
#[local] Instance key_le_trans {V} : Transitive (@key_le V).
Proof.
  intros x y z Hxy Hyz Hzx. unfold key_le in *.
  destruct (bytes_lt_total y.1 x.1) as [?|[Heq|?]]; [done|rewrite Heq in *; done|].
  by apply Hyz, (bytes_lt_trans _ x.1).
Qed.
#[local] Instance key_le_total {V} : Total (@key_le V).
Proof.
  intros x y. unfold key_le. destruct (bytes_lt_total x.1 y.1) as [Hxy|[->|Hxy]].
  - left. intros Hyx. pose proof (bytes_lt_trans _ _ _ Hxy Hyx) as H.
    by rewrite bytes_lt_irrefl in H.
  - left. rewrite bytes_lt_irrefl. by intros [].
  - right. intros Hyx. pose proof (bytes_lt_trans _ _ _ Hxy Hyx) as H.
    by rewrite bytes_lt_irrefl in H.
Qed.

Definition ref_range {V} (m : gmap bytes V) (start : option bytes) : list (bytes * V) :=
  merge_sort key_le (filter (λ kv, key_from start kv.1) (map_to_list m)).
#[local] Instance ref_kv : Kv := {| kv_range := @ref_range |}.

Lemma key_le_sorted_lt {V} (l : list (bytes * V)) :
  StronglySorted key_le l → NoDup l.*1 → keys_sorted l.*1.
Proof.
  induction 1 as [|x l Hs IH Hx]; simpl; intros Hnd; [constructor|].
  apply NoDup_cons in Hnd as [Hnin Hnd]. constructor; [by apply IH|].
  rewrite Forall_fmap. rewrite Forall_forall in Hx |- *. intros y Hy. simpl.
  destruct (bytes_lt_total x.1 y.1) as [?|[Heq|?]]; [done| |by destruct (Hx y Hy)].
  destruct Hnin. rewrite Heq. by apply list_elem_of_fmap_2.
Qed.

#[local] Instance ref_kv_spec : KvSpec ref_kv.
Proof.
  split; simpl; unfold ref_range.
  - intros V m start k v. rewrite merge_sort_Permutation, list_elem_of_filter, elem_of_map_to_list.
    simpl. tauto.
  - intros V m start. apply key_le_sorted_lt.
    + apply StronglySorted_merge_sort; apply _.
    + rewrite merge_sort_Permutation. eapply sublist_NoDup; [apply (NoDup_fst_map_to_list m)|].
      apply fmap_sublist, sublist_filter.
Qed.

(** ** Draws *)
#[local] Instance ref_rng : Rng := {|
  gen_range_from seed n :=
    match n with O => Panic | S _ => Ok (N.to_nat (seed mod N.of_nat n)) end;
|}.
#[local] Instance ref_rng_spec : RngSpec ref_rng.
Proof.
  split; [done|]. intros seed [|n] Hn; [lia|]. eexists. split; [done|].
  pose proof (N.mod_lt seed (N.of_nat (S n)) ltac:(lia)). lia.
Qed.

(** ** The host *)
#[export] Instance ref_host : Host := {|
  host_math := ref_math; host_api := ref_api; host_admin := ref_admin;
  host_serde := ref_serde; host_kv := ref_kv; host_rng := ref_rng;
|}.
#[export] Instance ref_host_spec : HostSpec ref_host.
Proof. split; apply _. Qed.
