(* ===== verification/Protocol.v ===== *)
(** * The protocol's data (packages/prism-protocol)

    The messages, stored records and responses of the hub contract (hub.rs) and
    of the rewards contract (rewards.rs), and the one operation hub.rs defines:
    [State::update_exchange_rate]. *)
From S2P Require Import Prelude Bytes Cosmwasm.

(** ** hub.rs: stored records *)
Record Parameters := mkParameters {
  epoch_period : N;
  underlying_coin_denom : string;
  unbonding_period : N;
  peg_recovery_fee : Decimal;
  er_threshold : Decimal;
  protocol_fee : Decimal;
}.

Record CurrentBatch := mkCurrentBatch {
  cb_id : N;
  requested_with_fee : Uint128;
}.

Record State := mkState {
  exchange_rate : Decimal;
  second_exchange_rate : Decimal;
  total_bond_amount : Uint128;
  last_index_modification : N;
  prev_hub_balance : Uint128;
  actual_unbonded_amount : Uint128;
  principle_balance_before_exchange_update : Uint128;
  last_unbonded_time : N;
  last_processed_batch : N;
}.

Record Config := mkConfig {
  token_contract_registered : bool;
  token_contract : option CanonicalAddr;
  protocol_fee_collector : option CanonicalAddr;
  rewards_contract : option CanonicalAddr;
}.

Record UnbondHistory := mkUnbondHistory {
  batch_id : N;
  h_time : N;
  h_amount : Uint128;
  applied_exchange_rate : Decimal;
  withdraw_rate : Decimal;
  released : bool;
}.

(** Field updates of [State]. *)
Definition set_exchange_rate (r : Decimal) (s : State) : State :=
  mkState r (second_exchange_rate s) (total_bond_amount s) (last_index_modification s)
    (prev_hub_balance s) (actual_unbonded_amount s)
    (principle_balance_before_exchange_update s) (last_unbonded_time s)
    (last_processed_batch s).
Definition set_total_bond_amount (a : Uint128) (s : State) : State :=
  mkState (exchange_rate s) (second_exchange_rate s) a (last_index_modification s)
    (prev_hub_balance s) (actual_unbonded_amount s)
    (principle_balance_before_exchange_update s) (last_unbonded_time s)
    (last_processed_batch s).
Definition set_last_index_modification (t : N) (s : State) : State :=
  mkState (exchange_rate s) (second_exchange_rate s) (total_bond_amount s) t
    (prev_hub_balance s) (actual_unbonded_amount s)
    (principle_balance_before_exchange_update s) (last_unbonded_time s)
    (last_processed_batch s).
Definition set_prev_hub_balance (b : Uint128) (s : State) : State :=
  mkState (exchange_rate s) (second_exchange_rate s) (total_bond_amount s)
    (last_index_modification s) b (actual_unbonded_amount s)
    (principle_balance_before_exchange_update s) (last_unbonded_time s)
    (last_processed_batch s).
Definition set_actual_unbonded_amount (a : Uint128) (s : State) : State :=
  mkState (exchange_rate s) (second_exchange_rate s) (total_bond_amount s)
    (last_index_modification s) (prev_hub_balance s) a
    (principle_balance_before_exchange_update s) (last_unbonded_time s)
    (last_processed_batch s).
Definition set_last_unbonded_time (t : N) (s : State) : State :=
  mkState (exchange_rate s) (second_exchange_rate s) (total_bond_amount s)
    (last_index_modification s) (prev_hub_balance s) (actual_unbonded_amount s)
    (principle_balance_before_exchange_update s) t (last_processed_batch s).
Definition set_last_processed_batch (b : N) (s : State) : State :=
  mkState (exchange_rate s) (second_exchange_rate s) (total_bond_amount s)
    (last_index_modification s) (prev_hub_balance s) (actual_unbonded_amount s)
    (principle_balance_before_exchange_update s) (last_unbonded_time s) b.

(** ** hub.rs: messages *)
Record InstantiateMsg := mkInstantiateMsg {
  im_epoch_period : N;
  im_underlying_coin_denom : string;
  im_unbonding_period : N;
  im_peg_recovery_fee : Decimal;
  im_er_threshold : Decimal;
  im_validator : string;
  im_protocol_fee : Decimal;
  im_rewards_contract : string;
}.

Record MigrateMsg := mkMigrateMsg { mm_rewards_contract : string }.

(** cw20's receive message; [cw20_msg] is the sender's opaque binary. *)
Record Cw20ReceiveMsg := mkCw20ReceiveMsg {
  cw20_sender : string;
  cw20_amount : Uint128;
  cw20_msg : bytes;
}.

Inductive Cw20HookMsg := HookUnbond.

Inductive ExecuteMsg :=
  | Pause
  | Unpause
  | UpdateConfig (token_contract protocol_fee_collector : option string)
  | UpdateAdmin (admin : string)
  | UpdateExchangeRate
  | RegisterValidator (validator : string)
  | DeregisterValidator (validator : string)
  | UpdateParams (epoch_period unbonding_period : option N)
      (peg_recovery_fee er_threshold protocol_fee : option Decimal)
  | Bond (validator : string)
  | UpdateGlobalIndex
  | WithdrawUnbonded
  | CheckSlashing
  | Receive (msg : Cw20ReceiveMsg).

#[global] Instance Cw20ReceiveMsg_eq_dec : EqDecision Cw20ReceiveMsg.
Proof. solve_decision. Defined.
#[global] Instance ExecuteMsg_eq_dec : EqDecision ExecuteMsg.
Proof. solve_decision. Defined.

Inductive QueryMsg :=
  | QConfig
  | QState
  | QWhitelistedValidators
  | QCurrentBatch
  | QWithdrawableUnbonded (address : string)
  | QParameters
  | QUnbondRequests (address : string)
  | QAllHistory (start_from : option N) (limit : option N)
  | QAdmin.

(** [UnbondRequest = Vec<(u64, Uint128)>] *)
Definition UnbondRequest : Type := list (N * Uint128).

Record StateResponse := mkStateResponse {
  sr_exchange_rate : Decimal;
  sr_total_bond_amount : Uint128;
  sr_last_index_modification : N;
  sr_principle_balance_before_exchange_update : Uint128;
  sr_prev_hub_balance : Uint128;
  sr_actual_unbonded_amount : Uint128;
  sr_last_unbonded_time : N;
  sr_last_processed_batch : N;
}.

Record ConfigResponse := mkConfigResponse {
  cr_token_contract : option string;
  cr_protocol_fee_collector : option string;
  cr_rewards_contract : option string;
}.

Record WhitelistedValidatorsResponse := mkWhitelistedValidatorsResponse {
  wv_validators : list string;
}.

Record CurrentBatchResponse := mkCurrentBatchResponse {
  br_id : N;
  br_requested_with_fee : Uint128;
}.

Record WithdrawableUnbondedResponse := mkWithdrawableUnbondedResponse {
  wu_withdrawable : Uint128;
}.

Record UnbondRequestsResponse := mkUnbondRequestsResponse {
  ur_address : string;
  ur_requests : UnbondRequest;
}.

Record AllHistoryResponse := mkAllHistoryResponse { ah_history : list UnbondHistory }.

(** ** rewards.rs *)
Record RewardsInstantiateMsg := mkRewardsInstantiateMsg {
  rim_hub_addr : string;
  rim_underlying_coin_denom : string;
}.

Record RewardsConfig := mkRewardsConfig {
  hub_contract : CanonicalAddr;
  rc_underlying_coin_denom : string;
}.

Inductive RewardsExecuteMsg :=
  | RPause
  | RUnpause
  | RUpdateAdmin (admin : string)
  | ProcessRewards.

Inductive RewardsQueryMsg := RQConfig | RQAdmin.

Record RewardsConfigResponse := mkRewardsConfigResponse { rcr_hub_contract : string }.

(** ** Messages between contracts

    The body of a [WasmMsg::Execute]: the program writes it with [to_binary] from
    one of these types. *)
Inductive Cw20ExecuteMsg :=
  | Mint (recipient : string) (amount : Uint128)
  | Burn (amount : Uint128).

Inductive WasmBody :=
  | ToHub (m : ExecuteMsg)
  | ToRewards (m : RewardsExecuteMsg)
  | ToToken (m : Cw20ExecuteMsg).

(** [from_binary] at type [Cw20HookMsg]. *)
Class HookSerde := { hook_from_binary : bytes → outcome Cw20HookMsg }.

(** ** The exchange rate *)
Section exchange_rate.
  Context `{M : Math}.

Definition update_exchange_rate (total_issued requested : Uint128) (s : State)
    : outcome State :=
  actual_supply ← Uint128_add total_issued requested;
  if (total_bond_amount s =? 0) || (actual_supply =? 0)
  then Ok (set_exchange_rate Decimal_one s)
  else r ← Decimal_from_ratio (total_bond_amount s) actual_supply;
       Ok (set_exchange_rate r s).

Context {MS : MathSpec M}.

(** The rate a bond pool and a supply define: par when either is empty. *)
Definition rate_of (bond supply : N) : N :=
  if (bond =? 0) || (supply =? 0) then dec_unit else bond * dec_unit / supply.

Lemma update_exchange_rate_ok ti rq s s' :
  update_exchange_rate ti rq s = Ok s' →
  s' = set_exchange_rate (mkDecimal (rate_of (total_bond_amount s) (ti + rq))) s.
Proof.
  unfold update_exchange_rate, rate_of. intros H. inv_cw.
  destruct (_ || _); inv_cw; [by rewrite Decimal_one_eq|done].
Qed.

Lemma rate_of_le_par bond supply : bond ≤ supply → rate_of bond supply ≤ dec_unit.
Proof.
  unfold rate_of. intros. destruct (_ || _) eqn:E; [done|].
  apply orb_false_iff in E as [_ ?%N.eqb_neq].
  apply N.Div0.div_le_upper_bound. by apply N.mul_le_mono_r.
Qed.
End exchange_rate.

(** ** prism-protocol/src/contract_error.rs

    No handler returns it.  [OverflowError] and the texts of both library errors
    are cosmwasm_std's. *)
Section contract_error.
  Context {OverflowError : Type}.

Inductive ContractError :=
  | CeStd (e : StdError)
  | CeOverflowError (e : OverflowError)
  | CeUnauthorized
  | CeInvalidZeroAmount
  | CeMaxSpreadAssertion
  | CeMaxSlippageAssertion
  | CeAssetMismatch.

(** The [#[error]] attributes. *)
Definition contract_error_text (std_text : StdError → string) (overflow_text : OverflowError → string)
    (e : ContractError) : string :=
  match e with
  | CeStd e => std_text e
  | CeOverflowError e => overflow_text e
  | CeUnauthorized => "Unauthorized"
  | CeInvalidZeroAmount => "Invalid zero amount"
  | CeMaxSpreadAssertion => "Max spread assertion"
  | CeMaxSlippageAssertion => "Max slippage assertion"
  | CeAssetMismatch => "Asset mismatch"
  end.
End contract_error.
