(* ===== verification/SignedInteger.v ===== *)
(** * packages/signed_integers: a magnitude and a sign *)
From S2P Require Import Prelude Cosmwasm.

(** [SignedInt(value, negative)]: the boolean is set for a negative number. *)
Record SignedInt := mkSignedInt { magnitude : Uint128; negative : bool }.

Section signed_int.
  Context `{M : Math}.

Definition from_subtraction (minuend subtrahend : Uint128) : outcome SignedInt :=
  subtraction ← try_ok (Uint128_checked_sub minuend subtrahend);
  match subtraction with
  | None =>
      d ← unwrap (Uint128_checked_sub subtrahend minuend);
      Ok (mkSignedInt d true)
  | Some d => Ok (mkSignedInt d false)
  end.

(** The integer a [SignedInt] stands for. *)
Definition signed_value (i : SignedInt) : Z :=
  if negative i then (- Z.of_N (magnitude i))%Z else Z.of_N (magnitude i).

Context {MS : MathSpec M}.

(** Subtraction never fails, and its two parts are the distance and the order. *)
Lemma from_subtraction_eq a b :
  from_subtraction a b =
    Ok (if b <=? a then mkSignedInt (a - b) false else mkSignedInt (b - a) true).
Proof.
  unfold from_subtraction. rewrite !Uint128_checked_sub_spec.
  destruct (N.leb_spec b a), (N.leb_spec a b); simpl; done || lia.
Qed.

Lemma from_subtraction_value a b :
  ∃ i, from_subtraction a b = Ok i ∧
       signed_value i = (Z.of_N a - Z.of_N b)%Z ∧
       (negative i = true → magnitude i ≠ 0).
Proof.
  rewrite from_subtraction_eq. eexists. split; [done|].
  destruct (N.leb_spec b a); unfold signed_value; simpl; split; (lia || done).
Qed.
End signed_int.
