(* ===== verification/HubState.v ===== *)
(** * The hub's storage (contracts/prism_hub/src/state.rs)

    The store is a record with one field per storage key of the contract: items
    are options (an item that was never saved cannot be loaded), the wait list,
    the unbonding history and the whitelist are maps over the byte keys the code
    builds.  Values are kept decoded. *)
From S2P Require Import Prelude Bytes Cosmwasm Protocol.

(** ** The store *)

(** The configuration as stored before the migration to the rewards contract
    (migration.rs). *)
Record LegacyConfig := mkLegacyConfig {
  lc_token_contract : option CanonicalAddr;
  lc_protocol_fee_collector : option CanonicalAddr;
}.

(** The two JSON documents the configuration key can hold. *)
Inductive ConfigItem :=
  | LegacyJson (c : LegacyConfig)
  | ConfigJson (c : Config).

Record HubStore := mkHubStore {
  st_admin : AdminSlot;
  st_pause : option bool;
  st_config : option ConfigItem;
  st_parameters : option Parameters;
  st_current_batch : option CurrentBatch;
  st_state : option State;
  st_wait : gmap bytes (gmap bytes Uint128);
  st_history : gmap bytes UnbondHistory;
  st_validators : gmap bytes bool;
}.

Definition empty_store : HubStore := mkHubStore None None None None None None ∅ ∅ ∅.

Definition set_admin (v : AdminSlot) (s : HubStore) : HubStore :=
  mkHubStore v (st_pause s) (st_config s) (st_parameters s) (st_current_batch s)
    (st_state s) (st_wait s) (st_history s) (st_validators s).
Definition set_pause (v : bool) (s : HubStore) : HubStore :=
  mkHubStore (st_admin s) (Some v) (st_config s) (st_parameters s) (st_current_batch s)
    (st_state s) (st_wait s) (st_history s) (st_validators s).
Definition set_config (v : Config) (s : HubStore) : HubStore :=
  mkHubStore (st_admin s) (st_pause s) (Some (ConfigJson v)) (st_parameters s)
    (st_current_batch s) (st_state s) (st_wait s) (st_history s) (st_validators s).
Definition set_parameters (v : Parameters) (s : HubStore) : HubStore :=
  mkHubStore (st_admin s) (st_pause s) (st_config s) (Some v) (st_current_batch s)
    (st_state s) (st_wait s) (st_history s) (st_validators s).
Definition set_current_batch (v : CurrentBatch) (s : HubStore) : HubStore :=
  mkHubStore (st_admin s) (st_pause s) (st_config s) (st_parameters s) (Some v)
    (st_state s) (st_wait s) (st_history s) (st_validators s).
Definition set_state (v : State) (s : HubStore) : HubStore :=
  mkHubStore (st_admin s) (st_pause s) (st_config s) (st_parameters s)
    (st_current_batch s) (Some v) (st_wait s) (st_history s) (st_validators s).
Definition set_wait (v : gmap bytes (gmap bytes Uint128)) (s : HubStore) : HubStore :=
  mkHubStore (st_admin s) (st_pause s) (st_config s) (st_parameters s)
    (st_current_batch s) (st_state s) v (st_history s) (st_validators s).
Definition set_history (v : gmap bytes UnbondHistory) (s : HubStore) : HubStore :=
  mkHubStore (st_admin s) (st_pause s) (st_config s) (st_parameters s)
    (st_current_batch s) (st_state s) (st_wait s) v (st_validators s).
Definition set_validators (v : gmap bytes bool) (s : HubStore) : HubStore :=
  mkHubStore (st_admin s) (st_pause s) (st_config s) (st_parameters s)
    (st_current_batch s) (st_state s) (st_wait s) (st_history s) v.

(** [Item::load] *)
Definition item_load {A} (kind : string) (o : option A) : outcome A :=
  ok_or (NotFound kind) o.
Definition load_pause (s : HubStore) : outcome bool := item_load "bool" (st_pause s).
Definition load_parameters (s : HubStore) : outcome Parameters :=
  item_load "Parameters" (st_parameters s).
Definition load_current_batch (s : HubStore) : outcome CurrentBatch :=
  item_load "CurrentBatch" (st_current_batch s).
Definition load_state (s : HubStore) : outcome State := item_load "State" (st_state s).
(** A legacy document lacks the mandatory field [token_contract_registered]. *)
Definition load_config (s : HubStore) : outcome Config :=
  c ← item_load "Config" (st_config s);
  match c with
  | ConfigJson c => Ok c
  | LegacyJson _ => Err (ParseErr "Config")
  end.

(** [STATE.update(storage, f)] *)
Definition update_state (f : State → outcome State) : cm HubStore () :=
  st ← reads load_state;
  st' ← lift (f st);
  writes (set_state st').

Section storage.
  Context `{H : Host}.

(** ** The wait list: address, then batch, to the requested amount *)

(** [Bucket::multilevel(storage, [PREFIX_WAIT_MAP, addr])] *)
Definition wait_bucket (s : HubStore) (addr : bytes) : gmap bytes Uint128 :=
  default ∅ (st_wait s !! addr).

Definition store_unbond_wait_list (batch_id : N) (sender_address : string)
    (amount : Uint128) : cm HubStore () :=
  batch ← lift (u64_to_vec batch_id);
  addr ← lift (string_to_vec sender_address);
  asked_already ← reads (λ s, Ok (wait_bucket s addr !! batch));
  v ← lift (Uint128_add (default 0 asked_already) amount);
  writes (λ s, set_wait (<[addr := <[batch := v]> (wait_bucket s addr)]> (st_wait s)) s).

Fixpoint remove_batches (addr : bytes) (batch_id : list N) : cm HubStore () :=
  match batch_id with
  | [] => mret ()
  | b :: rest =>
      batch ← lift (u64_to_vec b);
      writes (λ s, set_wait (<[addr := delete batch (wait_bucket s addr)]> (st_wait s)) s) ;;
      remove_batches addr rest
  end.
Definition remove_unbond_wait_list (batch_id : list N) (sender_address : Addr)
    : cm HubStore () :=
  addr ← lift (string_to_vec sender_address);
  remove_batches addr batch_id.

Definition read_unbond_wait_list (batch_id : N) (sender_addr : string) (s : HubStore)
    : outcome Uint128 :=
  vec ← string_to_vec sender_addr;
  batch ← u64_to_vec batch_id;
  item_load "Uint128" (wait_bucket s vec !! batch).

Definition get_unbond_requests (sender_addr : string) (s : HubStore)
    : outcome UnbondRequest :=
  vec ← string_to_vec sender_addr;
  fold_o (λ requests item,
      user_batch ← unwrap (u64_from_slice item.1);
      Ok (requests ++ [(user_batch, item.2)]))
    (kv_range (wait_bucket s vec) None) [].

(** ** The unbonding history: big-endian batch id to its record *)
Definition store_unbond_history (batch_id : N) (history : UnbondHistory)
    : cm HubStore () :=
  writes (λ s, set_history (<[to_be_bytes batch_id := history]> (st_history s)) s).

Definition read_unbond_history (epoc_id : N) (s : HubStore) : outcome UnbondHistory :=
  ok_or (GenericErr "Burn requests not found for the specified time period")
    (st_history s !! to_be_bytes epoc_id).

Definition get_unbond_batches (sender_addr : string) (s : HubStore) : outcome (list N) :=
  vec ← string_to_vec sender_addr;
  fold_o (λ deprecated_batches item,
      user_batch ← unwrap (u64_from_slice item.1);
      history ← try_ok (read_unbond_history user_batch s);
      match history with
      | Some h =>
          if released h then Ok (deprecated_batches ++ [user_batch])
          else Ok deprecated_batches
      | None => Ok deprecated_batches
      end)
    (kv_range (wait_bucket s vec) None) [].

Definition get_finished_amount (sender_addr : string) (s : HubStore) : outcome Uint128 :=
  vec ← string_to_vec sender_addr;
  fold_o (λ withdrawable_amount item,
      user_batch ← unwrap (u64_from_slice item.1);
      history ← try_ok (read_unbond_history user_batch s);
      match history with
      | Some h =>
          if released h
          then a ← Uint128_mul_Decimal item.2 (withdraw_rate h);
               Uint128_add withdrawable_amount a
          else Ok withdrawable_amount
      | None => Ok withdrawable_amount
      end)
    (kv_range (wait_bucket s vec) None) 0.

Definition query_get_finished_amount (sender_addr : string) (block_time : N)
    (s : HubStore) : outcome Uint128 :=
  vec ← string_to_vec sender_addr;
  fold_o (λ withdrawable_amount item,
      user_batch ← unwrap (u64_from_slice item.1);
      history ← try_ok (read_unbond_history user_batch s);
      match history with
      | Some h =>
          if h_time h <? block_time
          then a ← Uint128_mul_Decimal item.2 (withdraw_rate h);
               Uint128_add withdrawable_amount a
          else Ok withdrawable_amount
      | None => Ok withdrawable_amount
      end)
    (kv_range (wait_bucket s vec) None) 0.

(** ** The validator whitelist *)
Definition store_white_validators (validator_address : string) : cm HubStore () :=
  vec ← lift (string_to_vec validator_address);
  writes (λ s, set_validators (<[vec := true]> (st_validators s)) s).

Definition remove_white_validators (validator_address : string) : cm HubStore () :=
  vec ← lift (string_to_vec validator_address);
  writes (λ s, set_validators (delete vec (st_validators s)) s).

Definition read_validators (s : HubStore) : outcome (list string) :=
  fold_o (λ validators item,
      sender ← unwrap (string_from_slice item.1);
      Ok (validators ++ [sender]))
    (kv_range (st_validators s) None) [].

Definition is_valid_validator (validator_address : string) (s : HubStore) : outcome bool :=
  vec ← string_to_vec validator_address;
  match st_validators s !! vec with
  | Some _ => Ok true
  | None => Ok false
  end.

(** ** Pagination of the history *)
Definition MAX_LIMIT : N := 100.
Definition DEFAULT_LIMIT : N := 10.

Definition convert (start_after : option N) : option bytes :=
  (λ idx, to_be_bytes idx ++ [1]) <$> start_after.

Definition all_unbond_history (start limit : option N) (s : HubStore)
    : outcome (list UnbondHistory) :=
  let vec := convert start in
  let lim := N.min (default DEFAULT_LIMIT limit) MAX_LIMIT in
  Ok (take (N.to_nat lim) (kv_range (st_history s) vec)).*2.
End storage.
