(* ===== verification/HubStateFacts.v ===== *)
(** * Facts about the hub's storage

    The wait list and the history seen through batch numbers and addresses
    instead of byte keys, and what every operation of state.rs does to them. *)
From S2P Require Import Prelude Bytes Cosmwasm Protocol HubState.

Section views.
  Context `{H : Host}.

(** The record of batch [i]. *)
Definition hist (s : HubStore) (i : N) : option UnbondHistory :=
  st_history s !! to_be_bytes i.

(** The key of a batch and the bucket of an address. *)
Definition batch_key (b : N) : option bytes :=
  match u64_to_vec b with Ok k => Some k | _ => None end.
Definition addr_key (a : string) : option bytes :=
  match string_to_vec a with Ok k => Some k | _ => None end.
Definition user_bucket (s : HubStore) (a : string) : gmap bytes N :=
  match addr_key a with Some k => wait_bucket s k | None => ∅ end.

(** What [a] is waiting for in batch [b]. *)
Definition wait_entry (s : HubStore) (a : string) (b : N) : option N :=
  k ← batch_key b; user_bucket s a !! k.

(** What all users together are waiting for in batch [b]. *)
Definition bucket_amount (k : bytes) (m : gmap bytes N) : N := default 0 (m !! k).
Definition wait_sum (f : N → N) (s : HubStore) (b : N) : N :=
  match batch_key b with
  | Some k => map_sum (λ m, f (bucket_amount k m)) (st_wait s)
  | None => 0
  end.
Definition wait_total (s : HubStore) (b : N) : N := wait_sum (λ v, v) s b.

(** Every key of the wait list is the encoding of a batch number. *)
Definition wait_keys_ok (s : HubStore) : Prop :=
  ∀ ka m kb v, st_wait s !! ka = Some m → m !! kb = Some v →
  ∃ b, b < u64_bound ∧ u64_to_vec b = Ok kb.

(** The claims of [a], in the order the storage iterates over them. *)
Definition claims (s : HubStore) (a : string) (l : list (N * N)) : Prop :=
  ∃ k, string_to_vec a = Ok k ∧
  Forall2 (λ kv bv, bv.1 < u64_bound ∧ u64_to_vec bv.1 = Ok kv.1 ∧ kv.2 = bv.2)
    (kv_range (wait_bucket s k) None) l.

(** A claim that can be paid: its batch has been released. *)
Definition claim_released (s : HubStore) (bv : N * N) : bool :=
  match hist s bv.1 with Some h => released h | None => false end.
Definition claim_rate (s : HubStore) (bv : N * N) : Decimal :=
  match hist s bv.1 with Some h => withdraw_rate h | None => mkDecimal 0 end.
Definition claim_payout (s : HubStore) (bv : N * N) : N :=
  bv.2 * atomics (claim_rate s bv) / dec_unit.
Definition claims_payout (s : HubStore) (l : list (N * N)) : N :=
  sum_of (claim_payout s) (List.filter (claim_released s) l).
End views.

Section facts.
  Context `{H : Host} {HS : HostSpec H}.

Lemma batch_key_some b : b < u64_bound → ∃ k, batch_key b = Some k ∧ u64_to_vec b = Ok k.
Proof.
  intros Hb. destruct (u64_roundtrip b Hb) as (k & Hk & _).
  exists k. unfold batch_key. by rewrite Hk.
Qed.
Lemma addr_key_some a : ∃ k, addr_key a = Some k ∧ string_to_vec a = Ok k.
Proof.
  destruct (string_roundtrip a) as (k & Hk & _).
  exists k. unfold addr_key. by rewrite Hk.
Qed.
Lemma batch_key_inj b b' k :
  b < u64_bound → b' < u64_bound → batch_key b = Some k → batch_key b' = Some k → b = b'.
Proof.
  intros Hb Hb' Hk Hk'. destruct (batch_key_some b Hb) as (? & ? & ?).
  destruct (batch_key_some b' Hb') as (? & ? & ?).
  apply (u64_to_vec_inj b b' k); congruence.
Qed.
Lemma addr_key_inj a a' k : addr_key a = Some k → addr_key a' = Some k → a = a'.
Proof.
  intros Hk Hk'. destruct (addr_key_some a) as (? & ? & ?).
  destruct (addr_key_some a') as (? & ? & ?).
  apply (string_to_vec_inj a a' k); congruence.
Qed.

(** ** The history *)
Lemma read_unbond_history_ok i s h :
  read_unbond_history i s = Ok h ↔ hist s i = Some h.
Proof. apply ok_or_ok. Qed.

Lemma try_read_history i s :
  try_ok (read_unbond_history i s) = Ok (hist s i).
Proof. unfold read_unbond_history, hist. by destruct (_ !! _). Qed.

Lemma hist_set_history_insert s i j h :
  i < u64_bound → j < u64_bound →
  hist (set_history (<[to_be_bytes i := h]> (st_history s)) s) j =
    if decide (i = j) then Some h else hist s j.
Proof.
  intros Hi Hj. unfold hist; simpl. case_decide as Hij.
  - subst. apply lookup_insert_eq.
  - apply lookup_insert_ne. intros Heq. by apply Hij, to_be_bytes_inj.
Qed.

(** ** Reading a user's claims *)
Lemma claims_exist s a : wait_keys_ok s → ∃ l, claims s a l.
Proof.
  intros Hok. destruct (addr_key_some a) as (k & _ & Hk).
  assert (∀ l, (∀ kv, kv ∈ l → ∃ b, b < u64_bound ∧ u64_to_vec b = Ok kv.1) →
    ∃ l' : list (N * N), Forall2 (λ kv bv, bv.1 < u64_bound ∧
      u64_to_vec bv.1 = Ok kv.1 ∧ kv.2 = bv.2) l l') as Hdec.
  { induction l as [|kv l IH]; intros Hl; [by exists []|].
    destruct (Hl kv) as (b & Hb & Hkb); [left|].
    destruct IH as [l' Hl']; [intros; apply Hl; by right|].
    exists ((b, kv.2) :: l'). by constructor. }
  destruct (Hdec (kv_range (wait_bucket s k) None)) as [l Hl].
  - intros [kb v] [Hkb _]%kv_range_elem. unfold wait_bucket in Hkb.
    destruct (st_wait s !! k) as [m|] eqn:Hm; simpl in Hkb; [|by rewrite lookup_empty in Hkb].
    by apply (Hok k m kb v).
  - exists l, k. done.
Qed.

Lemma claims_elem s a l b v :
  claims s a l → (b, v) ∈ l ↔ b < u64_bound ∧ wait_entry s a b = Some v.
Proof.
  intros (k & Hk & Hl). unfold wait_entry, user_bucket, addr_key. rewrite Hk.
  split.
  - intros Hin. apply list_elem_of_lookup in Hin as [i Hi].
    destruct (Forall2_lookup_r _ _ _ _ _ Hl Hi) as ([kb v'] & Hr & Hb & Hkb & Hv).
    simpl in *. subst. split; [done|]. unfold batch_key. rewrite Hkb. simpl.
    apply list_elem_of_lookup_2 in Hr. by apply kv_range_elem in Hr as [? _].
  - intros [Hb Hw]. destruct (batch_key_some b Hb) as (kb & Hkb & Hvec).
    rewrite Hkb in Hw. simpl in Hw.
    assert ((kb, v) ∈ kv_range (wait_bucket s k) None) as Hin by by apply kv_range_elem.
    apply list_elem_of_lookup in Hin as [i Hi].
    destruct (Forall2_lookup_l _ _ _ _ _ Hl Hi) as ([b' v'] & Hr & Hb' & Hvec' & Hv).
    simpl in *. subst. rewrite (u64_to_vec_inj b b' kb) by done.
    by eapply list_elem_of_lookup_2.
Qed.

Lemma claims_NoDup s a l : claims s a l → NoDup l.*1.
Proof.
  intros (k & _ & Hl). pose proof (kv_range_keys_NoDup (wait_bucket s k) None) as Hnd.
  induction Hl as [|[kb v] [b v'] r l (Hb & Hkb & Hv) Hl IH]; [constructor|].
  simpl in *. apply NoDup_cons in Hnd as [Hnin Hnd]. constructor; [|by apply IH].
  intros ([b' v''] & -> & Hin)%list_elem_of_fmap. simpl in *. apply Hnin.
  apply list_elem_of_lookup in Hin as [i Hi].
  destruct (Forall2_lookup_r _ _ _ _ _ Hl Hi) as ([kb' ?] & Hr & _ & Hkb' & _).
  simpl in *. replace kb with kb' by congruence.
  apply list_elem_of_fmap. eexists. split; [|by eapply list_elem_of_lookup_2]. done.
Qed.


(** Generalise the accumulator of a fold before an induction. *)
Ltac fold_gen f :=
  match goal with
  | |- fold_o ?g ?l ?b = Ok _ =>
      let Hgen := fresh in
      enough (∀ acc, fold_o g l acc = Ok (f acc)) as Hgen; [exact (Hgen b)|]
  end.

Lemma get_unbond_requests_claims s a l :
  claims s a l → get_unbond_requests a s = Ok l.
Proof.
  intros (k & Hk & Hl). unfold get_unbond_requests. rewrite Hk. simpl.
  fold_gen (λ acc, acc ++ l).
  induction Hl as [|[kb v] [b v'] r l (Hb & Hkb & Hv) Hl IH]; intros acc; simpl in *.
  - by rewrite app_nil_r.
  - rewrite (u64_from_to b kb) by done. simpl. rewrite IH. subst.
    by rewrite <- app_assoc.
Qed.

Lemma get_unbond_batches_claims s a l :
  claims s a l →
  get_unbond_batches a s = Ok (List.filter (claim_released s) l).*1.
Proof.
  intros (k & Hk & Hl). unfold get_unbond_batches. rewrite Hk. simpl.
  fold_gen (λ acc, acc ++ (List.filter (claim_released s) l).*1).
  induction Hl as [|[kb v] [b v'] r l (Hb & Hkb & Hv) Hl IH]; intros acc; simpl in *.
  - by rewrite app_nil_r.
  - rewrite (u64_from_to b kb) by done. simpl. rewrite try_read_history. simpl.
    unfold claim_released at 1; simpl.
    destruct (hist s b) as [h|]; [destruct (released h)|]; simpl;
      rewrite IH; try done. by rewrite <- app_assoc.
Qed.

(** A fold that adds one amount per claim: [Ok] exactly with the sum. *)
Lemma get_finished_amount_claims s a l r :
  claims s a l → get_finished_amount a s = Ok r → r = claims_payout s l.
Proof.
  intros (k & Hk & Hl). unfold get_finished_amount, claims_payout. rewrite Hk. simpl.
  match goal with
  | |- fold_o ?g ?m _ = _ → _ =>
      enough (∀ acc r, fold_o g m acc = Ok r →
        r = acc + sum_of (claim_payout s) (List.filter (claim_released s) l)) as Hgen
        by (intros Hr; by rewrite (Hgen 0 r Hr))
  end.
  clear r. induction Hl as [|[kb v] [b v'] r l (Hb & Hkb & Hv) Hl IH]; intros acc x; simpl in *.
  - intros [= <-]. lia.
  - rewrite (u64_from_to b kb) by done. simpl. rewrite try_read_history. simpl.
    subst v'. unfold claim_released at 1; simpl.
    destruct (hist s b) as [h|] eqn:Hh; [destruct (released h)|]; simpl; intros Hf;
      inv_cw; apply IH in Hf; subst; [|done..].
    unfold claim_payout at 2, claim_rate. simpl. rewrite Hh. lia.
Qed.

(** ** Writing to the wait list *)

(** Overwriting one bucket: the effect on totals, entries and keys. *)
Lemma wait_sum_set_bucket f s ka m b :
  f 0 = 0 →
  wait_sum f (set_wait (<[ka:=m]> (st_wait s)) s) b
    + from_option (λ k, f (bucket_amount k (wait_bucket s ka))) 0 (batch_key b)
  = wait_sum f s b + from_option (λ k, f (bucket_amount k m)) 0 (batch_key b).
Proof.
  intros Hf. unfold wait_sum. destruct (batch_key b) as [k|]; simpl; [|done].
  pose proof (map_sum_insert (λ m, f (bucket_amount k m)) (st_wait s) ka m) as Hsum.
  unfold wait_bucket. destruct (st_wait s !! ka); simpl in *; [lia|].
  unfold bucket_amount at 2. rewrite lookup_empty. simpl. lia.
Qed.

Lemma user_bucket_set_bucket s a ka m a' :
  string_to_vec a = Ok ka →
  user_bucket (set_wait (<[ka:=m]> (st_wait s)) s) a' =
    if decide (a = a') then m else user_bucket s a'.
Proof.
  intros Hka. unfold user_bucket, wait_bucket. simpl.
  destruct (addr_key_some a') as (ka' & Hk & Hka'). rewrite Hk.
  case_decide as Ha.
  - subst. replace ka' with ka by congruence. by rewrite lookup_insert_eq.
  - rewrite lookup_insert_ne; [done|]. intros ->.
    by apply Ha, (string_to_vec_inj a a' ka').
Qed.

Lemma wait_bucket_user s a ka :
  string_to_vec a = Ok ka → wait_bucket s ka = user_bucket s a.
Proof. intros Hka. unfold user_bucket, addr_key. by rewrite Hka. Qed.

Lemma store_unbond_wait_list_spec b a n s s' :
  b < u64_bound → store_unbond_wait_list b a n s = Ok ((), s') →
  (∃ w, s' = set_wait w s) ∧
  (∀ f b', f 0 = 0 → b' < u64_bound →
    wait_sum f s' b' + (if decide (b = b') then f (default 0 (wait_entry s a b)) else 0) =
    wait_sum f s b' + if decide (b = b') then f (default 0 (wait_entry s a b) + n) else 0) ∧
  (∀ a' b', b' < u64_bound →
    wait_entry s' a' b' =
      if decide (a = a' ∧ b = b') then Some (default 0 (wait_entry s a b) + n)
      else wait_entry s a' b') ∧
  (wait_keys_ok s → wait_keys_ok s').
Proof.
  intros Hb Hst. unfold store_unbond_wait_list in Hst.
  bind Hst as kb Hkb. bind Hst as ka Hka. inv_cw.
  assert (batch_key b = Some kb) as Hbk by (unfold batch_key; by rewrite Hkb).
  split; [by eexists|]. split; [|split].
  - intros f b' Hf Hb'. destruct (batch_key_some b' Hb') as (kb' & Hbk' & Hkb').
    pose proof (wait_sum_set_bucket f s ka
      (<[kb:=default 0 (wait_bucket s ka !! kb) + n]> (wait_bucket s ka)) b' Hf) as Ht.
    rewrite Hbk' in Ht. simpl in Ht. unfold bucket_amount in Ht.
    assert (wait_entry s a b = wait_bucket s ka !! kb) as He.
    { unfold wait_entry. rewrite Hbk. simpl. by rewrite (wait_bucket_user s a). }
    rewrite He. case_decide as Hbb.
    + subst. replace kb' with kb in * by congruence.
      rewrite lookup_insert_eq in Ht. simpl in Ht. lia.
    + rewrite lookup_insert_ne in Ht; [lia|]. intros ->.
      by apply Hbb, (u64_to_vec_inj b b' kb').
  - intros a' b' Hb'. unfold wait_entry.
    destruct (batch_key_some b' Hb') as (kb' & Hbk' & Hkb').
    rewrite Hbk', Hbk. simpl. rewrite (user_bucket_set_bucket s a) by done.
    rewrite (wait_bucket_user s a) by done.
    destruct (decide (a = a')) as [->|Ha];
      [|rewrite (decide_False (P := a = a' ∧ b = b')) by (by intros [? _]); done].
    case_decide as Hbb.
    + destruct Hbb as [_ ->]. replace kb' with kb by congruence.
      by rewrite lookup_insert_eq.
    + rewrite lookup_insert_ne; [done|]. intros ->. apply Hbb.
      split; [done|]. by apply (u64_to_vec_inj b b' kb').
  - intros Hok ka' m kb' v Hm Hv. simpl in Hm.
    apply lookup_insert_Some in Hm as [[<- <-]|[_ Hm]]; [|by apply (Hok ka' m kb' v)].
    apply lookup_insert_Some in Hv as [[<- _]|[_ Hv]]; [by exists b|].
    unfold wait_bucket in Hv. destruct (st_wait s !! ka) as [m|] eqn:Hm;
      simpl in Hv; [by apply (Hok ka m kb' v)|by rewrite lookup_empty in Hv].
Qed.

Lemma remove_unbond_wait_list_spec a l s s' :
  Forall (λ b, b < u64_bound) l → remove_unbond_wait_list l a s = Ok ((), s') →
  (∃ w, s' = set_wait w s) ∧
  (∀ f b, f 0 = 0 → b < u64_bound →
    wait_sum f s' b + (if decide (b ∈ l) then f (default 0 (wait_entry s a b)) else 0)
      = wait_sum f s b) ∧
  (∀ a' b, b < u64_bound →
    wait_entry s' a' b =
      if decide (a = a' ∧ b ∈ l) then None else wait_entry s a' b) ∧
  (wait_keys_ok s → wait_keys_ok s').
Proof.
  intros Hl Hrm. unfold remove_unbond_wait_list in Hrm. bind Hrm as ka Hka.
  revert s Hrm. induction Hl as [|b0 l Hb0 Hl IH]; intros s Hrm; simpl in Hrm.
  { injection Hrm as <-. split; [exists (st_wait s); by destruct s|]. split; [|split; [|done]].
    - intros f b Hf Hb. rewrite decide_False by (by apply not_elem_of_nil). lia.
    - intros a' b Hb. rewrite decide_False; [done|]. intros [_ Hin].
      by apply not_elem_of_nil in Hin. }
  bind Hrm as kb Hkb. bind Hrm.
  apply IH in Hrm as ([w ->] & Ht & He & Hk). clear IH.
  assert (batch_key b0 = Some kb) as Hbk by (unfold batch_key; by rewrite Hkb).
  set (s1 := set_wait (<[ka:=delete kb (wait_bucket s ka)]> (st_wait s)) s) in *.
  assert (∀ b, b < u64_bound → ∀ a', wait_entry s1 a' b =
    if decide (a = a' ∧ b = b0) then None else wait_entry s a' b) as He1.
  { intros b Hb a'. unfold wait_entry. destruct (batch_key_some b Hb) as (k & Hbk' & Hkk).
    rewrite Hbk'. simpl. subst s1. rewrite (user_bucket_set_bucket s a) by done.
    rewrite (wait_bucket_user s a) by done.
    destruct (decide (a = a')) as [->|Ha];
      [|rewrite (decide_False (P := a = a' ∧ b = b0)) by (by intros [? _]); done].
    case_decide as Hbb.
    - destruct Hbb as [_ ->]. replace k with kb by congruence. apply lookup_delete_eq.
    - rewrite lookup_delete_ne; [done|]. intros ->. apply Hbb.
      split; [done|]. by apply (u64_to_vec_inj b b0 k). }
  split; [by exists w|]. split; [|split].
  - intros f b Hf Hb. specialize (Ht f b Hf Hb). rewrite (He1 b Hb) in Ht.
    destruct (batch_key_some b Hb) as (k & Hbk' & Hkk).
    pose proof (wait_sum_set_bucket f s ka (delete kb (wait_bucket s ka)) b Hf) as Ht1.
    fold s1 in Ht1. rewrite Hbk' in Ht1. simpl in Ht1. unfold bucket_amount in Ht1.
    assert (default 0 (wait_entry s a b) = default 0 (wait_bucket s ka !! k)) as Hd.
    { unfold wait_entry. rewrite Hbk'. simpl. by rewrite (wait_bucket_user s a). }
    destruct (decide (b = b0)) as [->|Hbb].
    + rewrite (decide_True (P := b0 ∈ b0 :: l)) by left.
      rewrite (decide_True (P := a = a ∧ b0 = b0)) in Ht by done. simpl in Ht.
      replace k with kb in * by congruence. rewrite lookup_delete_eq in Ht1.
      simpl in Ht1. rewrite Hd. destruct (decide (b0 ∈ l)); lia.
    + rewrite (decide_False (P := a = a ∧ b = b0)) in Ht by (by intros [_ ?]).
      rewrite lookup_delete_ne in Ht1
        by (intros ->; by apply Hbb, (u64_to_vec_inj b b0 k)).
      assert (b ∈ b0 :: l ↔ b ∈ l) as Hcons by (rewrite elem_of_cons; tauto).
      rewrite (decide_ext (b ∈ b0 :: l) (b ∈ l)) by exact Hcons.
      destruct (decide (b ∈ l)); lia.
  - intros a' b Hb. rewrite He, (He1 b Hb a') by done.
    assert (a = a' ∧ b ∈ b0 :: l ↔ (a = a' ∧ b = b0) ∨ (a = a' ∧ b ∈ l)) as Hcons
      by (rewrite elem_of_cons; tauto).
    rewrite (decide_ext (a = a' ∧ b ∈ b0 :: l) _ _ _ Hcons).
    destruct (decide (a = a' ∧ b ∈ l)), (decide (a = a' ∧ b = b0));
      [rewrite decide_True by tauto|rewrite decide_True by tauto
      |rewrite decide_True by tauto|rewrite decide_False by tauto]; done.
  - intros Hok. apply Hk. intros ka' m kb' v Hm Hv. subst s1. simpl in Hm.
    apply lookup_insert_Some in Hm as [[<- <-]|[_ Hm]]; [|by apply (Hok ka' m kb' v)].
    apply lookup_delete_Some in Hv as [_ Hv].
    unfold wait_bucket in Hv. destruct (st_wait s !! ka) as [m|] eqn:Hm;
      simpl in Hv; [by apply (Hok ka m kb' v)|by rewrite lookup_empty in Hv].
Qed.
End facts.
