(* ===== verification/Text.v ===== *)
(** * Text: the string functions of the Rust standard library, and decimal numerals

    A Rust string is the list of its bytes.  [parse_dec] reads a numeral digit by
    digit, [pretty] prints one; the main fact is that printing and reading are
    inverse, also for the fractional part of a decimal number, which is padded with
    zeros on the left and loses its zeros on the right. *)
From Stdlib Require Import Ascii.
From stdpp Require Import pretty.
From S2P Require Import Prelude Cosmwasm.

#[local] Open Scope string_scope.
#[local] Open Scope N_scope.

(** ** Library functions *)

(** [s.split(c).collect()] *)
Fixpoint split_on (c : ascii) (s : string) : list string :=
  match s with
  | "" => [""]
  | String a s =>
      if Ascii.eqb a c then "" :: split_on c s
      else match split_on c s with
           | p :: ps => String a p :: ps
           | [] => [String a ""]
           end
  end.

(** [String::from(c).repeat(n)] *)
Fixpoint repeat_char (c : ascii) (n : nat) : string :=
  match n with O => "" | S n => String c (repeat_char c n) end.

(** [s.trim_end_matches(c)] *)
Fixpoint trim_end (c : ascii) (s : string) : string :=
  match s with
  | "" => ""
  | String a s =>
      match trim_end c s with
      | "" => if Ascii.eqb a c then "" else String a ""
      | t => String a t
      end
  end.

(** ** Numerals *)
Definition digit_of (a : ascii) : option N :=
  let n := N_of_ascii a in if (48 <=? n) && (n <=? 57) then Some (n - 48) else None.
Fixpoint parse_from (acc : N) (s : string) : option N :=
  match s with
  | "" => Some acc
  | String a s => d ← digit_of a; parse_from (10 * acc + d) s
  end.
Definition parse_dec (s : string) : option N := parse_from 0 s.

(** A decimal number with [18] fractional digits, given by its atomics: the whole
    part and, unless it is zero, the fractional part without its last zeros. *)
Definition pad18 (n : N) : string :=
  repeat_char "0" (18 - String.length (pretty n)) +:+ pretty n.
Definition dec_format (n : N) : string :=
  if n mod dec_unit =? 0 then pretty (n / dec_unit)
  else pretty (n / dec_unit) +:+ "." +:+ trim_end "0" (pad18 (n mod dec_unit)).

(** ** Splitting *)
Fixpoint free_of (c : ascii) (s : string) : bool :=
  match s with "" => true | String a s => negb (Ascii.eqb a c) && free_of c s end.

Lemma split_on_free c s : free_of c s = true → split_on c s = [s].
Proof.
  induction s as [|a s IH]; simpl; [done|]. intros [Ha Hs]%andb_prop.
  apply negb_true_iff in Ha. by rewrite Ha, IH.
Qed.

Lemma split_on_app c s1 s2 :
  free_of c s1 = true → split_on c (s1 +:+ String c s2) = s1 :: split_on c s2.
Proof.
  induction s1 as [|a s1 IH]; simpl; [by rewrite Ascii.eqb_refl|].
  intros [Ha Hs]%andb_prop. apply negb_true_iff in Ha. by rewrite Ha, IH.
Qed.

Lemma free_of_app c s1 s2 : free_of c (s1 +:+ s2) = free_of c s1 && free_of c s2.
Proof. induction s1 as [|a s1 IH]; simpl; [done|]. by rewrite IH, andb_assoc. Qed.

Lemma free_of_trim c a s : free_of c s = true → free_of c (trim_end a s) = true.
Proof.
  induction s as [|b s IH]; simpl; [done|]. intros [Hb Hs]%andb_prop. specialize (IH Hs).
  destruct (trim_end a s); [destruct (Ascii.eqb b a)|]; simpl in *; by rewrite ?Hb.
Qed.

(** ** Reading *)
Lemma digit_of_not_dot a d : digit_of a = Some d → Ascii.eqb a "." = false.
Proof. intros Hd. apply Ascii.eqb_neq. by intros ->. Qed.

Lemma parse_free acc s v : parse_from acc s = Some v → free_of "." s = true.
Proof.
  revert acc; induction s as [|a s IH]; intros acc; simpl; [done|].
  intros (d & Hd & Hs)%bind_Some. by rewrite (digit_of_not_dot _ _ Hd), (IH _ Hs).
Qed.

Lemma parse_from_app acc s1 s2 :
  parse_from acc (s1 +:+ s2) = parse_from acc s1 ≫= λ a, parse_from a s2.
Proof.
  revert acc; induction s1 as [|a s1 IH]; intros acc; simpl; [done|].
  destruct (digit_of a); simpl; [apply IH|done].
Qed.

Lemma parse_from_shift acc s v :
  parse_dec s = Some v →
  parse_from acc s = Some (acc * 10 ^ N.of_nat (String.length s) + v).
Proof.
  unfold parse_dec. enough (∀ a b v, parse_from b s = Some v →
    ∃ w, v = b * 10 ^ N.of_nat (String.length s) + w ∧
      parse_from a s = Some (a * 10 ^ N.of_nat (String.length s) + w)) as Hgen.
  { intros Hv. destruct (Hgen acc 0 v Hv) as (w & -> & ->). by rewrite N.mul_0_l, N.add_0_l. }
  clear acc v. induction s as [|c s IH]; intros a b v.
  - simpl. intros [= <-]. exists 0. by rewrite !N.mul_1_r, !N.add_0_r.
  - cbn [parse_from String.length]. intros (d & Hd & Hs)%bind_Some. rewrite Hd. simpl mbind.
    destruct (IH (10 * a + d) (10 * b + d) v Hs) as (w & -> & ->).
    exists (d * 10 ^ N.of_nat (String.length s) + w).
    rewrite Nat2N.inj_succ, N.pow_succ_r'. split; [|f_equal]; lia.
Qed.

Lemma parse_zeros k s : parse_from 0 (repeat_char "0" k +:+ s) = parse_from 0 s.
Proof. induction k as [|k IH]; simpl; done. Qed.

(** ** Printing *)
Lemma digit_of_pretty x : x < 10 → digit_of (pretty_N_char x) = Some x.
Proof.
  intros Hx. assert (x = 0 ∨ x = 1 ∨ x = 2 ∨ x = 3 ∨ x = 4 ∨ x = 5 ∨ x = 6 ∨ x = 7 ∨ x = 8 ∨ x = 9)
    as Hc by lia.
  repeat (destruct Hc as [->|Hc]; [done|]). by subst.
Qed.

Lemma parse_pretty_go x s : parse_from 0 (pretty_N_go x s) = parse_from x s.
Proof.
  revert s. induction (N.lt_wf_0 x) as [x _ IH]; intros s.
  destruct (decide (x = 0)) as [->|Hx]; [by rewrite pretty_N_go_0|].
  rewrite pretty_N_go_step by lia. rewrite IH by (apply N.div_lt; lia). simpl.
  rewrite digit_of_pretty by (apply N.mod_lt; lia). simpl. f_equal.
  symmetry. apply N.div_mod. lia.
Qed.

(** A printed number reads back. *)
Lemma parse_pretty n : parse_dec (pretty n) = Some n.
Proof.
  unfold parse_dec, pretty, pretty_N. case_decide as Hn; [by subst|]. apply parse_pretty_go.
Qed.

Lemma length_pretty_go k x s :
  x < 10 ^ N.of_nat k → (String.length (pretty_N_go x s) ≤ k + String.length s)%nat.
Proof.
  revert x s; induction k as [|k IH]; intros x s Hx.
  - change (x < 1) in Hx. assert (x = 0) as -> by lia. rewrite pretty_N_go_0. lia.
  - destruct (decide (x = 0)) as [->|Hx0]; [rewrite pretty_N_go_0; lia|].
    rewrite pretty_N_go_step by lia. etransitivity; [apply IH|simpl; lia].
    rewrite Nat2N.inj_succ, N.pow_succ_r' in Hx. apply N.Div0.div_lt_upper_bound. lia.
Qed.

Lemma length_pretty k n :
  k ≠ 0%nat → n < 10 ^ N.of_nat k → (String.length (pretty n) ≤ k)%nat.
Proof.
  intros Hk Hn. unfold pretty, pretty_N. case_decide; [simpl; lia|].
  pose proof (length_pretty_go k n "" Hn). simpl in *. lia.
Qed.

(** ** The fractional part *)
Lemma length_app_string s1 s2 :
  String.length (s1 +:+ s2) = (String.length s1 + String.length s2)%nat.
Proof. induction s1; simpl; auto. Qed.
Lemma length_repeat c n : String.length (repeat_char c n) = n.
Proof. induction n; simpl; auto. Qed.

Lemma pad18_spec n :
  n < dec_unit → parse_dec (pad18 n) = Some n ∧ String.length (pad18 n) = 18%nat.
Proof.
  intros Hn. unfold pad18. split.
  - unfold parse_dec. rewrite parse_zeros. apply parse_pretty.
  - rewrite length_app_string, length_repeat.
    pose proof (length_pretty 18 n ltac:(lia) Hn). lia.
Qed.

(** Cutting zeros off the end divides by a power of ten, exactly. *)
Lemma trim_end_spec s v :
  parse_dec s = Some v →
  ∃ w k, parse_dec (trim_end "0" s) = Some w ∧
    String.length s = (String.length (trim_end "0" s) + k)%nat ∧ v = w * 10 ^ N.of_nat k.
Proof.
  unfold parse_dec. generalize 0. revert v. induction s as [|a s IH]; intros v acc Hv.
  - exists v, 0%nat. split; [done|]. split; [done|]. by rewrite N.mul_1_r.
  - simpl in Hv. apply bind_Some in Hv as (d & Hd & Hv).
    destruct (IH _ _ Hv) as (w & k & Hw & Hlen & ->). simpl.
    destruct (trim_end "0" s) as [|b t].
    + injection Hw as Hw. simpl in Hlen.
      destruct (Ascii.eqb_spec a "0") as [->|Hne].
      * injection Hd as Hd. exists acc, (S k). split; [done|]. split; [simpl; lia|].
        rewrite Nat2N.inj_succ, N.pow_succ_r'. lia.
      * exists w, k. simpl. rewrite Hd. simpl. split; [by rewrite Hw|]. split; [lia|done].
    + exists w, k. cbn [parse_from]. rewrite Hd. split; [exact Hw|]. split; [simpl in *; lia|done].
Qed.
