(* ===== verification/BigInt.v ===== *)
(** * The bigint crate and the text of cosmwasm_std's decimals

    256-bit numbers come from the crate bigint; the program sees a [U256] as an
    array of four 64-bit words, the least significant first, and builds and takes
    apart such arrays itself. *)
From stdpp Require Import pretty.
From S2P Require Import Prelude Cosmwasm Text.

(** [U256([w0, w1, w2, w3])] *)
Record U256 := mkU256 { w0 : N; w1 : N; w2 : N; w3 : N }.
#[global] Instance U256_eq_dec : EqDecision U256.
Proof. solve_decision. Defined.

Definition u256_bound : N := 2 ^ 256.

(** The number in an array and the array of a number. *)
Definition u256_val (x : U256) : N :=
  w0 x + 2 ^ 64 * (w1 x + 2 ^ 64 * (w2 x + 2 ^ 64 * w3 x)).
Definition u256_ok (x : U256) : Prop :=
  w0 x < 2 ^ 64 ∧ w1 x < 2 ^ 64 ∧ w2 x < 2 ^ 64 ∧ w3 x < 2 ^ 64.
Definition u256 (n : N) : U256 :=
  mkU256 (n mod 2 ^ 64) (n / 2 ^ 64 mod 2 ^ 64) (n / 2 ^ 128 mod 2 ^ 64) (n / 2 ^ 192 mod 2 ^ 64).

(** ** The operations the program uses *)
Class BigInt := {
  U256_from_u64 : N → U256;
  U256_add : U256 → U256 → outcome U256;
  U256_sub : U256 → U256 → outcome U256;
  U256_mul : U256 → U256 → outcome U256;
  U256_div : U256 → U256 → outcome U256;
  U256_rem : U256 → U256 → outcome U256;
  U256_pow : U256 → U256 → outcome U256;
  U256_ge : U256 → U256 → bool;
  U256_is_zero : U256 → bool;
  U256_from_dec_str : string → option U256;
  U256_to_string : U256 → string;
}.

(** Their documented behaviour: exact up to 256 bits, a panic beyond; numerals of
    any number of digits, refused when there is another character or when the
    number is too large. *)
Class BigIntSpec (B : BigInt) : Prop := {
  U256_from_u64_spec n : n < u64_bound → U256_from_u64 n = u256 n;
  U256_add_spec a b :
    a < u256_bound → b < u256_bound →
    U256_add (u256 a) (u256 b) = if a + b <? u256_bound then Ok (u256 (a + b)) else Panic;
  U256_sub_spec a b :
    a < u256_bound → b < u256_bound →
    U256_sub (u256 a) (u256 b) = if b <=? a then Ok (u256 (a - b)) else Panic;
  U256_mul_spec a b :
    a < u256_bound → b < u256_bound →
    U256_mul (u256 a) (u256 b) = if a * b <? u256_bound then Ok (u256 (a * b)) else Panic;
  U256_div_spec a b :
    a < u256_bound → b < u256_bound → b ≠ 0 → U256_div (u256 a) (u256 b) = Ok (u256 (a / b));
  U256_rem_spec a b :
    a < u256_bound → b < u256_bound → b ≠ 0 → U256_rem (u256 a) (u256 b) = Ok (u256 (a mod b));
  U256_pow_spec a b :
    a < u256_bound → b < u256_bound → a ^ b < u256_bound →
    U256_pow (u256 a) (u256 b) = Ok (u256 (a ^ b));
  U256_ge_spec a b :
    a < u256_bound → b < u256_bound → U256_ge (u256 a) (u256 b) = (b <=? a);
  U256_is_zero_spec a : a < u256_bound → U256_is_zero (u256 a) = (a =? 0);
  U256_from_dec_str_spec s :
    U256_from_dec_str s =
      match parse_dec s with
      | Some v => if v <? u256_bound then Some (u256 v) else None
      | None => None
      end;
  U256_to_string_spec a : a < u256_bound → U256_to_string (u256 a) = pretty a;
}.

(** [Decimal::to_string] and [Decimal::from_str] of cosmwasm_std: the printed form
    is the whole part and the fractional digits without trailing zeros, and it is
    read back exactly. *)
Class DecimalText := {
  Decimal_to_string : Decimal → string;
  Decimal_from_str : string → outcome Decimal;
}.
Class DecimalTextSpec (D : DecimalText) : Prop := {
  Decimal_to_string_spec d : atomics d < u128_bound → Decimal_to_string d = dec_format (atomics d);
  Decimal_from_str_spec n : n < u128_bound → Decimal_from_str (dec_format n) = Ok (mkDecimal n);
}.

(** ** Numbers and arrays *)
Lemma u256_ok_u256 n : u256_ok (u256 n).
Proof. by repeat split; apply N.mod_lt. Qed.

Lemma u256_val_u256 n : n < u256_bound → u256_val (u256 n) = n.
Proof.
  intros Hn. unfold u256_val, u256. simpl w0. simpl w1. simpl w2. simpl w3.
  change (2 ^ 128) with (2 ^ 64 * 2 ^ 64). change (2 ^ 192) with (2 ^ 64 * (2 ^ 64 * 2 ^ 64)).
  change u256_bound with (2 ^ 64 * (2 ^ 64 * (2 ^ 64 * 2 ^ 64))) in Hn.
  rewrite <- !N.Div0.div_div. generalize dependent (2 ^ 64). intros B Hn.
  assert (n / B / B / B < B) as Hlt.
  { destruct (decide (B = 0)) as [->|]; [lia|]. do 3 (apply N.Div0.div_lt_upper_bound). lia. }
  rewrite (N.mod_small (n / B / B / B)) by done.
  rewrite (N.add_comm (n / B / B mod B)), <- N.div_mod by lia.
  rewrite (N.add_comm (n / B mod B)), <- N.div_mod by lia.
  rewrite (N.add_comm (n mod B)), <- N.div_mod by lia. done.
Qed.

Lemma u256_u256_val x : u256_ok x → u256 (u256_val x) = x.
Proof.
  destruct x as [a b c d]. unfold u256_ok, u256_val, u256. cbn [w0 w1 w2 w3]. intros (Ha & Hb & Hc & Hd).
  change (2 ^ 128) with (2 ^ 64 * 2 ^ 64). change (2 ^ 192) with (2 ^ 64 * (2 ^ 64 * 2 ^ 64)).
  rewrite <- !N.Div0.div_div. generalize dependent (2 ^ 64). intros B Ha Hb Hc Hd.
  assert (∀ x y, x < B → (x + B * y) mod B = x ∧ (x + B * y) / B = y) as Hdm.
  { intros x y Hx. rewrite (N.mul_comm B), N.Div0.mod_add, N.div_add by lia.
    by rewrite N.mod_small, N.div_small by done. }
  destruct (Hdm a (b + B * (c + B * d)) Ha) as [-> ->].
  destruct (Hdm b (c + B * d) Hb) as [-> ->]. destruct (Hdm c d Hc) as [-> ->].
  by rewrite N.mod_small.
Qed.

Lemma u256_val_lt x : u256_ok x → u256_val x < u256_bound.
Proof.
  destruct x as [a b c d]. unfold u256_ok, u256_val, u256_bound. cbn [w0 w1 w2 w3]. lia.
Qed.

Lemma u256_inj a b : a < u256_bound → b < u256_bound → u256 a = u256 b → a = b.
Proof. intros Ha Hb Heq. rewrite <- (u256_val_u256 a), <- (u256_val_u256 b) by done. by f_equal. Qed.

(** Every array of words is the array of a number. *)
Lemma u256_cases x : u256_ok x → ∃ n, n < u256_bound ∧ x = u256 n.
Proof.
  intros Hx. exists (u256_val x). split; [by apply u256_val_lt|]. symmetry. by apply u256_u256_val.
Qed.

(** 128 bits are the two lower words. *)
Lemma u256_high_zero n :
  n < u256_bound → n < u128_bound ↔ w2 (u256 n) = 0 ∧ w3 (u256 n) = 0.
Proof.
  intros Hn. simpl. split.
  - intros Hlt. rewrite (N.div_small n (2 ^ 128)), (N.div_small n (2 ^ 192)) by
      (unfold u128_bound in Hlt; lia). done.
  - intros [H2 H3]. rewrite <- (u256_val_u256 n) by done. unfold u256_val. simpl w2. simpl w3.
    rewrite H2, H3. pose proof (N.mod_lt n (2 ^ 64)). pose proof (N.mod_lt (n / 2 ^ 64) (2 ^ 64)).
    unfold u256. cbn [w0 w1]. unfold u128_bound. lia.
Qed.
