(* ===== verification/Bignumber.v ===== *)
(** * packages/bignumber/src/math.rs: 256-bit integers and decimals

    [Decimal256] has 18 fractional digits over a [U256]; [Uint256] is a [U256].
    Trait implementations are definitions named after the trait's function and the
    type involved. *)
From Stdlib Require Import Ascii.
From S2P Require Import Prelude Cosmwasm Text BigInt.

Record Decimal256 := mkDecimal256 { decimal_u256 : U256 }.
Record Uint256 := mkUint256 { uint_u256 : U256 }.
#[global] Instance Decimal256_eq_dec : EqDecision Decimal256.
Proof. solve_decision. Defined.
#[global] Instance Uint256_eq_dec : EqDecision Uint256.
Proof. solve_decision. Defined.

(** [write_str(..)] of serde's error: the text and what went wrong with it. *)
Inductive VisitError :=
  | ParsingDecimal (v : string) (e : StdError)
  | InvalidUint256 (v : string).
Definition visit_result A : Type := A + VisitError.

Module Decimal256.
Section decimal256.
Context `{B : BigInt}.

Definition MAX : Decimal256 :=
  mkDecimal256 (mkU256 (2 ^ 64 - 1) (2 ^ 64 - 1) (2 ^ 64 - 1) (2 ^ 64 - 1)).
Definition DECIMAL_FRACTIONAL : U256 := mkU256 1000000000000000000 0 0 0.

Definition one : Decimal256 := mkDecimal256 DECIMAL_FRACTIONAL.
Definition zero : Decimal256 := mkDecimal256 (mkU256 0 0 0 0).

Definition percent (x : N) : outcome Decimal256 :=
  a ← U256_mul (U256_from_u64 x) (U256_from_u64 10000000000000000);
  Ok (mkDecimal256 a).
Definition permille (x : N) : outcome Decimal256 :=
  a ← U256_mul (U256_from_u64 x) (U256_from_u64 1000000000000000);
  Ok (mkDecimal256 a).

Definition from_ratio (nominator denominator : U256) : outcome Decimal256 :=
  if U256_is_zero denominator then Panic
  else
    p ← U256_mul nominator DECIMAL_FRACTIONAL;
    q ← U256_div p denominator;
    Ok (mkDecimal256 q).

Definition from_uint256 (num : Uint256) : outcome Decimal256 :=
  a ← U256_mul (uint_u256 num) DECIMAL_FRACTIONAL; Ok (mkDecimal256 a).

Definition is_zero (d : Decimal256) : bool := U256_is_zero (decimal_u256 d).

(** [Decimal256::from_str] *)
Definition from_str (input : string) : outcome Decimal256 :=
  match split_on "." input with
  | [part0] =>
      whole ← ok_or (GenericErr "Error parsing whole") (U256_from_dec_str part0);
      whole_as_atomics ← U256_mul whole DECIMAL_FRACTIONAL;
      Ok (mkDecimal256 whole_as_atomics)
  | [part0; part1] =>
      whole ← ok_or (GenericErr "Error parsing whole") (U256_from_dec_str part0);
      fractional ← ok_or (GenericErr "Error parsing fractional") (U256_from_dec_str part1);
      let len := String.length part1 in
      exp ← ok_or (GenericErr "Cannot parse more than 18 fractional digits")
        (if (len <=? 18)%nat then Some (18 - len)%nat else None);
      fractional_factor ← U256_pow (U256_from_u64 10) (U256_from_u64 (N.of_nat exp));
      whole_as_atomics ← U256_mul whole DECIMAL_FRACTIONAL;
      f ← U256_mul fractional fractional_factor;
      a ← U256_add whole_as_atomics f;
      Ok (mkDecimal256 a)
  | _ => Err (GenericErr "Unexpected number of dots")
  end.

(** [Display::fmt]; [usize] subtraction panics below zero. *)
Definition to_string (d : Decimal256) : outcome string :=
  whole ← U256_div (decimal_u256 d) DECIMAL_FRACTIONAL;
  fractional ← U256_rem (decimal_u256 d) DECIMAL_FRACTIONAL;
  if U256_is_zero fractional then Ok (U256_to_string whole)
  else
    let fractional_string := U256_to_string fractional in
    let len := String.length fractional_string in
    zeros ← (if (len <=? 18)%nat then Ok (18 - len)%nat else Panic);
    let fractional_string := repeat_char "0" zeros +:+ fractional_string in
    Ok (U256_to_string whole +:+ "." +:+ trim_end "0" fractional_string).

Definition add (x rhs : Decimal256) : outcome Decimal256 :=
  a ← U256_add (decimal_u256 x) (decimal_u256 rhs); Ok (mkDecimal256 a).
Definition sub (x rhs : Decimal256) : outcome Decimal256 :=
  if U256_ge (decimal_u256 x) (decimal_u256 rhs) then
    a ← U256_sub (decimal_u256 x) (decimal_u256 rhs); Ok (mkDecimal256 a)
  else Panic.
Definition mul (x rhs : Decimal256) : outcome Decimal256 :=
  p ← U256_mul (decimal_u256 x) (decimal_u256 rhs);
  a ← U256_div p DECIMAL_FRACTIONAL; Ok (mkDecimal256 a).
Definition div (x rhs : Decimal256) : outcome Decimal256 :=
  if is_zero rhs then Panic
  else
    p ← U256_mul (decimal_u256 x) DECIMAL_FRACTIONAL;
    a ← U256_div p (decimal_u256 rhs); Ok (mkDecimal256 a).

(** Serde: the string that is written, and a string that is read. *)
Definition serialize (d : Decimal256) : outcome string := to_string d.
Definition visit_str (v : string) : outcome (visit_result Decimal256) :=
  match from_str v with
  | Ok d => Ok (inl d)
  | Err e => Ok (inr (ParsingDecimal v e))
  | Panic => Panic
  | OutOfFuel => OutOfFuel
  end.

Context `{D : DecimalText}.

(** [impl From<Decimal> for Decimal256] and back *)
Definition from_decimal (val : Decimal) : outcome Decimal256 :=
  unwrap (from_str (Decimal_to_string val)).
Definition into_decimal (n : Decimal256) : outcome Decimal :=
  if negb (w2 (decimal_u256 n) =? 0) then Panic
  else if negb (w3 (decimal_u256 n) =? 0) then Panic
  else s ← to_string n; unwrap (Decimal_from_str s).
End decimal256.
End Decimal256.

Module Uint256.
Section uint256.
Context `{B : BigInt}.

Definition zero : Uint256 := mkUint256 (mkU256 0 0 0 0).
Definition one : Uint256 := mkUint256 (mkU256 1 0 0 0).
Definition is_zero (x : Uint256) : bool := U256_is_zero (uint_u256 x).

Definition split_u128 (a : N) : N * N :=
  (N.shiftr a 64 mod 2 ^ 64, N.land a 18446744073709551615 mod 2 ^ 64).
Definition from_u128 (val : N) : Uint256 :=
  let '(hi, low) := split_u128 val in mkUint256 (mkU256 low hi 0 0).
Definition from_u64 (val : N) : Uint256 := mkUint256 (U256_from_u64 val).
(** [impl From<U256> for Uint256] and back; [impl From<Uint128> for Uint256] *)
Definition from_u256 (val : U256) : Uint256 := mkUint256 val.
Definition into_u256 (val : Uint256) : U256 := uint_u256 val.
Definition from_uint128 (val : Uint128) : Uint256 := from_u128 val.

(** [u128] additions and shifts stay within 128 bits: the high word is shifted by
    64 and a word is added. *)
Definition into_u128 (n : Uint256) : outcome N :=
  let arr := uint_u256 n in
  if negb (w2 arr =? 0) then Panic
  else if negb (w3 arr =? 0) then Panic
  else
    let '(hi, low) := (w1 arr, w0 arr) in
    let r := N.shiftl hi 64 mod u128_bound + low in
    if r <? u128_bound then Ok r else Panic.

(** [impl From<Uint256> for Uint128] *)
Definition into_uint128 (n : Uint256) : outcome Uint128 := into_u128 n.

Definition try_from (val : string) : outcome Uint256 :=
  u ← ok_or (GenericErr ("invalid Uint256 '" +:+ val +:+ "'")) (U256_from_dec_str val);
  Ok (mkUint256 u).
Definition from_str (input : string) : outcome Uint256 :=
  number ← ok_or (GenericErr "Error parsing number") (U256_from_dec_str input);
  Ok (mkUint256 number).
Definition to_string (n : Uint256) : string := U256_to_string (uint_u256 n).
(** [Display::fmt] *)
Definition fmt (n : Uint256) : string := U256_to_string (uint_u256 n).

Definition add (x rhs : Uint256) : outcome Uint256 :=
  a ← U256_add (uint_u256 x) (uint_u256 rhs); Ok (mkUint256 a).
Definition sub (x rhs : Uint256) : outcome Uint256 :=
  if U256_ge (uint_u256 x) (uint_u256 rhs) then
    a ← U256_sub (uint_u256 x) (uint_u256 rhs); Ok (mkUint256 a)
  else Panic.
Definition mul (x rhs : Uint256) : outcome Uint256 :=
  if is_zero x || is_zero rhs then Ok zero
  else a ← U256_mul (uint_u256 x) (uint_u256 rhs); Ok (mkUint256 a).

Definition multiply_ratio (x : Uint256) (nominator denominator : U256) : outcome Uint256 :=
  if U256_is_zero denominator then Panic
  else
    p ← U256_mul (uint_u256 x) nominator;
    val ← U256_div p denominator;
    Ok (mkUint256 val).

(** [Uint256 * Decimal256] and [Uint256 / Decimal256] *)
Definition mul_decimal (x : Uint256) (rhs : Decimal256) : outcome Uint256 :=
  if is_zero x || Decimal256.is_zero rhs then Ok zero
  else multiply_ratio x (decimal_u256 rhs) Decimal256.DECIMAL_FRACTIONAL.
Definition div_decimal (x : Uint256) (rhs : Decimal256) : outcome Uint256 :=
  if Decimal256.is_zero rhs then Panic
  else if is_zero x then Ok zero
  else multiply_ratio x Decimal256.DECIMAL_FRACTIONAL (decimal_u256 rhs).

(** [Decimal256 * Uint256] *)
Definition decimal_mul (x : Decimal256) (rhs : Uint256) : outcome Uint256 := mul_decimal rhs x.

Definition serialize (n : Uint256) : string := to_string n.
Definition visit_str (v : string) : visit_result Uint256 :=
  match U256_from_dec_str v with
  | Some u => inl (mkUint256 u)
  | None => inr (InvalidUint256 v)
  end.
End uint256.
End Uint256.
