(* ===== verification/HubMath.v ===== *)
(** * The hub's division (contracts/prism_hub/src/math.rs) *)
From S2P Require Import Prelude Cosmwasm BigInt Bignumber.

Section hub_math.
  Context `{M : Math}.

Definition DECIMAL_FRACTIONAL : Uint128 := 1000000000.

(** [a / b], through nine decimal digits of [b] *)
Definition decimal_division (a : Uint128) (b : Decimal) : outcome Uint128 :=
  d ← Uint128_mul_Decimal DECIMAL_FRACTIONAL b;
  decimal ← Decimal_from_ratio a d;
  Uint128_mul_Decimal DECIMAL_FRACTIONAL decimal.
End hub_math.

(** The same operations on decimals through 256 bits; nothing calls them. *)
Section in_256.
  Context `{B : BigInt} `{D : DecimalText}.

(** [a * b] *)
Definition decimal_multiplication_in_256 (a b : Decimal) : outcome Decimal :=
  a_u256 ← Decimal256.from_decimal a;
  b_u256 ← Decimal256.from_decimal b;
  c ← Decimal256.mul b_u256 a_u256;
  Decimal256.into_decimal c.

(** [a + b] *)
Definition decimal_summation_in_256 (a b : Decimal) : outcome Decimal :=
  a_u256 ← Decimal256.from_decimal a;
  b_u256 ← Decimal256.from_decimal b;
  c ← Decimal256.add b_u256 a_u256;
  Decimal256.into_decimal c.

(** [a - b] *)
Definition decimal_subtraction_in_256 (a b : Decimal) : outcome Decimal :=
  a_u256 ← Decimal256.from_decimal a;
  b_u256 ← Decimal256.from_decimal b;
  c ← Decimal256.sub a_u256 b_u256;
  Decimal256.into_decimal c.
End in_256.
