(* ===== verification/BignumberFacts.v ===== *)
(** * What the 256-bit numbers compute

    Every operation on the array of a number is the operation on the number. *)
From Stdlib Require Import Ascii.
From stdpp Require Import pretty.
From S2P Require Import Prelude Cosmwasm Text BigInt Bignumber HubMath.

(** The decimal and the integer with a given number of units. *)
Definition dec256 (n : N) : Decimal256 := mkDecimal256 (u256 n).
Definition uint256 (n : N) : Uint256 := mkUint256 (u256 n).

Lemma DECIMAL_FRACTIONAL_eq : Decimal256.DECIMAL_FRACTIONAL = u256 dec_unit.
Proof. vm_compute. reflexivity. Qed.
Lemma zero_eq : mkU256 0 0 0 0 = u256 0.
Proof. vm_compute. reflexivity. Qed.
Lemma dec_unit_lt : dec_unit < u256_bound.
Proof. done. Qed.
Lemma dec256_zero_eq : Decimal256.zero = dec256 0.
Proof. done. Qed.

Section arithmetic.
  Context `{B : BigInt} {BS : BigIntSpec B}.

(** ** Decimals *)
Lemma decimal_add_eq a b :
  a < u256_bound → b < u256_bound →
  Decimal256.add (dec256 a) (dec256 b) = if a + b <? u256_bound then Ok (dec256 (a + b)) else Panic.
Proof.
  intros Ha Hb. unfold Decimal256.add. simpl. rewrite U256_add_spec by done. by destruct (_ <? _).
Qed.

Lemma decimal_sub_eq a b :
  a < u256_bound → b < u256_bound →
  Decimal256.sub (dec256 a) (dec256 b) = if b <=? a then Ok (dec256 (a - b)) else Panic.
Proof.
  intros Ha Hb. unfold Decimal256.sub. simpl.
  rewrite U256_ge_spec, U256_sub_spec by done. by destruct (_ <=? _).
Qed.

Lemma decimal_mul_eq a b :
  a < u256_bound → b < u256_bound →
  Decimal256.mul (dec256 a) (dec256 b) =
    if a * b <? u256_bound then Ok (dec256 (a * b / dec_unit)) else Panic.
Proof.
  intros Ha Hb. unfold Decimal256.mul. simpl. rewrite U256_mul_spec by done.
  destruct (N.ltb_spec (a * b) u256_bound); simpl; [|done].
  by rewrite DECIMAL_FRACTIONAL_eq, U256_div_spec.
Qed.

Lemma decimal_div_eq a b :
  a < u256_bound → b < u256_bound →
  Decimal256.div (dec256 a) (dec256 b) =
    if b =? 0 then Panic
    else if a * dec_unit <? u256_bound then Ok (dec256 (a * dec_unit / b)) else Panic.
Proof.
  intros Ha Hb. unfold Decimal256.div, Decimal256.is_zero. simpl.
  rewrite U256_is_zero_spec, DECIMAL_FRACTIONAL_eq, U256_mul_spec by done.
  destruct (N.eqb_spec b 0); [done|].
  destruct (N.ltb_spec (a * dec_unit) u256_bound); simpl; [|done]. by rewrite U256_div_spec.
Qed.

Lemma decimal_from_ratio_eq a b :
  a < u256_bound → b < u256_bound →
  Decimal256.from_ratio (u256 a) (u256 b) =
    if b =? 0 then Panic
    else if a * dec_unit <? u256_bound then Ok (dec256 (a * dec_unit / b)) else Panic.
Proof. intros Ha Hb. by apply (decimal_div_eq a b). Qed.

Lemma multiply_ratio_eq x a b :
  x < u256_bound → a < u256_bound → b < u256_bound →
  Uint256.multiply_ratio (uint256 x) (u256 a) (u256 b) =
    if b =? 0 then Panic
    else if x * a <? u256_bound then Ok (uint256 (x * a / b)) else Panic.
Proof.
  intros Hx Ha Hb. unfold Uint256.multiply_ratio. simpl.
  rewrite U256_is_zero_spec, U256_mul_spec by done. destruct (N.eqb_spec b 0); [done|].
  destruct (N.ltb_spec (x * a) u256_bound); simpl; [|done]. by rewrite U256_div_spec.
Qed.

(** ** Text *)
Lemma pretty_free (n : N) : free_of "." (pretty n) = true.
Proof. eapply parse_free, parse_pretty. Qed.

Lemma frac_lt n : n mod dec_unit < dec_unit.
Proof. by apply N.mod_lt. Qed.

(** Displaying never panics and prints [dec_format]. *)
Lemma to_string_eq n :
  n < u256_bound → Decimal256.to_string (dec256 n) = Ok (dec_format n).
Proof.
  intros Hn. unfold Decimal256.to_string, dec_format. simpl. rewrite DECIMAL_FRACTIONAL_eq.
  rewrite U256_div_spec, U256_rem_spec by done. simpl. pose proof (frac_lt n) as Hf.
  assert (n / dec_unit < u256_bound) as Hq by (apply N.Div0.div_lt_upper_bound; unfold dec_unit; lia).
  assert (n mod dec_unit < u256_bound) as Hr by (pose proof dec_unit_lt; lia).
  rewrite U256_is_zero_spec, !U256_to_string_spec by done.
  destruct (N.eqb_spec (n mod dec_unit) 0); [done|].
  pose proof (length_pretty 18 (n mod dec_unit) ltac:(lia) Hf) as Hlen.
  by rewrite (proj2 (Nat.leb_le _ _)).
Qed.

(** The sum of the two parts, with each overflow of 256 bits. *)
Lemma parts_sum_eq v1 v2 k :
  v1 < u256_bound → v2 < u256_bound → (k ≤ 18)%nat →
  (fractional_factor ← U256_pow (U256_from_u64 10) (U256_from_u64 (N.of_nat k));
   whole_as_atomics ← U256_mul (u256 v1) Decimal256.DECIMAL_FRACTIONAL;
   f ← U256_mul (u256 v2) fractional_factor;
   a ← U256_add whole_as_atomics f;
   Ok (mkDecimal256 a)) =
  let n := v1 * dec_unit + v2 * 10 ^ N.of_nat k in
  if n <? u256_bound then Ok (dec256 n) else Panic.
Proof.
  intros H1 H2 Hk. cbv zeta.
  assert (10 ^ N.of_nat k ≤ 10 ^ 18) as Hk18 by (apply N.pow_le_mono_r; lia).
  rewrite !U256_from_u64_spec by (unfold u64_bound; lia).
  assert (10 ^ N.of_nat k < u256_bound) as Hkb by (unfold u256_bound; lia).
  rewrite U256_pow_spec by (done || unfold u256_bound; lia). clear Hk18.
  generalize dependent (10 ^ N.of_nat k). intros f Hf. simpl.
  rewrite DECIMAL_FRACTIONAL_eq, (U256_mul_spec v1) by done.
  destruct (N.ltb_spec (v1 * dec_unit) u256_bound) as [Hw|Hw]; simpl.
  - rewrite (U256_mul_spec v2) by done. destruct (N.ltb_spec (v2 * f) u256_bound) as [Hv|Hv]; simpl.
    + rewrite U256_add_spec by done. by destruct (_ <? _).
    + by rewrite (proj2 (N.ltb_ge _ _)) by lia.
  - by rewrite (proj2 (N.ltb_ge _ _)) by lia.
Qed.

(** A numeral with a fraction is read exactly, or refused. *)
Lemma from_str_dotted p1 p2 v1 v2 :
  parse_dec p1 = Some v1 → parse_dec p2 = Some v2 → v1 < u256_bound → v2 < u256_bound →
  Decimal256.from_str (p1 +:+ "." +:+ p2) =
    if (String.length p2 <=? 18)%nat then
      let n := v1 * dec_unit + v2 * 10 ^ N.of_nat (18 - String.length p2) in
      if n <? u256_bound then Ok (dec256 n) else Panic
    else Err (GenericErr "Cannot parse more than 18 fractional digits").
Proof.
  intros H1 H2 Hb1 Hb2. unfold Decimal256.from_str.
  change ("." +:+ p2) with (String "." p2).
  rewrite split_on_app, split_on_free by (eapply parse_free; eassumption).
  rewrite !U256_from_dec_str_spec, H1, H2, !(proj2 (N.ltb_lt _ u256_bound)) by done.
  simpl mbind. destruct (Nat.leb_spec (String.length p2) 18) as [Hlen|Hlen]; [|done].
  simpl mbind. apply parts_sum_eq; [done..|lia].
Qed.

Lemma from_str_two p1 p2 v1 v2 :
  parse_dec p1 = Some v1 → parse_dec p2 = Some v2 → (String.length p2 ≤ 18)%nat →
  let n := v1 * dec_unit + v2 * 10 ^ N.of_nat (18 - String.length p2) in
  n < u256_bound → Decimal256.from_str (p1 +:+ "." +:+ p2) = Ok (dec256 n).
Proof.
  intros H1 H2 Hlen n Hn.
  assert (10 ^ N.of_nat (18 - String.length p2) ≠ 0) as Hk by (apply N.pow_nonzero; lia).
  assert (v1 < u256_bound ∧ v2 < u256_bound) as [? ?] by (unfold n, dec_unit in Hn; nia).
  rewrite (from_str_dotted _ _ v1 v2), (proj2 (Nat.leb_le _ _)) by done. cbv zeta. fold n.
  by rewrite (proj2 (N.ltb_lt _ _)).
Qed.

Lemma from_str_one p v :
  parse_dec p = Some v → v * dec_unit < u256_bound →
  Decimal256.from_str p = Ok (dec256 (v * dec_unit)).
Proof.
  intros Hp Hn. unfold Decimal256.from_str. rewrite split_on_free by by eapply parse_free.
  assert (v ≤ v * dec_unit) by (unfold dec_unit; lia).
  rewrite U256_from_dec_str_spec, Hp, (proj2 (N.ltb_lt _ u256_bound)) by lia. simpl.
  rewrite DECIMAL_FRACTIONAL_eq, U256_mul_spec by (done || lia).
  by rewrite (proj2 (N.ltb_lt _ u256_bound)).
Qed.

(** Reading what was printed. *)
Lemma from_str_format n :
  n < u256_bound → Decimal256.from_str (dec_format n) = Ok (dec256 n).
Proof.
  intros Hn. unfold dec_format. pose proof (N.div_mod n dec_unit ltac:(done)) as Hdm.
  destruct (N.eqb_spec (n mod dec_unit) 0) as [Hz|Hz].
  - rewrite (from_str_one _ (n / dec_unit)); [f_equal; f_equal; lia|apply parse_pretty|lia].
  - destruct (pad18_spec _ (frac_lt n)) as [Hp Hl].
    destruct (trim_end_spec _ _ Hp) as (w & k & Hw & Hlen & Hv). rewrite Hl in Hlen.
    assert (18 - String.length (trim_end "0" (pad18 (n mod dec_unit))) = k)%nat as Hk by lia.
    assert (n = n / dec_unit * dec_unit + w * 10 ^ N.of_nat k) as Heq by lia.
    rewrite (from_str_two _ _ (n / dec_unit) w); [|apply parse_pretty|exact Hw|lia|];
      rewrite Hk, <- Heq; done.
Qed.
End arithmetic.

(** ** Conversions *)
Section conversions.
  Context `{B : BigInt} {BS : BigIntSpec B} `{D : DecimalText} {DS : DecimalTextSpec D}.

Lemma u128_lt_u256 n : n < u128_bound → n < u256_bound.
Proof. unfold u128_bound, u256_bound. lia. Qed.

Lemma from_decimal_eq d :
  atomics d < u128_bound → Decimal256.from_decimal d = Ok (dec256 (atomics d)).
Proof.
  intros Hd. unfold Decimal256.from_decimal. rewrite Decimal_to_string_spec by done.
  by rewrite from_str_format by by apply u128_lt_u256.
Qed.

(** The two assertions on the upper words are the test for 128 bits. *)
Lemma high_words_test {A} n (o : outcome A) :
  n < u256_bound →
  (if negb (w2 (u256 n) =? 0) then Panic else if negb (w3 (u256 n) =? 0) then Panic else o) =
  if n <? u128_bound then o else Panic.
Proof.
  intros Hn. pose proof (u256_high_zero n Hn) as Hz.
  destruct (N.eqb_spec (w2 (u256 n)) 0), (N.eqb_spec (w3 (u256 n)) 0),
    (N.ltb_spec n u128_bound); cbn [negb]; try done; exfalso; lia.
Qed.

Lemma into_decimal_eq n :
  n < u256_bound →
  Decimal256.into_decimal (dec256 n) = if n <? u128_bound then Ok (mkDecimal n) else Panic.
Proof.
  intros Hn. unfold Decimal256.into_decimal. cbn [decimal_u256 dec256].
  rewrite high_words_test by done. destruct (N.ltb_spec n u128_bound); [|done].
  rewrite to_string_eq by done. simpl. by rewrite Decimal_from_str_spec.
Qed.

(** [split_u128] is the division by 2^64. *)
Lemma from_u128_eq n : n < u128_bound → Uint256.from_u128 n = uint256 n.
Proof.
  intros Hn. unfold Uint256.from_u128, Uint256.split_u128, uint256, u256.
  change 18446744073709551615 with (N.ones 64).
  rewrite N.land_ones, N.shiftr_div_pow2, N.Div0.mod_mod.
  rewrite (N.div_small n (2 ^ 128)), (N.div_small n (2 ^ 192)) by (unfold u128_bound in Hn; lia).
  done.
Qed.

Lemma into_u128_eq n :
  n < u256_bound →
  Uint256.into_u128 (uint256 n) = if n <? u128_bound then Ok n else Panic.
Proof.
  intros Hn. unfold Uint256.into_u128. cbn [uint_u256 uint256].
  rewrite high_words_test by done. destruct (N.ltb_spec n u128_bound) as [Hlt|]; [|done].
  pose proof (proj1 (u256_high_zero n Hn) Hlt) as [H2 H3].
  assert (w0 (u256 n) + 2 ^ 64 * w1 (u256 n) = n) as Hval.
  { rewrite <- (u256_val_u256 n Hn) at 3. unfold u256_val. rewrite H2, H3. lia. }
  rewrite N.shiftl_mul_pow2, N.mod_small by (unfold u128_bound in *; lia).
  replace (w1 (u256 n) * 2 ^ 64 + w0 (u256 n)) with n by lia.
  by rewrite (proj2 (N.ltb_lt _ _)).
Qed.

(** ** The unused helpers of the hub *)
Lemma multiplication_in_256_eq a b :
  atomics a < u128_bound → atomics b < u128_bound →
  decimal_multiplication_in_256 a b =
    let n := atomics a * atomics b / dec_unit in
    if n <? u128_bound then Ok (mkDecimal n) else Panic.
Proof.
  intros Ha Hb. unfold decimal_multiplication_in_256. rewrite !from_decimal_eq by done. simpl.
  rewrite decimal_mul_eq by (by apply u128_lt_u256).
  assert (atomics b * atomics a < u256_bound) as Hp.
  { change u256_bound with (u128_bound * u128_bound). by apply N.mul_lt_mono. }
  rewrite (proj2 (N.ltb_lt _ _)) by done. simpl. rewrite (N.mul_comm (atomics b)) in *.
  rewrite into_decimal_eq; [done|]. apply N.Div0.div_lt_upper_bound. unfold dec_unit. lia.
Qed.

Lemma summation_in_256_eq a b :
  atomics a < u128_bound → atomics b < u128_bound →
  decimal_summation_in_256 a b =
    let n := atomics a + atomics b in
    if n <? u128_bound then Ok (mkDecimal n) else Panic.
Proof.
  intros Ha Hb. unfold decimal_summation_in_256. rewrite !from_decimal_eq by done. simpl.
  rewrite decimal_add_eq by (by apply u128_lt_u256). rewrite (N.add_comm (atomics b)).
  assert (atomics a + atomics b < u256_bound) as Hp by (unfold u128_bound, u256_bound in *; lia).
  rewrite (proj2 (N.ltb_lt _ u256_bound)) by done. simpl. by rewrite into_decimal_eq.
Qed.

Lemma subtraction_in_256_eq a b :
  atomics a < u128_bound → atomics b < u128_bound →
  decimal_subtraction_in_256 a b =
    if atomics b <=? atomics a then Ok (mkDecimal (atomics a - atomics b)) else Panic.
Proof.
  intros Ha Hb. unfold decimal_subtraction_in_256. rewrite !from_decimal_eq by done. simpl.
  rewrite decimal_sub_eq by (by apply u128_lt_u256).
  destruct (N.leb_spec (atomics b) (atomics a)); simpl; [|done].
  rewrite into_decimal_eq by (unfold u128_bound, u256_bound in *; lia).
  by rewrite (proj2 (N.ltb_lt _ _)) by lia.
Qed.
End conversions.
