(* ===== verification/RefBigInt.v ===== *)
(** * A concrete 256-bit arithmetic

    Operations that satisfy every law of BigInt.v, to evaluate the theorems on. *)
From stdpp Require Import pretty.
From S2P Require Import Prelude Cosmwasm Text BigInt Bignumber BignumberFacts.

(** A number that fits, or the panic. *)
Definition fit (n : N) : outcome U256 := if n <? u256_bound then Ok (u256 n) else Panic.

#[local] Instance ref_bigint : BigInt := {|
  U256_from_u64 := u256;
  U256_add x y := fit (u256_val x + u256_val y);
  U256_sub x y := if u256_val y <=? u256_val x then Ok (u256 (u256_val x - u256_val y)) else Panic;
  U256_mul x y := fit (u256_val x * u256_val y);
  U256_div x y := if u256_val y =? 0 then Panic else Ok (u256 (u256_val x / u256_val y));
  U256_rem x y := if u256_val y =? 0 then Panic else Ok (u256 (u256_val x mod u256_val y));
  U256_pow x y := fit (u256_val x ^ u256_val y);
  U256_ge x y := u256_val y <=? u256_val x;
  U256_is_zero x := u256_val x =? 0;
  U256_from_dec_str s :=
    match parse_dec s with
    | Some v => if v <? u256_bound then Some (u256 v) else None
    | None => None
    end;
  U256_to_string x := pretty (u256_val x);
|}.
#[local] Instance ref_bigint_spec : BigIntSpec ref_bigint.
Proof.
  split; simpl; intros; rewrite ?u256_val_u256 by done; try done.
  - by rewrite (proj2 (N.eqb_neq _ _)).
  - by rewrite (proj2 (N.eqb_neq _ _)).
  - unfold fit. by rewrite (proj2 (N.ltb_lt _ _)).
Qed.

(** Decimals are read by the 256-bit reader. *)
#[local] Instance ref_text : DecimalText := {|
  Decimal_to_string d := dec_format (atomics d);
  Decimal_from_str s :=
    d ← Decimal256.from_str s;
    let n := u256_val (decimal_u256 d) in
    if n <? u128_bound then Ok (mkDecimal n) else Err HostErr;
|}.
#[local] Instance ref_text_spec : DecimalTextSpec ref_text.
Proof.
  split; simpl; [done|]. intros n Hn.
  rewrite from_str_format by by apply u128_lt_u256. simpl.
  rewrite u256_val_u256 by by apply u128_lt_u256. by rewrite (proj2 (N.ltb_lt _ _)).
Qed.
Definition ref_big : BigInt := ref_bigint.
Definition ref_big_spec : BigIntSpec ref_big := ref_bigint_spec.
Definition ref_decimal_text : DecimalText := ref_text.
Definition ref_decimal_text_spec : DecimalTextSpec ref_decimal_text := ref_text_spec.
