(* ===== verification/UnitTests.v ===== *)
(** * The unit tests of the packages, on the model

    The [mod test] of bignumber, signed_integers and of the hub's math.rs, one
    definition per test function, true when every assertion of the test holds; the
    [Example]s at the end run them.  They check that the definitions of
    Bignumber.v, SignedInteger.v and HubMath.v compute what the code computes. *)
From S2P Require Import Prelude Bytes Cosmwasm RefHost Text BigInt Bignumber BignumberFacts.
From S2P Require Import RefBigInt.
From S2P Require Import SignedInteger HubMath.

(** ** Assertions *)
Section assertions.
  Context {A : Type} `{!EqDecision A}.

(** [assert_eq!(o.unwrap(), a)]: the call returns [a]. *)
Definition returns_value (o : outcome A) (a : A) : bool :=
  match o with Ok x => bool_decide (x = a) | _ => false end.
(** [assert_eq!(o1, o2)]: both calls return, the same value. *)
Definition same_value (o1 o2 : outcome A) : bool :=
  match o2 with Ok x => returns_value o1 x | _ => false end.
(** [match o.unwrap_err() { GenericErr { msg } => assert_eq!(msg, ..) }] *)
Definition fails_with (o : outcome A) (expected : string) : bool :=
  match o with Err (GenericErr msg) => String.eqb msg expected | _ => false end.
(** [#[should_panic]] *)
Definition panics (o : outcome A) : bool := match o with Panic => true | _ => false end.
End assertions.

Definition all_hold (l : list bool) : bool := forallb (λ b, b) l.
(** A JSON string: the text between quotation marks. *)
Definition json (s : string) : bytes := 34 :: bytes_of_string s ++ [34].

Section bignumber.
  Context `{B : BigInt} `{S : Serde}.
Import Decimal256.

(** ** packages/bignumber/src/math.rs: Decimal256 *)
Definition words (d : outcome Decimal256) : outcome U256 := d ← d; Ok (decimal_u256 d).
Definition zero_at (d : outcome Decimal256) : outcome bool := d ← d; Ok (is_zero d).
Definition decimal_one_test : bool := bool_decide (decimal_u256 one = DECIMAL_FRACTIONAL).
Definition decimal_zero_test : bool := bool_decide (decimal_u256 zero = U256_from_u64 0).
Definition decimal_percent_test : bool :=
  same_value (words (percent 50)) (U256_div DECIMAL_FRACTIONAL (U256_from_u64 2)).
Definition decimal_permille_test : bool :=
  same_value (words (permille 125)) (U256_div DECIMAL_FRACTIONAL (U256_from_u64 8)).

Definition ratio (n d : N) : outcome Decimal256 := from_ratio (U256_from_u64 n) (U256_from_u64 d).
Definition decimal_from_ratio_works_test : bool := all_hold
  [returns_value (ratio 1 1) one; returns_value (ratio 53 53) one; returns_value (ratio 125 125) one;
   same_value (ratio 3 2) (percent 150); same_value (ratio 150 100) (percent 150);
   same_value (ratio 333 222) (percent 150);
   same_value (ratio 1 8) (permille 125); same_value (ratio 125 1000) (permille 125);
   returns_value (ratio 1 3) (mkDecimal256 (U256_from_u64 333333333333333333));
   returns_value (ratio 2 3) (mkDecimal256 (U256_from_u64 666666666666666666))].
Definition decimal_from_ratio_panics_for_zero_denominator_test : bool := panics (ratio 1 0).

Definition decimal_from_str_works_test : bool := all_hold
  [same_value (from_str EmptyString) (percent 0); same_value (from_str "0") (percent 0);
   same_value (from_str "1") (percent 100); same_value (from_str "5") (percent 500);
   same_value (from_str "42") (percent 4200); same_value (from_str "000") (percent 0);
   same_value (from_str "001") (percent 100); same_value (from_str "005") (percent 500);
   same_value (from_str "0042") (percent 4200);
   same_value (from_str "1.") (percent 100); same_value (from_str "1.0") (percent 100);
   same_value (from_str "1.5") (percent 150); same_value (from_str "0.5") (percent 50);
   same_value (from_str "0.123") (permille 123);
   same_value (from_str "40.00") (percent 4000); same_value (from_str "04.00") (percent 400);
   same_value (from_str "00.40") (percent 40); same_value (from_str "00.04") (percent 4);
   returns_value (from_str "7.123456789012345678") (mkDecimal256 (U256_from_u64 7123456789012345678));
   returns_value (from_str "7.999999999999999999") (mkDecimal256 (U256_from_u64 7999999999999999999));
   returns_value
     (from_str "115792089237316195423570985008687907853269984665640564039457.584007913129639935") MAX].
Definition decimal_from_str_errors_for_broken_whole_part_test : bool := all_hold
  [fails_with (from_str " ") "Error parsing whole"; fails_with (from_str "-1") "Error parsing whole"].
Definition decimal_from_str_errors_for_broken_fractinal_part_test : bool := all_hold
  [fails_with (from_str "1. ") "Error parsing fractional";
   fails_with (from_str "1.e") "Error parsing fractional";
   fails_with (from_str "1.2e3") "Error parsing fractional"].
Definition decimal_from_str_errors_for_more_than_18_fractional_digits_test : bool := all_hold
  [fails_with (from_str "7.1234567890123456789") "Cannot parse more than 18 fractional digits";
   fails_with (from_str "7.1230000000000000000") "Cannot parse more than 18 fractional digits"].
Definition decimal_from_str_errors_for_invalid_number_of_dots_test : bool := all_hold
  [fails_with (from_str "1.2.3") "Unexpected number of dots";
   fails_with (from_str "1.2.3.4") "Unexpected number of dots"].
Definition decimal_from_str_errors_for_more_than_max_value_integer_part_test : bool :=
  panics (from_str "115792089237316195423570985008687907853269984665640564039458").
Definition decimal_from_str_errors_for_more_than_max_value_integer_part_with_decimal_test : bool :=
  panics (from_str "115792089237316195423570985008687907853269984665640564039458.0").
Definition decimal_from_str_errors_for_more_than_max_value_decimal_part_test : bool :=
  panics (from_str "115792089237316195423570985008687907853269984665640564039457.584007913129639936").

Definition decimal_is_zero_works_test : bool := all_hold
  [is_zero zero; returns_value (zero_at (percent 0)) true; returns_value (zero_at (permille 0)) true;
   negb (is_zero one); returns_value (zero_at (percent 123)) false;
   returns_value (zero_at (permille 1234)) false].
Definition one_and_a_half : outcome Decimal256 := p ← percent 50; add one p.
Definition decimal_add_test : bool :=
  same_value (words one_and_a_half)
    (p ← U256_mul DECIMAL_FRACTIONAL (U256_from_u64 3); U256_div p (U256_from_u64 2)).
Definition decimal_sub_test : bool := same_value (percent 50) (p ← percent 50; sub one p).
Definition decimal_mul_test : bool :=
  same_value (percent 25) (p ← percent 50; p' ← percent 50; mul p p').
Definition decimal_div_test : bool :=
  same_value (add one one) (p ← percent 50; p' ← percent 25; div p p').

Definition printed (d : outcome Decimal256) : outcome string := d ← d; to_string d.
Definition atomics_printed (n : N) : outcome string := to_string (mkDecimal256 (U256_from_u64 n)).
Definition decimal_to_string_test : bool := all_hold
  [returns_value (to_string zero) "0"; returns_value (to_string one) "1";
   returns_value (printed (percent 500)) "5"; returns_value (printed (percent 125)) "1.25";
   returns_value (printed (percent 42638)) "426.38"; returns_value (printed (percent 1)) "0.01";
   returns_value (printed (permille 987)) "0.987";
   returns_value (atomics_printed 1) "0.000000000000000001";
   returns_value (atomics_printed 10) "0.00000000000000001";
   returns_value (atomics_printed 100) "0.0000000000000001";
   returns_value (atomics_printed 1000) "0.000000000000001";
   returns_value (atomics_printed 10000) "0.00000000000001";
   returns_value (atomics_printed 100000) "0.0000000000001";
   returns_value (atomics_printed 1000000) "0.000000000001";
   returns_value (atomics_printed 10000000) "0.00000000001";
   returns_value (atomics_printed 100000000) "0.0000000001";
   returns_value (atomics_printed 1000000000) "0.000000001";
   returns_value (atomics_printed 10000000000) "0.00000001";
   returns_value (atomics_printed 100000000000) "0.0000001";
   returns_value (atomics_printed 10000000000000) "0.00001";
   returns_value (atomics_printed 100000000000000) "0.0001";
   returns_value (atomics_printed 1000000000000000) "0.001";
   returns_value (atomics_printed 10000000000000000) "0.01";
   returns_value (atomics_printed 100000000000000000) "0.1"].

(** [to_vec] writes the string of [serialize] as JSON, [from_slice] reads one and
    hands it to [visit_str]. *)
Definition to_vec (d : outcome Decimal256) : outcome bytes :=
  d ← d; s ← serialize d; string_to_vec s.
Definition from_slice (k : bytes) : outcome (visit_result Decimal256) :=
  s ← string_from_slice k; visit_str s.
Definition read_as (k : bytes) (d : outcome Decimal256) : bool :=
  match from_slice k with Ok (inl x) => same_value (Ok x) d | _ => false end.
Definition decimal_serialize_test : bool := all_hold
  [returns_value (to_vec (Ok zero)) (json "0"); returns_value (to_vec (Ok one)) (json "1");
   returns_value (to_vec (percent 8)) (json "0.08"); returns_value (to_vec (percent 87)) (json "0.87");
   returns_value (to_vec (percent 876)) (json "8.76");
   returns_value (to_vec (percent 8765)) (json "87.65")].
Definition decimal_deserialize_test : bool := all_hold
  [read_as (json "0") (Ok zero); read_as (json "1") (Ok one); read_as (json "000") (Ok zero);
   read_as (json "001") (Ok one); read_as (json "0.08") (percent 8); read_as (json "0.87") (percent 87);
   read_as (json "8.76") (percent 876); read_as (json "87.65") (percent 8765)].
End bignumber.

(** ** packages/bignumber/src/math.rs: Uint256 *)
Section uint256.
  Context `{B : BigInt} `{S : Serde}.
Import Uint256.

Definition to_and_from_uint256_test : bool := all_hold
  [bool_decide (U256_from_u64 12345 = uint_u256 (from_u64 12345)); String.eqb "12345" (fmt (from_u64 12345));
   match try_from "34567" with
   | Ok a => bool_decide (U256_from_u64 34567 = uint_u256 a) && String.eqb "34567" (fmt a)
   | _ => false
   end;
   negb (is_ok (try_from "1.23"))].
Definition uint256_is_zero_works_test : bool := all_hold
  [is_zero zero; is_zero (from_u64 0); negb (is_zero (from_u64 1)); negb (is_zero (from_u64 123))].
Definition uint256_json_test : bool :=
  let orig := from_u64 1234567890987654321 in
  match string_to_vec (serialize orig) with
  | Ok serialized =>
      bool_decide (serialized = json "1234567890987654321") &&
      match string_from_slice serialized with
      | Ok s => match visit_str s with inl parsed => bool_decide (parsed = orig) | inr _ => false end
      | _ => false
      end
  | _ => false
  end.
(** [a < b] is not [a >= b]. *)
Definition uint256_compare_test : bool :=
  let a := from_u64 12345 in let b := from_u64 23456 in
  all_hold [negb (U256_ge (into_u256 a) (into_u256 b)); U256_ge (into_u256 b) (into_u256 a);
    bool_decide (a = from_u64 12345)].
Definition uint256_math_test : bool :=
  let a := from_u64 12345 in let b := from_u64 23456 in
  all_hold [returns_value (add a b) (from_u64 35801); returns_value (sub b a) (from_u64 11111);
    returns_value (add (from_u64 300000) b) (from_u64 323456)].
Definition uint256_math_sub_underflow_test : bool := panics (sub (from_u64 12345) (from_u64 23456)).
Definition uint256_math_overflow_panics_test : bool :=
  let almost_max := from_u256 (mkU256 18446744073709551615 18446744073709551615
    18446744073709551615 18446744073709551615) in
  panics (add almost_max (from_u64 12)).
Definition uint256_decimal_multiply_test : bool := all_hold
  [returns_value (right ← one_and_a_half; mul_decimal (from_u64 300) right) (from_u64 450);
   returns_value (mul_decimal (from_u64 300) Decimal256.zero) (from_u64 0);
   returns_value (right ← one_and_a_half; mul_decimal zero right) zero].

Definition five_hundred_times (n d : N) : outcome Uint256 :=
  multiply_ratio (from_u64 500) (U256_from_u64 n) (U256_from_u64 d).
Definition u256_multiply_ratio_works_test : bool := all_hold
  [returns_value (five_hundred_times 1 1) (from_u64 500);
   returns_value (five_hundred_times 3 3) (from_u64 500);
   returns_value (five_hundred_times 654321 654321) (from_u64 500);
   returns_value (five_hundred_times 3 2) (from_u64 750);
   returns_value (five_hundred_times 333333 222222) (from_u64 750);
   returns_value (five_hundred_times 2 3) (from_u64 333);
   returns_value (five_hundred_times 222222 333333) (from_u64 333);
   returns_value (five_hundred_times 5 6) (from_u64 416);
   returns_value (five_hundred_times 100 120) (from_u64 416)].
Definition u256_from_u128_test : bool := all_hold
  [bool_decide (from_u64 100 = from_u128 100);
   String.eqb (fmt (from_u128 1000000000000000000000000)) "1000000000000000000000000"].
Definition u256_multiply_ratio_panics_for_zero_denominator_test : bool := panics (five_hundred_times 1 0).
Definition u256_zero_one_test : bool := all_hold
  [bool_decide (uint_u256 zero = U256_from_u64 0); bool_decide (uint_u256 one = U256_from_u64 1)].
Definition u256_into_u128_test : bool :=
  returns_value (into_u128 (from_u128 1234556700000000000999)) 1234556700000000000999.
Definition u256_into_u128_panics_for_overflow_test : bool :=
  panics (a ← from_str "2134982317498312749832174923184732198471983247"; into_u128 a).
Definition decimal_uint256_multiply_test : bool := all_hold
  [returns_value (left ← one_and_a_half; decimal_mul left (from_u64 300)) (from_u64 450);
   returns_value (decimal_mul Decimal256.zero (from_u64 300)) (from_u64 0);
   returns_value (left ← one_and_a_half; decimal_mul left (from_u64 0)) (from_u64 0)].
End uint256.

(** ** packages/signed_integers and contracts/prism_hub/src/math.rs *)
Section hub_packages.
  Context `{M : Math} `{B : BigInt} `{D : DecimalText}.

Definition from_subtraction_test : bool := all_hold
  [match from_subtraction 1000010 1000000 with
   | Ok d => (magnitude d =? 10) && negb (negative d) | _ => false end;
   match from_subtraction 1000000 1100000 with
   | Ok d => (magnitude d =? 100000) && negative d | _ => false end].

Definition test_decimal_division : bool :=
  returns_value (b ← Decimal_from_ratio 10 50; decimal_division 100 b) 500.
(** [to_string] of what a function of two decimals returns. *)
Definition text_of (f : Decimal → Decimal → outcome Decimal) (a b : outcome Decimal) : outcome string :=
  a ← a; b ← b; res ← f a b; Ok (Decimal_to_string res).
Definition test_decimal_multiplication : bool :=
  returns_value (text_of decimal_multiplication_in_256 (Decimal_from_ratio 100 1)
    (Decimal_from_ratio 1111111 10000000)) "11.11111".
Definition test_decimal_sumation : bool :=
  returns_value (text_of decimal_summation_in_256 (Decimal_from_ratio 20 50)
    (Decimal_from_ratio 10 50)) "0.6".
Definition test_decimal_subtraction : bool :=
  returns_value (text_of decimal_subtraction_in_256 (Decimal_from_ratio 20 50)
    (Decimal_from_ratio 10 50)) "0.2".
(** The file has these three twice, under both names. *)
Definition test_decimal_multiplication_in_256 : bool :=
  returns_value (text_of decimal_multiplication_in_256 (Decimal_from_ratio 100 1)
    (Decimal_from_ratio 1111111 10000000)) "11.11111".
Definition test_decimal_sumation_in_256 : bool :=
  returns_value (text_of decimal_summation_in_256 (Decimal_from_ratio 20 50)
    (Decimal_from_ratio 10 50)) "0.6".
Definition test_decimal_subtraction_in_256 : bool :=
  returns_value (text_of decimal_subtraction_in_256 (Decimal_from_ratio 20 50)
    (Decimal_from_ratio 10 50)) "0.2".
End hub_packages.

(** ** The runs *)
#[local] Existing Instances ref_big ref_decimal_text.

Example decimal256_tests_pass :
  all_hold [decimal_one_test; decimal_zero_test; decimal_percent_test; decimal_permille_test;
    decimal_from_ratio_works_test; decimal_from_ratio_panics_for_zero_denominator_test;
    decimal_is_zero_works_test; decimal_add_test; decimal_sub_test; decimal_mul_test; decimal_div_test;
    decimal_to_string_test; decimal_serialize_test; decimal_deserialize_test] = true.
Proof. vm_compute. reflexivity. Qed.

Example from_str_tests_pass :
  all_hold [decimal_from_str_works_test; decimal_from_str_errors_for_broken_whole_part_test;
    decimal_from_str_errors_for_broken_fractinal_part_test;
    decimal_from_str_errors_for_more_than_18_fractional_digits_test;
    decimal_from_str_errors_for_invalid_number_of_dots_test;
    decimal_from_str_errors_for_more_than_max_value_integer_part_test;
    decimal_from_str_errors_for_more_than_max_value_integer_part_with_decimal_test;
    decimal_from_str_errors_for_more_than_max_value_decimal_part_test] = true.
Proof. vm_compute. reflexivity. Qed.

Example uint256_tests_pass :
  all_hold [to_and_from_uint256_test; uint256_is_zero_works_test; uint256_json_test;
    uint256_compare_test; uint256_math_test; uint256_math_sub_underflow_test;
    uint256_math_overflow_panics_test; uint256_decimal_multiply_test; u256_multiply_ratio_works_test;
    u256_from_u128_test; u256_multiply_ratio_panics_for_zero_denominator_test; u256_zero_one_test;
    u256_into_u128_test; u256_into_u128_panics_for_overflow_test; decimal_uint256_multiply_test] = true.
Proof. vm_compute. reflexivity. Qed.

Example hub_packages_tests_pass :
  all_hold [from_subtraction_test; test_decimal_division; test_decimal_multiplication;
    test_decimal_sumation; test_decimal_subtraction; test_decimal_multiplication_in_256;
    test_decimal_sumation_in_256; test_decimal_subtraction_in_256] = true.
Proof. vm_compute. reflexivity. Qed.
