(* ===== verification/HubCore.v ===== *)
(** * Guards and slashing (utility.rs, and the parts of contract.rs that the
      other handlers call) *)
From S2P Require Import Prelude Bytes Cosmwasm Protocol HubState.

(** ** utility.rs *)
Definition MAINNET_UNDELEGATION_TIME : N := 1814400.
Definition COIN_DENOM : string := "uluna".

Section core.
  Context `{H : Host}.

Definition unwrap_assert_admin (admin : AdminSlot) (sender : Addr) : outcome () :=
  match admin_assert admin sender with
  | inr _ => Ok ()
  | inl NotAdmin => Err (GenericErr "Caller is not admin")
  | inl (AdminStd std_error) => Err std_error
  end.

(** Every check of the source builds its error and drops it: the statement
    [StdError::generic_err(..);] has no [return]. *)
Definition validate_params (msg : InstantiateMsg) : outcome () :=
  let _ := if MAINNET_UNDELEGATION_TIME <? im_epoch_period msg
    then Some (GenericErr "epoch period cannot be more than mainnet undelegation period")
    else None in
  let _ := if Decimal_lt (im_er_threshold msg) Decimal_one
    then Some (GenericErr "exchange rate threshold should be more than one") else None in
  let _ := if Decimal_lt Decimal_one (im_protocol_fee msg)
    then Some (GenericErr "Protocol fee should not be more than 1") else None in
  let _ := if MAINNET_UNDELEGATION_TIME <? im_unbonding_period msg
    then Some (GenericErr "unbonding period cannot be more than mainnet undelegation period")
    else None in
  let _ := if negb (String.eqb (im_underlying_coin_denom msg) COIN_DENOM)
    then Some (GenericErr "underlying coin denom should be uluna") else None in
  Ok ().

Definition is_contract_paused (s : HubStore) : outcome (Response WasmBody) :=
  is_paused ← load_pause s;
  if (is_paused : bool)
  then Err (GenericErr "Contract is paused cannot perform the tx")
  else Ok (mkResponse [] []).

(** [funds.iter().find(|x| x.denom == d && x.amount > 0)] *)
Definition find_payment (d : string) (funds : list Coin) : option Coin :=
  List.find (λ x, String.eqb (denom x) d && (0 <? amount x)) funds.

(** ** contract.rs: the token's supply and slashing *)
Definition query_total_issued (q : Querier) (s : HubStore) : outcome Uint128 :=
  config ← load_config s;
  token_raw ← unwrap_option (token_contract config);
  token_address ← addr_humanize token_raw;
  token_info ← query_token_info q token_address;
  Ok (total_supply token_info).

(** The [for] loop over the delegations. *)
Definition sum_delegations (coin_denom : string) (delegations : list Delegation)
    : outcome Uint128 :=
  fold_o (λ actual_total_bonded delegation,
      if String.eqb (denom (del_amount delegation)) coin_denom
      then Uint128_add actual_total_bonded (amount (del_amount delegation))
      else Ok actual_total_bonded) delegations 0.

Definition slashing (q : Querier) (env : Env) : cm HubStore () :=
  params ← reads load_parameters;
  let coin_denom := underlying_coin_denom params in
  state ← reads load_state;
  let state_total_bonded := total_bond_amount state in
  delegations ← lift (query_all_delegations q (contract_address env));
  match delegations with
  | [] => mret ()
  | _ :: _ =>
      actual_total_bonded ← lift (sum_delegations coin_denom delegations);
      total_issued ← reads (query_total_issued q);
      current_batch ← reads load_current_batch;
      let current_requested_fee := requested_with_fee current_batch in
      if actual_total_bonded <? state_total_bonded
      then update_state (λ state,
             update_exchange_rate total_issued current_requested_fee
               (set_total_bond_amount actual_total_bonded state))
      else mret ()
  end.

Definition execute_slashing (q : Querier) (env : Env) : cm HubStore (Response WasmBody) :=
  slashing q env ;;
  state ← reads load_state;
  mret (mkResponse [] [("action", AStr "check_slashing");
                       ("new_exchange_rate", ADec (exchange_rate state))]).
End core.
