(* ===== verification/HubConfig.v ===== *)
(** * Administration (config.rs and migration.rs) *)
From S2P Require Import Prelude Bytes Cosmwasm Protocol HubState HubCore.

Section config.
  Context `{H : Host}.

(** ** config.rs *)
Definition execute_update_params (info : MessageInfo)
    (epoch_period_ unbonding_period_ : option N)
    (peg_recovery_fee_ er_threshold_ protocol_fee_ : option Decimal)
    : cm HubStore (Response WasmBody) :=
  reads (λ s, unwrap_assert_admin (st_admin s) (sender info)) ;;
  params ← reads load_parameters;
  let new_params := mkParameters
    (default (epoch_period params) epoch_period_)
    (underlying_coin_denom params)
    (default (unbonding_period params) unbonding_period_)
    (default (peg_recovery_fee params) peg_recovery_fee_)
    (default (er_threshold params) er_threshold_)
    (default (protocol_fee params) protocol_fee_) in
  writes (set_parameters new_params) ;;
  mret (mkResponse [] [("action", AStr "update_params")]).

Definition set_token_contract (token : CanonicalAddr) (c : Config) : Config :=
  mkConfig true (Some token) (protocol_fee_collector c) (rewards_contract c).
Definition set_fee_collector (collector : CanonicalAddr) (c : Config) : Config :=
  mkConfig (token_contract_registered c) (token_contract c) (Some collector)
    (rewards_contract c).

(** [token_contract.is_some() && CONFIG.load(..)?.token_contract_registered] *)
Definition token_locked (token_contract_ : option string) (s : HubStore) : outcome bool :=
  match token_contract_ with
  | None => Ok false
  | Some _ => c ← load_config s; Ok (token_contract_registered c)
  end.

Definition execute_update_config (info : MessageInfo)
    (token_contract_ protocol_fee_collector_ : option string)
    : cm HubStore (Response WasmBody) :=
  reads (λ s, unwrap_assert_admin (st_admin s) (sender info)) ;;
  locked ← reads (token_locked token_contract_);
  (if (locked : bool)
   then lift (Err (GenericErr
     "Token contract has been registered. Cannot change the token contract"))
   else match token_contract_ with
   | None => mret ()
   | Some token =>
       token_raw ← lift (addr_canonicalize token);
       last_config ← reads load_config;
       writes (set_config (set_token_contract token_raw last_config))
   end) ;;
  match protocol_fee_collector_ with
  | None => mret ()
  | Some collector =>
      collector ← lift (addr_canonicalize collector);
      last_config ← reads load_config;
      writes (set_config (set_fee_collector collector last_config))
  end ;;
  mret (mkResponse [] [("action", AStr "update_config")]).

Definition execute_register_validator (q : Querier) (env : Env) (info : MessageInfo)
    (validator : string) : cm HubStore (Response WasmBody) :=
  admin ← reads (λ s, admin_get (st_admin s));
  admin ← lift (unwrap_option admin);
  sender_raw ← lift (addr_canonicalize (sender info));
  contract_raw ← lift (addr_canonicalize (contract_address env));
  lift (fail_if
    (bool_decide (sender info ≠ admin) && bool_decide (contract_raw ≠ sender_raw))
    (GenericErr "Caller is not admin")) ;;
  validators ← lift (query_all_validators q);
  let exists_ := existsb (λ val, String.eqb (val_address val) validator) validators in
  lift (fail_if (negb exists_) (GenericErr "The specified address is not a validator")) ;;
  store_white_validators validator ;;
  mret (mkResponse [] [("action", AStr "register_validator");
                       ("validator", AStr validator)]).

Definition execute_deregister_validator (q : Querier) (env : Env) (info : MessageInfo)
    (validator : string) : cm HubStore (Response WasmBody) :=
  reads (λ s, unwrap_assert_admin (st_admin s) (sender info)) ;;
  validators_before_remove ← reads read_validators;
  lift (fail_if (Nat.eqb (length validators_before_remove) 1)
    (GenericErr "Cannot remove the last whitelisted validator")) ;;
  remove_white_validators validator ;;
  query ← lift (try_ok (query_delegation q (contract_address env) validator));
  r ← match query with
      | None => mret (EmptyString, [])
      | Some delegated_amount =>
          validators ← reads read_validators;
          random_index ← lift (gen_range_from (block_height env) (length validators));
          replaced_val ← lift (unwrap_option (validators !! random_index));
          match delegated_amount with
          | None => mret (replaced_val, [])
          | Some delegation =>
              mret (replaced_val,
                [StakingRedelegate validator replaced_val (del_amount delegation);
                 WasmExecute (contract_address env) (ToHub UpdateGlobalIndex) []])
          end
      end;
  mret (mkResponse r.2 [("action", AStr "de_register_validator");
                        ("validator", AStr validator);
                        ("new-validator", AStr r.1)]).

(** ** migration.rs *)

(** serde ignores the fields a struct does not have, so the legacy struct reads
    from both documents. *)
Definition read_legacy_config (s : HubStore) : outcome LegacyConfig :=
  c ← item_load "LegacyConfig" (st_config s);
  match c with
  | LegacyJson c => Ok c
  | ConfigJson c => Ok (mkLegacyConfig (token_contract c) (protocol_fee_collector c))
  end.

Definition migrate_config (rewards_contract : option CanonicalAddr) : cm HubStore () :=
  legacy_config ← reads read_legacy_config;
  writes (set_config (mkConfig false (lc_token_contract legacy_config)
    (lc_protocol_fee_collector legacy_config) rewards_contract)).
End config.
