(* ===== verification/HubBond.v ===== *)
(** * Bonding (contracts/prism_hub/src/bond.rs) *)
From S2P Require Import Prelude Bytes Cosmwasm Protocol HubState HubMath HubCore.

Section bond.
  Context `{H : Host}.

(** The peg recovery fee: what is minted of [mint_amount] when the rate is below
    the threshold. *)
Definition mint_after_fee (threshold recovery_fee : Decimal) (state : State)
    (total_supply mint_amount requested payment : Uint128) : outcome Uint128 :=
  if Decimal_lt (exchange_rate state) threshold
  then
    max_peg_fee ← Uint128_mul_Decimal mint_amount recovery_fee;
    supply ← Uint128_add total_supply mint_amount;
    supply ← Uint128_add supply requested;
    bonded ← Uint128_add (total_bond_amount state) payment;
    required_peg_fee ← Uint128_checked_sub supply bonded;
    let peg_fee := N.min max_peg_fee required_peg_fee in
    Uint128_checked_sub mint_amount peg_fee
  else Ok mint_amount.

Definition execute_bond (q : Querier) (env : Env) (info : MessageInfo)
    (validator : string) : cm HubStore (Response WasmBody) :=
  is_valid ← reads (is_valid_validator validator);
  lift (fail_if (negb is_valid)
    (GenericErr "The chosen validator is currently not supported")) ;;
  params ← reads load_parameters;
  let coin_denom := underlying_coin_denom params in
  let threshold := er_threshold params in
  let recovery_fee := peg_recovery_fee params in
  current_batch ← reads load_current_batch;
  let requested := requested_with_fee current_batch in
  lift (fail_if (1 <? N.of_nat (length (funds info)))
    (GenericErr "More than one coin is sent; only one asset is supported")) ;;
  payment ← lift (ok_or
    (GenericErr ("No " +:+ coin_denom +:+ " assets are provided to bond"))
    (find_payment coin_denom (funds info)));
  slashing q env ;;
  state ← reads load_state;
  total_supply ← reads (λ s, unwrap_or 0 (query_total_issued q s));
  mint_amount ← lift (decimal_division (amount payment) (exchange_rate state));
  mint_amount_with_fee ← lift (mint_after_fee threshold recovery_fee state total_supply
    mint_amount (requested_with_fee current_batch) (amount payment));
  total_supply ← lift (Uint128_add total_supply mint_amount_with_fee);
  update_state (λ prev_state,
    bonded ← Uint128_add (total_bond_amount prev_state) (amount payment);
    update_exchange_rate total_supply requested (set_total_bond_amount bonded prev_state)) ;;
  config ← reads load_config;
  token_raw ← lift (unwrap_option (token_contract config));
  token_address ← lift (addr_humanize token_raw);
  mret (mkResponse
    [StakingDelegate validator payment;
     WasmExecute token_address (ToToken (Mint (sender info) mint_amount_with_fee)) []]
    [("action", AStr "mint"); ("from", AStr (sender info));
     ("bonded", AUint (amount payment)); ("minted", AUint mint_amount_with_fee)]).
End bond.
