(* ===== verification/HubUnbond.v ===== *)
(** * Unbonding (contracts/prism_hub/src/unbond.rs, up to the withdrawal)

    The [while] loop of [pick_validator] removes one delegation per turn and
    panics on an empty list, so the number of delegations plus one is enough
    fuel: [pick_loop_fuel] in HubUnbondFacts.v. *)
From S2P Require Import Prelude Bytes Cosmwasm Protocol HubState HubCore.

Section unbond.
  Context `{H : Host}.

(** [deletable_delegations.remove(i)] *)
Definition vec_remove {A} (i : nat) (l : list A) : list A := take i l ++ drop (S i) l.

Fixpoint pick_loop (fuel : nat) (coin_denom : string) (block_height iteration_index : N)
    (claimed : Uint128) (deletable_delegations : list Delegation)
    (messages : list (CosmosMsg WasmBody)) : outcome (list (CosmosMsg WasmBody)) :=
  match fuel with
  | O => OutOfFuel
  | S fuel =>
      if 0 <? claimed
      then
        seed ← u64_add block_height iteration_index;
        random_index ← gen_range_from seed (length deletable_delegations);
        delegation ← unwrap_option (deletable_delegations !! random_index);
        let rest := vec_remove random_index deletable_delegations in
        let val := amount (del_amount delegation) in
        r ← (if claimed <? val
             then Ok (claimed, 0)
             else claimed' ← Uint128_checked_sub claimed val; Ok (val, claimed'));
        let undelegated_amount := r.1 in
        let messages' :=
          if 0 <? undelegated_amount
          then messages ++ [StakingUndelegate (validator delegation)
                              (mkCoin coin_denom undelegated_amount)]
          else messages in
        index' ← u64_add iteration_index 1;
        pick_loop fuel coin_denom block_height index' r.2 rest messages'
      else Ok messages
  end.

Definition pick_validator (q : Querier) (claim : Uint128) (delegator : string)
    (block_height : N) (s : HubStore) : outcome (list (CosmosMsg WasmBody)) :=
  params ← load_parameters s;
  let coin_denom := underlying_coin_denom params in
  all_delegations ← unwrap (query_all_delegations q delegator);
  pick_loop (S (length all_delegations)) coin_denom block_height 0 claim all_delegations [].

(** The peg recovery fee of an unbonding request. *)
Definition unbond_after_fee (threshold recovery_fee : Decimal) (state : State)
    (total_supply amount requested : Uint128) : outcome Uint128 :=
  if Decimal_lt (exchange_rate state) threshold
  then
    max_peg_fee ← Uint128_mul_Decimal amount recovery_fee;
    supply ← Uint128_add total_supply requested;
    required_peg_fee ← Uint128_checked_sub supply (total_bond_amount state);
    let peg_fee := N.min max_peg_fee required_peg_fee in
    Uint128_checked_sub amount peg_fee
  else Ok amount.

(** What the end of an epoch does: undelegate the batch and close it. *)
Definition close_batch (q : Querier) (env : Env) (current_batch : CurrentBatch)
    (state : State)
    : cm HubStore (list (CosmosMsg WasmBody) * CurrentBatch * State) :=
  undelegation_amount ← lift
    (Uint128_mul_Decimal (requested_with_fee current_batch) (exchange_rate state));
  lift (fail_if (undelegation_amount =? 1)
    (GenericErr "Burn amount must be greater than 1 ubluna")) ;;
  undelegated_msgs ← reads (pick_validator q undelegation_amount (contract_address env)
    (block_height env));
  bonded ← lift (unwrap
    (Uint128_checked_sub (total_bond_amount state) undelegation_amount));
  let state := set_total_bond_amount bonded state in
  let history := mkUnbondHistory (cb_id current_batch) (block_time env)
    (requested_with_fee current_batch) (exchange_rate state) (exchange_rate state) false in
  store_unbond_history (cb_id current_batch) history ;;
  id' ← lift (u64_add (cb_id current_batch) 1);
  mret (undelegated_msgs, mkCurrentBatch id' 0,
        set_last_unbonded_time (block_time env) state).

Definition execute_unbond (q : Querier) (env : Env) (amount : Uint128) (sender : string)
    : cm HubStore (Response WasmBody) :=
  params ← reads load_parameters;
  let epoch_period := epoch_period params in
  let threshold := er_threshold params in
  let recovery_fee := peg_recovery_fee params in
  current_batch ← reads load_current_batch;
  slashing q env ;;
  state ← reads load_state;
  total_supply ← reads (λ s, unwrap_or 0 (query_total_issued q s));
  amount_with_fee ← lift (unbond_after_fee threshold recovery_fee state total_supply
    amount (requested_with_fee current_batch));
  requested ← lift (Uint128_add (requested_with_fee current_batch) amount_with_fee);
  let current_batch := mkCurrentBatch (cb_id current_batch) requested in
  store_unbond_wait_list (cb_id current_batch) sender amount_with_fee ;;
  total_supply ← lift (unwrap (Uint128_checked_sub total_supply amount));
  state ← lift (update_exchange_rate total_supply (requested_with_fee current_batch) state);
  let current_time := block_time env in
  passed_time ← lift (u64_sub current_time (last_unbonded_time state));
  r ← (if epoch_period <? passed_time
       then close_batch q env current_batch state
       else mret ([], current_batch, state));
  writes (set_current_batch r.1.2) ;;
  writes (set_state r.2) ;;
  config ← reads load_config;
  token_raw ← lift (unwrap_option (token_contract config));
  token_address ← lift (addr_humanize token_raw);
  mret (mkResponse
    (r.1.1 ++ [WasmExecute token_address (ToToken (Burn amount)) []])
    [("action", AStr "burn"); ("from", AStr sender);
     ("burnt_amount", AUint amount); ("unbonded_amount", AUint amount_with_fee)]).
End unbond.
