(* ===== verification/HubWithdraw.v ===== *)
(** * Releasing batches and withdrawing (contracts/prism_hub/src/unbond.rs)

    Both loops of [process_withdraw_rate] walk over stored batches with
    consecutive numbers, so the size of the history plus one is enough fuel:
    [process_withdraw_rate_terminates] in HubWithdrawFacts.v. *)
From S2P Require Import Prelude Bytes Cosmwasm Protocol SignedInteger HubState HubCore.

Section withdraw.
  Context `{H : Host}.

(** The first loop: the batches that are due, their total and their number. *)
Fixpoint sum_unbonded (fuel : nat) (historical_time i : N)
    (total_unbonded_amount : Uint128) (batch_count : N) (s : HubStore)
    : outcome (Uint128 * N) :=
  match fuel with
  | O => OutOfFuel
  | S fuel =>
      h ← try_ok (read_unbond_history i s);
      match h with
      | None => Ok (total_unbonded_amount, batch_count)
      | Some history =>
          if historical_time <? h_time history
          then Ok (total_unbonded_amount, batch_count)
          else if negb (released history)
          then
            unbonded_amount ← Uint128_mul_Decimal (h_amount history) (withdraw_rate history);
            total ← Uint128_add total_unbonded_amount unbonded_amount;
            count ← u64_add batch_count 1;
            i' ← u64_add i 1;
            sum_unbonded fuel historical_time i' total count s
          else Ok (total_unbonded_amount, batch_count)
      end
  end.

(** What one batch pays out after its share of the slashed amount. *)
Definition actual_unbonded_of_batch (slashed_amount : SignedInt)
    (total_unbonded_amount unbonded_amount_of_batch : Uint128) : outcome Uint128 :=
  batch_slashing_weight ←
    Decimal_from_ratio unbonded_amount_of_batch total_unbonded_amount;
  slashed_amount_of_batch ←
    Uint128_mul_Decimal (magnitude slashed_amount) batch_slashing_weight;
  if negative slashed_amount
  then
    slashed_amount_of_batch ← Uint128_checked_sub slashed_amount_of_batch 1;
    Uint128_add unbonded_amount_of_batch slashed_amount_of_batch
  else
    slashed_amount_of_batch ←
      (if negb (magnitude slashed_amount =? 0)
       then Uint128_add slashed_amount_of_batch 1
       else Ok slashed_amount_of_batch);
    d ← from_subtraction unbonded_amount_of_batch slashed_amount_of_batch;
    Ok (magnitude d).

Definition release (new_withdraw_rate : Decimal) (h : UnbondHistory) : UnbondHistory :=
  mkUnbondHistory (batch_id h) (h_time h) (h_amount h) (applied_exchange_rate h)
    new_withdraw_rate true.

(** The second loop: set the rate of every due batch and mark it released;
    returns the last processed batch. *)
Fixpoint release_batches (fuel : nat) (historical_time iterator : N)
    (slashed_amount : SignedInt) (total_unbonded_amount : Uint128)
    (last_processed : N) : cm HubStore N :=
  match fuel with
  | O => lift OutOfFuel
  | S fuel =>
      h ← reads (λ s, try_ok (read_unbond_history iterator s));
      match h with
      | None => mret last_processed
      | Some history =>
          if historical_time <? h_time history
          then mret last_processed
          else if negb (released history)
          then
            unbonded_amount_of_batch ←
              lift (Uint128_mul_Decimal (h_amount history) (withdraw_rate history));
            actual ← lift (actual_unbonded_of_batch slashed_amount total_unbonded_amount
              unbonded_amount_of_batch);
            new_withdraw_rate ← lift (Decimal_from_ratio actual (h_amount history));
            store_unbond_history iterator (release new_withdraw_rate history) ;;
            iterator' ← lift (u64_add iterator 1);
            release_batches fuel historical_time iterator' slashed_amount
              total_unbonded_amount iterator
          else mret last_processed
      end
  end.

Definition process_withdraw_rate (historical_time : N) (hub_balance : Uint128)
    : cm HubStore () :=
  state ← reads load_state;
  balance_change ← lift (from_subtraction hub_balance (prev_hub_balance state));
  actual ← lift (Uint128_add (actual_unbonded_amount state) (magnitude balance_change));
  let state := set_actual_unbonded_amount actual state in
  let last_processed := last_processed_batch state in
  i ← lift (u64_add last_processed 1);
  fuel ← reads (λ s, Ok (S (size (st_history s))));
  r ← reads (sum_unbonded fuel historical_time i 0 0);
  last_processed ←
    (if 1 <=? r.2
     then
       slashed_amount ← lift (from_subtraction r.1 (actual_unbonded_amount state));
       release_batches fuel historical_time i slashed_amount r.1 last_processed
     else mret last_processed);
  writes (HubState.set_state
    (set_actual_unbonded_amount 0 (set_last_processed_batch last_processed state))).

Definition execute_withdraw_unbonded (q : Querier) (env : Env) (info : MessageInfo)
    : cm HubStore (Response WasmBody) :=
  let sender_human := sender info in
  params ← reads load_parameters;
  let coin_denom := underlying_coin_denom params in
  historical_time ← lift (u64_sub (block_time env) (unbonding_period params));
  hub_balance ← lift (query_balance q (contract_address env) coin_denom);
  process_withdraw_rate historical_time (amount hub_balance) ;;
  withdraw_amount ← reads (λ s, unwrap (get_finished_amount sender_human s));
  lift (fail_if (withdraw_amount =? 0)
    (GenericErr ("No withdrawable " +:+ coin_denom +:+ " assets are available yet"))) ;;
  deprecated_batches ← reads (get_unbond_batches sender_human);
  remove_unbond_wait_list deprecated_batches sender_human ;;
  prev_balance ← lift (Uint128_checked_sub (amount hub_balance) withdraw_amount);
  update_state (λ last_state, Ok (set_prev_hub_balance prev_balance last_state)) ;;
  mret (mkResponse
    [BankSend sender_human [mkCoin coin_denom withdraw_amount]]
    [("action", AStr "finish_burn"); ("from", AStr (contract_address env));
     ("amount", AUint withdraw_amount)]).
End withdraw.
