(* ===== verification/HubAutoCompound.v ===== *)
(** * Auto compounding (contracts/prism_hub/src/autho_compounding.rs) *)
From S2P Require Import Prelude Bytes Cosmwasm Protocol HubState HubCore.

Section auto_compound.
  Context `{H : Host}.

Definition execute_update_exchange_rate (q : Querier) (env : Env) (info : MessageInfo)
    : cm HubStore (Response WasmBody) :=
  state ← reads load_state;
  config ← reads load_config;
  rewards_raw ← lift (unwrap_option (rewards_contract config));
  rewards_contract ← lift (addr_humanize rewards_raw);
  lift (fail_if (bool_decide (rewards_contract ≠ sender info)) (GenericErr "Unauthorized")) ;;
  params ← reads load_parameters;
  let coin_denom := underlying_coin_denom params in
  payment ← lift (ok_or
    (GenericErr ("No " +:+ coin_denom +:+ " assets are provided to redelegate"))
    (find_payment coin_denom (funds info)));
  let claimed_rewards := amount payment in
  protocol_fee ← lift
    (if bool_decide (protocol_fee params ≠ Decimal_zero)
     then Uint128_mul_Decimal claimed_rewards (protocol_fee params)
     else Ok 0);
  user_rewards ← lift (Uint128_checked_sub claimed_rewards protocol_fee);
  current_batch ← reads load_current_batch;
  let requested := requested_with_fee current_batch in
  total_issued ← reads (query_total_issued q);
  supply ← lift (Uint128_add total_issued requested);
  increase ← lift (Decimal_from_ratio user_rewards supply);
  rate ← lift (Decimal_add (exchange_rate state) increase);
  bonded ← lift (Uint128_add (total_bond_amount state) user_rewards);
  writes (HubState.set_state (set_total_bond_amount bonded (set_exchange_rate rate state))) ;;
  all_delegations ← lift (unwrap (query_all_delegations q (contract_address env)));
  random_index ← lift (gen_range_from (block_height env) (length all_delegations));
  fee_messages ← lift
    (if negb (protocol_fee =? 0)
     then match protocol_fee_collector config with
       | Some fee_collector =>
           to_address ← addr_humanize fee_collector;
           Ok [BankSend to_address [mkCoin coin_denom protocol_fee]]
       | None => Err (GenericErr "protocol fee collector address has not been set")
       end
     else Ok []);
  stake_messages ← lift
    (if negb (user_rewards =? 0)
     then
       delegation ← unwrap_option (all_delegations !! random_index);
       Ok [StakingDelegate (validator delegation) (mkCoin coin_denom user_rewards)]
     else Ok []);
  mret (mkResponse (fee_messages ++ stake_messages)
    [("action", AStr "update_exchange_rate");
     ("reward_collected", AUint claimed_rewards); ("protocol_fee", AUint protocol_fee)]).
End auto_compound.
