(* ===== verification/HubContract.v ===== *)
(** * The hub's entry points (contracts/prism_hub/src/contract.rs) *)
From S2P Require Import Prelude Bytes Cosmwasm Protocol HubState HubCore HubConfig HubBond.
From S2P Require Import HubUnbond HubWithdraw HubAutoCompound.

(** What [query] serialises. *)
Inductive QueryResponse :=
  | RConfig (r : ConfigResponse)
  | RState (r : StateResponse)
  | RCurrentBatch (r : CurrentBatchResponse)
  | RWhitelistedValidators (r : WhitelistedValidatorsResponse)
  | RWithdrawableUnbonded (r : WithdrawableUnbondedResponse)
  | RParameters (r : Parameters)
  | RUnbondRequests (r : UnbondRequestsResponse)
  | RAllHistory (r : AllHistoryResponse)
  | RAdmin (admin : option Addr).

Section contract.
  Context `{H : Host} `{HK : HookSerde}.

(** [STATE]'s value at instantiation; [..Default::default()] is zero. *)
Definition initial_state (now : N) (payment : Uint128) : State :=
  mkState Decimal_one Decimal_one payment now 0 0 0 now 0.

Definition instantiate (env : Env) (info : MessageInfo) (msg : InstantiateMsg)
    : cm HubStore (Response WasmBody) :=
  lift (addr_canonicalize (sender info)) ;;
  writes (set_pause false) ;;
  payment ← lift (ok_or (GenericErr ("No " +:+ "uluna" +:+ " assets are provided to bond"))
    (find_payment (im_underlying_coin_denom msg) (funds info)));
  admin ← lift (addr_validate (sender info));
  slot ← reads (λ s, admin_set (st_admin s) (Some admin));
  writes (set_admin slot) ;;
  rewards_raw ← lift (addr_canonicalize (im_rewards_contract msg));
  writes (set_config (mkConfig false None None (Some rewards_raw))) ;;
  writes (HubState.set_state (initial_state (block_time env) (amount payment))) ;;
  lift (validate_params msg) ;;
  writes (set_parameters (mkParameters (im_epoch_period msg) (im_underlying_coin_denom msg)
    (im_unbonding_period msg) (im_peg_recovery_fee msg) (im_er_threshold msg)
    (im_protocol_fee msg))) ;;
  writes (set_current_batch (mkCurrentBatch 1 0)) ;;
  mret (mkResponse
    [WasmExecute (contract_address env) (ToHub (RegisterValidator (im_validator msg))) [];
     StakingDelegate (im_validator msg) payment;
     SetWithdrawAddress (im_rewards_contract msg)]
    [("register-validator", AStr (im_validator msg)); ("bond", AUint (amount payment))]).

(** [withdraw_all_rewards]: one message per delegation, none if the query fails. *)
Definition withdraw_all_rewards (q : Querier) (delegator : Addr)
    : outcome (list (CosmosMsg WasmBody)) :=
  delegations ← try_ok (query_all_delegations q delegator);
  match delegations with
  | Some delegations =>
      Ok (map (λ delegation, WithdrawDelegatorReward (validator delegation)) delegations)
  | None => Ok []
  end.

Definition execute_update_global (q : Querier) (env : Env)
    : cm HubStore (Response WasmBody) :=
  config ← reads load_config;
  rewards_raw ← lift (unwrap_option (rewards_contract config));
  reward_contract ← lift (addr_humanize rewards_raw);
  withdraw_msgs ← lift (withdraw_all_rewards q (contract_address env));
  update_state (λ last_state,
    Ok (set_last_index_modification (block_time env) last_state)) ;;
  mret (mkResponse
    (withdraw_msgs ++ [WasmExecute reward_contract (ToRewards ProcessRewards) []])
    [("action", AStr "update_global_index")]).

Definition receive_cw20 (q : Querier) (env : Env) (info : MessageInfo)
    (msg : Cw20ReceiveMsg) : cm HubStore (Response WasmBody) :=
  hook ← lift (hook_from_binary (cw20_msg msg));
  match hook with
  | HookUnbond =>
      conf ← reads load_config;
      contract_raw ← lift (addr_canonicalize (sender info));
      token_raw ← lift (unwrap_option (token_contract conf));
      lift (fail_if (bool_decide (contract_raw ≠ token_raw)) (GenericErr "unauthorized")) ;;
      execute_unbond q env (cw20_amount msg) (cw20_sender msg)
  end.

Definition execute_update_admin (info : MessageInfo) (admin : string)
    : cm HubStore (Response WasmBody) :=
  admin ← lift (addr_validate admin);
  r ← reads (λ s,
    match admin_execute_update (st_admin s) info (Some admin) with
    | inr r => Ok r
    | inl NotAdmin => Err (GenericErr "Caller is not admin")
    | inl (AdminStd std_error) => Err std_error
    end);
  writes (set_admin r.1) ;;
  mret (mkResponse [] (map (λ kv, (kv.1, AStr kv.2)) r.2)).

Definition execute (q : Querier) (env : Env) (info : MessageInfo) (msg : ExecuteMsg)
    : cm HubStore (Response WasmBody) :=
  match msg with
  | Pause =>
      reads (λ s, unwrap_assert_admin (st_admin s) (sender info)) ;;
      writes (set_pause true) ;; mret (mkResponse [] [])
  | Unpause =>
      reads (λ s, unwrap_assert_admin (st_admin s) (sender info)) ;;
      writes (set_pause false) ;; mret (mkResponse [] [])
  | Receive msg => reads is_contract_paused ;; receive_cw20 q env info msg
  | Bond validator => reads is_contract_paused ;; execute_bond q env info validator
  | UpdateGlobalIndex => reads is_contract_paused ;; execute_update_global q env
  | UpdateExchangeRate =>
      reads is_contract_paused ;; execute_update_exchange_rate q env info
  | WithdrawUnbonded =>
      reads is_contract_paused ;; execute_withdraw_unbonded q env info
  | RegisterValidator validator =>
      reads is_contract_paused ;; execute_register_validator q env info validator
  | DeregisterValidator validator =>
      reads is_contract_paused ;; execute_deregister_validator q env info validator
  | CheckSlashing => reads is_contract_paused ;; execute_slashing q env
  | UpdateParams epoch_period unbonding_period peg_recovery_fee er_threshold protocol_fee =>
      reads is_contract_paused ;;
      execute_update_params info epoch_period unbonding_period peg_recovery_fee
        er_threshold protocol_fee
  | UpdateConfig token_contract protocol_fee_collector =>
      reads is_contract_paused ;;
      execute_update_config info token_contract protocol_fee_collector
  | UpdateAdmin admin => reads is_contract_paused ;; execute_update_admin info admin
  end.

(** ** Queries *)
Definition humanize_option (o : option CanonicalAddr) : outcome (option string) :=
  match o with
  | Some raw => a ← unwrap (addr_humanize raw); Ok (Some a)
  | None => Ok None
  end.

Definition query_config (s : HubStore) : outcome ConfigResponse :=
  config ← load_config s;
  token ← humanize_option (token_contract config);
  fee_collector ← humanize_option (protocol_fee_collector config);
  rewards_contract ← humanize_option (rewards_contract config);
  Ok (mkConfigResponse token fee_collector rewards_contract).

Definition query_state (s : HubStore) : outcome StateResponse :=
  state ← load_state s;
  Ok (mkStateResponse (exchange_rate state) (total_bond_amount state)
    (last_index_modification state) (principle_balance_before_exchange_update state)
    (prev_hub_balance state) (actual_unbonded_amount state) (last_unbonded_time state)
    (last_processed_batch state)).

Definition query_white_validators (s : HubStore) : outcome WhitelistedValidatorsResponse :=
  validators ← read_validators s;
  Ok (mkWhitelistedValidatorsResponse validators).

Definition query_current_batch (s : HubStore) : outcome CurrentBatchResponse :=
  current_batch ← load_current_batch s;
  Ok (mkCurrentBatchResponse (cb_id current_batch) (requested_with_fee current_batch)).

Definition query_withdrawable_unbonded (address : string) (env : Env) (s : HubStore)
    : outcome WithdrawableUnbondedResponse :=
  params ← load_parameters s;
  historical_time ← u64_sub (block_time env) (unbonding_period params);
  all_requests ← query_get_finished_amount address historical_time s;
  Ok (mkWithdrawableUnbondedResponse all_requests).

Definition query_params (s : HubStore) : outcome Parameters := load_parameters s.

Definition query_unbond_requests (address : string) (s : HubStore)
    : outcome UnbondRequestsResponse :=
  valid ← try_ok (addr_validate address);
  match valid with
  | None => Err (GenericErr "invalid address")
  | Some _ =>
      requests ← get_unbond_requests address s;
      Ok (mkUnbondRequestsResponse address requests)
  end.

Definition query_unbond_requests_limitation (start limit : option N) (s : HubStore)
    : outcome AllHistoryResponse :=
  requests ← all_unbond_history start limit s;
  Ok (mkAllHistoryResponse requests).

Definition query (env : Env) (msg : QueryMsg) (s : HubStore) : outcome QueryResponse :=
  match msg with
  | QConfig => r ← query_config s; Ok (RConfig r)
  | QState => r ← query_state s; Ok (RState r)
  | QCurrentBatch => r ← query_current_batch s; Ok (RCurrentBatch r)
  | QWhitelistedValidators => r ← query_white_validators s; Ok (RWhitelistedValidators r)
  | QWithdrawableUnbonded address =>
      r ← query_withdrawable_unbonded address env s; Ok (RWithdrawableUnbonded r)
  | QParameters => r ← query_params s; Ok (RParameters r)
  | QUnbondRequests address => r ← query_unbond_requests address s; Ok (RUnbondRequests r)
  | QAllHistory start_from limit =>
      r ← query_unbond_requests_limitation start_from limit s; Ok (RAllHistory r)
  | QAdmin => r ← admin_get (st_admin s); Ok (RAdmin r)
  end.

Definition migrate (msg : MigrateMsg) : cm HubStore (Response WasmBody) :=
  rewards_raw ← lift (addr_canonicalize (mm_rewards_contract msg));
  migrate_config (Some rewards_raw) ;;
  mret (mkResponse [SetWithdrawAddress (mm_rewards_contract msg)]
    [("action", AStr "migration")]).
End contract.
