(* ===== verification/RewardsContract.v ===== *)
(** * The rewards contract (contracts/prism_rewards) *)
From S2P Require Import Prelude Bytes Cosmwasm Protocol.

Module Rewards.

(** The store: state.rs has three items. *)
Record Store := mkStore {
  rw_admin : AdminSlot;
  rw_pause : option bool;
  rw_config : option RewardsConfig;
}.
Definition empty_store : Store := mkStore None None None.
Definition set_admin (v : AdminSlot) (s : Store) : Store := mkStore v (rw_pause s) (rw_config s).
Definition set_pause (v : bool) (s : Store) : Store := mkStore (rw_admin s) (Some v) (rw_config s).
Definition set_config (v : RewardsConfig) (s : Store) : Store :=
  mkStore (rw_admin s) (rw_pause s) (Some v).
Definition load_config (s : Store) : outcome RewardsConfig :=
  ok_or (NotFound "Config") (rw_config s).

Section rewards.
  Context `{H : Host}.

(** ** utility.rs *)
Definition unwrap_assert_admin (admin : AdminSlot) (sender : Addr) : outcome () :=
  match admin_assert admin sender with
  | inr _ => Ok ()
  | inl NotAdmin => Err (GenericErr "Caller is not admin")
  | inl (AdminStd std_error) => Err std_error
  end.

Definition is_contract_paused (s : Store) : outcome (Response WasmBody) :=
  is_paused ← ok_or (NotFound "bool") (rw_pause s);
  if (is_paused : bool)
  then Err (GenericErr "Contract is paused cannot perform the tx")
  else Ok (mkResponse [] []).

(** ** contract.rs *)
Definition instantiate (info : MessageInfo) (msg : RewardsInstantiateMsg)
    : cm Store (Response WasmBody) :=
  lift (addr_canonicalize (sender info)) ;;
  writes (set_pause false) ;;
  admin ← lift (addr_validate (sender info));
  slot ← reads (λ s, admin_set (rw_admin s) (Some admin));
  writes (set_admin slot) ;;
  hub ← lift (addr_canonicalize (rim_hub_addr msg));
  writes (set_config (mkRewardsConfig hub (rim_underlying_coin_denom msg))) ;;
  mret (mkResponse [] [("hub_contract", AStr (rim_hub_addr msg));
                       ("admin", AStr (sender info))]).

Definition execute_process_rewards (q : Querier) (env : Env) (info : MessageInfo)
    : cm Store (Response WasmBody) :=
  config ← reads load_config;
  hub_contract ← lift (addr_humanize (hub_contract config));
  lift (fail_if (bool_decide (sender info ≠ hub_contract))
    (GenericErr "Caller is not hub contract")) ;;
  balance ← lift (query_balance q (contract_address env) (rc_underlying_coin_denom config));
  mret (mkResponse
    [WasmExecute hub_contract (ToHub UpdateExchangeRate)
       [mkCoin (denom balance) (amount balance)]]
    [("reward_accumulated", AUint (amount balance))]).

Definition execute (q : Querier) (env : Env) (info : MessageInfo) (msg : RewardsExecuteMsg)
    : cm Store (Response WasmBody) :=
  match msg with
  | RPause =>
      reads (λ s, unwrap_assert_admin (rw_admin s) (sender info)) ;;
      writes (set_pause true) ;; mret (mkResponse [] [])
  | RUnpause =>
      reads (λ s, unwrap_assert_admin (rw_admin s) (sender info)) ;;
      writes (set_pause false) ;; mret (mkResponse [] [])
  | RUpdateAdmin admin =>
      reads is_contract_paused ;;
      admin ← lift (addr_validate admin);
      r ← reads (λ s,
        match admin_execute_update (rw_admin s) info (Some admin) with
        | inr r => Ok r
        | inl NotAdmin => Err (GenericErr "Caller is not admin")
        | inl (AdminStd std_error) => Err std_error
        end);
      writes (set_admin r.1) ;;
      mret (mkResponse [] (map (λ kv, (kv.1, AStr kv.2)) r.2))
  | ProcessRewards => reads is_contract_paused ;; execute_process_rewards q env info
  end.

Inductive QueryResponse :=
  | RRConfig (r : RewardsConfigResponse)
  | RRAdmin (admin : option Addr).

Definition query_config (s : Store) : outcome RewardsConfigResponse :=
  config ← load_config s;
  hub_addr ← unwrap (addr_humanize (hub_contract config));
  Ok (mkRewardsConfigResponse hub_addr).

Definition query (msg : RewardsQueryMsg) (s : Store) : outcome QueryResponse :=
  match msg with
  | RQConfig => r ← query_config s; Ok (RRConfig r)
  | RQAdmin => r ← admin_get (rw_admin s); Ok (RRAdmin r)
  end.
End rewards.
End Rewards.
