(* ===== verification/Scenario.v ===== *)
(** * The repository's test scenarios, replayed on the model

    The unit tests of contracts/prism_hub/src/testing/tests.rs drive the contract
    with a mocked chain and check concrete numbers.  The examples below replay
    three of them on the definitions of this development and obtain the same
    numbers.  The stores they reach are also the inputs of many witnesses. *)
From S2P Require Import Prelude Bytes Cosmwasm RefHost Protocol HubState HubContract.

(** ** The mocked chain *)
Definition mock_contract : Addr := "cosmos2contract".
Definition mock_time : N := 1571797419.
Definition mock_env (later : N) : Env := mkEnv 12345 (mock_time + later) mock_contract.
Definition mock_info (who : Addr) (funds : list Coin) : MessageInfo := mkInfo who funds.
Definition uluna (n : N) : Coin := mkCoin "uluna" n.

(** [balance]: the hub's coins; [supply]: the token's total supply. *)
Definition mock_querier (delegations : list Delegation) (balance supply : N) : Querier :=
  mkQuerier
    (λ _, Ok delegations)
    (λ _ v, Ok (List.find (λ d, String.eqb (validator d) v) delegations))
    (Ok [mkValidator "default-validator"; mkValidator "default-validator2000";
         mkValidator "default-validator3000"])
    (λ _ d, Ok (mkCoin d balance))
    (λ _, Ok (mkTokenInfo supply)).

(** The JSON object [{"unbond":{}}], and nothing else, is the hook. *)
Definition unbond_hook_json : bytes := bytes_of_string "{unbond:{}}".
#[export] Instance ref_hook : HookSerde := {|
  hook_from_binary b :=
    if decide (b = unbond_hook_json) then Ok HookUnbond else Err (ParseErr "Cw20HookMsg");
|}.

Definition del (n : N) : list Delegation := [mkDelegation "default-validator" (uluna n)].
Definition unbond_msg (who : Addr) (n : N) : ExecuteMsg :=
  Receive (mkCw20ReceiveMsg who n unbond_hook_json).

(** One message of a scenario: the chain's state, the time, the sender. *)
Record call := mkCall {
  c_querier : Querier; c_later : N; c_info : MessageInfo; c_msg : ExecuteMsg;
}.
Definition run_call (c : call) : cm HubStore (Response WasmBody) :=
  execute (c_querier c) (mock_env (c_later c)) (c_info c) (c_msg c).
Fixpoint run_calls (cs : list call) : cm HubStore () :=
  match cs with
  | [] => mret ()
  | c :: cs => run_call c ;; run_calls cs
  end.

Definition sample_init_msg : InstantiateMsg :=
  mkInstantiateMsg 30 "uluna" 2 (mkDecimal 0) (mkDecimal dec_unit) "default-validator"
    (mkDecimal 0) "rewards_contract".
Definition init_calls : list call :=
  let q := mock_querier [] 0 0 in
  [mkCall q 0 (mock_info "owner1" []) (UpdateConfig (Some "token") None);
   mkCall q 0 (mock_info "owner1" []) (RegisterValidator "default-validator")].

(** [init(..)] of the tests, then the given calls. *)
Definition scenario (cs : list call) : cm HubStore () :=
  instantiate (mock_env 0) (mock_info "owner1" [uluna 1000000]) sample_init_msg ;;
  run_calls (init_calls ++ cs).

Definition store_of (cs : list call) : HubStore :=
  match scenario cs empty_store with Ok (_, s) => s | _ => empty_store end.
Definition response_of (o : outcome (Response WasmBody * HubStore))
    : list (CosmosMsg WasmBody) :=
  match o with Ok (r, _) => messages r | _ => [] end.
Definition state_of (s : HubStore) : option State := st_state s.

(** ** proper_slashing *)
Definition slashing_calls : list call :=
  [mkCall (mock_querier [] 0 0) 0 (mock_info "addr1000" [uluna 1000]) (Bond "default-validator");
   mkCall (mock_querier (del 900) 0 1000) 0 (mock_info "addr1000" []) CheckSlashing].
Definition slashing_bond : call :=
  mkCall (mock_querier (del 900) 0 1000) 0 (mock_info "addr1000" [uluna 1000])
    (Bond "default-validator").
Definition slashing_unbonds : list call :=
  [mkCall (mock_querier (del 100900) 0 2111) 0 (mock_info "token" []) (unbond_msg "addr1000" 500);
   mkCall (mock_querier (del 100900) 0 1611) 31 (mock_info "token" []) (unbond_msg "addr1000" 500)].

Example test_slashing_rate :
  exchange_rate <$> state_of (store_of slashing_calls) = Some (mkDecimal 900000000000000000).
Proof. vm_compute. reflexivity. Qed.

Example test_slashing_bond :
  response_of (run_call slashing_bond (store_of slashing_calls)) =
    [StakingDelegate "default-validator" (uluna 1000);
     WasmExecute "token" (ToToken (Mint "addr1000" 1111)) []].
Proof. vm_compute. reflexivity. Qed.

(** The expected rate is [Decimal::from_ratio(1900, 2111)]. *)
Example test_slashing_bond_rate :
  exchange_rate <$> state_of (store_of (slashing_calls ++ [slashing_bond])) =
    Some (mkDecimal (1900 * dec_unit / 2111)).
Proof. vm_compute. reflexivity. Qed.

Definition slashing_withdraw : call :=
  mkCall (mock_querier (del 100900) 900 1111) 121 (mock_info "addr1000" []) WithdrawUnbonded.
Example test_slashing_withdraw :
  response_of (run_call slashing_withdraw
    (store_of (slashing_calls ++ [slashing_bond] ++ slashing_unbonds))) =
  [BankSend "addr1000" [uluna 900]].
Proof. vm_compute. reflexivity. Qed.

(** ** proper_withdraw_unbonded_respect_slashing: 1000 are due, 900 arrived *)
Definition bob_unbonds : list call :=
  [mkCall (mock_querier [] 0 10000) 0 (mock_info "bob" [uluna 10000]) (Bond "default-validator");
   mkCall (mock_querier (del 10000) 0 10000) 0 (mock_info "token" []) (unbond_msg "bob" 500);
   mkCall (mock_querier (del 10000) 0 9500) 31 (mock_info "token" []) (unbond_msg "bob" 500)].
Definition bob_withdraws (balance : N) : call :=
  mkCall (mock_querier (del 10000) balance 9000) 122 (mock_info "bob" []) WithdrawUnbonded.

Example test_withdraw_slashed :
  response_of (run_call (bob_withdraws 900) (store_of bob_unbonds)) =
    [BankSend "bob" [uluna 899]].
Proof. vm_compute. reflexivity. Qed.

Example test_withdrawable_query :
  query (mock_env 122) (QWithdrawableUnbonded "bob") (store_of bob_unbonds) =
    Ok (RWithdrawableUnbonded (mkWithdrawableUnbondedResponse 1000)).
Proof. vm_compute. reflexivity. Qed.

Example test_withdraw_too_early :
  run_call (mkCall (mock_querier (del 10000) 0 9500) 31 (mock_info "bob" []) WithdrawUnbonded)
    (store_of bob_unbonds) =
  Err (GenericErr "No withdrawable uluna assets are available yet").
Proof. vm_compute. reflexivity. Qed.

(** ** Tokens burned by their holders after a slashing

    The stored rate stays at 0.9; once less than the bond of 900 is left of the
    tokens, the peg recovery fee cannot be computed: no request to unbond and no
    payment is accepted, and CheckSlashing does not refresh the rate. *)
Definition after_burn (msg : ExecuteMsg) (who : Addr) (funds : list Coin) : call :=
  mkCall (mock_querier (del 900) 0 800) 0 (mock_info who funds) msg.
Example burned_tokens_block_unbonding :
  run_call (after_burn (unbond_msg "addr1000" 100) "token" []) (store_of slashing_calls) =
    Err OverflowErr.
Proof. vm_compute. reflexivity. Qed.
Example burned_tokens_block_bonding :
  run_call (after_burn (Bond "default-validator") "addr1000" [uluna 10]) (store_of slashing_calls) =
    Err OverflowErr.
Proof. vm_compute. reflexivity. Qed.
Example burned_tokens_keep_rate :
  exchange_rate <$> state_of (store_of (slashing_calls ++ [after_burn CheckSlashing "addr1000" []])) =
    Some (mkDecimal 900000000000000000).
Proof. vm_compute. reflexivity. Qed.
