(* ===== verification/HubCoreFacts.v ===== *)
(** * Frames and slashing

    The two parts of the store the proofs speak of separately: the unbonding
    ledger and the settings under the administrator's control; which operations
    leave which part alone; and the effect of the slashing check. *)
From S2P Require Import Prelude Bytes Cosmwasm Protocol HubState HubStateFacts HubCore.

(** The fields of [State] that the unbonding ledger uses. *)
Definition ledger_state (st : State) : N * N * N :=
  (last_processed_batch st, prev_hub_balance st, actual_unbonded_amount st).
Definition ledger (s : HubStore) :=
  (st_current_batch s, ledger_state <$> st_state s, st_wait s, st_history s).
(** What only the administrator may change. *)
Definition settings (s : HubStore) :=
  (st_admin s, st_pause s, st_config s, st_parameters s, st_validators s).

Section state.
  Context `{H : Host}.

Lemma load_state_ok s st : load_state s = Ok st ↔ st_state s = Some st.
Proof. apply ok_or_ok. Qed.
Lemma load_parameters_ok s p : load_parameters s = Ok p ↔ st_parameters s = Some p.
Proof. apply ok_or_ok. Qed.
Lemma load_current_batch_ok s cb : load_current_batch s = Ok cb ↔ st_current_batch s = Some cb.
Proof. apply ok_or_ok. Qed.
Lemma load_pause_ok s b : load_pause s = Ok b ↔ st_pause s = Some b.
Proof. apply ok_or_ok. Qed.
Lemma load_config_ok s c : load_config s = Ok c ↔ st_config s = Some (ConfigJson c).
Proof.
  unfold load_config, item_load. destruct (st_config s) as [[?|?]|]; simpl; split; congruence.
Qed.

Lemma update_state_ok f s r :
  update_state f s = Ok r ↔
  ∃ st st', st_state s = Some st ∧ f st = Ok st' ∧ r = ((), HubState.set_state st' s).
Proof.
  unfold update_state. rewrite reads_bind_ok. setoid_rewrite lift_bind_ok.
  setoid_rewrite writes_ok. setoid_rewrite load_state_ok. split.
  - intros (st & ? & st' & ? & ->). eauto.
  - intros (st & st' & ? & ? & ->). eauto.
Qed.

Lemma keeps_update_state {B} (π : HubStore → B) f :
  (∀ s st st', st_state s = Some st → f st = Ok st' → π (HubState.set_state st' s) = π s) →
  keeps (preserves π) (update_state f).
Proof.
  intros Hf s [] s' Hrun. apply update_state_ok in Hrun as (st & st' & ? & ? & ?).
  simplify_eq. unfold preserves. by eapply Hf.
Qed.

Lemma ledger_set_state s st st' :
  st_state s = Some st → ledger_state st' = ledger_state st →
  ledger (HubState.set_state st' s) = ledger s.
Proof. intros Hs Hl. unfold ledger. simpl. by rewrite Hs; simpl; rewrite Hl. Qed.

(** The token contract's answer, or why there is none. *)
Lemma query_total_issued_ok q s ti :
  query_total_issued q s = Ok ti →
  ∃ c raw addr, st_config s = Some (ConfigJson c) ∧ token_contract c = Some raw ∧
    addr_humanize raw = Ok addr ∧ query_token_info q addr = Ok (mkTokenInfo ti).
Proof.
  intros Hrun. unfold query_total_issued in Hrun.
  bind Hrun as c Hc. bind Hrun as raw Hraw. bind Hrun as addr Haddr.
  bind Hrun as info Hinfo. injection Hrun as <-. apply load_config_ok in Hc.
  apply unwrap_option_ok in Hraw. exists c, raw, addr. by destruct info.
Qed.

Lemma query_total_issued_ext q s s' :
  st_config s' = st_config s → query_total_issued q s' = query_total_issued q s.
Proof. intros Hc. unfold query_total_issued, load_config. by rewrite Hc. Qed.
End state.

Section slashing.
  Context `{H : Host} {HS : HostSpec H}.

(** The stake the chain reports, in the bonded coin. *)
Definition stake_in (coin : string) (ds : list Delegation) : N :=
  sum_of (λ d, if String.eqb (denom (del_amount d)) coin then amount (del_amount d) else 0) ds.

Lemma sum_delegations_spec coin ds a :
  sum_delegations coin ds = Ok a → a = stake_in coin ds.
Proof.
  unfold sum_delegations, stake_in.
  enough (∀ acc a, fold_o (λ actual_total_bonded delegation,
    if String.eqb (denom (del_amount delegation)) coin
    then Uint128_add actual_total_bonded (amount (del_amount delegation))
    else Ok actual_total_bonded) ds acc = Ok a → a = acc +
    sum_of (λ d, if String.eqb (denom (del_amount d)) coin then amount (del_amount d) else 0) ds)
    as Hgen by (intros Ha; by rewrite (Hgen 0 a Ha)).
  clear a. induction ds as [|d ds IH]; intros acc a Hrun; simpl in *.
  - injection Hrun as <-. lia.
  - bind Hrun as acc' Hacc. apply IH in Hrun as ->.
    destruct (String.eqb _ _); inv_cw; lia.
Qed.

(** The state after a slashing check that found [actual] coins staked. *)
Definition slashed_state (actual supply : N) (st : State) : State :=
  if actual <? total_bond_amount st
  then set_exchange_rate (mkDecimal (rate_of actual supply)) (set_total_bond_amount actual st)
  else st.

Lemma slashing_spec q env s s' :
  slashing q env s = Ok ((), s') →
  ∃ params st ds, st_parameters s = Some params ∧ st_state s = Some st ∧
    query_all_delegations q (contract_address env) = Ok ds ∧
    ((ds = [] ∧ s' = s) ∨
     (ds ≠ [] ∧ ∃ ti cb, query_total_issued q s = Ok ti ∧ st_current_batch s = Some cb ∧
        s' = HubState.set_state (slashed_state (stake_in (underlying_coin_denom params) ds)
               (ti + requested_with_fee cb) st) s)).
Proof.
  intros Hrun. unfold slashing in Hrun.
  bind Hrun as params Hp. bind Hrun as st Hst. bind Hrun as ds Hds.
  apply load_parameters_ok in Hp. apply load_state_ok in Hst.
  exists params, st, ds. do 3 (split; [done|]).
  destruct ds as [|d ds]; [left; by inv_ok|right; split; [done|]].
  bind Hrun as actual Hact. apply sum_delegations_spec in Hact as ->.
  bind Hrun as ti Hti. bind Hrun as cb Hcb. apply load_current_batch_ok in Hcb.
  exists ti, cb. do 2 (split; [done|]). unfold slashed_state.
  destruct (_ <? _).
  - apply update_state_ok in Hrun as (st0 & st' & Hst' & Hupd & [= ->]).
    apply update_exchange_rate_ok in Hupd. by simplify_eq.
  - apply cm_ret_ok in Hrun as [= ->]. destruct s; simpl in *. by subst.
Qed.

Lemma slashed_state_ledger actual supply st :
  ledger_state (slashed_state actual supply st) = ledger_state st.
Proof. unfold slashed_state. by destruct (_ <? _). Qed.

(** Slashing only writes the state, and only its bond and its rate. *)
Lemma slashing_state q env s s' :
  slashing q env s = Ok ((), s') →
  ∃ st st', st_state s = Some st ∧ s' = HubState.set_state st' s ∧
    ledger_state st' = ledger_state st ∧ last_unbonded_time st' = last_unbonded_time st ∧
    total_bond_amount st' ≤ total_bond_amount st.
Proof.
  intros Hrun. apply slashing_spec in Hrun as (p & st & ds & _ & Hst & _ & Hcase).
  destruct Hcase as [[_ ->]|(_ & ti & cb & _ & _ & ->)].
  - exists st, st. destruct s; simpl in *. by subst.
  - eexists st, _. do 2 (split; [done|]). split; [apply slashed_state_ledger|].
    unfold slashed_state. destruct (N.ltb_spec (stake_in (underlying_coin_denom p) ds)
      (total_bond_amount st)); simpl; split; done || lia.
Qed.

Lemma slashing_ledger q env : keeps (preserves ledger) (slashing q env).
Proof.
  intros s [] s' (st & st' & Hst & -> & Hl & _)%slashing_state. by apply ledger_set_state with st.
Qed.
Lemma slashing_settings q env : keeps (preserves settings) (slashing q env).
Proof. by intros s [] s' (st & st' & Hst & -> & _)%slashing_state. Qed.

Lemma execute_slashing_ledger q env : keeps (preserves ledger) (execute_slashing q env).
Proof. unfold execute_slashing. apply keeps_bind; [apply _|apply slashing_ledger|]. solve_keeps. Qed.
Lemma execute_slashing_settings q env : keeps (preserves settings) (execute_slashing q env).
Proof. unfold execute_slashing. apply keeps_bind; [apply _|apply slashing_settings|]. solve_keeps. Qed.
End slashing.
#[export] Hint Resolve slashing_ledger slashing_settings execute_slashing_ledger
execute_slashing_settings : keeps.
