(* ===== verification/HubBondFacts.v ===== *)
(** * Bonding: the division, the peg recovery fee, the whole handler *)
From S2P Require Import Prelude Bytes Cosmwasm Protocol HubState HubStateFacts HubMath.
From S2P Require Import HubCore HubBond HubCoreFacts.

(** The supply the handlers work with: zero when the token does not answer. *)
Definition supply_or_zero `{H : Host} (q : Querier) (s : HubStore) : outcome N :=
  unwrap_or 0 (query_total_issued q s).

Section math.
  Context `{M : Math} {MS : MathSpec M}.

(** The nine digits of the divisor that the division uses. *)
Definition rate_digits (b : Decimal) : N := atomics b / DECIMAL_FRACTIONAL.

Lemma rate_digits_eq b : DECIMAL_FRACTIONAL * atomics b / dec_unit = rate_digits b.
Proof.
  unfold rate_digits. replace dec_unit with (DECIMAL_FRACTIONAL * DECIMAL_FRACTIONAL) by done.
  rewrite N.Div0.div_mul_cancel_l; done.
Qed.

Lemma nine_digits_quotient a k :
  DECIMAL_FRACTIONAL * (a * dec_unit / k) / dec_unit = a * DECIMAL_FRACTIONAL / k.
Proof.
  replace dec_unit with (DECIMAL_FRACTIONAL * DECIMAL_FRACTIONAL) by done.
  rewrite N.Div0.div_mul_cancel_l by done.
  rewrite N.Div0.div_div, (N.mul_comm k), N.mul_assoc.
  by rewrite (N.mul_comm _ DECIMAL_FRACTIONAL), N.Div0.div_mul_cancel_l.
Qed.

Lemma decimal_division_ok a b m :
  decimal_division a b = Ok m →
  rate_digits b ≠ 0 ∧ m = a * DECIMAL_FRACTIONAL / rate_digits b.
Proof.
  intros Hrun. unfold decimal_division in Hrun.
  bind Hrun as d Hd. bind Hrun as dec Hdec. inv_cw.
  rewrite (rate_digits_eq b) in *. split; [done|]. apply nine_digits_quotient.
Qed.
End math.

Section bond.
  Context `{H : Host} {HS : HostSpec H}.

(** A fee is taken only below the threshold; it is at most the recovery fee
    and at most the gap between supply and bond. *)
Definition fee_of (threshold recovery_fee rate : Decimal) (amount gap : N) : N :=
  if atomics rate <? atomics threshold
  then N.min (amount * atomics recovery_fee / dec_unit) gap else 0.

Lemma mint_after_fee_ok threshold fee st supply m req pay out :
  mint_after_fee threshold fee st supply m req pay = Ok out →
  let f := fee_of threshold fee (exchange_rate st) m
             (supply + m + req - (total_bond_amount st + pay)) in
  out = m - f ∧ f ≤ m ∧
  (atomics (exchange_rate st) < atomics threshold → total_bond_amount st + pay ≤ supply + m + req).
Proof.
  unfold mint_after_fee, fee_of. rewrite Decimal_lt_spec.
  destruct (N.ltb_spec (atomics (exchange_rate st)) (atomics threshold)); intros Hrun.
  - bind Hrun as mx Hmx. bind Hrun as s1 Hs1. bind Hrun as s2 Hs2.
    bind Hrun as b Hb. bind Hrun as gap Hgap. inv_cw. done.
  - injection Hrun as <-. split; [lia|]. split; lia.
Qed.

Definition bonded_state (pay supply : N) (st : State) : State :=
  set_exchange_rate (mkDecimal (rate_of (total_bond_amount st + pay) supply))
    (set_total_bond_amount (total_bond_amount st + pay) st).

Lemma find_payment_single d funds c :
  (1 <? N.of_nat (length funds)) = false → find_payment d funds = Some c →
  funds = [c] ∧ denom c = d ∧ 0 < amount c.
Proof.
  intros Hlen Hf. destruct funds as [|c1 [|c2 funds]]; [done| |].
  - unfold find_payment in Hf. simpl in Hf.
    destruct (String.eqb_spec (denom c1) d), (N.ltb_spec 0 (amount c1)); simpl in Hf;
      simplify_eq; done.
  - apply N.ltb_ge in Hlen. simpl in Hlen. lia.
Qed.

Lemma execute_bond_spec q env info v s r s' :
  execute_bond q env info v s = Ok (r, s') →
  ∃ params cb pay s1 st supply m minted c raw token,
    is_valid_validator v s = Ok true ∧ st_parameters s = Some params ∧
    st_current_batch s = Some cb ∧
    funds info = [pay] ∧ denom pay = underlying_coin_denom params ∧ 0 < amount pay ∧
    slashing q env s = Ok ((), s1) ∧ st_state s1 = Some st ∧
    supply_or_zero q s1 = Ok supply ∧
    decimal_division (amount pay) (exchange_rate st) = Ok m ∧
    mint_after_fee (er_threshold params) (peg_recovery_fee params) st supply m
      (requested_with_fee cb) (amount pay) = Ok minted ∧
    s' = HubState.set_state
           (bonded_state (amount pay) (supply + minted + requested_with_fee cb) st) s1 ∧
    st_config s = Some (ConfigJson c) ∧ token_contract c = Some raw ∧
    addr_humanize raw = Ok token ∧
    messages r = [StakingDelegate v pay;
                  WasmExecute token (ToToken (Mint (sender info) minted)) []].
Proof.
  intros Hrun. unfold execute_bond in Hrun.
  bind Hrun as valid Hvalid. bind Hrun as u Hv. apply fail_if_ok in Hv.
  destruct valid; [|done]. bind Hrun as params Hp. bind Hrun as cb Hcb.
  bind Hrun as u' Hlen. apply fail_if_ok in Hlen. bind Hrun as pay Hpay.
  apply ok_or_ok in Hpay. destruct (find_payment_single _ _ _ Hlen Hpay) as (Hf & Hd & Hpos).
  bind Hrun as u'' s1 Hsl. destruct u''. bind Hrun as st Hst. bind Hrun as supply Hsup.
  bind Hrun as m Hm. bind Hrun as minted Hminted. bind Hrun as total Htotal.
  apply Uint128_add_ok in Htotal as [-> _].
  bind Hrun as u3 s2 Hupd. bind Hrun as c Hc. bind Hrun as raw Hraw. bind Hrun as token Htok.
  apply cm_ret_ok in Hrun as [= -> ->].
  apply load_parameters_ok in Hp. apply load_current_batch_ok in Hcb.
  apply load_state_ok in Hst. apply load_config_ok in Hc. apply unwrap_option_ok in Hraw.
  apply update_state_ok in Hupd as (st0 & st' & Hst0 & Hst' & [= _ ->]).
  assert (st0 = st) as -> by congruence.
  bind Hst' as b Hb. apply Uint128_add_ok in Hb as [-> _].
  apply update_exchange_rate_ok in Hst' as ->.
  simpl in Hc. pose proof (slashing_settings q env _ _ _ Hsl) as Hset.
  unfold preserves, settings in Hset. injection Hset as _ _ Hcfg _ _. rewrite Hcfg in Hc.
  exists params, cb, pay, s1, st, supply, m, minted, c, raw, token. done.
Qed.

Lemma bonded_state_ledger pay supply st : ledger_state (bonded_state pay supply st) = ledger_state st.
Proof. done. Qed.

Lemma execute_bond_ledger q env info v : keeps (preserves ledger) (execute_bond q env info v).
Proof.
  intros s r s' Hrun. apply execute_bond_spec in Hrun
    as (? & ? & ? & s1 & st & ? & ? & ? & ? & ? & ? & _ & _ & _ & _ & _ & _ & Hsl & Hst & _ & _ & _ & -> & _).
  unfold preserves. rewrite <- (slashing_ledger q env _ _ _ Hsl). by apply ledger_set_state with st.
Qed.
Lemma execute_bond_settings q env info v : keeps (preserves settings) (execute_bond q env info v).
Proof.
  intros s r s' Hrun. apply execute_bond_spec in Hrun
    as (? & ? & ? & s1 & st & ? & ? & ? & ? & ? & ? & _ & _ & _ & _ & _ & _ & Hsl & Hst & _ & _ & _ & -> & _).
  unfold preserves. by rewrite <- (slashing_settings q env _ _ _ Hsl).
Qed.
End bond.
#[export] Hint Resolve execute_bond_ledger execute_bond_settings : keeps.
