(* ===== verification/HubUnbondFacts.v ===== *)
(** * Undelegation: facts about [pick_validator]

    The loop draws delegations at random until the claim is covered.  It ends,
    it succeeds exactly when the delegations cover the claim, and the messages it
    emits undelegate the claim to the last unit without overdrawing anyone. *)
From S2P Require Import Prelude Bytes Cosmwasm Protocol HubState HubStateFacts HubMath.
From S2P Require Import HubCore HubBond HubUnbond HubCoreFacts HubBondFacts.

Definition delegated (d : Delegation) : N := amount (del_amount d).
Definition total_delegated (ds : list Delegation) : N := sum_of delegated ds.

(** The messages for a list of delegations and the amounts taken from them. *)
Definition undelegations (coin_denom : string) (takes : list (Delegation * N))
    : list (CosmosMsg WasmBody) :=
  map (λ dt, StakingUndelegate (validator dt.1) (mkCoin coin_denom dt.2))
    (List.filter (λ dt, 0 <? dt.2) takes).

(** [takes] is a way to take [claim] out of the delegations [ds]. *)
Definition undelegation_plan (ds : list Delegation) (claim : N)
    (takes : list (Delegation * N)) : Prop :=
  (∃ rest, ds ≡ₚ takes.*1 ++ rest) ∧
  Forall (λ dt, dt.2 ≤ delegated dt.1) takes ∧
  sum_of snd takes = claim.

Section pick.
  Context `{H : Host} {HS : HostSpec H}.

Lemma vec_remove_perm {A} i (l : list A) x :
  l !! i = Some x → l ≡ₚ x :: vec_remove i l.
Proof.
  intros Hi. unfold vec_remove. rewrite <- (take_drop_middle l i x Hi) at 1.
  by rewrite Permutation_middle.
Qed.

Lemma vec_remove_total i ds d :
  ds !! i = Some d → total_delegated ds = delegated d + total_delegated (vec_remove i ds).
Proof.
  intros Hi. unfold total_delegated.
  by rewrite (sum_of_perm _ _ _ (vec_remove_perm i ds d Hi)).
Qed.

Lemma vec_remove_length {A} i (l : list A) x :
  l !! i = Some x → length l = S (length (vec_remove i l)).
Proof. intros Hi. by rewrite (vec_remove_perm i l x Hi) at 1. Qed.

Lemma undelegations_cons cd d t takes :
  undelegations cd ((d, t) :: takes) =
    (if 0 <? t then [StakingUndelegate (validator d) (mkCoin cd t)] else [])
      ++ undelegations cd takes.
Proof. unfold undelegations. simpl. by destruct (0 <? t). Qed.

Lemma undelegation_plan_cons ds i d t claim takes :
  ds !! i = Some d → t ≤ delegated d → t ≤ claim →
  undelegation_plan (vec_remove i ds) (claim - t) takes →
  undelegation_plan ds claim ((d, t) :: takes).
Proof.
  intros Hi Ht Htc ([rest Hp] & Hf & Hs). split; [|split].
  - exists rest. simpl. rewrite (vec_remove_perm i ds d Hi). by rewrite Hp.
  - by constructor.
  - simpl. lia.
Qed.

(** One turn of the loop, once the draw is known. *)
Lemma pick_loop_turn fuel cd height idx claimed ds msgs :
  0 < claimed →
  pick_loop (S fuel) cd height idx claimed ds msgs =
    (seed ← u64_add height idx;
     i ← gen_range_from seed (length ds);
     d ← unwrap_option (ds !! i);
     let t := N.min (delegated d) claimed in
     index' ← u64_add idx 1;
     pick_loop fuel cd height index' (claimed - t) (vec_remove i ds)
       (msgs ++ if 0 <? t then [StakingUndelegate (validator d) (mkCoin cd t)] else [])).
Proof.
  intros Hc. simpl. rewrite (proj2 (N.ltb_lt 0 claimed)) by done.
  destruct (u64_add height idx); simpl; try done.
  destruct (gen_range_from _ _); simpl; try done.
  destruct (ds !! _); simpl; try done. unfold delegated.
  rewrite Uint128_checked_sub_spec.
  destruct (N.ltb_spec claimed (amount (del_amount d))); simpl.
  - rewrite N.min_r by lia. rewrite (proj2 (N.ltb_lt 0 claimed)), N.sub_diag by done. done.
  - rewrite (proj2 (N.leb_le _ _)) by done. simpl. rewrite N.min_l by done.
    destruct (0 <? amount (del_amount d)); [done|]. by rewrite app_nil_r.
Qed.

Lemma pick_loop_done fuel cd height idx ds msgs :
  pick_loop (S fuel) cd height idx 0 ds msgs = Ok msgs.
Proof. done. Qed.

(** Success: the new messages carry out an undelegation plan. *)
Lemma pick_loop_spec fuel cd height idx claimed ds msgs out :
  pick_loop fuel cd height idx claimed ds msgs = Ok out →
  ∃ takes, out = msgs ++ undelegations cd takes ∧ undelegation_plan ds claimed takes.
Proof.
  revert idx claimed ds msgs; induction fuel as [|fuel IH]; intros idx claimed ds msgs;
    [done|].
  destruct (decide (claimed = 0)) as [->|Hc].
  { intros [= <-]. exists []. rewrite app_nil_r.
    repeat split; [by exists ds|constructor]. }
  rewrite pick_loop_turn by lia. intros Hrun.
  bind Hrun as seed Hseed. bind Hrun as i Hi. bind Hrun as d Hd.
  apply unwrap_option_ok in Hd. bind Hrun as idx' Hidx'.
  apply IH in Hrun as (takes & -> & Hplan).
  exists ((d, N.min (delegated d) claimed) :: takes). split.
  - by rewrite undelegations_cons, app_assoc.
  - apply (undelegation_plan_cons ds i); try done; lia.
Qed.

(** A draw that succeeds is in range. *)
Lemma draw_some {A} seed (l : list A) :
  l ≠ [] → ∃ i x, gen_range_from seed (length l) = Ok i ∧ l !! i = Some x.
Proof.
  intros Hl. destruct (gen_range_in seed (length l)) as (i & Hi & Hlt).
  { destruct l; [done|simpl; lia]. }
  destruct (lookup_lt_is_Some_2 l i Hlt) as [x Hx]. by exists i, x.
Qed.

(** Totality: enough stake, no overflow of the seed, enough fuel. *)
Lemma pick_loop_total fuel cd height idx claimed ds msgs :
  (length ds < fuel)%nat → claimed ≤ total_delegated ds →
  height + idx + N.of_nat (length ds) < u64_bound →
  ∃ out, pick_loop fuel cd height idx claimed ds msgs = Ok out.
Proof.
  revert idx claimed ds msgs; induction fuel as [|fuel IH];
    intros idx claimed ds msgs Hfuel Hclaim Hb; [lia|].
  destruct (decide (claimed = 0)) as [->|Hc]; [by eexists|].
  rewrite pick_loop_turn by lia.
  destruct ds as [|d0 ds0] eqn:Hds; [simpl in *; unfold total_delegated in *; simpl in *; lia|].
  rewrite <- Hds in *. clear d0 ds0 Hds.
  rewrite (proj2 (u64_add_ok height idx _)) by (split; [done|lia]). simpl.
  destruct (decide (ds = [])) as [->|Hne]; [unfold total_delegated in *; simpl in *; lia|].
  destruct (draw_some (height + idx) ds Hne) as (i & d & -> & Hd). simpl.
  rewrite Hd. simpl. pose proof (vec_remove_length i ds d Hd) as Hlen.
  rewrite (proj2 (u64_add_ok idx 1 _)) by (split; [done|lia]). simpl.
  pose proof (vec_remove_total i ds d Hd). apply IH; lia.
Qed.

(** The fuel passed by [pick_validator] always suffices. *)
Lemma pick_loop_fuel fuel cd height idx claimed ds msgs :
  (length ds < fuel)%nat →
  pick_loop fuel cd height idx claimed ds msgs ≠ OutOfFuel.
Proof.
  revert idx claimed ds msgs; induction fuel as [|fuel IH];
    intros idx claimed ds msgs Hfuel; [lia|].
  destruct (decide (claimed = 0)) as [->|Hc]; [done|].
  rewrite pick_loop_turn by lia. unfold u64_add.
  destruct (height + idx <? u64_bound); simpl; [|done].
  destruct (decide (ds = [])) as [->|Hne]; [by rewrite gen_range_empty|].
  destruct (draw_some (height + idx) ds Hne) as (i & d & -> & Hd). simpl.
  rewrite Hd. simpl. destruct (idx + 1 <? u64_bound); simpl; [|done].
  apply IH. pose proof (vec_remove_length i ds d Hd). lia.
Qed.

(** Not enough stake: the loop runs into the empty list and panics. *)
Lemma pick_loop_short fuel cd height idx claimed ds msgs :
  (length ds < fuel)%nat → total_delegated ds < claimed →
  pick_loop fuel cd height idx claimed ds msgs = Panic.
Proof.
  revert idx claimed ds msgs; induction fuel as [|fuel IH];
    intros idx claimed ds msgs Hfuel Hclaim; [lia|].
  rewrite pick_loop_turn by lia. unfold u64_add.
  destruct (height + idx <? u64_bound); simpl; [|done].
  destruct (decide (ds = [])) as [->|Hne]; [by rewrite gen_range_empty|].
  destruct (draw_some (height + idx) ds Hne) as (i & d & -> & Hd). simpl.
  rewrite Hd. simpl. destruct (idx + 1 <? u64_bound); simpl; [|done].
  pose proof (vec_remove_length i ds d Hd). pose proof (vec_remove_total i ds d Hd).
  apply IH; lia.
Qed.
End pick.

Section unbond.
  Context `{H : Host} {HS : HostSpec H}.

Lemma pick_validator_spec q claim a height s msgs :
  pick_validator q claim a height s = Ok msgs →
  ∃ params ds takes, st_parameters s = Some params ∧ query_all_delegations q a = Ok ds ∧
    msgs = undelegations (underlying_coin_denom params) takes ∧ undelegation_plan ds claim takes.
Proof.
  intros Hrun. unfold pick_validator in Hrun.
  apply outcome_bind_ok in Hrun as (params & Hp & Hrun).
  apply outcome_bind_ok in Hrun as (ds & Hds & Hrun).
  apply load_parameters_ok in Hp. apply (unwrap_ok (query_all_delegations q a)) in Hds. apply pick_loop_spec in Hrun as (takes & -> & Hplan).
  exists params, ds, takes. do 3 (split; [done|]). exact Hplan.
Qed.

Lemma unbond_after_fee_ok threshold fee st supply m req out :
  unbond_after_fee threshold fee st supply m req = Ok out →
  let f := fee_of threshold fee (exchange_rate st) m (supply + req - total_bond_amount st) in
  out = m - f ∧ f ≤ m ∧
  (atomics (exchange_rate st) < atomics threshold → total_bond_amount st ≤ supply + req).
Proof.
  unfold unbond_after_fee, fee_of. rewrite Decimal_lt_spec.
  destruct (N.ltb_spec (atomics (exchange_rate st)) (atomics threshold)); intros Hrun.
  - bind Hrun as mx Hmx. bind Hrun as s1 Hs1. bind Hrun as gap Hgap. inv_cw. done.
  - injection Hrun as <-. split; [lia|]. split; lia.
Qed.

(** *** Closing a batch *)
Definition undelegated (cb : CurrentBatch) (st : State) : N :=
  requested_with_fee cb * atomics (exchange_rate st) / dec_unit.
Definition closed_history (env : Env) (cb : CurrentBatch) (st : State) : UnbondHistory :=
  mkUnbondHistory (cb_id cb) (block_time env) (requested_with_fee cb)
    (exchange_rate st) (exchange_rate st) false.
Definition closed_state (env : Env) (cb : CurrentBatch) (st : State) : State :=
  set_last_unbonded_time (block_time env)
    (set_total_bond_amount (total_bond_amount st - undelegated cb st) st).
Definition with_history (cb : CurrentBatch) (h : UnbondHistory) (s : HubStore) : HubStore :=
  set_history (<[to_be_bytes (cb_id cb) := h]> (st_history s)) s.

Lemma close_batch_spec q env cb st s r s' :
  close_batch q env cb st s = Ok (r, s') →
  undelegated cb st ≠ 1 ∧
  pick_validator q (undelegated cb st) (contract_address env) (block_height env) s = Ok r.1.1 ∧
  undelegated cb st ≤ total_bond_amount st ∧ cb_id cb + 1 < u64_bound ∧
  r.1.2 = mkCurrentBatch (cb_id cb + 1) 0 ∧ r.2 = closed_state env cb st ∧
  s' = with_history cb (closed_history env cb st) s.
Proof.
  intros Hrun. unfold close_batch in Hrun.
  bind Hrun as und Hund. apply Uint128_mul_Decimal_ok in Hund as [-> _].
  bind Hrun as u Hu. apply fail_if_ok, N.eqb_neq in Hu. bind Hrun as msgs Hmsgs.
  bind Hrun as bonded Hb. apply unwrap_ok, Uint128_checked_sub_ok in Hb as [-> Hb].
  bind Hrun. bind Hrun as id' Hid. apply u64_add_ok in Hid as [-> Hid].
  apply cm_ret_ok in Hrun as [= -> ->]. done.
Qed.

(** *** The whole handler *)
Definition burned_state (supply : N) (cb : CurrentBatch) (st : State) : State :=
  set_exchange_rate
    (mkDecimal (rate_of (total_bond_amount st) (supply + requested_with_fee cb))) st.

(** The end of the handler: the epoch goes on, or the batch is closed. *)
Definition unbond_end (q : Querier) (env : Env) (epoch : N) (cb : CurrentBatch) (st : State)
    (s : HubStore) (msgs : list (CosmosMsg WasmBody)) (s' : HubStore) : Prop :=
  last_unbonded_time st ≤ block_time env ∧
  if epoch <? block_time env - last_unbonded_time st
  then
    undelegated cb st ≠ 1 ∧ undelegated cb st ≤ total_bond_amount st ∧
    cb_id cb + 1 < u64_bound ∧
    pick_validator q (undelegated cb st) (contract_address env) (block_height env) s = Ok msgs ∧
    s' = HubState.set_state (closed_state env cb st)
           (set_current_batch (mkCurrentBatch (cb_id cb + 1) 0)
              (with_history cb (closed_history env cb st) s))
  else msgs = [] ∧ s' = HubState.set_state st (set_current_batch cb s).

Lemma execute_unbond_spec q env a u s r s' :
  execute_unbond q env a u s = Ok (r, s') →
  ∃ params cb s1 st supply owed s2 msgs c raw token,
    st_parameters s = Some params ∧ st_current_batch s = Some cb ∧
    slashing q env s = Ok ((), s1) ∧ st_state s1 = Some st ∧
    supply_or_zero q s1 = Ok supply ∧ a ≤ supply ∧
    unbond_after_fee (er_threshold params) (peg_recovery_fee params) st supply a
      (requested_with_fee cb) = Ok owed ∧
    store_unbond_wait_list (cb_id cb) u owed s1 = Ok ((), s2) ∧
    (let cb' := mkCurrentBatch (cb_id cb) (requested_with_fee cb + owed) in
     unbond_end q env (epoch_period params) cb' (burned_state (supply - a) cb' st) s2 msgs s') ∧
    st_config s = Some (ConfigJson c) ∧ token_contract c = Some raw ∧
    addr_humanize raw = Ok token ∧
    messages r = msgs ++ [WasmExecute token (ToToken (Burn a)) []].
Proof.
  intros Hrun. unfold execute_unbond in Hrun.
  bind Hrun as params Hp. bind Hrun as cb Hcb. bind Hrun as x s1 Hsl. destruct x.
  bind Hrun as st Hst. bind Hrun as supply Hsup. bind Hrun as owed Howed.
  bind Hrun as req Hreq. apply Uint128_add_ok in Hreq as [-> _].
  bind Hrun as x s2 Hw. destruct x. bind Hrun as left Hleft.
  apply unwrap_ok, Uint128_checked_sub_ok in Hleft as [-> Hle].
  bind Hrun as st' Hst'. apply update_exchange_rate_ok in Hst' as ->.
  bind Hrun as passed Hpassed. apply u64_sub_ok in Hpassed as [-> Hpassed].
  bind Hrun as res s3 Hres. bind Hrun. bind Hrun. bind Hrun as c Hc. bind Hrun as raw Hraw.
  bind Hrun as token Htok. apply cm_ret_ok in Hrun as [= -> ->].
  apply load_parameters_ok in Hp. apply load_current_batch_ok in Hcb.
  apply load_state_ok in Hst. apply load_config_ok in Hc. apply unwrap_option_ok in Hraw.
  pose proof (slashing_settings q env _ _ _ Hsl) as Hset.
  unfold preserves, settings in Hset. injection Hset as _ _ Hcfg Hpar _.
  assert (∃ w, s2 = set_wait w s1) as [w Hs2].
  { unfold store_unbond_wait_list in Hw. bind Hw as k1 Hk1. bind Hw as k2 Hk2. inv_cw. eauto. }
  exists params, cb, s1, st, supply, owed, s2, res.1.1, c, raw, token.
  do 8 (split; [done|]). split.
  - unfold unbond_end. simpl in *. split; [done|]. destruct (epoch_period params <? _).
    + apply close_batch_spec in Hres as (? & ? & ? & ? & -> & -> & ->). done.
    + apply cm_ret_ok in Hres as [= -> ->]. done.
  - split; [|done]. rewrite <- Hcfg. simpl in *.
    destruct (epoch_period params <? _).
    + apply close_batch_spec in Hres as (_ & _ & _ & _ & _ & _ & ->). by subst.
    + apply cm_ret_ok in Hres as [= -> ->]. by subst.
Qed.

Lemma execute_unbond_settings q env a u : keeps (preserves settings) (execute_unbond q env a u).
Proof.
  intros s r s' Hrun. apply execute_unbond_spec in Hrun
    as (? & ? & s1 & st & ? & ? & s2 & ? & ? & ? & ? & _ & _ & Hsl & _ & _ & _ & _ & Hw & [_ Hend] & _).
  unfold preserves. rewrite <- (slashing_settings q env _ _ _ Hsl).
  unfold store_unbond_wait_list in Hw. bind Hw as k1 Hk1. bind Hw as k2 Hk2. inv_cw.
  destruct (_ <? _); [destruct Hend as (_ & _ & _ & _ & ->)|destruct Hend as [_ ->]]; done.
Qed.
End unbond.
#[export] Hint Resolve execute_unbond_settings : keeps.
