(* ===== verification/HubAdminFacts.v ===== *)
(** * Rewards, administration and the other handlers: their effects and frames *)
From S2P Require Import Prelude Bytes Cosmwasm Protocol HubState HubStateFacts HubCore.
From S2P Require Import HubConfig HubBond HubUnbond HubWithdraw HubAutoCompound HubContract.
From S2P Require Import HubCoreFacts HubBondFacts HubUnbondFacts.

Section rewards.
  Context `{H : Host} {HS : HostSpec H}.

(** The protocol's cut of the claimed rewards; a zero fee is not a special case. *)
Definition protocol_cut (params : Parameters) (claimed : N) : N :=
  claimed * atomics (protocol_fee params) / dec_unit.

Definition compounded_state (user_rewards supply : N) (st : State) : State :=
  set_total_bond_amount (total_bond_amount st + user_rewards)
    (set_exchange_rate
       (mkDecimal (atomics (exchange_rate st) + user_rewards * dec_unit / supply)) st).

Definition fee_msgs (coin collector : string) (fee : N) : list (CosmosMsg WasmBody) :=
  if fee =? 0 then [] else [BankSend collector [mkCoin coin fee]].

Lemma protocol_cut_ok params claimed fee :
  (if bool_decide (protocol_fee params ≠ Decimal_zero)
   then Uint128_mul_Decimal claimed (protocol_fee params) else Ok 0) = Ok fee →
  fee = protocol_cut params claimed.
Proof.
  unfold protocol_cut. case_bool_decide as Hz; intros Hrun; inv_cw; [done|].
  destruct (decide (protocol_fee params = Decimal_zero)) as [->|]; [|done].
  by rewrite Decimal_zero_spec, N.mul_0_r, N.Div0.div_0_l.
Qed.

Lemma execute_update_exchange_rate_spec q env info s r s' :
  execute_update_exchange_rate q env info s = Ok (r, s') →
  ∃ st c raw params pay cb ti ds collector,
    st_state s = Some st ∧ st_config s = Some (ConfigJson c) ∧
    rewards_contract c = Some raw ∧ addr_humanize raw = Ok (sender info) ∧
    st_parameters s = Some params ∧ st_current_batch s = Some cb ∧
    find_payment (underlying_coin_denom params) (funds info) = Some pay ∧
    query_total_issued q s = Ok ti ∧ ti + requested_with_fee cb ≠ 0 ∧
    query_all_delegations q (contract_address env) = Ok ds ∧
    let fee := protocol_cut params (amount pay) in
    let coin := underlying_coin_denom params in
    fee ≤ amount pay ∧
    s' = HubState.set_state
           (compounded_state (amount pay - fee) (ti + requested_with_fee cb) st) s ∧
    (fee ≠ 0 → ∃ fc, protocol_fee_collector c = Some fc ∧ addr_humanize fc = Ok collector) ∧
    ∃ staked, messages r = fee_msgs coin collector fee ++ staked ∧
      if amount pay - fee =? 0 then staked = []
      else ∃ d, d ∈ ds ∧ staked = [StakingDelegate (validator d) (mkCoin coin (amount pay - fee))].
Proof.
  intros Hrun. unfold execute_update_exchange_rate in Hrun.
  bind Hrun as st Hst. bind Hrun as c Hc. bind Hrun as raw Hraw. bind Hrun as rc Hrc.
  bind Hrun as u Hu. apply fail_if_ok, bool_decide_eq_false in Hu. apply dec_stable in Hu as ->.
  bind Hrun as params Hp. bind Hrun as pay Hpay. bind Hrun as fee Hfee.
  apply protocol_cut_ok in Hfee. bind Hrun as user Huser. bind Hrun as cb Hcb.
  bind Hrun as ti Hti. bind Hrun as supply Hsup. bind Hrun as inc Hinc. bind Hrun as rate Hrate.
  bind Hrun as bonded Hb. bind Hrun. bind Hrun as ds Hds. bind Hrun as i Hi.
  bind Hrun as fmsgs Hfm. bind Hrun as smsgs Hsm. apply cm_ret_ok in Hrun as [= -> ->].
  apply load_parameters_ok in Hp. apply load_current_batch_ok in Hcb. apply load_state_ok in Hst.
  apply load_config_ok in Hc. apply unwrap_option_ok in Hraw. apply ok_or_ok in Hpay.
  apply (unwrap_ok (query_all_delegations q _)) in Hds. apply Uint128_checked_sub_ok in Huser as [-> Hle].
  apply Uint128_add_ok in Hsup as [-> _]. apply Decimal_from_ratio_ok in Hinc as (Hne & -> & _).
  apply Decimal_add_ok in Hrate as [-> _]. apply Uint128_add_ok in Hb as [-> _].
  assert (∃ collector, fmsgs = fee_msgs (underlying_coin_denom params) collector fee ∧
    (fee ≠ 0 → ∃ fc, protocol_fee_collector c = Some fc ∧ addr_humanize fc = Ok collector))
    as (collector & -> & Hcol).
  { unfold fee_msgs. destruct (N.eqb_spec fee 0); simpl in Hfm.
    - exists EmptyString. by simplify_eq.
    - destruct (protocol_fee_collector c) as [fc|]; [|done]. bind Hfm as to Hto.
      exists to. simplify_eq. eauto. }
  exists st, c, raw, params, pay, cb, ti, ds, collector. subst fee.
  do 12 (split; [done|]). split; [done|].
  exists smsgs. split; [done|]. destruct (N.eqb_spec (amount pay - protocol_cut params (amount pay)) 0);
    simpl in Hsm; [by simplify_eq|].
  bind Hsm as d Hd. apply unwrap_option_ok in Hd. exists d. simplify_eq.
  split; [|done]. by eapply list_elem_of_lookup_2.
Qed.

Lemma update_exchange_rate_ledger q env info :
  keeps (preserves ledger) (execute_update_exchange_rate q env info).
Proof.
  intros s r s' Hrun. apply execute_update_exchange_rate_spec in Hrun
    as (st & ? & ? & ? & ? & ? & ? & ? & ? & Hst & _ & _ & _ & _ & _ & _ & _ & _ & _ & _ & -> & _).
  by apply ledger_set_state with st.
Qed.
Lemma update_exchange_rate_settings q env info :
  keeps (preserves settings) (execute_update_exchange_rate q env info).
Proof.
  intros s r s' Hrun. apply execute_update_exchange_rate_spec in Hrun
    as (st & ? & ? & ? & ? & ? & ? & ? & ? & Hst & _ & _ & _ & _ & _ & _ & _ & _ & _ & _ & -> & _).
  done.
Qed.

Lemma update_global_ledger q env : keeps (preserves ledger) (execute_update_global q env).
Proof.
  unfold execute_update_global. do 4 (apply keeps_bind; [apply _|solve_keeps|intros ?]).
  apply keeps_bind; [apply _| |solve_keeps]. apply keeps_update_state.
  intros s st st' Hst [= <-]. by apply ledger_set_state with st.
Qed.
Lemma update_global_settings q env : keeps (preserves settings) (execute_update_global q env).
Proof.
  unfold execute_update_global. do 4 (apply keeps_bind; [apply _|solve_keeps|intros ?]).
  apply keeps_bind; [apply _| |solve_keeps]. by apply keeps_update_state.
Qed.
End rewards.
#[export] Hint Resolve update_exchange_rate_ledger update_exchange_rate_settings
update_global_ledger update_global_settings : keeps.

Section admin.
  Context `{H : Host} {HS : HostSpec H} `{HK : HookSerde}.

(** The settings operations do not touch the ledger. *)
Lemma update_params_ledger info a b c d e :
  keeps (preserves ledger) (execute_update_params info a b c d e).
Proof. unfold execute_update_params. solve_keeps. Qed.
Lemma update_config_ledger info t f : keeps (preserves ledger) (execute_update_config info t f).
Proof. unfold execute_update_config. solve_keeps. Qed.
Lemma register_validator_ledger q env info v :
  keeps (preserves ledger) (execute_register_validator q env info v).
Proof. unfold execute_register_validator, store_white_validators. solve_keeps. Qed.
Lemma deregister_validator_ledger q env info v :
  keeps (preserves ledger) (execute_deregister_validator q env info v).
Proof. unfold execute_deregister_validator, remove_white_validators. solve_keeps. Qed.
Lemma update_admin_ledger info a : keeps (preserves ledger) (execute_update_admin info a).
Proof. unfold execute_update_admin. solve_keeps. Qed.
Lemma migrate_ledger m : keeps (preserves ledger) (migrate m).
Proof. unfold migrate, migrate_config. solve_keeps. Qed.

(** Withdrawing does not touch the settings. *)
Lemma remove_batches_settings k l : keeps (preserves settings) (remove_batches k l).
Proof. induction l; simpl; solve_keeps. Qed.
Lemma release_batches_settings fuel t i sl total lp :
  keeps (preserves settings) (release_batches fuel t i sl total lp).
Proof.
  revert i lp; induction fuel as [|fuel IH]; intros i lp; simpl; [solve_keeps|].
  unfold store_unbond_history. solve_keeps.
Qed.
Hint Resolve remove_batches_settings release_batches_settings : keeps.
Lemma withdraw_settings q env info :
  keeps (preserves settings) (execute_withdraw_unbonded q env info).
Proof.
  unfold execute_withdraw_unbonded, process_withdraw_rate, remove_unbond_wait_list.
  solve_keeps.
Qed.

Lemma unwrap_assert_admin_ok slot a u :
  unwrap_assert_admin slot a = Ok u ↔ slot = Some (Some a).
Proof.
  rewrite <- admin_assert_spec. unfold unwrap_assert_admin. destruct u.
  destruct (admin_assert slot a) as [[|]|[]]; split; congruence.
Qed.

Lemma is_contract_paused_ok s r :
  is_contract_paused s = Ok r → st_pause s = Some false.
Proof.
  unfold is_contract_paused. intros Hrun. bind Hrun as p Hp. apply load_pause_ok in Hp.
  by destruct p.
Qed.
End admin.
#[export] Hint Resolve update_params_ledger update_config_ledger register_validator_ledger
deregister_validator_ledger update_admin_ledger migrate_ledger withdraw_settings : keeps.

(** The messages of the two handlers that ask the chain what to send. *)
Section messages.
  Context `{H : Host} {HS : HostSpec H}.

Lemma deregister_messages q env info v s r s' :
  execute_deregister_validator q env info v s = Ok (r, s') →
  messages r = [] ∨
  ∃ d replacement, query_delegation q (contract_address env) v = Ok (Some d) ∧
    messages r = [StakingRedelegate v replacement (del_amount d);
                  WasmExecute (contract_address env) (ToHub UpdateGlobalIndex) []].
Proof.
  intros Hrun. unfold execute_deregister_validator in Hrun.
  bind Hrun as u Hu. bind Hrun as vs Hvs. bind Hrun as u2 Hu2. bind Hrun as u3 s1 Hrm.
  bind Hrun as query Hquery. bind Hrun as x s2 Hx. apply cm_ret_ok in Hrun as [= -> ->].
  apply try_ok_ok in Hquery. destruct query as [d|]; [|left; by apply cm_ret_ok in Hx as [= -> ->]].
  bind Hx as vs' Hvs'. bind Hx as i Hi. bind Hx as repl Hrepl.
  destruct d as [d|]; apply cm_ret_ok in Hx as [= -> ->]; [right|by left].
  destruct Hquery as [(d' & Hd & [= <-])|[_ ?]]; [|done]. by exists d, repl.
Qed.

Lemma update_global_messages q env s r s' :
  execute_update_global q env s = Ok (r, s') →
  ∃ ds contract,
    messages r = map (λ d, WithdrawDelegatorReward (validator d)) ds ++
                 [WasmExecute contract (ToRewards ProcessRewards) []] ∧
    ∀ ds', query_all_delegations q (contract_address env) = Ok ds' → ds' = ds.
Proof.
  intros Hrun. unfold execute_update_global in Hrun.
  bind Hrun as c Hc. bind Hrun as raw Hraw. bind Hrun as a Ha. bind Hrun as msgs Hmsgs.
  bind Hrun as u s1 Hu. apply cm_ret_ok in Hrun as [= -> ->].
  unfold withdraw_all_rewards in Hmsgs. bind Hmsgs as ds Hds.
  assert (∀ ds', query_all_delegations q (contract_address env) = Ok ds' → ds = Some ds') as Hq
    by (intros ds' Hds'; rewrite Hds' in Hds; by injection Hds).
  destruct ds as [ds|]; injection Hmsgs as <-; [exists ds, a|exists [], a]; (split; [done|]);
    intros ds' [= ->]%Hq; done.
Qed.
End messages.
