(* ===== verification/HubWithdrawFacts.v ===== *)
(** * Releasing batches: facts about [process_withdraw_rate]

    [Due s t i D] says that, walking the stored history from batch [i], the
    batches that are due at time [t] are exactly [D].  Both loops of the code
    follow this relation; the lemmas below give their results in terms of [D]. *)
From S2P Require Import Prelude Bytes Cosmwasm Protocol SignedInteger HubState HubStateFacts.
From S2P Require Import HubCore HubWithdraw.

Section due.
  Context `{H : Host}.

Definition is_due (s : HubStore) (t i : N) : bool :=
  match hist s i with
  | Some h => (h_time h <=? t) && negb (released h)
  | None => false
  end.

Inductive Due (s : HubStore) (t : N) : N → list (N * UnbondHistory) → Prop :=
  | due_stop i : is_due s t i = false → Due s t i []
  | due_next i h D :
      i + 1 < u64_bound → hist s i = Some h → h_time h ≤ t → released h = false →
      Due s t (i + 1) D → Due s t i ((i, h) :: D).

(** What a batch is worth at its own rate, before slashing. *)
Definition unbonded_of (jh : N * UnbondHistory) : N :=
  h_amount jh.2 * atomics (withdraw_rate jh.2) / dec_unit.

(** The rate a released batch gets. *)
Definition new_rate (slashed : SignedInt) (total : N) (jh : N * UnbondHistory)
    (r : Decimal) : Prop :=
  ∃ actual, actual_unbonded_of_batch slashed total (unbonded_of jh) = Ok actual ∧
            Decimal_from_ratio actual (h_amount jh.2) = Ok r.

(** The history of [s'] is that of [s] with the batches [D] released at the
    rates [rs]. *)
Definition released_hist (s s' : HubStore) (D : list (N * UnbondHistory))
    (rs : list Decimal) : Prop :=
  dom (st_history s') = dom (st_history s) ∧
  (∀ k j h r, D !! k = Some (j, h) → rs !! k = Some r →
     hist s' j = Some (release r h)) ∧
  (∀ j, j < u64_bound → j ∉ D.*1 → hist s' j = hist s j).
Definition released_with (s s' : HubStore) (D : list (N * UnbondHistory))
    (rs : list Decimal) : Prop :=
  (∃ m, s' = set_history m s) ∧ released_hist s s' D rs.
End due.

Section facts.
  Context `{H : Host} {HS : HostSpec H}.

Lemma Due_ids s t i D :
  Due s t i D → ∀ j, j ∈ D.*1 ↔ i ≤ j ∧ j < i + N.of_nat (length D).
Proof.
  induction 1 as [i Hi|i h D Hb Hh Ht Hr HD IH]; intros j; simpl.
  - rewrite elem_of_nil. lia.
  - rewrite elem_of_cons, IH. lia.
Qed.

Lemma Due_bound s t i D : i < u64_bound → Due s t i D → i + N.of_nat (length D) < u64_bound.
Proof. intros Hi. induction 1; simpl; [lia|]. specialize (IHDue ltac:(lia)). lia. Qed.

Lemma Due_hist s t i D j h :
  Due s t i D → (j, h) ∈ D → hist s j = Some h ∧ h_time h ≤ t ∧ released h = false.
Proof.
  induction 1 as [|i' h' D Hb Hh Ht Hr HD IH]; [by intros ?%elem_of_nil|].
  intros [[= -> ->]|?]%elem_of_cons; auto.
Qed.

Lemma Due_NoDup s t i D : Due s t i D → NoDup D.*1.
Proof.
  induction 1 as [|i' h' D Hb Hh Ht Hr HD IH]; simpl; constructor; [|done].
  rewrite (Due_ids _ _ _ _ HD). lia.
Qed.

Lemma Due_unique s t i D D' : Due s t i D → Due s t i D' → D = D'.
Proof.
  assert (∀ i h, hist s i = Some h → h_time h ≤ t → released h = false →
    is_due s t i = true) as Htrue.
  { intros j h Hh Ht Hr. unfold is_due. rewrite Hh, Hr. by rewrite (proj2 (N.leb_le _ _)). }
  intros HD. revert D'. induction HD as [i Hi|i h D Hb Hh Ht Hr HD IH]; intros D' HD'.
  - inversion HD' as [|? h D2 Hb Hh Ht Hr]; subst; [done|].
    rewrite (Htrue i h) in Hi; done.
  - inversion HD' as [? Hi|? h2 D2 Hb2 Hh2 Ht2 Hr2 HD2]; subst.
    + rewrite (Htrue i h) in Hi; done.
    + replace h2 with h by congruence. f_equal. by apply IH.
Qed.

(** The relation only looks at the history from [i] on. *)
Lemma Due_hist_ext s s' t i D :
  Due s t i D → i < u64_bound →
  (∀ j, i ≤ j → j < u64_bound → hist s' j = hist s j) → Due s' t i D.
Proof.
  induction 1 as [i Hi|i h D Hb Hh Ht Hr HD IH]; intros Hib Heq.
  - constructor. unfold is_due in *. by rewrite Heq.
  - constructor; try done; [by rewrite Heq|].
    apply IH; [lia|]. intros j ??. apply Heq; lia.
Qed.

Lemma is_due_some s t i h :
  hist s i = Some h → (t <? h_time h) = false → released h = false → is_due s t i = true.
Proof.
  intros Hh Ht Hr. unfold is_due. rewrite Hh, Hr. apply N.ltb_ge in Ht.
  by rewrite (proj2 (N.leb_le _ _)).
Qed.

(** ** The first loop *)
Lemma sum_unbonded_spec fuel t i total count s r :
  i < u64_bound → sum_unbonded fuel t i total count s = Ok r →
  ∃ D, Due s t i D ∧ (length D < fuel)%nat ∧
       r = (total + sum_of unbonded_of D, count + N.of_nat (length D)).
Proof.
  revert i total count; induction fuel as [|fuel IH]; intros i total count Hi Hrun; [done|].
  simpl in Hrun. rewrite try_read_history in Hrun. simpl in Hrun.
  assert (is_due s t i = false → r = (total, count) →
    ∃ D, Due s t i D ∧ (length D < S fuel)%nat ∧
      r = (total + sum_of unbonded_of D, count + N.of_nat (length D))) as Hstop.
  { intros Hd ->. exists []. split; [by constructor|]. simpl.
    split; [lia|]. by rewrite !N.add_0_r. }
  unfold is_due in Hstop. destruct (hist s i) as [h|] eqn:Hh; [|injection Hrun as <-; by apply Hstop].
  destruct (N.ltb_spec t (h_time h)) as [Ht|Ht].
  { injection Hrun as <-. apply Hstop; [|done].
    by rewrite (proj2 (N.leb_gt _ _)). }
  destruct (released h) eqn:Hrel; simpl in Hrun.
  { injection Hrun as <-. apply Hstop; [|done]. by rewrite andb_false_r. }
  clear Hstop. bind Hrun as u Hu. bind Hrun as total' Htot.
  bind Hrun as count' Hcount. bind Hrun as i' Hi'. inv_cw.
  apply IH in Hrun as (D & HD & Hlen & ->); [|done].
  exists ((i, h) :: D). split; [by constructor|]. simpl. split; [lia|].
  unfold unbonded_of at 2. simpl. f_equal; lia.
Qed.

(** ** The second loop *)
Lemma store_history_hist i h s j :
  i < u64_bound → j < u64_bound →
  hist (set_history (<[to_be_bytes i:=h]> (st_history s)) s) j =
    if decide (i = j) then Some h else hist s j.
Proof. apply hist_set_history_insert. Qed.

Lemma release_batches_spec fuel t i sl total lp s r :
  i < u64_bound → release_batches fuel t i sl total lp s = Ok r →
  ∀ D, Due s t i D →
  ∃ rs, Forall2 (new_rate sl total) D rs ∧ released_with s r.2 D rs ∧
        r.1 = match D with [] => lp | _ => i + N.of_nat (length D) - 1 end.
Proof.
  revert i lp s; induction fuel as [|fuel IH]; intros i lp s Hi Hrun D HD; [done|].
  simpl in Hrun. bind Hrun as oh Hoh. rewrite try_read_history in Hoh.
  injection Hoh as <-.
  inversion HD as [? Hstop|? h D' Hb Hh Ht Hrel HD']; subst.
  { exists []. unfold is_due in Hstop.
    assert (r = (lp, s)) as ->.
    { destruct (hist s i) as [h|]; [|by injection Hrun as <-].
      destruct (N.ltb_spec t (h_time h)); [by injection Hrun as <-|].
      destruct (released h); [by injection Hrun as <-|].
      by rewrite (proj2 (N.leb_le _ _)) in Hstop. }
    split; [constructor|]. split; [|done].
    split; [exists (st_history s); by destruct s|]. split; [done|split; done]. }
  assert (is_Some (st_history s !! to_be_bytes i)) as Hpresent by by exists h.
  rewrite Hh, Hrel, (proj2 (N.ltb_ge _ _)) in Hrun by done. simpl in Hrun.
  bind Hrun as u Hu. bind Hrun as actual Hact. bind Hrun as rate Hrate.
  bind Hrun.
  bind Hrun as i' Hi'. apply u64_add_ok in Hi' as [-> _].
  set (s2 := set_history _ s) in Hrun.
  assert (Due s2 t (i + 1) D') as HD2.
  { apply (Due_hist_ext s); [done|done|]. intros j ??. unfold s2.
    rewrite store_history_hist by lia. rewrite decide_False by lia. done. }
  destruct (IH _ _ _ Hb Hrun D' HD2) as (rs & Hrs & ([m ->] & Hm & Hrel' & Hkeep) & Hlp).
  exists (rate :: rs). split; [|split].
  - constructor; [|done]. exists actual. apply Uint128_mul_Decimal_ok in Hu as [-> _]. done.
  - split; [by exists m|]. split; [|split].
    + rewrite Hm. by apply dom_insert_lookup_L.
    + intros [|k] j h' r'; simpl.
      * intros [= <- <-] [= <-]. rewrite Hkeep; [|lia|rewrite (Due_ids _ _ _ _ HD2); lia].
        unfold s2. rewrite store_history_hist by lia. by rewrite decide_True.
      * apply Hrel'.
    + simpl. intros j Hj Hnin. apply not_elem_of_cons in Hnin as [? ?].
      rewrite Hkeep by done. unfold s2. rewrite store_history_hist by lia.
      by rewrite decide_False by congruence.
  - rewrite Hlp. destruct D'; simpl length; lia.
Qed.

(** ** Termination *)
Lemma present_keys_le_size (m : gmap bytes UnbondHistory) i n :
  (∀ k, (k < n)%nat → i + N.of_nat k < u64_bound ∧
     is_Some (m !! to_be_bytes (i + N.of_nat k))) → (n ≤ size m)%nat.
Proof.
  intros Hall.
  set (ks := (λ k, to_be_bytes (i + N.of_nat k)) <$> seq 0 n).
  assert (NoDup ks) as Hnd.
  { apply NoDup_fmap_2_strong; [|apply NoDup_seq].
    intros k1 k2 Hk1 Hk2 Heq. rewrite elem_of_seq in Hk1, Hk2.
    apply to_be_bytes_inj in Heq; [lia|apply Hall; lia..]. }
  assert (length ks = n) as Hlen by (unfold ks; by rewrite length_fmap, length_seq).
  rewrite <- Hlen, <- size_dom, <- (size_list_to_set (C := gset bytes) ks) by done.
  apply subseteq_size. intros k. rewrite elem_of_list_to_set. unfold ks.
  intros (j & -> & Hj)%list_elem_of_fmap. rewrite elem_of_seq in Hj.
  apply elem_of_dom. apply Hall; lia.
Qed.

Lemma sum_unbonded_out fuel t i total count s :
  i < u64_bound → sum_unbonded fuel t i total count s = OutOfFuel →
  ∀ k, (k < fuel)%nat → i + N.of_nat k < u64_bound ∧ is_Some (hist s (i + N.of_nat k)).
Proof.
  revert i total count; induction fuel as [|fuel IH]; intros i total count Hi Hrun k Hk;
    [lia|].
  simpl in Hrun. rewrite try_read_history in Hrun. simpl in Hrun.
  destruct (hist s i) as [h|] eqn:Hh; [|done].
  destruct (t <? h_time h); [done|]. destruct (released h); [done|]. simpl in Hrun.
  rewrite Uint128_mul_Decimal_spec in Hrun. destruct (_ <? u128_bound); [simpl in Hrun|done].
  rewrite Uint128_add_spec in Hrun. destruct (_ <? u128_bound); [simpl in Hrun|done].
  unfold u64_add in Hrun. destruct (count + 1 <? _); [simpl in Hrun|done].
  destruct (N.ltb_spec (i + 1) u64_bound); [simpl in Hrun|done].
  destruct k as [|k]; [rewrite N.add_0_r; eauto|].
  destruct (IH (i + 1) _ _ ltac:(lia) Hrun k ltac:(lia)) as [? ?].
  replace (i + N.of_nat (S k)) with (i + 1 + N.of_nat k) by lia. done.
Qed.

Lemma sum_unbonded_terminates t i total count s :
  i < u64_bound → sum_unbonded (S (size (st_history s))) t i total count s ≠ OutOfFuel.
Proof.
  intros Hi Hout.
  pose proof (present_keys_le_size (st_history s) i _
    (sum_unbonded_out _ _ _ _ _ _ Hi Hout)). lia.
Qed.

(** Arithmetic of the host never runs out of fuel. *)
Lemma actual_unbonded_fuel sl total u :
  actual_unbonded_of_batch sl total u ≠ OutOfFuel.
Proof.
  unfold actual_unbonded_of_batch. rewrite Decimal_from_ratio_spec.
  destruct (total =? 0); simpl; [done|]. destruct (_ <? u128_bound); simpl; [|done].
  rewrite Uint128_mul_Decimal_spec. destruct (_ <? u128_bound); simpl; [|done].
  destruct (negative sl).
  - rewrite Uint128_checked_sub_spec. destruct (_ <=? _); simpl; [|done].
    rewrite Uint128_add_spec. by destruct (_ <? _).
  - destruct (negb _); simpl; rewrite ?Uint128_add_spec;
      [destruct (_ <? u128_bound); simpl; [|done]|];
      rewrite from_subtraction_eq; by destruct (_ <=? _).
Qed.

Lemma release_batches_out fuel t i sl total lp s :
  i < u64_bound → release_batches fuel t i sl total lp s = OutOfFuel →
  ∀ k, (k < fuel)%nat → i + N.of_nat k < u64_bound ∧ is_Some (hist s (i + N.of_nat k)).
Proof.
  revert i lp s; induction fuel as [|fuel IH]; intros i lp s Hi Hrun k Hk; [lia|].
  unfold release_batches in Hrun; fold release_batches in Hrun.
  unfold mbind, cm_bind, reads, lift, writes, store_unbond_history in Hrun.
  rewrite try_read_history in Hrun. simpl in Hrun.
  destruct (hist s i) as [h|] eqn:Hh; [|done].
  destruct (t <? h_time h); [done|]. destruct (released h); [done|]. simpl in Hrun.
  rewrite Uint128_mul_Decimal_spec in Hrun. destruct (_ <? u128_bound); [simpl in Hrun|done].
  destruct (actual_unbonded_of_batch sl total _) eqn:Hact; try done; simpl in Hrun;
    [|by apply actual_unbonded_fuel in Hact].
  rewrite Decimal_from_ratio_spec in Hrun. destruct (_ =? 0); [done|].
  destruct (_ <? u128_bound); [simpl in Hrun|done].
  unfold u64_add in Hrun. destruct (N.ltb_spec (i + 1) u64_bound); [simpl in Hrun|done].
  destruct k as [|k]; [rewrite N.add_0_r; eauto|].
  destruct (IH (i + 1) _ _ ltac:(lia) Hrun k ltac:(lia)) as [? Hk'].
  replace (i + N.of_nat (S k)) with (i + 1 + N.of_nat k) by lia. split; [done|].
  rewrite store_history_hist in Hk' by lia. by rewrite decide_False in Hk' by lia.
Qed.

Lemma release_batches_terminates t i sl total lp s :
  i < u64_bound →
  release_batches (S (size (st_history s))) t i sl total lp s ≠ OutOfFuel.
Proof.
  intros Hi Hout.
  pose proof (present_keys_le_size (st_history s) i _
    (release_batches_out _ _ _ _ _ _ _ Hi Hout)). lia.
Qed.

(** ** The whole of [process_withdraw_rate] *)

(** The coins that arrived since the last withdrawal, as the code counts them. *)
Definition arrived (st : State) (hub_balance : N) : N :=
  actual_unbonded_amount st +
  (if prev_hub_balance st <=? hub_balance then hub_balance - prev_hub_balance st
   else prev_hub_balance st - hub_balance).

(** The slashed amount: what is due minus what arrived. *)
Definition slash_of (total arrived : N) : SignedInt :=
  if arrived <=? total then mkSignedInt (total - arrived) false
  else mkSignedInt (arrived - total) true.

(** What a batch worth [u] gets of [A] coins that arrived for batches worth [T] in
    all: the difference is shared by the batch's weight in the total, cut to 18
    digits; a loss takes one coin more than the share (the code keeps the distance
    should that exceed [u]), a surplus gives one coin less. *)
Definition own_share (T A u a : N) : Prop :=
  let weight := u * dec_unit / T in
  T ≠ 0 ∧
  if A =? T then a = u
  else if A <? T then
    let lost := (T - A) * weight / dec_unit + 1 in
    a = if lost <=? u then u - lost else lost - u
  else
    let gained := (A - T) * weight / dec_unit in
    1 ≤ gained ∧ a = u + (gained - 1).

Lemma actual_own_share T A u a :
  actual_unbonded_of_batch (slash_of T A) T u = Ok a → own_share T A u a.
Proof.
  intros Hrun. unfold actual_unbonded_of_batch in Hrun.
  bind Hrun as w Hw. apply Decimal_from_ratio_ok in Hw as (HT & -> & _).
  bind Hrun as x Hx. apply Uint128_mul_Decimal_ok in Hx as [-> _]. unfold own_share. split; [done|].
  unfold slash_of in Hrun. cbn [atomics] in Hrun.
  destruct (N.eqb_spec A T) as [->|Hne]; [|destruct (N.ltb_spec A T) as [Hlt|Hge]].
  - rewrite N.leb_refl, N.sub_diag in Hrun. simpl in Hrun. rewrite from_subtraction_eq in Hrun.
    change (0 * (u * dec_unit / T) / dec_unit) with 0 in Hrun.
    rewrite (proj2 (N.leb_le 0 u)) in Hrun by lia. simpl in Hrun. injection Hrun as <-. lia.
  - rewrite (proj2 (N.leb_le A T)) in Hrun by lia. cbn [magnitude negative] in Hrun.
    rewrite (proj2 (N.eqb_neq (T - A) 0)) in Hrun by lia. cbn [negb] in Hrun.
    bind Hrun as y Hy. apply Uint128_add_ok in Hy as [-> _]. rewrite from_subtraction_eq in Hrun.
    destruct (_ <=? u); simpl in Hrun; by injection Hrun as <-.
  - rewrite (proj2 (N.leb_gt A T)) in Hrun by lia. cbn [magnitude negative] in Hrun.
    bind Hrun as y Hy. apply Uint128_checked_sub_ok in Hy as [-> Hy].
    by apply Uint128_add_ok in Hrun as [-> _].
Qed.

Definition processed_state (st : State) (last : N) : State :=
  set_actual_unbonded_amount 0 (set_last_processed_batch last st).

Lemma process_withdraw_rate_spec t hub_balance s s' :
  process_withdraw_rate t hub_balance s = Ok ((), s') →
  ∃ st D rs s1,
    st_state s = Some st ∧
    last_processed_batch st + 1 < u64_bound ∧
    Due s t (last_processed_batch st + 1) D ∧
    Forall2 (new_rate (slash_of (sum_of unbonded_of D) (arrived st hub_balance))
      (sum_of unbonded_of D)) D rs ∧
    released_with s s1 D rs ∧
    s' = set_state
      (processed_state st (last_processed_batch st + N.of_nat (length D))) s1.
Proof.
  intros Hrun. unfold process_withdraw_rate in Hrun.
  bind Hrun as st Hst. unfold load_state, item_load in Hst. apply ok_or_ok in Hst.
  bind Hrun as change Hchange. rewrite from_subtraction_eq in Hchange.
  injection Hchange as <-. bind Hrun as actual Hact.
  bind Hrun as i Hi. apply u64_add_ok in Hi as [-> Hi]. bind Hrun as fuel Hfuel.
  bind Hrun as r Hsum. apply Uint128_add_ok in Hact as [Hact _].
  assert (actual = arrived st hub_balance) as ->.
  { subst actual. unfold arrived. by destruct (_ <=? _). }
  clear Hact Hfuel. rename Hi into Hb.
  apply sum_unbonded_spec in Hsum as (D & HD & Hlen & ->); [|done]. simpl in Hrun.
  bind Hrun as last s1 Hrel. apply writes_ok in Hrun. injection Hrun as ->.
  exists st, D.
  destruct D as [|jh D'].
  - simpl in Hrel. apply cm_ret_ok in Hrel. injection Hrel as -> ->.
    exists [], s. repeat split; try done.
    + exists (st_history s). by destruct s.
    + f_equal. unfold processed_state. destruct st; unfold set_last_processed_batch,
        set_actual_unbonded_amount; simpl. by rewrite N.add_0_r.
  - replace (1 <=? _) with true in Hrel by (symmetry; apply N.leb_le; simpl; lia).
    bind Hrel as sl Hsl. rewrite from_subtraction_eq in Hsl. injection Hsl as <-.
    apply release_batches_spec with (D := jh :: D') in Hrel as (rs & Hrs & Hw & Hlast); [|done..].
    rewrite N.add_0_l in Hrs. exists rs, s1. simpl in Hw, Hlast. repeat split; try done; try apply Hw.
    f_equal. subst last. unfold processed_state, set_last_processed_batch,
      set_actual_unbonded_amount; simpl. f_equal. lia.
Qed.

Lemma process_withdraw_rate_terminates t hub_balance s :
  process_withdraw_rate t hub_balance s ≠ OutOfFuel.
Proof.
  unfold process_withdraw_rate.
  apply reads_bind_fuel; [unfold load_state, item_load; by destruct (st_state s)|].
  intros st _. apply lift_bind_fuel; [by rewrite from_subtraction_eq|].
  intros change _. apply lift_bind_fuel.
  { rewrite Uint128_add_spec. by destruct (_ <? _). }
  intros actual _. apply lift_bind_fuel; [unfold u64_add; by destruct (_ <? _)|].
  intros i [-> Hi]%u64_add_ok. simpl in *. apply reads_bind_fuel; [done|].
  intros fuel [= <-]. apply reads_bind_fuel; [by apply sum_unbonded_terminates|].
  intros [total count] _. apply cm_bind_fuel; [|done].
  destruct (1 <=? _); [|done]. apply lift_bind_fuel; [by rewrite from_subtraction_eq|].
  intros sl _. by apply release_batches_terminates.
Qed.

(** ** The whole of [execute_withdraw_unbonded] *)
Lemma remove_unbond_wait_list_frame l a s s' :
  remove_unbond_wait_list l a s = Ok ((), s') → ∃ w, s' = set_wait w s.
Proof.
  intros Hrm. unfold remove_unbond_wait_list in Hrm. bind Hrm as ka Hka.
  revert s Hrm. induction l as [|b l IH]; intros s Hrm; simpl in Hrm.
  - injection Hrm as <-. exists (st_wait s). by destruct s.
  - bind Hrm as kb Hkb. bind Hrm. apply IH in Hrm as [w ->]. by exists w.
Qed.

Lemma execute_withdraw_spec q env info s r s' :
  execute_withdraw_unbonded q env info s = Ok (r, s') →
  ∃ params bal s1 ids paid s2 st,
    st_parameters s = Some params ∧ unbonding_period params ≤ block_time env ∧
    query_balance q (contract_address env) (underlying_coin_denom params) = Ok bal ∧
    process_withdraw_rate (block_time env - unbonding_period params) (amount bal) s
      = Ok ((), s1) ∧
    get_finished_amount (sender info) s1 = Ok paid ∧ paid ≠ 0 ∧ paid ≤ amount bal ∧
    get_unbond_batches (sender info) s1 = Ok ids ∧
    remove_unbond_wait_list ids (sender info) s1 = Ok ((), s2) ∧
    st_state s1 = Some st ∧
    s' = HubState.set_state (set_prev_hub_balance (amount bal - paid) st) s2 ∧
    messages r = [BankSend (sender info) [mkCoin (underlying_coin_denom params) paid]].
Proof.
  intros Hrun. unfold execute_withdraw_unbonded in Hrun.
  bind Hrun as params Hp. bind Hrun as t Ht. apply u64_sub_ok in Ht as [-> Ht].
  bind Hrun as bal Hbal. bind Hrun as u s1 Hproc. destruct u.
  bind Hrun as paid Hpaid. apply (unwrap_ok (get_finished_amount _ _)) in Hpaid.
  bind Hrun as u Hne. apply fail_if_ok, N.eqb_neq in Hne. bind Hrun as ids Hids.
  bind Hrun as u2 s2 Hrm. destruct u2. bind Hrun as prev Hprev.
  apply Uint128_checked_sub_ok in Hprev as [-> Hle]. bind Hrun as u3 s3 Hupd.
  apply cm_ret_ok in Hrun as [= -> ->].
  unfold update_state in Hupd. bind Hupd as st Hst. bind Hupd as st' Hst'.
  injection Hst' as <-. apply writes_ok in Hupd. injection Hupd as _ ->.
  destruct (remove_unbond_wait_list_frame _ _ _ _ Hrm) as [w Hw].
  apply ok_or_ok in Hp. apply ok_or_ok in Hst.
  exists params, bal, s1, ids, paid, s2, st. do 9 (split; [done|]).
  split; [|done]. by rewrite <- Hst, Hw.
Qed.
End facts.
