(* ===== verification/HubInvariant.v ===== *)
(** * The hub's invariant

    The batches, the history and the wait list always agree: the history holds
    exactly the closed batches, released up to the last processed one; what the
    users wait for in a batch adds up to the batch's amount.  The invariant holds
    after [instantiate] and is preserved by every entry point. *)
From S2P Require Import Prelude Bytes Cosmwasm Protocol HubState HubStateFacts HubMath.
From S2P Require Import HubCore HubConfig HubBond HubUnbond HubWithdraw HubAutoCompound.
From S2P Require Import HubContract HubCoreFacts HubBondFacts HubUnbondFacts HubAdminFacts.
From S2P Require Import HubWithdrawFacts.

Section invariant.
  Context `{H : Host} `{HK : HookSerde}.

Record hub_inv_at (s : HubStore) (cb : CurrentBatch) (st : State) : Prop := {
  inv_cb : st_current_batch s = Some cb;
  inv_st : st_state s = Some st;
  inv_bound : cb_id cb < u64_bound;
  inv_processed : last_processed_batch st < cb_id cb;
  inv_no_arrears : actual_unbonded_amount st = 0;
  inv_hist_dom i : i < u64_bound → is_Some (hist s i) ↔ 1 ≤ i < cb_id cb;
  inv_hist_keys k h : st_history s !! k = Some h → ∃ i, i < u64_bound ∧ k = to_be_bytes i;
  inv_hist_id i h : i < u64_bound → hist s i = Some h → batch_id h = i;
  inv_released i h :
    i < u64_bound → hist s i = Some h → released h = bool_decide (i ≤ last_processed_batch st);
  inv_rate i h :
    i < u64_bound → hist s i = Some h → released h = false →
    withdraw_rate h = applied_exchange_rate h;
  inv_wait_keys : wait_keys_ok s;
  inv_wait_current : wait_total s (cb_id cb) = requested_with_fee cb;
  inv_wait_future b : cb_id cb < b → b < u64_bound → wait_total s b = 0;
  inv_wait_pending i h :
    i < u64_bound → hist s i = Some h → released h = false → wait_total s i = h_amount h;
  inv_wait_released i h :
    i < u64_bound → hist s i = Some h → wait_total s i ≤ h_amount h;
}.
Definition hub_inv (s : HubStore) : Prop := ∃ cb st, hub_inv_at s cb st.

(** One message that the chain executed with success, or a migration. *)
Inductive hub_step (s s' : HubStore) : Prop :=
  | step_execute q env info msg r : execute q env info msg s = Ok (r, s') → hub_step s s'
  | step_migrate msg r : migrate msg s = Ok (r, s') → hub_step s s'.

(** The stores a deployed contract can have. *)
Inductive reachable : HubStore → Prop :=
  | reach_init env info msg r s : instantiate env info msg empty_store = Ok (r, s) → reachable s
  | reach_step s s' : reachable s → hub_step s s' → reachable s'.
End invariant.

Section preservation.
  Context `{H : Host} {HS : HostSpec H} `{HK : HookSerde}.

Lemma hist_ext s s' i : st_history s' = st_history s → hist s' i = hist s i.
Proof. unfold hist. by intros ->. Qed.
Lemma wait_total_ext s s' b : st_wait s' = st_wait s → wait_total s' b = wait_total s b.
Proof. unfold wait_total, wait_sum. by intros ->. Qed.
Lemma wait_keys_ext s s' : st_wait s' = st_wait s → wait_keys_ok s → wait_keys_ok s'.
Proof. unfold wait_keys_ok. by intros ->. Qed.

(** Only the ledger matters. *)
Lemma hub_inv_ledger s s' cb st :
  ledger s' = ledger s → hub_inv_at s cb st →
  ∃ st', hub_inv_at s' cb st' ∧ ledger_state st' = ledger_state st.
Proof.
  unfold ledger. intros [= Hcb Hst Hw Hh] Hi. destruct Hi as [Hcb0 Hst0 ? ? ? Hd Hk Hid Hr Hra Hwk Hc Hf Hp Hre].
  rewrite Hcb0 in Hcb. rewrite Hst0 in Hst. simpl in Hst.
  destruct (st_state s') as [st'|] eqn:Hst'; [simpl in Hst|done].
  assert (ledger_state st' = ledger_state st) as Hl by congruence.
  unfold ledger_state in Hl. injection Hl as Hlp Hprev Hact.
  exists st'. split; [|unfold ledger_state; congruence].
  split; try done; try congruence; rewrite ?Hlp; try done.
  - intros i Hi. rewrite (hist_ext s) by done. by apply Hd.
  - intros k h. rewrite Hh. apply Hk.
  - intros i h Hi. rewrite (hist_ext s) by done. by apply Hid.
  - intros i h Hi. rewrite (hist_ext s) by done. by apply Hr.
  - intros i h Hi. rewrite (hist_ext s) by done. by apply Hra.
  - by apply (wait_keys_ext s).
  - by rewrite (wait_total_ext s).
  - intros b ??. rewrite (wait_total_ext s) by done. by apply Hf.
  - intros i h Hi. rewrite (hist_ext s), (wait_total_ext s) by done. by apply Hp.
  - intros i h Hi. rewrite (hist_ext s), (wait_total_ext s) by done. by apply Hre.
Qed.

Lemma empty_hist i : hist empty_store i = None.
Proof. unfold hist. simpl. apply lookup_empty. Qed.
Lemma empty_wait_total b : wait_total empty_store b = 0.
Proof. unfold wait_total, wait_sum. destruct (batch_key b); [|done]. simpl. apply map_sum_empty. Qed.

Lemma instantiate_spec env info msg s0 r s :
  instantiate env info msg s0 = Ok (r, s) →
  ∃ pay raw, find_payment (im_underlying_coin_denom msg) (funds info) = Some pay ∧
    addr_canonicalize (im_rewards_contract msg) = Ok raw ∧
    s = mkHubStore (Some (Some (sender info))) (Some false)
          (Some (ConfigJson (mkConfig false None None (Some raw))))
          (Some (mkParameters (im_epoch_period msg) (im_underlying_coin_denom msg)
             (im_unbonding_period msg) (im_peg_recovery_fee msg) (im_er_threshold msg)
             (im_protocol_fee msg)))
          (Some (mkCurrentBatch 1 0)) (Some (initial_state (block_time env) (amount pay)))
          (st_wait s0) (st_history s0) (st_validators s0) ∧
    messages r = [WasmExecute (contract_address env) (ToHub (RegisterValidator (im_validator msg))) [];
                  StakingDelegate (im_validator msg) pay;
                  SetWithdrawAddress (im_rewards_contract msg)].
Proof.
  intros Hrun. unfold instantiate in Hrun.
  bind Hrun as sr Hsr. bind Hrun. bind Hrun as pay Hpay. bind Hrun as admin Hadmin.
  bind Hrun as slot Hslot. bind Hrun. bind Hrun as raw Hraw. bind Hrun. bind Hrun.
  bind Hrun as u Hv. bind Hrun. bind Hrun. apply cm_ret_ok in Hrun as [= -> ->].
  apply ok_or_ok in Hpay. apply addr_validate_spec in Hadmin as ->.
  rewrite admin_set_spec in Hslot. injection Hslot as <-.
  exists pay, raw. done.
Qed.

Lemma instantiate_inv env info msg r s :
  instantiate env info msg empty_store = Ok (r, s) → hub_inv s.
Proof.
  intros (pay & raw & _ & _ & -> & _)%instantiate_spec.
  eexists _, _. split; simpl; try done.
  - intros i Hi. rewrite (hist_ext empty_store) by done. rewrite empty_hist.
    split; [by intros []|simpl; intros; lia].
  - by rewrite (wait_total_ext empty_store), empty_wait_total.
  - intros b _ _. by rewrite (wait_total_ext empty_store), empty_wait_total.
Qed.

(** ** Unbonding *)

(** A request enters the open batch. *)
Lemma inv_request s cb st u owed s' st' :
  hub_inv_at s cb st → store_unbond_wait_list (cb_id cb) u owed s = Ok ((), s') →
  ledger_state st' = ledger_state st →
  hub_inv_at (HubState.set_state st' (set_current_batch
    (mkCurrentBatch (cb_id cb) (requested_with_fee cb + owed)) s'))
    (mkCurrentBatch (cb_id cb) (requested_with_fee cb + owed)) st'.
Proof.
  intros Hi Hw Hl. injection Hl as Hlp Hprev Hact. destruct Hi.
  destruct (store_unbond_wait_list_spec _ _ _ _ _ inv_bound0 Hw) as ([w ->] & Ht & _ & Hk).
  assert (∀ b, b < u64_bound → wait_total (set_wait w s) b =
    wait_total s b + if decide (cb_id cb = b) then owed else 0) as Hw'.
  { intros b Hb. specialize (Ht (λ v, v) b eq_refl Hb). unfold wait_total. case_decide; lia. }
  split; simpl; try done; try congruence; rewrite ?Hlp; try done.
  - by apply Hk.
  - change (wait_total (set_wait w s) (cb_id cb) = requested_with_fee cb + owed).
    rewrite Hw' by done. rewrite decide_True by done. congruence.
  - intros b Hb Hb'. change (wait_total (set_wait w s) b = 0).
    rewrite Hw' by done. rewrite decide_False by lia. rewrite inv_wait_future0 by done. done.
  - intros i h Hib Hh Hr. change (wait_total (set_wait w s) i = h_amount h).
    rewrite Hw' by done. rewrite decide_False; [rewrite N.add_0_r; eauto|].
    assert (is_Some (hist s i)) as Hs by by eexists. apply inv_hist_dom0 in Hs; [lia|done].
  - intros i h Hib Hh. change (wait_total (set_wait w s) i ≤ h_amount h).
    rewrite Hw' by done. rewrite decide_False; [rewrite N.add_0_r; eauto|].
    assert (is_Some (hist s i)) as Hs by by eexists. apply inv_hist_dom0 in Hs; [lia|done].
Qed.

(** The open batch is closed and the next one opened. *)
Lemma inv_close s cb st env st' :
  hub_inv_at s cb st → cb_id cb + 1 < u64_bound →
  ledger_state st' = ledger_state st →
  hub_inv_at (HubState.set_state st' (set_current_batch (mkCurrentBatch (cb_id cb + 1) 0)
    (with_history cb (closed_history env cb st) s))) (mkCurrentBatch (cb_id cb + 1) 0) st'.
Proof.
  intros Hi Hb Hl. injection Hl as Hlp Hprev Hact. destruct Hi.
  set (s' := HubState.set_state _ _).
  assert (∀ i, i < u64_bound → hist s' i =
    if decide (cb_id cb = i) then Some (closed_history env cb st) else hist s i) as Hh.
  { intros i Hi. by apply hist_set_history_insert. }
  assert (∀ b, wait_total s' b = wait_total s b) as Hw by done.
  assert (hist s (cb_id cb) = None) as Hnone.
  { apply eq_None_not_Some. rewrite inv_hist_dom0 by done. lia. }
  split; simpl; try done; try congruence; rewrite ?Hlp; try lia.
  - intros i Hi. rewrite Hh by done. case_decide as Hd.
    + split; [lia|by eexists].
    + rewrite inv_hist_dom0 by done. lia.
  - intros k h [[<- _]|[_ Hk]]%lookup_insert_Some; [by exists (cb_id cb)|by eapply inv_hist_keys0].
  - intros i h Hi. rewrite Hh by done. case_decide as Hd; [intros [= <-]; by subst|by apply inv_hist_id0].
  - intros i h Hi. rewrite Hh by done. case_decide as Hd; [|by apply inv_released0].
    intros [= <-]. simpl. symmetry. apply bool_decide_eq_false. lia.
  - intros i h Hi. rewrite Hh by done. case_decide as Hd; [by intros [= <-]|by apply inv_rate0].
  - rewrite Hw. apply inv_wait_future0; lia.
  - intros b ??. rewrite Hw. apply inv_wait_future0; lia.
  - intros i h Hi. rewrite Hh, Hw by done. case_decide as Hd; [|by apply inv_wait_pending0].
    intros [= <-] _. by subst.
  - intros i h Hi. rewrite Hh, Hw by done. case_decide as Hd; [|by apply inv_wait_released0].
    intros [= <-]. subst. by rewrite inv_wait_current0.
Qed.

Lemma unbond_inv q env a u s r s' :
  hub_inv s → execute_unbond q env a u s = Ok (r, s') → hub_inv s'.
Proof.
  intros (cb & st & Hi) Hrun. apply execute_unbond_spec in Hrun
    as (params & cb' & s1 & st1 & supply & owed & s2 & msgs & c & raw & token &
        _ & Hcb & Hsl & Hst1 & _ & _ & _ & Hw & [_ Hend] & _).
  rewrite (inv_cb _ _ _ Hi) in Hcb. injection Hcb as <-.
  pose proof (slashing_ledger q env _ _ _ Hsl) as Hleg.
  destruct (hub_inv_ledger _ _ _ _ Hleg Hi) as (st1' & Hi1 & Hl1).
  assert (st1' = st1) as -> by (pose proof (inv_st _ _ _ Hi1); congruence).
  set (cb' := mkCurrentBatch _ _) in *. set (st2 := burned_state _ _ _) in *.
  pose proof (inv_request s1 cb st1 u owed s2 st2 Hi1 Hw eq_refl) as Hi2. fold cb' in Hi2.
  destruct (_ <? _).
  - destruct Hend as (_ & _ & Hb & _ & ->).
    pose proof (inv_close _ _ _ env (closed_state env cb' st2) Hi2 Hb eq_refl) as Hi3.
    by eexists _, _.
  - destruct Hend as [_ ->]. by eexists _, _.
Qed.

(** ** Releasing and withdrawing *)

Lemma inv_process t bal s s' cb st :
  hub_inv_at s cb st → process_withdraw_rate t bal s = Ok ((), s') →
  ∃ D rs,
    Due s t (last_processed_batch st + 1) D ∧
    Forall2 (new_rate (slash_of (sum_of unbonded_of D) (arrived st bal))
      (sum_of unbonded_of D)) D rs ∧
    released_hist s s' D rs ∧ st_wait s' = st_wait s ∧
    hub_inv_at s' cb (processed_state st (last_processed_batch st + N.of_nat (length D))).
Proof.
  intros Hi Hrun. destruct (process_withdraw_rate_spec _ _ _ _ Hrun)
    as (st0 & D & rs & s1 & Hst & Hb & HD & Hrs & ([m ->] & Hrel) & ->).
  assert (st0 = st) as -> by (pose proof (inv_st _ _ _ Hi); congruence).
  exists D, rs. do 4 (split; [done|]).
  destruct Hrel as (Hdom & Hin & Hout). destruct Hi.
  set (s' := HubState.set_state _ _).
  set (n := N.of_nat (length D)). simpl in Hdom.
  pose proof (Due_ids _ _ _ _ HD) as Hids.
  (* every record of the new history comes from one of the old history *)
  assert (∀ i h, i < u64_bound → hist s' i = Some h →
    ∃ h0, hist s i = Some h0 ∧
      ((i ∈ D.*1 ∧ ∃ r, h = release r h0) ∨ ((i ∉ D.*1) ∧ h = h0))) as Hold.
  { intros i h Hib Hh. destruct (decide (i ∈ D.*1)) as [Hd|Hd].
    - apply list_elem_of_fmap in Hd as ([j h0] & -> & Hd). simpl in *.
      destruct (Due_hist _ _ _ _ _ _ HD Hd) as (Hh0 & _ & _).
      exists h0. split; [done|left]. split; [by apply list_elem_of_fmap; exists (j, h0)|].
      apply list_elem_of_lookup in Hd as [k Hk].
      destruct (Forall2_lookup_l _ _ _ _ _ Hrs Hk) as (r & Hr & _).
      exists r. pose proof (Hin k j h0 r Hk Hr) as Hj.
      change (hist s' j = Some (release r h0)) in Hj. congruence.
    - exists h. split; [|by right]. by rewrite <- (Hout i). }
  assert (∀ i, is_Some (hist s' i) ↔ is_Some (hist s i)) as Hsome.
  { intros i. unfold hist. rewrite <- !elem_of_dom. by rewrite <- Hdom. }
  assert (∀ b, wait_total s' b = wait_total s b) as Hw by done.
  assert (last_processed_batch st + n < cb_id cb) as Hlt.
  { destruct (decide (n = 0)) as [->|]; [lia|].
    assert (last_processed_batch st + n ∈ D.*1) as Hd by (apply Hids; lia).
    apply list_elem_of_fmap in Hd as ([j h0] & Heq & Hd). simpl in *.
    destruct (Due_hist _ _ _ _ _ _ HD Hd) as (Hh0 & _ & _).
    assert (is_Some (hist s j)) as Hs by by exists h0.
    pose proof (Due_bound _ _ _ _ Hb HD). apply (inv_hist_dom0 j) in Hs; lia. }
  split; simpl; try done.
  - intros i Hib. rewrite Hsome. by apply inv_hist_dom0.
  - intros k h Hk. assert (is_Some (st_history s !! k)) as [h0 Hk0]; [|by eapply inv_hist_keys0].
    apply elem_of_dom. rewrite <- Hdom. apply elem_of_dom. by exists h.
  - intros i h Hib Hh. destruct (Hold i h Hib Hh) as (h0 & Hh0 & [(_ & r & ->)|(_ & ->)]);
      simpl; by apply inv_hist_id0.
  - intros i h Hib Hh. destruct (Hold i h Hib Hh) as (h0 & Hh0 & [(Hd & r & ->)|(Hd & ->)]);
      rewrite Hids in Hd; simpl.
    + symmetry. apply bool_decide_eq_true. lia.
    + rewrite (inv_released0 i h0) by done. apply bool_decide_ext. lia.
  - intros i h Hib Hh. destruct (Hold i h Hib Hh) as (h0 & Hh0 & [(_ & r & ->)|(_ & ->)]); [done|].
    intros ?. by apply (inv_rate0 i).
  - intros i h Hib Hh. destruct (Hold i h Hib Hh) as (h0 & Hh0 & [(_ & r & ->)|(_ & ->)]); [done|].
    intros ?. rewrite Hw. by apply inv_wait_pending0.
  - intros i h Hib Hh. destruct (Hold i h Hib Hh) as (h0 & Hh0 & [(_ & r & ->)|(_ & ->)]);
      rewrite Hw; simpl; by apply (inv_wait_released0 i).
Qed.

(** Claims of released batches leave the wait list. *)
Lemma inv_remove s cb st ids a s' st' :
  hub_inv_at s cb st →
  Forall (λ b, b < u64_bound ∧ ∃ h, hist s b = Some h ∧ released h = true) ids →
  remove_unbond_wait_list ids a s = Ok ((), s') →
  last_processed_batch st' = last_processed_batch st → actual_unbonded_amount st' = 0 →
  hub_inv_at (HubState.set_state st' s') cb st'.
Proof.
  intros Hi Hids Hrm Hlp Hact.
  assert (Forall (λ b, b < u64_bound) ids) as Hb
    by (eapply Forall_impl; [exact Hids|]; by intros b [? _]).
  destruct (remove_unbond_wait_list_spec _ _ _ _ Hb Hrm) as ([w ->] & Ht & _ & Hk).
  rewrite Forall_forall in Hids. destruct Hi.
  set (s' := HubState.set_state _ _).
  assert (∀ b, wait_total s' b = wait_total (set_wait w s) b) as Hw by done.
  assert (∀ b, b ∈ ids → 1 ≤ b ≤ last_processed_batch st) as Hrange.
  { intros b Hin. destruct (Hids b Hin) as (Hbb & h & Hh & Hr).
    rewrite (inv_released0 b h) in Hr by done. apply bool_decide_eq_true in Hr.
    assert (is_Some (hist s b)) as Hs by by exists h.
    apply (inv_hist_dom0 b) in Hs; [lia|done]. }
  assert (∀ b, b < u64_bound → (b ∉ ids → wait_total s' b = wait_total s b) ∧
    wait_total s' b ≤ wait_total s b) as Htot.
  { intros b Hbb. rewrite Hw. specialize (Ht (λ v, v) b eq_refl Hbb). unfold wait_total.
    destruct (decide (b ∈ ids)); split; done || lia. }
  split; simpl; rewrite ?Hlp; try done.
  - by apply Hk.
  - rewrite (proj1 (Htot _ inv_bound0)); [done|]. intros Hin. specialize (Hrange _ Hin). lia.
  - intros b Hlt Hbb. pose proof (proj2 (Htot b Hbb)). pose proof (inv_wait_future0 b Hlt Hbb). lia.
  - intros i h Hib Hh Hr. rewrite (proj1 (Htot i Hib)); [by apply inv_wait_pending0|].
    intros Hin. destruct (Hids i Hin) as (_ & h' & Hh' & Hr'). change (hist s i = Some h) in Hh.
    congruence.
  - intros i h Hib Hh. etransitivity; [apply (Htot i Hib)|]. by apply inv_wait_released0.
Qed.

(** What the withdrawer is paid for, and that it all disappears. *)
Lemma released_ids s l b :
  b ∈ (List.filter (claim_released s) l).*1 →
  ∃ h, hist s b = Some h ∧ released h = true.
Proof.
  intros ([b' v] & -> & Hin)%list_elem_of_fmap.
  apply list_elem_of_In, filter_In in Hin as [_ Hr]. unfold claim_released in Hr. simpl in *.
  destruct (hist s b') as [h|]; [by exists h|done].
Qed.
Lemma claims_ids_bound s a l b :
  claims s a l → b ∈ (List.filter (claim_released s) l).*1 → b < u64_bound.
Proof.
  intros Hl ([b' v] & -> & Hin)%list_elem_of_fmap.
  apply list_elem_of_In, filter_In in Hin as [Hin _]. apply list_elem_of_In in Hin.
  by apply (claims_elem s a l b' v Hl) in Hin as [? _].
Qed.

Lemma withdraw_inv_at q env info s r s' cb st :
  hub_inv_at s cb st → execute_withdraw_unbonded q env info s = Ok (r, s') →
  ∃ st', hub_inv_at s' cb st'.
Proof.
  intros Hi Hrun. apply execute_withdraw_spec in Hrun
    as (params & bal & s1 & ids & paid & s2 & st1 & _ & _ & _ & Hproc & _ & _ & _ & Hids & Hrm & Hst1 & -> & _).
  destruct (inv_process _ _ _ _ _ _ Hi Hproc) as (D & rs & _ & _ & _ & _ & Hi1).
  assert (st1 = processed_state st (last_processed_batch st + N.of_nat (length D))) as ->
    by (pose proof (inv_st _ _ _ Hi1); congruence).
  destruct (claims_exist s1 (sender info) (inv_wait_keys _ _ _ Hi1)) as [l Hl].
  rewrite (get_unbond_batches_claims _ _ _ Hl) in Hids. injection Hids as <-.
  eexists. eapply (inv_remove s1); [exact Hi1| |exact Hrm|done|done].
  apply Forall_forall. intros b Hin. split; [by eapply claims_ids_bound|by eapply released_ids].
Qed.

(** ** Every entry point *)
Lemma ledger_step_inv {A} (m : cm HubStore A) s a s' :
  keeps (preserves ledger) m → m s = Ok (a, s') → hub_inv s → hub_inv s'.
Proof.
  intros Hm Hrun (cb & st & Hi).
  destruct (hub_inv_ledger s s' cb st (Hm _ _ _ Hrun) Hi) as (st' & ? & _). by exists cb, st'.
Qed.

Lemma hub_step_inv s s' : hub_inv s → hub_step s s' → hub_inv s'.
Proof.
  intros Hi [q env info msg r Hrun|msg r Hrun];
    [|eapply ledger_step_inv; [apply migrate_ledger|exact Hrun|exact Hi]].
  destruct msg; simpl in Hrun;
    try solve [eapply ledger_step_inv; [|exact Hrun|exact Hi]; solve_keeps].
  - bind Hrun as u Hu. destruct Hi as (cb & st & Hi).
    destruct (withdraw_inv_at _ _ _ _ _ _ _ _ Hi Hrun) as [st' ?]. by exists cb, st'.
  - bind Hrun as u Hu. unfold receive_cw20 in Hrun. bind Hrun as hook Hhook. destruct hook.
    bind Hrun as conf Hconf. bind Hrun as raw Hraw. bind Hrun as token Htoken.
    bind Hrun as u' Hu'. by eapply unbond_inv.
Qed.

Lemma reachable_inv s : reachable s → hub_inv s.
Proof.
  induction 1 as [env info msg r s Hinit|s s' _ IH Hstep].
  - by eapply instantiate_inv.
  - by eapply hub_step_inv.
Qed.
End preservation.
