(* ===== verification/HubTypes.v ===== *)
(** * Numbers stay in their machine types

    The model keeps every integer as an [N].  Here are the widths the source
    declares for them, for the store, the inputs and the messages sent, and the
    proof that every entry point keeps them: a [u64] field never holds 2^64, a
    [Uint128] or the atomics of a [Decimal] never 2^128. *)
From S2P Require Import Prelude Bytes Cosmwasm Protocol SignedInteger HubState HubStateFacts.
From S2P Require Import HubMath HubCore HubConfig HubBond HubUnbond HubWithdraw.
From S2P Require Import HubAutoCompound HubContract HubCoreFacts HubBondFacts HubUnbondFacts.
From S2P Require Import HubAdminFacts HubWithdrawFacts HubInvariant.

(** ** The types *)
Definition u64 (n : N) : Prop := n < u64_bound.
Definition u128 (n : N) : Prop := n < u128_bound.
Definition dec128 (d : Decimal) : Prop := u128 (atomics d).
Definition coin_ok (c : Coin) : Prop := u128 (amount c).

Record parameters_ok (p : Parameters) : Prop := {
  pk_epoch : u64 (epoch_period p);
  pk_unbonding : u64 (unbonding_period p);
  pk_recovery : dec128 (peg_recovery_fee p);
  pk_threshold : dec128 (er_threshold p);
  pk_fee : dec128 (protocol_fee p);
}.
Record batch_ok (cb : CurrentBatch) : Prop := {
  bk_id : u64 (cb_id cb);
  bk_requested : u128 (requested_with_fee cb);
}.
Record state_ok (st : State) : Prop := {
  sk_rate : dec128 (exchange_rate st);
  sk_second : dec128 (second_exchange_rate st);
  sk_bond : u128 (total_bond_amount st);
  sk_index : u64 (last_index_modification st);
  sk_prev : u128 (prev_hub_balance st);
  sk_actual : u128 (actual_unbonded_amount st);
  sk_principle : u128 (principle_balance_before_exchange_update st);
  sk_time : u64 (last_unbonded_time st);
  sk_processed : u64 (last_processed_batch st);
}.
Record history_ok (h : UnbondHistory) : Prop := {
  hk_id : u64 (batch_id h);
  hk_time : u64 (h_time h);
  hk_amount : u128 (h_amount h);
  hk_applied : dec128 (applied_exchange_rate h);
  hk_rate : dec128 (withdraw_rate h);
}.

Definition item_ok {A} (P : A → Prop) (o : option A) : Prop := ∀ a, o = Some a → P a.
Definition wait_ok (w : gmap bytes (gmap bytes N)) : Prop :=
  ∀ ka m kb v, w !! ka = Some m → m !! kb = Some v → u128 v.
Record store_ok (s : HubStore) : Prop := {
  ok_parameters : item_ok parameters_ok (st_parameters s);
  ok_batch : item_ok batch_ok (st_current_batch s);
  ok_state : item_ok state_ok (st_state s);
  ok_wait : wait_ok (st_wait s);
  ok_history : ∀ k h, st_history s !! k = Some h → history_ok h;
}.

(** What comes from outside. *)
Definition env_ok (env : Env) : Prop := u64 (block_height env) ∧ u64 (block_time env).
Definition info_ok (info : MessageInfo) : Prop := Forall coin_ok (funds info).
Definition msg_ok (msg : ExecuteMsg) : Prop :=
  match msg with
  | UpdateParams ep up rf th pf =>
      item_ok u64 ep ∧ item_ok u64 up ∧ item_ok dec128 rf ∧ item_ok dec128 th ∧ item_ok dec128 pf
  | Receive m => u128 (cw20_amount m)
  | _ => True
  end.
Definition init_msg_ok (msg : InstantiateMsg) : Prop :=
  u64 (im_epoch_period msg) ∧ u64 (im_unbonding_period msg) ∧ dec128 (im_peg_recovery_fee msg) ∧
  dec128 (im_er_threshold msg) ∧ dec128 (im_protocol_fee msg).
Record querier_ok (q : Querier) : Prop := {
  qk_delegations a ds :
    query_all_delegations q a = Ok ds → Forall (λ d, coin_ok (del_amount d)) ds;
  qk_delegation a v d : query_delegation q a v = Ok (Some d) → coin_ok (del_amount d);
  qk_balance a d c : query_balance q a d = Ok c → coin_ok c;
  qk_token a t : query_token_info q a = Ok t → u128 (total_supply t);
}.

(** What goes out. *)
Definition cosmos_msg_ok (m : CosmosMsg WasmBody) : Prop :=
  match m with
  | StakingDelegate _ c | StakingUndelegate _ c | StakingRedelegate _ _ c => coin_ok c
  | BankSend _ cs => Forall coin_ok cs
  | WasmExecute _ body cs =>
      Forall coin_ok cs ∧
      match body with ToToken (Mint _ n) | ToToken (Burn n) => u128 n | _ => True end
  | SetWithdrawAddress _ | WithdrawDelegatorReward _ => True
  end.
Definition response_ok (r : Response WasmBody) : Prop := Forall cosmos_msg_ok (messages r).

(** ** Arithmetic *)
Section arithmetic.
  Context `{M : Math} {MS : MathSpec M}.

Lemma u128_add a b c : Uint128_add a b = Ok c → u128 c.
Proof. intros [-> ?]%Uint128_add_ok. done. Qed.
Lemma u128_le a b : a ≤ b → u128 b → u128 a.
Proof. unfold u128. lia. Qed.
Lemma u128_sub a b c : Uint128_checked_sub a b = Ok c → u128 a → u128 c.
Proof. intros [-> ?]%Uint128_checked_sub_ok. apply u128_le. lia. Qed.
Lemma u128_mul u d r : Uint128_mul_Decimal u d = Ok r → u128 r.
Proof. by intros [-> ?]%Uint128_mul_Decimal_ok. Qed.
Lemma dec128_ratio n d r : Decimal_from_ratio n d = Ok r → dec128 r.
Proof. by intros (? & -> & ?)%Decimal_from_ratio_ok. Qed.
Lemma dec128_add a b r : Decimal_add a b = Ok r → dec128 r.
Proof. by intros [-> ?]%Decimal_add_ok. Qed.
Lemma u64_add_typed a b c : u64_add a b = Ok c → u64 c.
Proof. by intros [-> ?]%u64_add_ok. Qed.
Lemma u64_of_u64_sub a b c : u64_sub a b = Ok c → u64 a → u64 c.
Proof. intros [-> ?]%u64_sub_ok. unfold u64. lia. Qed.
Lemma dec128_one : dec128 Decimal_one.
Proof. unfold dec128, u128. by rewrite Decimal_one_spec. Qed.
End arithmetic.

Create HintDb widths.
#[export] Hint Resolve u128_add u128_sub u128_mul dec128_ratio dec128_add u64_add_typed
u64_of_u64_sub dec128_one : widths.
#[export] Hint Extern 1 (u128 0) => done : widths.
#[export] Hint Extern 1 (u64 0) => done : widths.
#[export] Hint Extern 1 (u64 1) => done : widths.

Ltac widths := solve [eauto 8 with widths typeclass_instances].

(** ** Stores *)
Definition stays_ok : relation HubStore := λ s s', store_ok s → store_ok s'.
#[global] Instance stays_ok_preorder : PreOrder stays_ok.
Proof. split; unfold stays_ok; [by intros s|]. intros s1 s2 s3. auto. Qed.

(** The writes that touch no number. *)
Lemma same_numbers_ok s s' :
  st_parameters s' = st_parameters s → st_current_batch s' = st_current_batch s →
  st_state s' = st_state s → st_wait s' = st_wait s → st_history s' = st_history s →
  store_ok s → store_ok s'.
Proof. intros Hp Hb Hs Hw Hh []. split; by rewrite ?Hp, ?Hb, ?Hs, ?Hw, ?Hh. Qed.
#[export] Hint Extern 2 (keeps stays_ok (writes _)) =>
  apply keeps_writes; intros ? Hs; refine (same_numbers_ok _ _ _ _ _ _ _ Hs); reflexivity
  : keeps.

Lemma set_state_typed st s : state_ok st → store_ok s → store_ok (HubState.set_state st s).
Proof. intros Hst []. split; try done. by intros ? [= <-]. Qed.
Lemma set_batch_typed cb s : batch_ok cb → store_ok s → store_ok (set_current_batch cb s).
Proof. intros Hcb []. split; try done. by intros ? [= <-]. Qed.
Lemma set_parameters_typed p s : parameters_ok p → store_ok s → store_ok (set_parameters p s).
Proof. intros Hp []. split; try done. by intros ? [= <-]. Qed.
Lemma set_history_typed k h s :
  history_ok h → store_ok s → store_ok (set_history (<[k := h]> (st_history s)) s).
Proof.
  intros Hh []. split; try done. simpl. intros k' h' [[_ <-]|[_ Hk]]%lookup_insert_Some; [done|].
  by eapply ok_history0.
Qed.
Lemma wait_bucket_typed s ka kb v : store_ok s → wait_bucket s ka !! kb = Some v → u128 v.
Proof.
  intros Hs. unfold wait_bucket. destruct (st_wait s !! ka) eqn:Hm; simpl.
  - by eapply (ok_wait _ Hs).
  - by rewrite lookup_empty.
Qed.
Lemma set_bucket_typed s ka m :
  (∀ kb v, m !! kb = Some v → u128 v) → store_ok s →
  store_ok (set_wait (<[ka := m]> (st_wait s)) s).
Proof.
  intros Hm []. split; try done. simpl.
  intros ka' m' kb v [[_ <-]|[_ Hk]]%lookup_insert_Some; [by apply Hm|by eapply ok_wait0].
Qed.
#[export] Hint Resolve set_state_typed set_batch_typed set_parameters_typed set_history_typed
ok_parameters ok_batch ok_state : widths.

Lemma state_typed s st : store_ok s → st_state s = Some st → state_ok st.
Proof. intros Hs. apply (ok_state _ Hs). Qed.
Lemma batch_typed s cb : store_ok s → st_current_batch s = Some cb → batch_ok cb.
Proof. intros Hs. apply (ok_batch _ Hs). Qed.
Lemma parameters_typed s p : store_ok s → st_parameters s = Some p → parameters_ok p.
Proof. intros Hs. apply (ok_parameters _ Hs). Qed.

(** Field updates. *)
Ltac fields := let H := fresh in intros H ?; destruct H; by split.
Lemma rate_typed r st : state_ok st → dec128 r → state_ok (set_exchange_rate r st).
Proof. fields. Qed.
Lemma bond_typed a st : state_ok st → u128 a → state_ok (set_total_bond_amount a st).
Proof. fields. Qed.
Lemma index_typed t st : state_ok st → u64 t → state_ok (set_last_index_modification t st).
Proof. fields. Qed.
Lemma prev_typed a st : state_ok st → u128 a → state_ok (set_prev_hub_balance a st).
Proof. fields. Qed.
Lemma actual_typed a st : state_ok st → u128 a → state_ok (set_actual_unbonded_amount a st).
Proof. fields. Qed.
Lemma time_typed t st : state_ok st → u64 t → state_ok (set_last_unbonded_time t st).
Proof. fields. Qed.
Lemma processed_typed b st : state_ok st → u64 b → state_ok (set_last_processed_batch b st).
Proof. fields. Qed.
#[export] Hint Resolve rate_typed bond_typed index_typed prev_typed actual_typed time_typed
processed_typed : widths.

(** ** The operations *)
Section operations.
  Context `{H : Host} {HS : HostSpec H}.

Lemma update_exchange_rate_typed ti rq st st' :
  update_exchange_rate ti rq st = Ok st' → state_ok st → state_ok st'.
Proof.
  unfold update_exchange_rate. intros Hrun Hst. bind Hrun as supply Hsup.
  destruct (_ || _); [injection Hrun as <-; widths|].
  bind Hrun as r Hr. injection Hrun as <-. widths.
Qed.

Lemma update_state_typed f :
  (∀ st st', f st = Ok st' → state_ok st → state_ok st') → keeps stays_ok (update_state f).
Proof.
  intros Hf s [] s' (st & st' & Hst & Hf' & [= ->])%update_state_ok Hs.
  apply set_state_typed; [|done]. eapply Hf; [done|]. by eapply state_typed.
Qed.

Lemma sum_delegations_typed coin ds a : sum_delegations coin ds = Ok a → u128 a.
Proof.
  unfold sum_delegations. assert (u128 0) as H0 by done. revert H0. generalize 0 as acc.
  induction ds as [|d ds IH]; simpl; intros acc Hacc Hrun; [by injection Hrun as <-|].
  bind Hrun as acc' Hacc'. eapply IH; [|exact Hrun].
  destruct (String.eqb _ _); [widths|by injection Hacc' as <-].
Qed.

Lemma slashing_typed q env : keeps stays_ok (slashing q env).
Proof.
  intros s [] s' Hrun. unfold slashing in Hrun.
  bind Hrun as params Hp. bind Hrun as st Hst.
  bind Hrun as ds Hds. destruct ds as [|d ds]; [by apply cm_ret_ok in Hrun as [= ->]|].
  bind Hrun as actual Ha. apply sum_delegations_typed in Ha.
  bind Hrun as ti Hti. bind Hrun as cb Hcb.
  destruct (_ <? _); [|by apply cm_ret_ok in Hrun as [= ->]].
  eapply update_state_typed; [|exact Hrun]. intros st0 st' Hu Hst0.
  eapply update_exchange_rate_typed; [exact Hu|]. widths.
Qed.

(** *** Bonding *)
Lemma mint_after_fee_typed threshold fee st supply m req pay out :
  mint_after_fee threshold fee st supply m req pay = Ok out → u128 m → u128 out.
Proof. intros (-> & _)%mint_after_fee_ok. apply u128_le. lia. Qed.
Lemma unbond_after_fee_typed threshold fee st supply m req out :
  unbond_after_fee threshold fee st supply m req = Ok out → u128 m → u128 out.
Proof. intros (-> & _)%unbond_after_fee_ok. apply u128_le. lia. Qed.
Lemma decimal_division_typed a b m : decimal_division a b = Ok m → u128 m.
Proof. intros Hrun. unfold decimal_division in Hrun. bind Hrun as d Hd. bind Hrun as x Hx. widths. Qed.

Lemma find_payment_typed d funds c :
  Forall coin_ok funds → find_payment d funds = Some c → coin_ok c.
Proof.
  intros Hf Hc. apply find_some in Hc as [Hc _]. rewrite Forall_forall in Hf.
  apply Hf. by apply list_elem_of_In.
Qed.

Lemma bond_typed_run q env info v s r s' :
  info_ok info → execute_bond q env info v s = Ok (r, s') → store_ok s → store_ok s' ∧ response_ok r.
Proof.
  intros Hinfo Hrun Hs. unfold execute_bond in Hrun.
  bind Hrun as valid Hvalid. bind Hrun as u Hv. bind Hrun as params Hp. bind Hrun as cb Hcb.
  bind Hrun as u' Hlen. bind Hrun as pay Hpay. apply ok_or_ok in Hpay.
  pose proof (find_payment_typed _ _ _ Hinfo Hpay) as Hcoin.
  bind Hrun as u'' s1 Hsl. apply slashing_typed in Hsl. specialize (Hsl Hs).
  bind Hrun as st Hst. bind Hrun as supply Hsup. bind Hrun as m Hm.
  apply decimal_division_typed in Hm. bind Hrun as minted Hminted.
  apply mint_after_fee_typed in Hminted; [|done]. bind Hrun as total Htotal.
  bind Hrun as u3 s2 Hupd. bind Hrun as c Hc. bind Hrun as raw Hraw. bind Hrun as token Htok.
  apply cm_ret_ok in Hrun as [= -> ->]. split.
  - apply update_state_typed in Hupd; [by apply Hupd|]. intros st0 st' Hu Hst0.
    bind Hu as b Hb. eapply update_exchange_rate_typed; [exact Hu|]. widths.
  - repeat constructor; done.
Qed.

(** *** Unbonding *)
Lemma store_wait_typed b a n : keeps stays_ok (store_unbond_wait_list b a n).
Proof.
  intros s [] s' Hrun Hs. unfold store_unbond_wait_list in Hrun.
  bind Hrun as kb Hkb. bind Hrun as ka Hka. bind Hrun as old Hold. injection Hold as <-.
  bind Hrun as v Hv. apply writes_ok in Hrun as [= ->].
  apply set_bucket_typed; [|done]. intros kb' v'.
  intros [[_ <-]|[_ Hl]]%lookup_insert_Some; [widths|by eapply wait_bucket_typed].
Qed.

Lemma pick_loop_typed fuel cd height idx claimed ds msgs out :
  pick_loop fuel cd height idx claimed ds msgs = Ok out →
  u128 claimed → Forall cosmos_msg_ok msgs → Forall cosmos_msg_ok out.
Proof.
  intros (takes & -> & Hplan)%pick_loop_spec Hc Hm. apply Forall_app. split; [done|].
  destruct Hplan as (_ & _ & Hsum). unfold undelegations. apply Forall_fmap, Forall_forall.
  intros [d t] [Hin _]%list_elem_of_In%filter_In. apply (u128_le _ claimed); [|exact Hc].
  rewrite <- Hsum. apply (sum_of_elem snd takes (d, t)). by apply list_elem_of_In.
Qed.

Lemma close_batch_typed q env cb st s x s' :
  close_batch q env cb st s = Ok (x, s') → env_ok env → batch_ok cb → state_ok st → store_ok s →
  store_ok s' ∧ Forall cosmos_msg_ok x.1.1 ∧ batch_ok x.1.2 ∧ state_ok x.2.
Proof.
  intros Hrun [_ Htime] [Hid Hreq] Hst Hs. unfold close_batch in Hrun.
  bind Hrun as amt Hamt. assert (u128 amt) as Ha by widths. bind Hrun as u Hu.
  bind Hrun as msgs Hmsgs. bind Hrun as bonded Hb. apply (proj1 (unwrap_ok _ _)) in Hb.
  assert (u128 bonded) as Hbonded by (eapply u128_sub; [exact Hb|apply Hst]).
  bind Hrun. bind Hrun as id' Hid'. apply cm_ret_ok in Hrun as [= -> ->].
  unfold pick_validator in Hmsgs.
  apply outcome_bind_ok in Hmsgs as (params & _ & Hmsgs).
  apply outcome_bind_ok in Hmsgs as (ds & _ & Hmsgs). apply pick_loop_typed in Hmsgs; [|done..].
  destruct Hst. split; [|split; [exact Hmsgs|split; [|by split]]].
  - apply set_history_typed; [by split|done].
  - split; [widths|done].
Qed.

Lemma unbond_typed_run q env n a s r s' :
  env_ok env → u128 n → execute_unbond q env n a s = Ok (r, s') → store_ok s →
  store_ok s' ∧ response_ok r.
Proof.
  intros Henv Hn Hrun Hs. unfold execute_unbond in Hrun.
  bind Hrun as params Hp. bind Hrun as cb Hcb. apply load_current_batch_ok in Hcb.
  pose proof (batch_typed _ _ Hs Hcb) as [Hid Hreq].
  bind Hrun as x s1 Hsl. apply slashing_typed in Hsl. specialize (Hsl Hs).
  bind Hrun as st Hst. apply load_state_ok in Hst. pose proof (state_typed _ _ Hsl Hst) as Hstok.
  bind Hrun as supply Hsup. bind Hrun as owed Howed. bind Hrun as req Hreq'.
  assert (u128 req) as Hreqok by widths.
  bind Hrun as x2 s2 Hw. apply store_wait_typed in Hw. specialize (Hw Hsl).
  bind Hrun as left Hleft. bind Hrun as st' Hst'.
  apply update_exchange_rate_typed in Hst'; [|done].
  bind Hrun as passed Hpassed. bind Hrun as res s3 Hres.
  assert (store_ok s3 ∧ Forall cosmos_msg_ok res.1.1 ∧ batch_ok res.1.2 ∧ state_ok res.2)
    as (Hs3 & Hmsgs & Hcb3 & Hst3).
  { destruct (_ <? _); [eapply close_batch_typed; [exact Hres|done|by split|done..]|].
    apply cm_ret_ok in Hres as [= -> ->]. split; [done|]. split; [by apply Forall_nil|]. by split; [split|]. }
  bind Hrun. bind Hrun. bind Hrun as c Hc. bind Hrun as raw Hraw. bind Hrun as token Htok.
  apply cm_ret_ok in Hrun as [= -> ->]. split.
  - apply set_state_typed; [done|]. by apply set_batch_typed.
  - apply Forall_app. split; [done|]. by repeat constructor.
Qed.

(** *** Releasing and withdrawing *)
Lemma release_batches_typed fuel t i sl total lp s x s' :
  release_batches fuel t i sl total lp s = Ok (x, s') → u64 i → u64 lp → store_ok s →
  store_ok s' ∧ u64 x.
Proof.
  revert i lp s; induction fuel as [|fuel IH]; intros i lp s Hrun Hi Hlp Hs; [done|].
  cbn [release_batches] in Hrun. apply reads_bind_ok in Hrun as (h & Hh & Hrun).
  rewrite try_read_history in Hh. injection Hh as <-.
  destruct (hist s i) as [h|] eqn:Hh; [|by apply cm_ret_ok in Hrun as [= -> ->]].
  destruct (_ <? _); [by apply cm_ret_ok in Hrun as [= -> ->]|].
  destruct (negb _); [|by apply cm_ret_ok in Hrun as [= -> ->]].
  apply lift_bind_ok in Hrun as (u & Hu & Hrun). apply lift_bind_ok in Hrun as (a & Ha & Hrun).
  apply lift_bind_ok in Hrun as (rate & Hrate & Hrun).
  apply writes_bind_ok in Hrun. apply lift_bind_ok in Hrun as (i' & Hi' & Hrun).
  eapply IH; [exact Hrun|widths|done|]. apply set_history_typed; [|done].
  destruct (ok_history _ Hs _ _ Hh). split; try done. widths.
Qed.

Lemma process_typed t bal : u128 bal → keeps stays_ok (process_withdraw_rate t bal).
Proof.
  intros Hbal s [] s' Hrun Hs. unfold process_withdraw_rate in Hrun.
  bind Hrun as st Hst. apply load_state_ok in Hst. pose proof (state_typed _ _ Hs Hst) as Hstok.
  bind Hrun as change Hchange. bind Hrun as actual Hact. bind Hrun as i Hi. bind Hrun as fuel Hfuel.
  bind Hrun as r Hsum. bind Hrun as last s1 Hrel. apply writes_ok in Hrun as [= ->].
  assert (store_ok s1 ∧ u64 last) as [Hs1 Hlast].
  { destruct (1 <=? r.2); simpl in Hrel.
    - bind Hrel as sl Hsl. eapply release_batches_typed; [exact Hrel|widths| |done]. apply Hstok.
    - apply cm_ret_ok in Hrel as [= -> ->]. split; [done|apply Hstok]. }
  apply set_state_typed; [|done]. widths.
Qed.

Lemma remove_batches_typed k l : keeps stays_ok (remove_batches k l).
Proof.
  induction l as [|b l IH]; simpl; [solve_keeps|].
  apply keeps_bind; [apply _|solve_keeps|intros kb]. apply keeps_bind; [apply _| |by intros _].
  apply keeps_writes. intros s Hs. apply set_bucket_typed; [|done].
  intros kb' v [_ Hl]%lookup_delete_Some. by eapply wait_bucket_typed.
Qed.

Lemma withdraw_typed_run q env info s r s' :
  querier_ok q → execute_withdraw_unbonded q env info s = Ok (r, s') → store_ok s →
  store_ok s' ∧ response_ok r.
Proof.
  intros Hq Hrun Hs. apply execute_withdraw_spec in Hrun
    as (params & bal & s1 & ids & paid & s2 & st1 & _ & _ & Hbal & Hproc & _ & _ & Hle & _ & Hrm & Hst1 & -> & Hmsg).
  apply (qk_balance _ Hq) in Hbal. apply process_typed in Hproc; [|done]. specialize (Hproc Hs).
  unfold remove_unbond_wait_list in Hrm. bind Hrm as k Hk. apply remove_batches_typed in Hrm.
  split.
  - apply set_state_typed; [|by apply Hrm]. apply prev_typed; [by apply (state_typed s1)|].
    apply (u128_le _ (amount bal)); [lia|exact Hbal].
  - unfold response_ok. rewrite Hmsg. apply Forall_singleton, Forall_singleton.
    by apply (u128_le _ (amount bal)).
Qed.

(** *** Rewards and administration *)
Lemma compound_typed_run q env info s r s' :
  info_ok info → execute_update_exchange_rate q env info s = Ok (r, s') → store_ok s →
  store_ok s' ∧ response_ok r.
Proof.
  intros Hinfo Hrun Hs. split.
  - unfold execute_update_exchange_rate in Hrun.
    bind Hrun as st Hst. apply load_state_ok in Hst.
    bind Hrun as c Hc. bind Hrun as raw Hraw. bind Hrun as rc Hrc. bind Hrun as u Hu.
    bind Hrun as params Hp. bind Hrun as pay Hpay. bind Hrun as fee Hfee. bind Hrun as user Huser.
    bind Hrun as cb Hcb. bind Hrun as ti Hti. bind Hrun as supply Hsup. bind Hrun as inc Hinc.
    bind Hrun as rate Hrate. bind Hrun as bonded Hb. bind Hrun. bind Hrun as ds Hds.
    bind Hrun as i Hi. bind Hrun as fmsgs Hfm. bind Hrun as smsgs Hsm.
    apply cm_ret_ok in Hrun as [= -> ->]. apply set_state_typed; [|done].
    pose proof (state_typed _ _ Hs Hst). widths.
  - apply execute_update_exchange_rate_spec in Hrun
      as (st & c & raw & params & pay & cb & ti & ds & collector & _ & _ & _ & _ & _ & _ & Hpay &
          _ & _ & _ & Hle & _ & _ & staked & Hmsg & Hstaked).
    apply (find_payment_typed _ _ _ Hinfo) in Hpay. unfold response_ok. rewrite Hmsg.
    apply Forall_app. split.
    + unfold fee_msgs. destruct (protocol_cut _ _ =? 0); [by apply Forall_nil|].
      apply Forall_singleton, Forall_singleton. by apply (u128_le _ (amount pay)).
    + destruct (amount pay - _ =? 0); [subst; by apply Forall_nil|]. destruct Hstaked as (d & _ & ->).
      apply Forall_singleton. apply (u128_le _ (amount pay)); [apply N.le_sub_l|done].
Qed.

Lemma update_global_typed q env : env_ok env → keeps stays_ok (execute_update_global q env).
Proof.
  intros [_ Htime]. unfold execute_update_global.
  do 4 (apply keeps_bind; [apply _|solve_keeps|intros ?]).
  apply keeps_bind; [apply _| |solve_keeps]. apply update_state_typed.
  intros st st' [= <-] ?. widths.
Qed.

Lemma update_params_typed info ep up rf th pf :
  msg_ok (UpdateParams ep up rf th pf) →
  keeps stays_ok (execute_update_params info ep up rf th pf).
Proof.
  intros (Hep & Hup & Hrf & Hth & Hpf) s r s' Hrun Hs. unfold execute_update_params in Hrun.
  bind Hrun as u Hu. bind Hrun as p Hp. apply load_parameters_ok in Hp.
  apply (parameters_typed _ _ Hs) in Hp. bind Hrun. apply cm_ret_ok in Hrun as [= -> ->].
  apply set_parameters_typed; [|done]. destruct Hp.
  split; simpl; [destruct ep|destruct up|destruct rf|destruct th|destruct pf]; simpl; auto.
Qed.

Lemma deregister_typed_run q env info v s r s' :
  querier_ok q → execute_deregister_validator q env info v s = Ok (r, s') → response_ok r.
Proof.
  intros Hq [Hmsg|(d & repl & Hd & Hmsg)]%deregister_messages; unfold response_ok; rewrite Hmsg;
    [by apply Forall_nil|].
  constructor; [exact (qk_delegation _ Hq _ _ _ Hd)|]. by repeat constructor.
Qed.

(** The other handlers send no amounts. *)
Ltac solve_sends := solve_returns ltac:(by repeat constructor).

Lemma update_global_sends q env : returns response_ok (execute_update_global q env).
Proof.
  intros s r s' (ds & contract & Hmsg & _)%update_global_messages. unfold response_ok. rewrite Hmsg.
  apply Forall_app. split; [|by repeat constructor]. apply Forall_fmap, Forall_forall. by intros.
Qed.

Lemma silent_typed (m : cm HubStore (Response WasmBody)) s r s' :
  m s = Ok (r, s') → keeps stays_ok m → returns response_ok m → store_ok s →
  store_ok s' ∧ response_ok r.
Proof. intros Hrun Hk Hp Hs. split; [exact (Hk _ _ _ Hrun Hs)|exact (Hp _ _ _ Hrun)]. Qed.

Context `{HK : HookSerde}.

(** ** Every entry point *)
Lemma execute_typed q env info msg s r s' :
  querier_ok q → env_ok env → info_ok info → msg_ok msg →
  execute q env info msg s = Ok (r, s') → store_ok s → store_ok s' ∧ response_ok r.
Proof.
  intros Hq Henv Hinfo Hmsg Hrun. destruct msg; simpl in Hrun;
    try (apply reads_bind_ok in Hrun as (u & _ & Hrun)).
  - eapply silent_typed; [exact Hrun|solve_keeps|solve_sends].
  - eapply silent_typed; [exact Hrun|solve_keeps|solve_sends].
  - eapply silent_typed; [exact Hrun| |unfold execute_update_config; solve_sends].
    unfold execute_update_config. solve_keeps.
  - eapply silent_typed; [exact Hrun| |unfold execute_update_admin; solve_sends].
    unfold execute_update_admin. solve_keeps.
  - by eapply compound_typed_run.
  - eapply silent_typed; [exact Hrun| |unfold execute_register_validator; solve_sends].
    unfold execute_register_validator, store_white_validators. solve_keeps.
  - intros Hs. split; [|by eapply deregister_typed_run]. revert Hs. revert Hrun.
    assert (keeps stays_ok (execute_deregister_validator q env info validator)) as Hk; [|apply Hk].
    unfold execute_deregister_validator, remove_white_validators. solve_keeps.
  - eapply silent_typed; [exact Hrun|by apply update_params_typed|].
    unfold execute_update_params. solve_sends.
  - by eapply bond_typed_run.
  - eapply silent_typed; [exact Hrun|by apply update_global_typed|apply update_global_sends].
  - by eapply withdraw_typed_run.
  - eapply silent_typed; [exact Hrun| |unfold execute_slashing; solve_sends].
    unfold execute_slashing. apply keeps_bind; [apply _|apply slashing_typed|]. solve_keeps.
  - unfold receive_cw20 in Hrun. bind Hrun as hook Hhook. destruct hook.
    bind Hrun as conf Hconf. bind Hrun as raw Hraw. bind Hrun as token Htoken.
    bind Hrun as u' Hu'. by eapply unbond_typed_run.
Qed.

Lemma migrate_typed m s r s' :
  migrate m s = Ok (r, s') → store_ok s → store_ok s' ∧ response_ok r.
Proof.
  intros Hrun. eapply silent_typed; [exact Hrun|unfold migrate, migrate_config; solve_keeps|unfold migrate; solve_sends].
Qed.

Lemma empty_typed : store_ok empty_store.
Proof.
  split; try by intros ? [=].
  - intros ka m kb v Hm. simpl in Hm. by rewrite lookup_empty in Hm.
  - intros k h Hk. simpl in Hk. by rewrite lookup_empty in Hk.
Qed.

Lemma instantiate_typed env info msg r s :
  env_ok env → info_ok info → init_msg_ok msg →
  instantiate env info msg empty_store = Ok (r, s) → store_ok s ∧ response_ok r.
Proof.
  intros [_ Htime] Hinfo (? & ? & ? & ? & ?) Hrun.
  apply instantiate_spec in Hrun as (pay & raw & Hpay & _ & -> & Hmsg).
  apply (find_payment_typed _ _ _ Hinfo) in Hpay. split.
  - split; [by intros ? [= <-]| | | |]; try by intros ? [= <-].
    + intros ? [= <-]. repeat split; try done; simpl; apply dec128_one.
    + apply empty_typed.
    + apply empty_typed.
  - unfold response_ok. rewrite Hmsg. by repeat constructor.
Qed.

(** ** Runs whose inputs are of their types *)
Definition call_typed (q : Querier) (env : Env) (info : MessageInfo) (msg : ExecuteMsg) : Prop :=
  querier_ok q ∧ env_ok env ∧ info_ok info ∧ msg_ok msg.

Inductive typed_reachable : HubStore → Prop :=
  | typed_init env info msg r s :
      env_ok env → info_ok info → init_msg_ok msg →
      instantiate env info msg empty_store = Ok (r, s) → typed_reachable s
  | typed_execute q env info msg r s s' :
      typed_reachable s → call_typed q env info msg →
      execute q env info msg s = Ok (r, s') → typed_reachable s'
  | typed_migrate msg r s s' :
      typed_reachable s → migrate msg s = Ok (r, s') → typed_reachable s'.

Lemma typed_reachable_ok s : typed_reachable s → store_ok s.
Proof.
  induction 1 as [env info msg r s ??? Hrun|q env info msg r s s' _ IH (?&?&?&?) Hrun|msg r s s' _ IH Hrun].
  - by eapply instantiate_typed.
  - by eapply execute_typed.
  - by eapply migrate_typed.
Qed.
End operations.
