(* ===== verification/HubPayments.v ===== *)
(** * Payments: what a withdrawal pays and what it leaves *)
From S2P Require Import Prelude Bytes Cosmwasm Protocol SignedInteger HubState HubStateFacts.
From S2P Require Import HubMath HubCore HubConfig HubBond HubUnbond HubWithdraw.
From S2P Require Import HubAutoCompound HubContract HubCoreFacts HubBondFacts HubUnbondFacts.
From S2P Require Import HubAdminFacts HubWithdrawFacts HubInvariant.

Section payments.
  Context `{H : Host} {HS : HostSpec H}.

Lemma Due_maximal s t i D : Due s t i D → is_due s t (i + N.of_nat (length D)) = false.
Proof.
  induction 1 as [i Hi|i h D Hb Hh Ht Hr HD IH]; [by rewrite N.add_0_r|].
  rewrite <- IH. f_equal. simpl length. lia.
Qed.

Lemma sum_unbonded_idle fuel t i total count s :
  is_due s t i = false → sum_unbonded (S fuel) t i total count s = Ok (total, count).
Proof.
  unfold is_due. intros Hd. simpl. rewrite try_read_history. simpl.
  destruct (hist s i) as [h|]; [|done]. destruct (N.ltb_spec t (h_time h)); [done|].
  rewrite (proj2 (N.leb_le _ _)) in Hd by done. simpl in Hd. by rewrite Hd.
Qed.

(** With nothing due, processing only forgets what has arrived. *)
Lemma process_idle t bal s st :
  st_state s = Some st → last_processed_batch st + 1 < u64_bound →
  is_due s t (last_processed_batch st + 1) = false → arrived st bal < u128_bound →
  process_withdraw_rate t bal s =
    Ok ((), HubState.set_state (processed_state st (last_processed_batch st)) s).
Proof.
  intros Hst Hb Hd Ha. unfold process_withdraw_rate.
  apply reads_bind_ok. exists st. split; [by apply ok_or_ok|].
  apply lift_bind_ok. eexists. split; [apply from_subtraction_eq|].
  apply lift_bind_ok. exists (arrived st bal). split.
  { apply Uint128_add_ok. unfold arrived in *. by destruct (_ <=? _). }
  apply lift_bind_ok. exists (last_processed_batch st + 1). split; [by apply u64_add_ok|].
  apply reads_bind_ok. eexists. split; [done|].
  apply reads_bind_ok. exists (0, 0). split; [by apply sum_unbonded_idle|].
  apply cm_bind_ok. eexists _, s. split; [done|]. by apply writes_ok.
Qed.

Lemma get_finished_amount_none s a l :
  claims s a l → Forall (λ bv, claim_released s bv = false) l →
  get_finished_amount a s = Ok 0.
Proof.
  intros (k & Hk & Hl) Hnone. unfold get_finished_amount. rewrite Hk. simpl.
  induction Hl as [|[kb v] [b v'] r l (Hb & Hkb & Hv) Hl IH]; simpl in *; [done|].
  apply Forall_cons in Hnone as [Hn Hnone]. rewrite (u64_from_to b kb) by done. simpl.
  rewrite try_read_history. simpl. unfold claim_released in Hn. simpl in Hn.
  destruct (hist s b) as [h|]; [rewrite Hn|]; simpl; by apply IH.
Qed.

(** Everything a successful withdrawal does. *)
Lemma withdraw_effects q env info s r s' :
  hub_inv s → execute_withdraw_unbonded q env info s = Ok (r, s') →
  ∃ params bal s1 l,
    st_parameters s = Some params ∧ unbonding_period params ≤ block_time env ∧
    query_balance q (contract_address env) (underlying_coin_denom params) = Ok bal ∧
    process_withdraw_rate (block_time env - unbonding_period params) (amount bal) s
      = Ok ((), s1) ∧
    claims s1 (sender info) l ∧
    0 < claims_payout s1 l ≤ amount bal ∧
    messages r = [BankSend (sender info)
      [mkCoin (underlying_coin_denom params) (claims_payout s1 l)]] ∧
    (∃ st, st_state s1 = Some st ∧
      st_state s' = Some (set_prev_hub_balance (amount bal - claims_payout s1 l) st)) ∧
    st_history s' = st_history s1 ∧ st_parameters s' = st_parameters s ∧
    (∀ a b, b < u64_bound →
      wait_entry s' a b =
        if decide (a = sender info ∧ b ∈ (List.filter (claim_released s1) l).*1)
        then None else wait_entry s a b).
Proof.
  intros (cb & st & Hi) Hrun. pose proof (withdraw_settings _ _ _ _ _ _ Hrun) as Hset.
  apply execute_withdraw_spec in Hrun
    as (params & bal & s1 & ids & paid & s2 & st1 & Hp & Ht & Hbal & Hproc & Hpaid & Hne & Hle &
        Hids & Hrm & Hst1 & -> & Hmsg).
  destruct (inv_process _ _ _ _ _ _ Hi Hproc) as (D & rs & _ & _ & _ & Hw & Hi1).
  destruct (claims_exist s1 (sender info) (inv_wait_keys _ _ _ Hi1)) as [l Hl].
  rewrite (get_unbond_batches_claims _ _ _ Hl) in Hids. injection Hids as <-.
  apply (get_finished_amount_claims _ _ _ _ Hl) in Hpaid. subst paid.
  assert (Forall (λ b, b < u64_bound) (List.filter (claim_released s1) l).*1) as Hb.
  { apply Forall_forall. intros b Hin. by apply (claims_ids_bound s1 (sender info) l). }
  destruct (remove_unbond_wait_list_spec _ _ _ _ Hb Hrm) as ([w ->] & _ & He & _).
  unfold preserves, settings in Hset. injection Hset as _ _ _ Hpar _.
  exists params, bal, s1, l. do 5 (split; [done|]). split; [lia|]. split; [done|].
  split; [by exists st1|]. do 2 (split; [done|]). intros a b Hbb.
  change (wait_entry (set_wait w s1) a b = if decide (a = sender info ∧
    b ∈ (List.filter (claim_released s1) l).*1) then None else wait_entry s a b).
  rewrite He by done. unfold wait_entry, user_bucket, wait_bucket. rewrite Hw.
  destruct (decide (sender info = a ∧ _)) as [[<- ?]|Hn]; [by rewrite decide_True|].
  rewrite decide_False; [done|]. intros [-> ?]. by apply Hn.
Qed.

(** The rate of a batch that is released without a loss. *)
Definition full_rate (jh : N * UnbondHistory) : Decimal :=
  mkDecimal (unbonded_of jh * dec_unit / h_amount jh.2).

(** When exactly what is due has arrived, every due batch gets its full rate. *)
Lemma process_unslashed t bal s s' cb st D :
  hub_inv_at s cb st → Due s t (last_processed_batch st + 1) D →
  arrived st bal = sum_of unbonded_of D → process_withdraw_rate t bal s = Ok ((), s') →
  ∀ j h, (j, h) ∈ D → hist s' j = Some (release (full_rate (j, h)) h).
Proof.
  intros Hi HD Ha Hrun j h Hjh. destruct (inv_process _ _ _ _ _ _ Hi Hrun)
    as (D' & rs & HD' & Hrs & (_ & Hin & _) & _).
  assert (D' = D) as -> by by eapply Due_unique.
  apply list_elem_of_lookup in Hjh as [k Hk].
  destruct (Forall2_lookup_l _ _ _ _ _ Hrs Hk) as (r & Hr & a & Hact & Hrate).
  apply Decimal_from_ratio_ok in Hrate as (_ & -> & _).
  rewrite (Hin k j h _ Hk Hr). do 3 f_equal.
  rewrite Ha in Hact. unfold actual_unbonded_of_batch, slash_of in Hact.
  rewrite N.leb_refl, N.sub_diag in Hact. bind Hact as w Hw. bind Hact as x Hx.
  apply Uint128_mul_Decimal_ok in Hx as [-> _].
  rewrite N.mul_0_l, N.Div0.div_0_l, from_subtraction_eq, (proj2 (N.leb_le 0 _)) in Hact by lia.
  simpl in Hact. injection Hact as <-. by rewrite N.sub_0_r.
Qed.
End payments.
