(* ===== verification/Book.v ===== *)
(** * The claim book: what the hub's unbonding promises

    An abstract machine, without storage, keys, loops or rounding of shares: users
    ask for amounts in the open batch, the batch is closed, closed batches are
    given a rate in order, and a user is paid for all rated batches at once. *)
From S2P Require Import Prelude Cosmwasm.

Record Book := mkBook {
  bk_open : N;                        (* the batch that takes requests *)
  bk_done : N;                        (* batches 1 .. bk_done have their rate *)
  bk_claim : string → N → option N;   (* what a user may claim from a batch *)
  bk_rate : N → Decimal;              (* the rate of a rated batch *)
}.

(** What happens to a book; a request names its batch, a payment its amount. *)
Inductive event :=
  | EvQuiet
  | EvRequest (user : string) (batch amount : N)
  | EvClose (user : string) (batch amount : N)
  | EvPay (user : string) (amount : N).

(** The payout of an amount at a rate, as [get_finished_amount] computes it. *)
Definition payout (r : Decimal) (v : N) : N := v * atomics r / dec_unit.

(** What a user would be paid for a batch now. *)
Definition owed (k : Book) (u : string) (b : N) : N :=
  payout (bk_rate k b) (default 0 (bk_claim k u b)).

Definition same_rates (k k' : Book) : Prop :=
  ∀ b, 1 ≤ b ≤ bk_done k → bk_rate k' b = bk_rate k b.

(** [u] asks for [v] in the open batch. *)
Definition asks (k k' : Book) (u : string) (v : N) : Prop :=
  ∀ u' b, b < u64_bound →
    bk_claim k' u' b =
      if decide (u' = u ∧ b = bk_open k) then Some (default 0 (bk_claim k u b) + v)
      else bk_claim k u' b.

(** [u]'s claims on rated batches are struck out. *)
Definition struck_out (k k' : Book) (u : string) : Prop :=
  ∀ u' b, b < u64_bound →
    bk_claim k' u' b = if decide (u' = u ∧ 1 ≤ b ≤ bk_done k') then None else bk_claim k u' b.

Inductive book_step (k k' : Book) : event → Prop :=
  | bs_quiet :
      bk_open k' = bk_open k → bk_done k' = bk_done k → same_rates k k' →
      (∀ u b, b < u64_bound → bk_claim k' u b = bk_claim k u b) →
      book_step k k' EvQuiet
  | bs_request u v :
      bk_open k' = bk_open k → bk_done k' = bk_done k → same_rates k k' → asks k k' u v →
      book_step k k' (EvRequest u (bk_open k) v)
  | bs_close u v :
      bk_open k' = bk_open k + 1 → bk_done k' = bk_done k → same_rates k k' → asks k k' u v →
      book_step k k' (EvClose u (bk_open k) v)
  | bs_pay u paid :
      bk_open k' = bk_open k → bk_done k ≤ bk_done k' → bk_done k' < bk_open k →
      same_rates k k' → struck_out k k' u →
      paid = sum_of (λ b, payout (bk_rate k' b) (default 0 (bk_claim k u b))) (upto (bk_done k')) →
      book_step k k' (EvPay u paid).

(** The request of [u] that leads from one book to the next. *)
Definition request_between (k k' : Book) (u : string) : event :=
  let b := bk_open k in
  (if bk_open k' =? b then EvRequest else EvClose) u b
    (default 0 (bk_claim k' u b) - default 0 (bk_claim k u b)).

(** The runs of the machine, with the events so far, latest first. *)
Inductive book_run : list event → Book → Prop :=
  | run_new k :
      bk_open k = 1 → bk_done k = 0 → (∀ u b, b < u64_bound → bk_claim k u b = None) →
      book_run [] k
  | run_step evs k ev k' :
      book_run evs k → book_step k k' ev → bk_open k' < u64_bound → book_run (ev :: evs) k'.

(** All a user ever asked for in a batch, and all the user was ever paid. *)
Definition requested_by (u : string) (b : N) (ev : event) : N :=
  match ev with
  | EvRequest u' b' v | EvClose u' b' v => if decide (u' = u ∧ b' = b) then v else 0
  | _ => 0
  end.
Definition paid_to (u : string) (ev : event) : N :=
  match ev with EvPay u' p => if decide (u' = u) then p else 0 | _ => 0 end.
Definition requested (evs : list event) (u : string) (b : N) : N := sum_of (requested_by u b) evs.
Definition paid (evs : list event) (u : string) : N := sum_of (paid_to u) evs.

Record book_inv (evs : list event) (k : Book) : Prop := {
  bi_done : bk_done k < bk_open k;
  bi_open : bk_open k < u64_bound;
  (** an unrated batch still holds everything that was asked for *)
  bi_claim u b : bk_done k < b → b < u64_bound → default 0 (bk_claim k u b) = requested evs u b;
  bi_future u b : bk_open k < b → requested evs u b = 0;
  (** paid plus owed is what the requests are worth *)
  bi_paid u :
    paid evs u + sum_of (owed k u) (upto (bk_done k))
    = sum_of (λ b, payout (bk_rate k b) (requested evs u b)) (upto (bk_done k));
}.

Lemma request_between_step k k' u v :
  bk_open k < u64_bound → bk_open k' = bk_open k ∨ bk_open k' = bk_open k + 1 →
  bk_done k' = bk_done k → same_rates k k' → asks k k' u v →
  book_step k k' (request_between k k' u).
Proof.
  intros Hb Ho Hd Hr Ha. unfold request_between.
  replace (default 0 (bk_claim k' u (bk_open k)) - default 0 (bk_claim k u (bk_open k))) with v.
  - destruct Ho as [Ho|Ho]; [rewrite (proj2 (N.eqb_eq _ _)) by done|
      rewrite (proj2 (N.eqb_neq _ _)) by lia]; by constructor.
  - rewrite Ha, decide_True by done. simpl. lia.
Qed.

Lemma payout_zero r : payout r 0 = 0.
Proof. unfold payout. by rewrite N.mul_0_l, N.Div0.div_0_l. Qed.

Lemma upto_mono n m : n ≤ m → ∃ l, upto m ≡ₚ upto n ++ l ∧ ∀ b, b ∈ l ↔ n < b ≤ m.
Proof.
  intros Hle. assert (upto n ⊆+ upto m) as [l Hl]%submseteq_Permutation.
  { apply NoDup_submseteq; [apply NoDup_upto|]. intros b. rewrite !elem_of_upto. lia. }
  exists l. split; [done|]. intros b.
  pose proof (NoDup_upto m) as Hnd. rewrite Hl in Hnd. apply NoDup_app in Hnd as (_ & Hdisj & _).
  split.
  - intros Hb. assert (b ∈ upto m) as Hm by (rewrite Hl; apply elem_of_app; by right).
    apply elem_of_upto in Hm. destruct (decide (b ≤ n)); [|lia].
    exfalso. apply (Hdisj b); [|done]. apply elem_of_upto. lia.
  - intros Hb. assert (b ∈ upto m) as Hm by (apply elem_of_upto; lia).
    rewrite Hl in Hm. apply elem_of_app in Hm as [Hm|]; [|done]. apply elem_of_upto in Hm. lia.
Qed.

(** Rated batches keep their payouts. *)
Lemma sum_same_rates k k' f n :
  same_rates k k' → n ≤ bk_done k →
  sum_of (λ b, payout (bk_rate k' b) (f b)) (upto n) = sum_of (λ b, payout (bk_rate k b) (f b)) (upto n).
Proof.
  intros Hr Hn. apply sum_of_ext. intros b Hb%elem_of_upto. by rewrite Hr by lia.
Qed.

Lemma requested_cons ev evs u b : requested (ev :: evs) u b = requested_by u b ev + requested evs u b.
Proof. done. Qed.
Lemma paid_cons ev evs u : paid (ev :: evs) u = paid_to u ev + paid evs u.
Proof. done. Qed.

(** A request touches only the open batch. *)
Lemma ask_inv evs k k' ev u v :
  book_inv evs k → bk_open k ≤ bk_open k' → bk_open k' < u64_bound →
  bk_done k' = bk_done k → same_rates k k' → asks k k' u v →
  (∀ u' b, requested_by u' b ev = if decide (u = u' ∧ bk_open k = b) then v else 0) →
  (∀ u', paid_to u' ev = 0) →
  book_inv (ev :: evs) k'.
Proof.
  intros [Hd Ho Hc Hf Hp] Hle Hb Hd' Hr Ha Hev Hpe. split; [lia|done|..].
  - intros u' b Hlt Hbb. rewrite requested_cons, Hev, Ha by done. rewrite Hd' in Hlt.
    destruct (decide (u' = u ∧ b = bk_open k)) as [[-> ->]|Hn].
    + rewrite decide_True by done. simpl. rewrite Hc by done. lia.
    + rewrite decide_False by naive_solver. by apply Hc.
  - intros u' b Hlt. rewrite requested_cons, Hev, decide_False by lia. apply Hf. lia.
  - intros u'. rewrite paid_cons, Hpe, Hd', (sum_same_rates k) by done.
    rewrite (sum_of_ext _ (owed k u')).
    + rewrite N.add_0_l, Hp. apply sum_of_ext. intros b Hbin%elem_of_upto.
      rewrite requested_cons, Hev, decide_False by lia. done.
    + intros b Hbin%elem_of_upto. unfold owed. rewrite Hr by lia.
      by rewrite Ha, decide_False by lia.
Qed.

Lemma quiet_inv evs k k' :
  book_inv evs k → bk_open k' = bk_open k → bk_done k' = bk_done k → same_rates k k' →
  (∀ u b, b < u64_bound → bk_claim k' u b = bk_claim k u b) → book_inv (EvQuiet :: evs) k'.
Proof.
  intros [Hd Ho Hc Hf Hp] Ho' Hd' Hr He. split; rewrite ?Ho', ?Hd'; try done.
  - intros u b Hlt Hb. rewrite He by done. by apply Hc.
  - intros u. rewrite (sum_same_rates k), paid_cons by done.
    rewrite (sum_of_ext (owed k' u) (owed k u)); [apply Hp|].
    intros b Hbin%elem_of_upto. unfold owed. rewrite Hr, He by lia. done.
Qed.

(** What a payment and the claims it leaves are worth together. *)
Lemma pay_inv evs k k' u p :
  book_inv evs k → bk_open k' = bk_open k → bk_done k ≤ bk_done k' → bk_done k' < bk_open k →
  same_rates k k' → struck_out k k' u →
  p = sum_of (λ b, payout (bk_rate k' b) (default 0 (bk_claim k u b))) (upto (bk_done k')) →
  book_inv (EvPay u p :: evs) k'.
Proof.
  intros [Hd Ho Hc Hf Hp] Ho' Hle Hlt Hr Hs Hpay. split; rewrite ?Ho'; try done.
  - intros u' b Hb Hbb. rewrite Hs, decide_False by lia. rewrite requested_cons. apply Hc; lia.
  - intros u'. rewrite paid_cons.
    (* the payment of [u'] and the claims left are the claims before *)
    assert (∀ b, b ∈ upto (bk_done k') → b < u64_bound) as Hbb
      by (intros b Hb%elem_of_upto; lia).
    transitivity (paid evs u' + sum_of (λ b, payout (bk_rate k' b) (default 0 (bk_claim k u' b)))
      (upto (bk_done k'))).
    + simpl. destruct (decide (u = u')) as [<-|Hne].
      * rewrite Hpay, (sum_of_zero (owed k' u)); [lia|]. intros b Hb. unfold owed.
        rewrite Hs by auto. apply elem_of_upto in Hb. rewrite decide_True by done. apply payout_zero.
      * rewrite N.add_0_l. f_equal. apply sum_of_ext. intros b Hb. unfold owed.
        rewrite Hs by auto. by rewrite decide_False by naive_solver.
    + destruct (upto_mono _ _ Hle) as (l & Hl & Hin).
      rewrite !(sum_of_perm _ _ _ Hl), !sum_of_app, N.add_assoc.
      rewrite (sum_same_rates k k' (requested _ u')), (sum_same_rates k) by done.
      unfold owed in Hp. rewrite Hp. apply N.add_cancel_l.
      apply sum_of_ext. intros b Hb%Hin. rewrite Hc by lia. done.
Qed.

Lemma book_run_inv evs k : book_run evs k → book_inv evs k.
Proof.
  induction 1 as [k Ho Hd Hc|evs k ev k' _ IH Hstep Hb].
  { split; rewrite ?Hd; [lia|by rewrite Ho|..|done|done]. intros u b _ Hb. by rewrite Hc. }
  destruct Hstep as [Ho Hd Hr He|u v Ho Hd Hr Ha|u v Ho Hd Hr Ha|u p Ho Hle Hlt Hr Hs Hpay].
  - by apply (quiet_inv _ k).
  - apply (ask_inv _ k _ _ u v); try done; lia.
  - apply (ask_inv _ k _ _ u v); try done; lia.
  - by apply (pay_inv _ k).
Qed.
