(* ===== verification/HubSolvency.v ===== *)
(** * Solvency: the hub can pay what it has released

    [outstanding] is what the hub owes on released batches.  Releasing a group of
    batches adds at most the coins that arrived; a withdrawal removes exactly
    what it pays. *)
From S2P Require Import Prelude Bytes Cosmwasm Protocol SignedInteger HubState HubStateFacts.
From S2P Require Import HubMath HubCore HubConfig HubBond HubUnbond HubWithdraw.
From S2P Require Import HubAutoCompound HubContract HubCoreFacts HubBondFacts HubUnbondFacts.
From S2P Require Import HubAdminFacts HubWithdrawFacts HubInvariant Book.

Section defs.
  Context `{H : Host}.

Definition batch_payouts (s : HubStore) (b : N) : N :=
  match hist s b with
  | Some h => wait_sum (payout (withdraw_rate h)) s b
  | None => 0
  end.
Definition outstanding (s : HubStore) : N :=
  match st_state s with
  | Some st => sum_of (batch_payouts s) (upto (last_processed_batch st))
  | None => 0
  end.

(** When the arrived coins fall short of the due batches' total, the roundings
    of the slashing shares never exceed one unit altogether. *)
Definition shares_fit (D : list (N * UnbondHistory)) (arrived : N) : Prop :=
  arrived < sum_of unbonded_of D →
  0 < arrived ∧ Forall (λ jh, 0 < unbonded_of jh) D ∧
  N.of_nat (length D) * (sum_of unbonded_of D - arrived) ≤ dec_unit.
End defs.

Section arithmetic.
  Context `{H : Host} {HS : HostSpec H}.

(** A batch's share of [S], in units of 1/[dec_unit] of the total: at most its
    proportion, and less than one unit below it. *)
Lemma share_upper S u T : T ≠ 0 → T * (S * (u * dec_unit / T) / dec_unit) ≤ S * u.
Proof.
  intros HT. pose proof (N.Div0.mul_div_le (u * dec_unit) T) as Hw.
  set (w := u * dec_unit / T) in *.
  pose proof (N.Div0.mul_div_le (S * w) dec_unit) as Hx.
  set (x := S * w / dec_unit) in *.
  apply (N.mul_le_mono_pos_l _ _ dec_unit); [done|].
  transitivity (T * (S * w)); [rewrite N.mul_shuffle3; by apply N.mul_le_mono_l|].
  transitivity (S * (T * w)); [lia|].
  transitivity (S * (u * dec_unit)); [by apply N.mul_le_mono_l|lia].
Qed.

Lemma share_lower S u T :
  T ≠ 0 → S * (u * dec_unit) + T ≤ T * dec_unit * (S * (u * dec_unit / T) / dec_unit + 1) + S * T.
Proof.
  intros HT. pose proof (N.mul_succ_div_gt (u * dec_unit) T HT) as Hw.
  set (w := u * dec_unit / T) in *.
  pose proof (N.mul_succ_div_gt (S * w) dec_unit ltac:(done)) as Hx.
  set (x := S * w / dec_unit) in *.
  assert (S * (u * dec_unit) ≤ S * (T * N.succ w)) by (apply N.mul_le_mono_l; lia).
  assert (T * (S * w + 1) ≤ T * (dec_unit * N.succ x)) by (apply N.mul_le_mono_l; lia).
  rewrite !N.mul_succ_r, ?N.mul_add_distr_l in *. lia.
Qed.

(** The actual amount of one batch, when more or exactly as much as due arrived. *)
Lemma actual_surplus T A u a :
  T ≤ A → actual_unbonded_of_batch (slash_of T A) T u = Ok a →
  T ≠ 0 ∧ T * a ≤ T * u + (A - T) * u.
Proof.
  intros HA Hrun. unfold actual_unbonded_of_batch in Hrun.
  bind Hrun as w Hw. apply Decimal_from_ratio_ok in Hw as (HT & -> & _). split; [done|].
  bind Hrun as x Hx. apply Uint128_mul_Decimal_ok in Hx as [-> _]. simpl in Hrun.
  unfold slash_of in Hrun. destruct (N.leb_spec A T); simpl in Hrun.
  - assert (A = T) as -> by lia. rewrite N.sub_diag, N.mul_0_l, N.Div0.div_0_l in Hrun.
    simpl in Hrun. rewrite from_subtraction_eq, (proj2 (N.leb_le 0 u)) in Hrun by lia.
    simpl in Hrun. injection Hrun as <-. lia.
  - inv_cw. pose proof (share_upper (A - T) u T HT) as Hs.
    set (x := (A - T) * (u * dec_unit / T) / dec_unit) in *.
    rewrite N.mul_add_distr_l. apply N.add_le_mono_l. etransitivity; [|exact Hs].
    apply N.mul_le_mono_l. lia.
Qed.

(** The same when less arrived: the batch loses at least its share but for a
    rounding of less than one part in [dec_unit] of the loss. *)
Lemma actual_short T A u a :
  0 < A → A < T → 0 < u → actual_unbonded_of_batch (slash_of T A) T u = Ok a →
  ∃ x, a + x = u ∧ (T - A) * (u * dec_unit) + T ≤ T * dec_unit * x + (T - A) * T.
Proof.
  intros H0 HA Hu Hrun. unfold actual_unbonded_of_batch in Hrun.
  bind Hrun as w Hw. apply Decimal_from_ratio_ok in Hw as (HT & -> & _).
  bind Hrun as x Hx. apply Uint128_mul_Decimal_ok in Hx as [-> _]. simpl in Hrun.
  unfold slash_of in Hrun. rewrite (proj2 (N.leb_le A T)) in Hrun by lia. simpl in Hrun.
  rewrite (proj2 (N.eqb_neq (T - A) 0)) in Hrun by lia. simpl in Hrun.
  bind Hrun as x1 Hx1. apply Uint128_add_ok in Hx1 as [-> _].
  pose proof (share_upper (T - A) u T HT) as Hup.
  pose proof (share_lower (T - A) u T HT) as Hlow.
  set (x := (T - A) * (u * dec_unit / T) / dec_unit) in *.
  assert (x + 1 ≤ u) as Hxu.
  { enough (x < u) by lia. apply (N.mul_lt_mono_pos_l T); [lia|].
    eapply N.le_lt_trans; [exact Hup|]. apply N.mul_lt_mono_pos_r; lia. }
  rewrite from_subtraction_eq, (proj2 (N.leb_le (x + 1) u)) in Hrun by done.
  simpl in Hrun. injection Hrun as <-. exists (x + 1). split; [lia|done].
Qed.

(** Sums over the due batches. *)
Definition takes_actual (T A : N) (jh : N * UnbondHistory) (a : N) : Prop :=
  actual_unbonded_of_batch (slash_of T A) T (unbonded_of jh) = Ok a.

Lemma sum_surplus T A D acts :
  T ≤ A → Forall2 (takes_actual T A) D acts →
  T * sum_of (λ a, a) acts ≤ T * sum_of unbonded_of D + (A - T) * sum_of unbonded_of D.
Proof.
  intros HA. induction 1 as [|jh a D acts Ha _ IH]; simpl; [lia|].
  apply actual_surplus in Ha as [_ Ha]; [|done].
  generalize dependent (A - T). intros d Ha IH. rewrite !N.mul_add_distr_l. lia.
Qed.

Lemma sum_short T A D acts :
  0 < A → A < T → Forall (λ jh, 0 < unbonded_of jh) D → Forall2 (takes_actual T A) D acts →
  ∃ X, sum_of (λ a, a) acts + X = sum_of unbonded_of D ∧
    (T - A) * (sum_of unbonded_of D * dec_unit) + N.of_nat (length D) * T
    ≤ T * dec_unit * X + N.of_nat (length D) * ((T - A) * T).
Proof.
  intros H0 HA Hpos Hacts. induction Hacts as [|jh a D acts Ha _ IH].
  { exists 0. simpl. lia. }
  cbn [sum_of foldr length]. fold (sum_of unbonded_of D) (sum_of (λ a : N, a) acts).
  rewrite Nat2N.inj_succ, <- N.add_1_r.
  apply Forall_cons in Hpos as [Hu Hpos]. destruct (IH Hpos) as (X & HX & Hle).
  destruct (actual_short _ _ _ _ H0 HA Hu Ha) as (x & Hx & Hle').
  exists (X + x). split; [lia|].
  generalize dependent (T - A). intros d Hle Hle'.
  rewrite !N.mul_add_distr_r, !N.mul_add_distr_l. lia.
Qed.

Lemma actuals_covered A D acts :
  Forall2 (takes_actual (sum_of unbonded_of D) A) D acts → shares_fit D A →
  sum_of (λ a, a) acts ≤ A.
Proof.
  intros Hacts Hfit. set (T := sum_of unbonded_of D) in *.
  destruct (N.le_gt_cases T A) as [HTA|HTA].
  - pose proof (sum_surplus T A D acts HTA Hacts) as Hs. fold T in Hs.
    destruct D as [|jh D']; [inversion Hacts; simpl; lia|].
    assert (T ≠ 0) as HT.
    { inversion Hacts as [|? a ? ? Ha]. by apply actual_surplus in Ha as [? _]. }
    apply (N.mul_le_mono_pos_l _ _ T); [lia|]. etransitivity; [exact Hs|].
    rewrite (N.mul_comm (A - T)), <- N.mul_add_distr_l. apply N.mul_le_mono_l. lia.
  - destruct (Hfit HTA) as (H0 & Hpos & Hround).
    destruct (sum_short T A D acts H0 HTA Hpos Hacts) as (X & HX & Hle).
    fold T in HX, Hle. enough (T - A ≤ X) by lia.
    assert (0 < N.of_nat (length D)) as Hlen
      by (destruct D; [unfold T in HTA; simpl in HTA; lia|simpl; lia]).
    revert Hround Hle Hlen. generalize (N.of_nat (length D)). intros n Hround Hle Hn.
    assert ((T - A) * dec_unit + n ≤ dec_unit * X + n * (T - A)) as Hdiv.
    { apply (N.mul_le_mono_pos_l _ _ T); [lia|]. generalize dependent (T - A).
      intros d. intros. rewrite !N.mul_add_distr_l. lia. }
    apply N.lt_succ_r. apply (N.mul_lt_mono_pos_l dec_unit); [done|].
    rewrite N.mul_succ_r. lia.
Qed.
End arithmetic.

Section solvency.
  Context `{H : Host} {HS : HostSpec H} `{HK : HookSerde}.

(** All payouts of a batch together are at most its payout on their total. *)
Lemma wait_sum_payout s b r : wait_sum (payout r) s b ≤ payout r (wait_total s b).
Proof.
  unfold wait_total, wait_sum, payout. destruct (batch_key b) as [k|]; [|apply N.le_0_l].
  apply map_sum_floor.
Qed.

(** A batch released at [actual / h] pays at most [actual]. *)
Lemma payout_le_actual actual h r v :
  Decimal_from_ratio actual h = Ok r → v ≤ h → payout r v ≤ actual.
Proof.
  intros (Hh & -> & _)%Decimal_from_ratio_ok Hv. unfold payout. simpl.
  apply N.Div0.div_le_upper_bound. etransitivity; [by apply N.mul_le_mono_r|].
  rewrite (N.mul_comm dec_unit). apply N.Div0.mul_div_le.
Qed.

Lemma wait_sum_ext f s s' b : st_wait s' = st_wait s → wait_sum f s' b = wait_sum f s b.
Proof. unfold wait_sum. by intros ->. Qed.

Lemma batch_payouts_ext s s' b :
  hist s' b = hist s b → st_wait s' = st_wait s → batch_payouts s' b = batch_payouts s b.
Proof.
  unfold batch_payouts. intros -> Hw. destruct (hist s b); [|done]. by apply wait_sum_ext.
Qed.

Lemma outstanding_ledger s s' : ledger s' = ledger s → outstanding s' = outstanding s.
Proof.
  unfold ledger, outstanding. intros [= _ Hst Hw Hh].
  destruct (st_state s') as [st'|], (st_state s) as [st|]; simpl in Hst; [|done..].
  injection Hst as -> _ _.
  apply sum_of_ext. intros b _. apply batch_payouts_ext; [by apply hist_ext|done].
Qed.

(** The processed batches after [D] was released: the old ones and [D]. *)
Lemma upto_due s t st D :
  last_processed_batch st + 1 < u64_bound → Due s t (last_processed_batch st + 1) D →
  upto (last_processed_batch st + N.of_nat (length D)) ≡ₚ upto (last_processed_batch st) ++ D.*1.
Proof.
  intros Hb HD. pose proof (Due_ids _ _ _ _ HD) as Hids. apply NoDup_Permutation.
  - apply NoDup_upto.
  - apply NoDup_app. split; [apply NoDup_upto|]. split; [|by eapply Due_NoDup].
    intros i. rewrite elem_of_upto, Hids. lia.
  - intros i. rewrite elem_of_app, !elem_of_upto, Hids. lia.
Qed.

Lemma process_outstanding t bal s s' cb st D :
  hub_inv_at s cb st → process_withdraw_rate t bal s = Ok ((), s') →
  Due s t (last_processed_batch st + 1) D → shares_fit D (arrived st bal) →
  outstanding s' ≤ outstanding s + arrived st bal.
Proof.
  intros Hi Hrun HD Hfit.
  destruct (inv_process _ _ _ _ _ _ Hi Hrun) as (D' & rs & HD' & Hrs & (Hdom & Hin & Hout) & Hw & Hi').
  assert (D' = D) as -> by (eapply Due_unique; done).
  unfold outstanding. rewrite (inv_st _ _ _ Hi), (inv_st _ _ _ Hi'). simpl.
  assert (last_processed_batch st + 1 < u64_bound) as Hb
    by (pose proof (inv_processed _ _ _ Hi); pose proof (inv_bound _ _ _ Hi); lia).
  rewrite (sum_of_perm _ _ _ (upto_due s t st D Hb HD)), sum_of_app.
  apply N.add_le_mono.
  - apply N.eq_le_incl, sum_of_ext. intros b Hbin. apply elem_of_upto in Hbin.
    apply batch_payouts_ext; [|done]. apply Hout; [lia|].
    rewrite (Due_ids _ _ _ _ HD). lia.
  - rewrite sum_of_fmap.
    (* every due batch pays at most its actual amount *)
    assert (Forall (λ jh, ∃ a, takes_actual (sum_of unbonded_of D) (arrived st bal) jh a ∧
      batch_payouts s' jh.1 ≤ a) D) as Hall.
    { apply Forall_lookup. intros k [j h] Hk.
      destruct (Forall2_lookup_l _ _ _ _ _ Hrs Hk) as (r & Hr & a & Ha & Hrate).
      exists a. split; [done|]. unfold batch_payouts. simpl.
      rewrite (Hin k j h r Hk Hr). simpl.
      assert ((j, h) ∈ D) as Hjin by by eapply list_elem_of_lookup_2.
      destruct (Due_hist _ _ _ _ _ _ HD Hjin) as (Hh & _ & Hrel).
      assert (j < u64_bound) as Hjb.
      { assert (j ∈ D.*1) as Hj by (by apply list_elem_of_fmap; exists (j, h)).
        apply (Due_ids _ _ _ _ HD) in Hj. pose proof (Due_bound _ _ _ _ Hb HD). lia. }
      rewrite (wait_sum_ext _ s) by done. etransitivity; [apply wait_sum_payout|].
      eapply payout_le_actual; [exact Hrate|].
      rewrite (inv_wait_pending _ _ _ Hi j h) by done. done. }
    apply Forall_choice in Hall as [acts Hacts].
    transitivity (sum_of (λ a, a) acts).
    + apply sum_of_Forall2_le. eapply Forall2_impl; [exact Hacts|]. by intros ?? [_ ?].
    + apply (actuals_covered _ D); [|done]. eapply Forall2_impl; [exact Hacts|]. by intros ?? [? _].
Qed.

(** What [a] is paid for batch [b]. *)
Definition paid_for (s : HubStore) (a : string) (b : N) : N :=
  match hist s b with
  | Some h => payout (withdraw_rate h) (default 0 (wait_entry s a b))
  | None => 0
  end.

Lemma claims_payout_upto s cb st a l :
  hub_inv_at s cb st → claims s a l →
  claims_payout s l =
    sum_of (λ b, if decide (b ∈ (List.filter (claim_released s) l).*1) then paid_for s a b else 0)
      (upto (last_processed_batch st)).
Proof.
  intros Hi Hl. set (ids := (List.filter (claim_released s) l).*1).
  assert (NoDup ids) as Hnd.
  { eapply sublist_NoDup; [exact (claims_NoDup s a l Hl)|]. apply fmap_sublist.
    clear. induction l as [|x l IH]; simpl; [constructor|].
    destruct (claim_released s x); by constructor. }
  rewrite (sum_of_subset _ _ ids); [|apply NoDup_upto|done| |].
  - unfold claims_payout. 
    match goal with |- _ = sum_of ?f ids =>
      transitivity (sum_of f (List.filter (claim_released s) l).*1); [|done] end.
    rewrite sum_of_fmap. apply sum_of_ext.
    intros [b v] Hin. rewrite decide_True by (apply list_elem_of_fmap; by exists (b, v)).
    pose proof Hin as Hin2. apply list_elem_of_In, filter_In in Hin2 as [Hin2 Hr].
    apply list_elem_of_In in Hin2. apply (claims_elem _ _ _ _ _ Hl) in Hin2 as [_ He].
    unfold claim_payout, paid_for, claim_rate, claim_released, payout in *. simpl in *.
    destruct (hist s b) as [h|]; [|done]. by rewrite He.
  - intros b Hb. apply elem_of_upto.
    pose proof (claims_ids_bound s a l b Hl Hb) as Hbb.
    destruct (released_ids s l b Hb) as (h & Hh & Hr).
    rewrite (inv_released _ _ _ Hi b h) in Hr by done. apply bool_decide_eq_true in Hr.
    assert (is_Some (hist s b)) as Hs by by exists h.
    apply (inv_hist_dom _ _ _ Hi b) in Hs; [lia|done].
  - intros b _ Hb. by rewrite decide_False.
Qed.

Lemma remove_outstanding s cb st a l s' st' :
  hub_inv_at s cb st → claims s a l →
  remove_unbond_wait_list (List.filter (claim_released s) l).*1 a s = Ok ((), s') →
  last_processed_batch st' = last_processed_batch st →
  outstanding (HubState.set_state st' s') + claims_payout s l = outstanding s.
Proof.
  intros Hi Hl Hrm Hlp. rewrite (claims_payout_upto s cb st a l Hi Hl).
  set (ids := (List.filter (claim_released s) l).*1) in *.
  assert (Forall (λ b, b < u64_bound) ids) as Hb.
  { apply Forall_forall. intros b Hin. by apply (claims_ids_bound s a l). }
  destruct (remove_unbond_wait_list_spec _ _ _ _ Hb Hrm) as ([w ->] & Ht & _ & _).
  unfold outstanding. rewrite (inv_st _ _ _ Hi). simpl. rewrite Hlp, <- sum_of_add.
  apply sum_of_ext. intros b Hbin. apply elem_of_upto in Hbin.
  assert (b < u64_bound) as Hbb
    by (pose proof (inv_processed _ _ _ Hi); pose proof (inv_bound _ _ _ Hi); lia).
  unfold batch_payouts, paid_for. change (hist (HubState.set_state st' (set_wait w s)) b) with (hist s b).
  destruct (hist s b) as [h|]; [|by destruct (decide _)].
  apply (Ht (payout (withdraw_rate h)) b (payout_zero _) Hbb).
Qed.

(** The coins that count as arrived when the hub's balance has not shrunk. *)
Lemma arrived_grown cb st s bal :
  hub_inv_at s cb st → prev_hub_balance st ≤ bal → arrived st bal = bal - prev_hub_balance st.
Proof.
  intros Hi Hle. unfold arrived. rewrite (inv_no_arrears _ _ _ Hi).
  by rewrite (proj2 (N.leb_le _ _)).
Qed.

(** A store that can pay: what it owes was in the hub after the last payment. *)
Definition solvent (s : HubStore) : Prop :=
  ∃ st, st_state s = Some st ∧ outstanding s ≤ prev_hub_balance st.

(** The due batches of a withdrawal, and what it may assume of the chain: the
    hub's coins have not been taken away, and the slashing shares fit. *)
Definition fair_balance (s : HubStore) (t bal : N) : Prop :=
  ∃ st D, st_state s = Some st ∧ Due s t (last_processed_batch st + 1) D ∧
    prev_hub_balance st ≤ bal ∧ shares_fit D (bal - prev_hub_balance st).

Lemma process_solvent t bal s s' :
  hub_inv s → solvent s → fair_balance s t bal →
  process_withdraw_rate t bal s = Ok ((), s') → outstanding s' ≤ bal.
Proof.
  intros (cb & st & Hi) (st1 & Hst1 & Hsolv) (st2 & D & Hst2 & HD & Hle & Hfit) Hrun.
  pose proof (inv_st _ _ _ Hi) as Hst. assert (st1 = st) as -> by congruence.
  assert (st2 = st) as -> by congruence.
  rewrite <- (arrived_grown cb st s bal Hi Hle) in Hfit.
  pose proof (process_outstanding _ _ _ _ _ _ _ Hi Hrun HD Hfit) as Hout.
  rewrite (arrived_grown cb st s bal Hi Hle) in Hout. lia.
Qed.

(** One user's claims are part of what is owed. *)
Lemma claims_payout_le s a l : hub_inv s → claims s a l → claims_payout s l ≤ outstanding s.
Proof.
  intros (cb & st & Hi) Hl. rewrite (claims_payout_upto s cb st a l Hi Hl).
  unfold outstanding. rewrite (inv_st _ _ _ Hi). apply sum_of_le. intros b _.
  case_decide; [|lia]. unfold paid_for, batch_payouts, wait_entry, wait_sum.
  destruct (hist s b) as [h|]; [|done]. set (f := payout (withdraw_rate h)).
  assert (f 0 = 0) as Hf by apply payout_zero.
  destruct (batch_key b) as [k|]; simpl; [|rewrite Hf; apply N.le_0_l].
  unfold user_bucket. destruct (addr_key a) as [ka|]; 
    [|rewrite lookup_empty; simpl; rewrite Hf; apply N.le_0_l].
  unfold wait_bucket. destruct (st_wait s !! ka) as [m|] eqn:Hm; simpl.
  - apply (map_sum_lookup_le (λ m, f (bucket_amount k m)) _ _ _ Hm).
  - rewrite lookup_empty. simpl. rewrite Hf. apply N.le_0_l.
Qed.

(** ** Along a run *)

Definition fair_call (q : Querier) (env : Env) (msg : ExecuteMsg) (s : HubStore) : Prop :=
  msg = WithdrawUnbonded → ∀ params bal, st_parameters s = Some params →
    query_balance q (contract_address env) (underlying_coin_denom params) = Ok bal →
    fair_balance s (block_time env - unbonding_period params) (amount bal).

Inductive fair_reachable : HubStore → Prop :=
  | fair_init env info msg r s :
      instantiate env info msg empty_store = Ok (r, s) → fair_reachable s
  | fair_execute q env info msg r s s' :
      fair_reachable s → fair_call q env msg s →
      execute q env info msg s = Ok (r, s') → fair_reachable s'
  | fair_migrate msg r s s' :
      fair_reachable s → migrate msg s = Ok (r, s') → fair_reachable s'.

Lemma fair_reachable_reachable s : fair_reachable s → reachable s.
Proof.
  induction 1; [by eapply reach_init|eapply reach_step; [done|]..].
  - by eapply step_execute.
  - by eapply step_migrate.
Qed.

Lemma ledger_solvent {A} (m : cm HubStore A) s a s' :
  keeps (preserves ledger) m → m s = Ok (a, s') → hub_inv s → solvent s → solvent s'.
Proof.
  intros Hm Hrun (cb & st0 & Hi) (st & Hst & Hle). pose proof (Hm _ _ _ Hrun) as Hl.
  destruct (hub_inv_ledger s s' cb st0 Hl Hi) as (st' & Hi' & Hls).
  pose proof (inv_st _ _ _ Hi). assert (st0 = st) as -> by congruence.
  exists st'. split; [apply (inv_st _ _ _ Hi')|].
  rewrite (outstanding_ledger s s') by done. unfold ledger_state in Hls. congruence.
Qed.

Lemma outstanding_request s cb st u owed s' st' cb' :
  hub_inv_at s cb st → store_unbond_wait_list (cb_id cb) u owed s = Ok ((), s') →
  last_processed_batch st' = last_processed_batch st →
  outstanding (HubState.set_state st' (set_current_batch cb' s')) = outstanding s.
Proof.
  intros Hi Hw Hlp. pose proof (inv_bound _ _ _ Hi) as Hb. pose proof (inv_processed _ _ _ Hi).
  destruct (store_unbond_wait_list_spec _ _ _ _ _ Hb Hw) as ([w ->] & Ht & _ & _).
  unfold outstanding. rewrite (inv_st _ _ _ Hi). simpl. rewrite Hlp.
  apply sum_of_ext. intros b Hbin. apply elem_of_upto in Hbin. unfold batch_payouts.
  change (hist (HubState.set_state st' (set_current_batch cb' (set_wait w s))) b) with (hist s b).
  destruct (hist s b) as [h|]; [|done].
  specialize (Ht (payout (withdraw_rate h)) b (payout_zero _)).
  rewrite !decide_False in Ht by lia. specialize (Ht ltac:(lia)).
  change (wait_sum (payout (withdraw_rate h)) (set_wait w s) b =
    wait_sum (payout (withdraw_rate h)) s b). lia.
Qed.

Lemma outstanding_close s cb st env st' cb' :
  hub_inv_at s cb st → last_processed_batch st' = last_processed_batch st →
  outstanding (HubState.set_state st' (set_current_batch cb'
    (with_history cb (closed_history env cb st) s))) = outstanding s.
Proof.
  intros Hi Hlp. pose proof (inv_bound _ _ _ Hi) as Hb. pose proof (inv_processed _ _ _ Hi).
  unfold outstanding. rewrite (inv_st _ _ _ Hi). simpl. rewrite Hlp.
  apply sum_of_ext. intros b Hbin. apply elem_of_upto in Hbin.
  apply batch_payouts_ext; [|done].
  etransitivity; [apply (hist_set_history_insert s (cb_id cb)); lia|].
  by rewrite decide_False by lia.
Qed.

Lemma unbond_solvent q env a u s r s' :
  hub_inv s → solvent s → execute_unbond q env a u s = Ok (r, s') → solvent s'.
Proof.
  intros (cb & st & Hi) Hsolv Hrun. apply execute_unbond_spec in Hrun
    as (params & cb' & s1 & st1 & supply & owed & s2 & msgs & c & raw & token &
        _ & Hcb & Hsl & Hst1 & _ & _ & _ & Hw & [_ Hend] & _).
  rewrite (inv_cb _ _ _ Hi) in Hcb. injection Hcb as <-.
  pose proof (slashing_ledger q env _ _ _ Hsl) as Hleg.
  destruct (hub_inv_ledger _ _ _ _ Hleg Hi) as (st1' & Hi1 & Hl1).
  assert (st1' = st1) as -> by (pose proof (inv_st _ _ _ Hi1); congruence).
  destruct Hsolv as (st0 & Hst0 & Hle).
  assert (st0 = st) as -> by (pose proof (inv_st _ _ _ Hi); congruence).
  rewrite <- (outstanding_ledger s s1 Hleg) in Hle.
  injection Hl1 as _ Hprev _. rewrite <- Hprev in Hle.
  set (cb' := mkCurrentBatch _ _) in *. set (st2 := burned_state _ _ _) in *.
  pose proof (inv_request s1 cb st1 u owed s2 st2 Hi1 Hw eq_refl) as Hi2. fold cb' in Hi2.
  pose proof (outstanding_request s1 cb st1 u owed s2 st2 cb' Hi1 Hw eq_refl) as Ho.
  destruct (_ <? _).
  - destruct Hend as (_ & _ & Hb & _ & ->). eexists. split; [done|].
    pose proof (outstanding_close _ _ _ env (closed_state env cb' st2)
      (mkCurrentBatch (cb_id cb' + 1) 0) Hi2 eq_refl) as Hc.
    change (with_history cb' (closed_history env cb' st2)
      (HubState.set_state st2 (set_current_batch cb' s2))) with
      (HubState.set_state st2 (set_current_batch cb'
        (with_history cb' (closed_history env cb' st2) s2))) in Hc.
    change (outstanding (HubState.set_state (closed_state env cb' st2)
      (set_current_batch (mkCurrentBatch (cb_id cb' + 1) 0)
        (with_history cb' (closed_history env cb' st2) s2))) ≤ prev_hub_balance st1).
    etransitivity; [apply N.eq_le_incl; exact Hc|]. by rewrite Ho.
  - destruct Hend as [_ ->]. exists st2. split; [done|]. by rewrite Ho.
Qed.

Lemma withdraw_solvent q env info s r s' :
  hub_inv s → solvent s → fair_call q env WithdrawUnbonded s →
  execute_withdraw_unbonded q env info s = Ok (r, s') → solvent s'.
Proof.
  intros Hinv Hsolv Hfair Hrun. apply execute_withdraw_spec in Hrun
    as (params & bal & s1 & ids & paid & s2 & st1 & Hp & _ & Hbal & Hproc & Hpaid & _ & Hle &
        Hids & Hrm & Hst1 & -> & _).
  pose proof (process_solvent _ _ _ _ Hinv Hsolv (Hfair eq_refl _ _ Hp Hbal) Hproc) as Hout.
  destruct Hinv as (cb & st & Hi).
  destruct (inv_process _ _ _ _ _ _ Hi Hproc) as (D & rs & _ & _ & _ & _ & Hi1).
  pose proof (inv_st _ _ _ Hi1) as Hst1'. rewrite Hst1 in Hst1'. injection Hst1' as ->.
  destruct (claims_exist s1 (sender info) (inv_wait_keys _ _ _ Hi1)) as [l Hl].
  rewrite (get_unbond_batches_claims _ _ _ Hl) in Hids. injection Hids as <-.
  apply (get_finished_amount_claims _ _ _ _ Hl) in Hpaid.
  eexists. split; [done|]. simpl.
  pose proof (remove_outstanding _ _ _ _ _ _ (set_prev_hub_balance (amount bal - paid)
    (processed_state st (last_processed_batch st + N.of_nat (length D)))) Hi1 Hl Hrm eq_refl) as Hrem.
  rewrite <- Hrem in Hout. lia.
Qed.

Lemma fair_solvent s : fair_reachable s → solvent s.
Proof.
  induction 1 as [env info msg r s Hinit|q env info msg r s s' Hf IH Hfair Hrun
                 |msg r s s' Hf IH Hrun].
  - apply instantiate_spec in Hinit as (pay & raw & _ & _ & -> & _). eexists. split; [done|].
    unfold outstanding. simpl. lia.
  - pose proof (reachable_inv s (fair_reachable_reachable s Hf)) as Hi.
    destruct msg; simpl in Hrun;
      try solve [eapply ledger_solvent; [|exact Hrun|exact Hi|exact IH]; solve_keeps].
    + bind Hrun as u Hu. by eapply withdraw_solvent.
    + bind Hrun as u Hu. unfold receive_cw20 in Hrun. bind Hrun as hook Hhook. destruct hook.
      bind Hrun as conf Hconf. bind Hrun as raw Hraw. bind Hrun as token Htoken.
      bind Hrun as u' Hu'. by eapply unbond_solvent.
  - pose proof (reachable_inv s (fair_reachable_reachable s Hf)) as Hi.
    eapply ledger_solvent; [apply migrate_ledger|exact Hrun|exact Hi|exact IH].
Qed.
End solvency.
