(* ===== verification/Chain.v ===== *)
(** * The hub on a chain: its coins and its stake

    The handlers return messages; the chain carries them out.  This file composes
    the hub with the two modules of the chain that hold its money: the bank (the
    coins the hub has) and staking (what it has delegated).  Other contracts, users
    and the token are the environment: they call the hub with any message and any
    funds, and send it coins at any time. *)
From S2P Require Import Prelude Bytes Cosmwasm Protocol SignedInteger HubState HubStateFacts.
From S2P Require Import HubMath HubCore HubConfig HubBond HubUnbond HubWithdraw.
From S2P Require Import HubAutoCompound HubContract HubCoreFacts HubBondFacts HubUnbondFacts.
From S2P Require Import HubAdminFacts HubWithdrawFacts HubInvariant HubPayments Book.
From S2P Require Import HubSolvency.

(** ** Coins in messages *)
Definition received (d : string) (coins : list Coin) : N :=
  sum_of (λ c, if String.eqb (denom c) d then amount c else 0) coins.

(** What carrying out a message takes from the hub's coins. *)
Definition leaves (d : string) (m : CosmosMsg WasmBody) : N :=
  match m with
  | StakingDelegate _ c => received d [c]
  | BankSend _ coins | WasmExecute _ _ coins => received d coins
  | _ => 0
  end.
(** What it adds to the hub's stake, and what it takes off. *)
Definition stakes (d : string) (m : CosmosMsg WasmBody) : N :=
  match m with StakingDelegate _ c => received d [c] | _ => 0 end.
Definition unstakes (d : string) (m : CosmosMsg WasmBody) : N :=
  match m with StakingUndelegate _ c => received d [c] | _ => 0 end.
Definition total (f : CosmosMsg WasmBody → N) (r : Response WasmBody) : N := sum_of f (messages r).

Section chain.
  Context `{H : Host} `{HK : HookSerde}.

(** The hub's store, its coins and its stake in the coin it works with. *)
Record Chain := mkChain { ch_store : HubStore; ch_coins : N; ch_staked : N }.

Definition coin_of (s : HubStore) : string :=
  from_option underlying_coin_denom EmptyString (st_parameters s).

(** What the bank and staking answer while a message with [funds] runs: the funds
    have been credited before. *)
Record answers (hub : Addr) (c : Chain) (funds : list Coin) (q : Querier) : Prop := {
  an_balance :
    let d := coin_of (ch_store c) in
    query_balance q hub d = Ok (mkCoin d (ch_coins c + received d funds));
  an_stake ds :
    query_all_delegations q hub = Ok ds → stake_in (coin_of (ch_store c)) ds = ch_staked c;
}.

(** The chain after the response's messages; a message that takes more than there
    is aborts the whole transaction.  Coins the hub sends to itself leave here and
    come back as an arrival. *)
Definition settle (d : string) (got : N) (r : Response WasmBody) (s' : HubStore) (c : Chain)
    : option Chain :=
  let coins := ch_coins c + got in
  let staked := ch_staked c + total (stakes d) r in
  if (total (leaves d) r <=? coins) && (total (unstakes d) r <=? staked)
  then Some (mkChain s' (coins - total (leaves d) r) (staked - total (unstakes d) r))
  else None.

(** The runs of a chain on which the hub at address [hub] is deployed; [allowed]
    restricts the calls, [loss] adds up what validators lost by slashing. *)
Inductive chain_run (allowed : Querier → Env → ExecuteMsg → HubStore → Prop) (hub : Addr)
    : N → Chain → Prop :=
  | chain_init env info msg r s c' :
      contract_address env = hub → instantiate env info msg empty_store = Ok (r, s) →
      settle (coin_of s) (received (coin_of s) (funds info)) r s (mkChain s 0 0) = Some c' →
      chain_run allowed hub 0 c'
  | chain_execute loss c q env info msg r s' c' :
      chain_run allowed hub loss c → contract_address env = hub →
      answers hub c (funds info) q → allowed q env msg (ch_store c) →
      execute q env info msg (ch_store c) = Ok (r, s') →
      settle (coin_of (ch_store c)) (received (coin_of (ch_store c)) (funds info)) r s' c
        = Some c' →
      chain_run allowed hub loss c'
  | chain_migrate loss c msg r s' :
      chain_run allowed hub loss c → migrate msg (ch_store c) = Ok (r, s') →
      chain_run allowed hub loss (mkChain s' (ch_coins c) (ch_staked c))
  (** coins arrive: undelegated ones, or anything sent to the hub *)
  | chain_arrive loss c n :
      chain_run allowed hub loss c →
      chain_run allowed hub loss (mkChain (ch_store c) (ch_coins c + n) (ch_staked c))
  (** a validator is slashed *)
  | chain_slash loss c n :
      chain_run allowed hub loss c → n ≤ ch_staked c →
      chain_run allowed hub (loss + n) (mkChain (ch_store c) (ch_coins c) (ch_staked c - n)).

Definition any_call (q : Querier) (env : Env) (msg : ExecuteMsg) (s : HubStore) : Prop := True.
End chain.

Lemma received_cons d c coins :
  received d (c :: coins) = received d [c] + received d coins.
Proof. unfold received. simpl. lia. Qed.
Lemma received_app d l k : received d (l ++ k) = received d l + received d k.
Proof. apply sum_of_app. Qed.
Lemma received_one d n : received d [mkCoin d n] = n.
Proof. unfold received. simpl. rewrite String.eqb_refl. lia. Qed.
Lemma received_payment d coins c : find_payment d coins = Some c → amount c ≤ received d coins.
Proof.
  intros [Hin [Hd _]%andb_prop]%find_some.
  pose proof (sum_of_elem (λ c, if String.eqb (denom c) d then amount c else 0) coins c
    ltac:(by apply list_elem_of_In)) as Hle. simpl in Hle. by rewrite Hd in Hle.
Qed.
Lemma received_found d coins c : find_payment d coins = Some c → received d [c] = amount c.
Proof.
  intros [_ [Hd _]%andb_prop]%find_some. unfold received. simpl. rewrite Hd. lia.
Qed.

Lemma settle_some d got r s' c c' :
  settle d got r s' c = Some c' →
  total (leaves d) r ≤ ch_coins c + got ∧ total (unstakes d) r ≤ ch_staked c + total (stakes d) r ∧
  c' = mkChain s' (ch_coins c + got - total (leaves d) r)
         (ch_staked c + total (stakes d) r - total (unstakes d) r).
Proof.
  unfold settle. destruct (N.leb_spec (total (leaves d) r) (ch_coins c + got)); simpl; [|done].
  destruct (N.leb_spec (total (unstakes d) r) (ch_staked c + total (stakes d) r)); [|done].
  by intros [= <-].
Qed.
