(* ===== verification/ChainFacts.v ===== *)
(** * Invariants of the hub on a chain

    [bank_effect]: only a withdrawal spends coins that the hub had before.
    [stake_effect]: the recorded bond follows the stake. *)
From S2P Require Import Prelude Bytes Cosmwasm Protocol SignedInteger HubState HubStateFacts.
From S2P Require Import HubMath HubCore HubConfig HubBond HubUnbond HubWithdraw.
From S2P Require Import HubAutoCompound HubContract HubCoreFacts HubBondFacts HubUnbondFacts.
From S2P Require Import HubAdminFacts HubWithdrawFacts HubInvariant HubPayments Book.
From S2P Require Import HubSolvency.
From S2P Require Import Chain.

(** ** Messages that move no coins and no tokens *)
Definition idle (m : CosmosMsg WasmBody) : Prop :=
  match m with
  | StakingDelegate _ _ | StakingUndelegate _ _ | WasmExecute _ (ToToken _) _ => False
  | BankSend _ coins | WasmExecute _ _ coins => coins = []
  | _ => True
  end.

Lemma idle_total d r :
  Forall idle (messages r) →
  total (leaves d) r = 0 ∧ total (stakes d) r = 0 ∧ total (unstakes d) r = 0.
Proof.
  unfold total. rewrite Forall_forall. intros Hidle.
  repeat split; apply sum_of_zero; intros m Hm; specialize (Hidle m Hm);
    destruct m as [| | |? []|? []| |]; simpl in *; subst; done.
Qed.

Ltac solve_idle := solve_returns ltac:(by repeat constructor).

(** The recorded bond. *)
Definition bond_of (s : HubStore) : option N := total_bond_amount <$> st_state s.

Section effects.
  Context `{H : Host} {HS : HostSpec H} `{HK : HookSerde}.

Lemma update_global_idle q env : returns (Forall idle ∘ messages) (execute_update_global q env).
Proof.
  intros s r s' (ds & contract & Hmsg & _)%update_global_messages. simpl. rewrite Hmsg.
  apply Forall_app. split; [|by repeat constructor]. apply Forall_fmap, Forall_forall. by intros.
Qed.
Lemma deregister_idle q env info v :
  returns (Forall idle ∘ messages) (execute_deregister_validator q env info v).
Proof.
  intros s r s' [Hmsg|(d & repl & _ & Hmsg)]%deregister_messages; simpl; rewrite Hmsg;
    [by apply Forall_nil|by repeat constructor].
Qed.

(** The four handlers that move coins; all others are idle and keep the bond. *)
Definition moves_coins (msg : ExecuteMsg) : bool :=
  match msg with Bond _ | Receive _ | WithdrawUnbonded | UpdateExchangeRate => true | _ => false end.

Lemma idle_execute q env info msg s r s' :
  moves_coins msg = false → execute q env info msg s = Ok (r, s') → Forall idle (messages r).
Proof.
  intros Hm Hrun. assert (returns (Forall idle ∘ messages) (execute q env info msg)) as Hidle;
    [|exact (Hidle _ _ _ Hrun)].
  destruct msg; simpl in Hm; try discriminate Hm; simpl.
  - solve_idle.
  - solve_idle.
  - unfold execute_update_config. solve_idle.
  - unfold execute_update_admin. solve_idle.
  - unfold execute_register_validator. solve_idle.
  - apply returns_bind. intros ?. apply deregister_idle.
  - unfold execute_update_params. solve_idle.
  - apply returns_bind. intros ?. apply update_global_idle.
  - unfold execute_slashing. solve_idle.
Qed.

(** ** The bank *)
Lemma coin_of_params s params : st_parameters s = Some params → coin_of s = underlying_coin_denom params.
Proof. unfold coin_of. by intros ->. Qed.

Lemma undelegations_total d takes :
  sum_of (leaves d) (undelegations d takes) = 0 ∧ sum_of (stakes d) (undelegations d takes) = 0 ∧
  sum_of (unstakes d) (undelegations d takes) = sum_of snd takes.
Proof.
  induction takes as [|[dl n] takes (IH1 & IH2 & IH3)]; [done|].
  rewrite undelegations_cons, !sum_of_app, IH1, IH2, IH3.
  change (sum_of snd ((dl, n) :: takes)) with (n + sum_of snd takes).
  destruct (N.ltb_spec 0 n); cbn [sum_of foldr leaves stakes unstakes snd fst]; rewrite ?received_one; lia.
Qed.

(** The prev balance of a store, zero before there is a state. *)
Definition prev_of (s : HubStore) : N := from_option prev_hub_balance 0 (st_state s).
Lemma prev_of_ledger s s' : ledger s' = ledger s → prev_of s' = prev_of s.
Proof.
  unfold ledger, prev_of, ledger_state. intros [= _ Hst _ _].
  destruct (st_state s'), (st_state s); simpl in *; congruence.
Qed.

Lemma bond_settles q env info v s r s' :
  execute_bond q env info v s = Ok (r, s') →
  let d := coin_of s in
  total (leaves d) r = received d (funds info) ∧ total (unstakes d) r = 0 ∧
  ∃ s1 bond, slashing q env s = Ok ((), s1) ∧ bond_of s1 = Some bond ∧
    bond_of s' = Some (bond + total (stakes d) r).
Proof.
  intros Hrun. apply execute_bond_spec in Hrun
    as (params & ? & pay & s1 & st & ? & ? & ? & ? & ? & ? & _ & Hp & _ & Hf & Hd & _ & Hsl & Hst &
        _ & _ & _ & -> & _ & _ & _ & Hmsg).
  cbv zeta. rewrite (coin_of_params _ _ Hp). unfold total. rewrite Hmsg, Hf, <- Hd.
  destruct pay as [d n]. cbn [sum_of foldr leaves stakes unstakes denom].
  change (received d []) with 0. rewrite !received_one. split; [lia|]. split; [done|]. exists s1, (total_bond_amount st). unfold bond_of. rewrite Hst.
  do 2 (split; [done|]). simpl. f_equal. lia.
Qed.

(** Compounding spends the payment: the fee is sent, the rest delegated. *)
Lemma compound_totals d coll fee pay staked ds r :
  fee ≤ amount pay → messages r = fee_msgs d coll fee ++ staked →
  (if amount pay - fee =? 0 then staked = []
   else ∃ dl, dl ∈ (ds : list Delegation) ∧
     staked = [StakingDelegate (validator dl) (mkCoin d (amount pay - fee))]) →
  total (leaves d) r = amount pay ∧ total (stakes d) r = amount pay - fee ∧
  total (unstakes d) r = 0.
Proof.
  intros Hle Hmsg Hstaked.
  assert (sum_of (leaves d) (fee_msgs d coll fee) = fee ∧ sum_of (stakes d) (fee_msgs d coll fee) = 0 ∧
    sum_of (unstakes d) (fee_msgs d coll fee) = 0) as (H1 & H2 & H3).
  { unfold fee_msgs. destruct (N.eqb_spec fee 0);
      cbn [sum_of foldr leaves stakes unstakes]; rewrite ?received_one; lia. }
  assert (sum_of (leaves d) staked = amount pay - fee ∧ sum_of (stakes d) staked = amount pay - fee ∧
    sum_of (unstakes d) staked = 0) as (H4 & H5 & H6).
  { destruct (N.eqb_spec (amount pay - fee) 0) as [->|]; [by subst staked|].
    destruct Hstaked as (dl & _ & ->).
    cbn [sum_of foldr leaves stakes unstakes]. rewrite !received_one. lia. }
  unfold total. rewrite Hmsg, !sum_of_app, H1, H2, H3, H4, H5, H6. lia.
Qed.

Lemma compound_settles q env info s r s' :
  execute_update_exchange_rate q env info s = Ok (r, s') →
  let d := coin_of s in
  total (leaves d) r ≤ received d (funds info) ∧ total (unstakes d) r = 0 ∧
  ∃ bond, bond_of s = Some bond ∧ bond_of s' = Some (bond + total (stakes d) r).
Proof.
  intros Hrun. apply execute_update_exchange_rate_spec in Hrun
    as (st & ? & ? & params & pay & ? & ? & ds & coll & Hst & _ & _ & _ & Hp & _ & Hpay & _ & _ & _ &
        Hle & -> & _ & staked & Hmsg & Hstaked).
  cbv zeta. rewrite (coin_of_params _ _ Hp).
  destruct (compound_totals _ _ _ pay staked ds r Hle Hmsg Hstaked) as (-> & -> & ->).
  split; [exact (received_payment _ _ _ Hpay)|]. split; [done|].
  exists (total_bond_amount st). unfold bond_of. by rewrite Hst.
Qed.

Lemma withdraw_settles q env info s r s' :
  execute_withdraw_unbonded q env info s = Ok (r, s') →
  let d := coin_of s in
  total (stakes d) r = 0 ∧ total (unstakes d) r = 0 ∧
  ∃ bal, query_balance q (contract_address env) d = Ok bal ∧ total (leaves d) r ≤ amount bal ∧
    prev_of s' = amount bal - total (leaves d) r.
Proof.
  intros Hrun. apply execute_withdraw_spec in Hrun
    as (params & bal & ? & ? & paid & ? & st & Hp & _ & Hbal & _ & _ & _ & Hle & _ & _ & _ & -> & Hmsg).
  cbv zeta. rewrite (coin_of_params _ _ Hp). unfold total. rewrite Hmsg.
  cbn [sum_of foldr stakes unstakes leaves]. rewrite received_one.
  do 2 (split; [done|]). exists bal. by rewrite !N.add_0_r.
Qed.

Lemma unbond_settles q env n u s r s' :
  execute_unbond q env n u s = Ok (r, s') →
  let d := coin_of s in
  total (leaves d) r = 0 ∧ total (stakes d) r = 0 ∧
  ∃ s1 bond, slashing q env s = Ok ((), s1) ∧ bond_of s1 = Some bond ∧
    total (unstakes d) r ≤ bond ∧ bond_of s' = Some (bond - total (unstakes d) r).
Proof.
  intros Hrun. apply execute_unbond_spec in Hrun
    as (params & cb & s1 & st & supply & owed & s2 & msgs & c & raw & token &
        Hp & _ & Hsl & Hst & _ & _ & _ & Hw & [_ Hend] & _ & _ & _ & Hmsg).
  cbv zeta. rewrite (coin_of_params _ _ Hp). set (d := underlying_coin_denom params) in *.
  assert (st_parameters s2 = Some params) as Hp2.
  { pose proof (slashing_settings q env _ _ _ Hsl) as Hset. injection Hset as _ _ _ Hpar _.
    unfold store_unbond_wait_list in Hw. bind Hw as k1 Hk1. bind Hw as k2 Hk2. inv_cw. congruence. }
  unfold total. rewrite Hmsg, !sum_of_app. unfold bond_of. cbn [sum_of foldr leaves stakes unstakes].
  destruct (_ <? _).
  - destruct Hend as (_ & Hle & _ & Hpick & ->).
    apply pick_validator_spec in Hpick as (params' & ds & takes & Hp' & _ & -> & _ & _ & Hsum).
    assert (params' = params) as -> by congruence. fold d.
    destruct (undelegations_total d takes) as (-> & -> & ->). rewrite Hsum.
    do 2 (split; [done|]). exists s1, (total_bond_amount st). rewrite Hst.
    do 2 (split; [done|]). simpl in *. split; [lia|]. by rewrite !N.add_0_r.
  - destruct Hend as [-> ->]. do 2 (split; [done|]). exists s1, (total_bond_amount st).
    rewrite Hst. do 2 (split; [done|]). split; [apply N.le_0_l|]. simpl. by rewrite N.sub_0_r.
Qed.

Lemma unbond_prev q env n u s r s' :
  execute_unbond q env n u s = Ok (r, s') → prev_of s' = prev_of s.
Proof.
  intros Hrun. apply execute_unbond_spec in Hrun
    as (? & ? & s1 & st & ? & ? & s2 & ? & ? & ? & ? & _ & _ & Hsl & Hst & _ & _ & _ & _ & [_ Hend] & _).
  rewrite <- (prev_of_ledger s s1) by exact (slashing_ledger q env _ _ _ Hsl).
  unfold prev_of at 2. rewrite Hst.
  destruct (_ <? _); [destruct Hend as (_ & _ & _ & _ & ->)|destruct Hend as [_ ->]]; done.
Qed.

Lemma idle_ledger q env info msg s r s' :
  moves_coins msg = false → execute q env info msg s = Ok (r, s') → ledger s' = ledger s.
Proof.
  intros Hm Hrun. assert (keeps (preserves ledger) (execute q env info msg)) as Hk;
    [|exact (Hk _ _ _ Hrun)].
  destruct msg; try discriminate Hm; simpl; solve_keeps.
Qed.

(** Of the coins that a message spends, only a withdrawal takes from those that
    were there before, and it records what it leaves. *)
Lemma bank_effect q env info msg s r s' coins :
  hub_inv s → execute q env info msg s = Ok (r, s') →
  let d := coin_of s in
  query_balance q (contract_address env) d = Ok (mkCoin d (coins + received d (funds info))) →
  total (leaves d) r ≤ coins + received d (funds info) →
  prev_of s ≤ coins → prev_of s' ≤ coins + received d (funds info) - total (leaves d) r.
Proof.
  intros Hinv Hrun. cbv zeta. intros Hbal Hle Hprev.
  destruct (moves_coins msg) eqn:Hm.
  - destruct msg; try discriminate Hm; simpl in Hrun; bind Hrun as u Hu.
    + rewrite (prev_of_ledger s s') by by apply (update_exchange_rate_ledger q env info) in Hrun.
      apply compound_settles in Hrun as (Hl & _). lia.
    + rewrite (prev_of_ledger s s') by by apply (execute_bond_ledger q env info validator) in Hrun.
      apply bond_settles in Hrun as (Hl & _). lia.
    + apply withdraw_settles in Hrun as (_ & _ & bal & Hbal' & _ & ->).
      rewrite Hbal in Hbal'. injection Hbal' as <-. done.
    + unfold receive_cw20 in Hrun. bind Hrun as hook Hhook. destruct hook.
      bind Hrun as conf Hconf. bind Hrun as raw Hraw. bind Hrun as token Htoken.
      bind Hrun as u' Hu'. rewrite (unbond_prev q env _ _ s r s') by done.
      apply unbond_settles in Hrun as (Hl & _). lia.
  - destruct (idle_total (coin_of s) r (idle_execute _ _ _ _ _ _ _ Hm Hrun)) as (-> & _ & _).
    rewrite (prev_of_ledger s s'); [lia|].
    eapply idle_ledger; done.
Qed.

(** ** Staking *)
Lemma slashing_tracks q env s s1 staked bond :
  slashing q env s = Ok ((), s1) →
  (∀ ds, query_all_delegations q (contract_address env) = Ok ds → stake_in (coin_of s) ds = staked) →
  bond_of s = Some bond → staked ≤ bond →
  ∃ bond1, bond_of s1 = Some bond1 ∧ staked ≤ bond1 ≤ bond.
Proof.
  intros Hsl Hds Hb Hle. apply slashing_spec in Hsl as (params & st & ds & Hp & Hst & Hq & Hcase).
  specialize (Hds ds Hq). rewrite (coin_of_params _ _ Hp) in Hds.
  unfold bond_of in Hb. rewrite Hst in Hb. injection Hb as <-.
  destruct Hcase as [[_ ->]|(_ & ti & cb & _ & _ & ->)]; unfold bond_of.
  - exists (total_bond_amount st). by rewrite Hst.
  - eexists. split; [done|]. unfold slashed_state. rewrite Hds.
    destruct (N.ltb_spec staked (total_bond_amount st)); simpl; lia.
Qed.

Lemma withdraw_bond q env info s r s' :
  execute_withdraw_unbonded q env info s = Ok (r, s') → bond_of s' = bond_of s.
Proof.
  intros Hrun. apply execute_withdraw_spec in Hrun
    as (? & ? & s1 & ? & ? & ? & st1 & _ & _ & _ & Hproc & _ & _ & _ & _ & _ & Hst1 & -> & _).
  apply process_withdraw_rate_spec in Hproc as (st & D & rs & s2 & Hst & _ & _ & _ & _ & ->).
  simpl in Hst1. injection Hst1 as <-. unfold bond_of. by rewrite Hst.
Qed.

Lemma idle_bond q env info msg s r s' :
  moves_coins msg = false → msg ≠ CheckSlashing → execute q env info msg s = Ok (r, s') →
  bond_of s' = bond_of s.
Proof.
  intros Hm Hmsg Hrun. assert (keeps (preserves bond_of) (execute q env info msg)) as Hk;
    [|exact (Hk _ _ _ Hrun)].
  destruct msg; try discriminate Hm; simpl.
  - solve_keeps.
  - solve_keeps.
  - unfold execute_update_config. solve_keeps.
  - unfold execute_update_admin. solve_keeps.
  - unfold execute_register_validator, store_white_validators. solve_keeps.
  - unfold execute_deregister_validator, remove_white_validators. solve_keeps.
  - unfold execute_update_params. solve_keeps.
  - unfold execute_update_global. do 5 (apply keeps_bind; [apply _|solve_keeps|intros ?]).
    apply keeps_bind; [apply _| |solve_keeps]. apply keeps_update_state.
    intros s0 st st' Hst [= <-]. unfold bond_of. simpl. by rewrite Hst.
  - done.
Qed.

(** The recorded bond follows the stake, never below it. *)
Lemma stake_effect q env info msg s r s' staked bond loss :
  execute q env info msg s = Ok (r, s') →
  (∀ ds, query_all_delegations q (contract_address env) = Ok ds → stake_in (coin_of s) ds = staked) →
  total (unstakes (coin_of s)) r ≤ staked + total (stakes (coin_of s)) r →
  bond_of s = Some bond → staked ≤ bond ≤ staked + loss →
  let staked' := staked + total (stakes (coin_of s)) r - total (unstakes (coin_of s)) r in
  ∃ bond', bond_of s' = Some bond' ∧ staked' ≤ bond' ≤ staked' + loss.
Proof.
  intros Hrun Hds Hle Hb Htr. cbv zeta. destruct (moves_coins msg) eqn:Hm.
  - destruct msg; try discriminate Hm; simpl in Hrun; bind Hrun as u Hu.
    + apply compound_settles in Hrun as (_ & Hun & bond0 & Hb0 & Hb').
      assert (bond0 = bond) as -> by congruence. eexists. split; [exact Hb'|]. lia.
    + apply bond_settles in Hrun as (_ & Hun & s1 & bond1 & Hsl & Hb1 & Hb').
      destruct (slashing_tracks _ _ _ _ _ _ Hsl Hds Hb ltac:(lia)) as (bond2 & Hb2 & Hle2).
      assert (bond2 = bond1) as -> by congruence. eexists. split; [exact Hb'|]. lia.
    + rewrite (withdraw_bond _ _ _ _ _ _ Hrun). apply withdraw_settles in Hrun as (Hs & Hun & _).
      exists bond. split; [done|]. lia.
    + unfold receive_cw20 in Hrun. bind Hrun as hook Hhook. destruct hook.
      bind Hrun as conf Hconf. bind Hrun as raw Hraw. bind Hrun as token Htoken.
      bind Hrun as u' Hu'. apply unbond_settles in Hrun as (_ & Hs & s1 & bond1 & Hsl & Hb1 & Hle1 & Hb').
      destruct (slashing_tracks _ _ _ _ _ _ Hsl Hds Hb ltac:(lia)) as (bond2 & Hb2 & Hle2).
      assert (bond2 = bond1) as -> by congruence. eexists. split; [exact Hb'|]. lia.
  - destruct (idle_total (coin_of s) r (idle_execute _ _ _ _ _ _ _ Hm Hrun)) as (_ & -> & ->).
    rewrite N.add_0_r, N.sub_0_r. destruct (decide (msg = CheckSlashing)) as [->|Hmsg].
    + simpl in Hrun. bind Hrun as u Hu. unfold execute_slashing in Hrun. bind Hrun as x s1 Hsl.
      destruct x. bind Hrun as st Hst. apply cm_ret_ok in Hrun as [= -> ->].
      destruct (slashing_tracks _ _ _ _ _ _ Hsl Hds Hb ltac:(lia)) as (bond1 & Hb1 & Hle1).
      exists bond1. split; [done|]. lia.
    + exists bond. rewrite (idle_bond _ _ _ _ _ _ _ Hm Hmsg Hrun). split; [done|]. lia.
Qed.
End effects.
