(* ===== verification/ChainRuns.v ===== *)
(** * Runs of the chain

    What holds along every run of Chain.v: the hub's coins cover the balance it
    recorded, its bond follows its stake, and - when the slashing shares fit - it
    is solvent. *)
From S2P Require Import Prelude Bytes Cosmwasm Protocol SignedInteger HubState HubStateFacts.
From S2P Require Import HubMath HubCore HubConfig HubBond HubUnbond HubWithdraw.
From S2P Require Import HubAutoCompound HubContract HubCoreFacts HubBondFacts HubUnbondFacts.
From S2P Require Import HubAdminFacts HubWithdrawFacts HubInvariant HubPayments Book.
From S2P Require Import HubSolvency.
From S2P Require Import Chain ChainFacts.

Section runs.
  Context `{H : Host} {HS : HostSpec H} `{HK : HookSerde}.

Record chain_inv (loss : N) (c : Chain) : Prop := {
  ci_reachable : reachable (ch_store c);
  ci_prev : prev_of (ch_store c) ≤ ch_coins c;
  ci_bond : ∃ bond, bond_of (ch_store c) = Some bond ∧ ch_staked c ≤ bond ≤ ch_staked c + loss;
}.

Lemma instantiate_chain env info msg r s hub c' :
  contract_address env = hub → instantiate env info msg empty_store = Ok (r, s) →
  settle (coin_of s) (received (coin_of s) (funds info)) r s (mkChain s 0 0) = Some c' →
  chain_inv 0 c'.
Proof.
  intros _ Hrun Hset. pose proof (reach_init _ _ _ _ _ Hrun) as Hreach.
  apply settle_some in Hset as (Hle & _ & ->).
  apply instantiate_spec in Hrun as (pay & raw & Hpay & _ & -> & Hmsg).
  split; [exact Hreach|apply N.le_0_l|]. exists (amount pay). split; [done|].
  unfold total, coin_of. rewrite Hmsg. cbn [sum_of foldr stakes unstakes ch_staked st_parameters
    from_option underlying_coin_denom].
  rewrite (received_found _ _ _ Hpay). lia.
Qed.

Lemma chain_run_inv allowed hub loss c : chain_run allowed hub loss c → chain_inv loss c.
Proof.
  induction 1 as [env info msg r s c' Henv Hinit Hset
    |loss c q env info msg r s' c' _ IH Henv Hans _ Hrun Hset
    |loss c msg r s' _ IH Hmig|loss c n _ IH|loss c n _ IH Hn].
  - by eapply instantiate_chain.
  - subst hub. destruct IH as [Hreach Hprev (bond & Hb & Htr)]. destruct Hans as [Hbal Hds].
    apply settle_some in Hset as (Hle & Hun & ->). split; simpl.
    + eapply reach_step; [exact Hreach|by eapply step_execute].
    + eapply bank_effect; try done. by apply reachable_inv.
    + by eapply stake_effect.
  - destruct IH as [Hreach Hprev (bond & Hb & Htr)]. split; simpl.
    + eapply reach_step; [exact Hreach|by eapply step_migrate].
    + by rewrite (prev_of_ledger _ _ (migrate_ledger _ _ _ _ Hmig)).
    + exists bond. assert (keeps (preserves bond_of) (migrate msg)) as Hk
        by (unfold migrate, migrate_config; solve_keeps).
      by rewrite (Hk _ _ _ Hmig).
  - destruct IH as [Hreach Hprev Hbond]. split; simpl; [done|lia|done].
  - destruct IH as [Hreach Hprev (bond & Hb & Htr)]. split; simpl; [done..|].
    exists bond. split; [done|]. lia.
Qed.

(** The coin a hub works with never changes. *)
Lemma coin_constant q env info msg s r s' :
  execute q env info msg s = Ok (r, s') → coin_of s' = coin_of s.
Proof.
  assert (∀ A (m : cm HubStore A) a, keeps (preserves settings) m → m s = Ok (a, s') →
    coin_of s' = coin_of s) as Hset.
  { intros A m a Hk Hrun. specialize (Hk _ _ _ Hrun). injection Hk as _ _ _ Hp _.
    unfold coin_of. by rewrite Hp. }
  assert (∀ A (m : cm HubStore A) a, keeps (preserves coin_of) m → m s = Ok (a, s') →
    coin_of s' = coin_of s) as Hcoin by (intros A m a Hk Hrun; exact (Hk _ _ _ Hrun)).
  intros Hrun. destruct msg; simpl in Hrun; try (apply reads_bind_ok in Hrun as (u & _ & Hrun)).
  - eapply Hcoin; [|exact Hrun]. solve_keeps.
  - eapply Hcoin; [|exact Hrun]. solve_keeps.
  - eapply Hcoin; [|exact Hrun]. unfold execute_update_config. solve_keeps.
  - eapply Hcoin; [|exact Hrun]. unfold execute_update_admin. solve_keeps.
  - eapply Hset; [|exact Hrun]. solve_keeps.
  - eapply Hcoin; [|exact Hrun]. unfold execute_register_validator, store_white_validators. solve_keeps.
  - eapply Hcoin; [|exact Hrun].
    unfold execute_deregister_validator, remove_white_validators. solve_keeps.
  - unfold execute_update_params in Hrun. bind Hrun as u1 Hu. bind Hrun as p Hp. bind Hrun.
    apply load_parameters_ok in Hp. apply cm_ret_ok in Hrun as [= -> ->].
    unfold coin_of. by rewrite Hp.
  - eapply Hset; [|exact Hrun]. solve_keeps.
  - eapply Hset; [|exact Hrun]. solve_keeps.
  - eapply Hset; [|exact Hrun]. solve_keeps.
  - eapply Hset; [|exact Hrun]. solve_keeps.
  - unfold receive_cw20 in Hrun. bind Hrun as hook Hhook. destruct hook.
    bind Hrun as conf Hconf. bind Hrun as raw Hraw. bind Hrun as token Htoken.
    bind Hrun as u' Hu'. eapply Hset; [|exact Hrun]. intros ???. by apply execute_unbond_settings.
Qed.

(** ** Solvency on a chain *)

(** The one assumption left: the slashing shares of the due batches fit. *)
Definition rounding_fits (q : Querier) (env : Env) (msg : ExecuteMsg) (s : HubStore) : Prop :=
  msg = WithdrawUnbonded → ∀ params st bal D,
    st_parameters s = Some params → st_state s = Some st →
    query_balance q (contract_address env) (underlying_coin_denom params) = Ok bal →
    Due s (block_time env - unbonding_period params) (last_processed_batch st + 1) D →
    shares_fit D (amount bal - prev_hub_balance st).

(** On a chain the hub's coins are not taken away, so every call is fair. *)
Lemma chain_call_fair q env info msg s r s' loss c :
  chain_inv loss c → s = ch_store c → answers (contract_address env) c (funds info) q →
  rounding_fits q env msg s → execute q env info msg s = Ok (r, s') → fair_call q env msg s.
Proof.
  intros Hinv -> [Hbal _] Hfit Hrun Hmsg params bal Hp Hq. subst msg.
  simpl in Hrun. bind Hrun as u Hu. apply execute_withdraw_spec in Hrun
    as (params' & bal' & s1 & ? & ? & ? & ? & Hp' & _ & Hq' & Hproc & _).
  assert (params' = params) as -> by congruence. assert (bal' = bal) as -> by congruence.
  apply process_withdraw_rate_spec in Hproc as (st & D & rs & s2 & Hst & _ & HD & _).
  exists st, D. do 2 (split; [done|]). split; [|by eapply Hfit].
  cbv zeta in Hbal. rewrite (coin_of_params _ _ Hp), Hq in Hbal. injection Hbal as ->. simpl.
  pose proof (ci_prev _ _ Hinv) as Hprev. unfold prev_of in Hprev. rewrite Hst in Hprev.
  simpl in Hprev. lia.
Qed.

Lemma chain_run_fair hub loss c : chain_run rounding_fits hub loss c → fair_reachable (ch_store c).
Proof.
  induction 1 as [env info msg r s c' Henv Hinit Hset
    |loss c q env info msg r s' c' Hprev IH Henv Hans Hfit Hrun Hset
    |loss c msg r s' Hprev IH Hmig|loss c n Hprev IH|loss c n Hprev IH Hn].
  - apply settle_some in Hset as (_ & _ & ->). by eapply fair_init.
  - apply settle_some in Hset as (_ & _ & ->). subst hub. simpl.
    eapply fair_execute; [exact IH| |exact Hrun].
    eapply chain_call_fair; [by eapply chain_run_inv|done|exact Hans|exact Hfit|exact Hrun].
  - eapply fair_migrate; [exact IH|exact Hmig].
  - exact IH.
  - exact IH.
Qed.
End runs.
