(* ===== verification/Backing.v ===== *)
(** * The hub and its token: the bond backs the supply

    The token contract is the environment of the hub: it answers the supply query
    and carries out the hub's Mint and Burn messages.  This file composes the two
    and shows that the exchange rate never promises more than the bond holds. *)
From S2P Require Import Prelude Bytes Cosmwasm Protocol SignedInteger HubState HubStateFacts.
From S2P Require Import HubMath HubCore HubConfig HubBond HubUnbond HubWithdraw.
From S2P Require Import HubAutoCompound HubContract HubCoreFacts HubBondFacts HubUnbondFacts.
From S2P Require Import HubAdminFacts HubWithdrawFacts HubInvariant Book Chain ChainFacts.

(** ** Tokens in messages *)
Definition mints (m : CosmosMsg WasmBody) : N :=
  match m with WasmExecute _ (ToToken (Mint _ n)) _ => n | _ => 0 end.
Definition burns (m : CosmosMsg WasmBody) : N :=
  match m with WasmExecute _ (ToToken (Burn n)) _ => n | _ => 0 end.

Section backing.
  Context `{H : Host} `{HK : HookSerde}.

(** What the tokens and the requests of the open batch are worth at the stored
    rate is in the bond - unless the bond is empty, when the rate is reset to one. *)
Definition backed_by (st : State) (claims : N) : Prop :=
  total_bond_amount st = 0 ∨
  claims * atomics (exchange_rate st) ≤ total_bond_amount st * dec_unit.
Definition backed (s : HubStore) (supply : N) : Prop :=
  ∃ cb st, st_current_batch s = Some cb ∧ st_state s = Some st ∧
    backed_by st (supply + requested_with_fee cb).

(** The hub's store and the token's total supply. *)
Record Issue := mkIssue { is_store : HubStore; is_supply : N }.

(** The token answers with its supply. *)
Definition tells_supply (c : Issue) (q : Querier) : Prop :=
  ∀ s x, st_config s = st_config (is_store c) → supply_or_zero q s = Ok x → x = is_supply c.

(** Rewards are not compounded onto an empty bond. *)
Definition compounds_on_bond (msg : ExecuteMsg) (s : HubStore) : Prop :=
  msg = UpdateExchangeRate → bond_of s ≠ Some 0.

Inductive issue_run : Issue → Prop :=
  | issue_init env info msg r s :
      instantiate env info msg empty_store = Ok (r, s) → issue_run (mkIssue s 0)
  (** the token is deployed, with balances that the bond covers *)
  | issue_deploy c n :
      issue_run c → is_supply c = 0 → backed (is_store c) n → issue_run (mkIssue (is_store c) n)
  | issue_execute c q env info msg r s' :
      issue_run c → tells_supply c q → compounds_on_bond msg (is_store c) →
      execute q env info msg (is_store c) = Ok (r, s') →
      total burns r ≤ is_supply c + total mints r →
      issue_run (mkIssue s' (is_supply c + total mints r - total burns r))
  | issue_migrate c msg r s' :
      issue_run c → migrate msg (is_store c) = Ok (r, s') → issue_run (mkIssue s' (is_supply c))
  (** a holder burns tokens *)
  | issue_burn c n :
      issue_run c → n ≤ is_supply c → issue_run (mkIssue (is_store c) (is_supply c - n)).
End backing.

Section facts.
  Context `{H : Host} {HS : HostSpec H} `{HK : HookSerde}.

(** ** Rates *)
Lemma rate_of_backs bond claims : bond = 0 ∨ claims * rate_of bond claims ≤ bond * dec_unit.
Proof.
  unfold rate_of. destruct (N.eqb_spec bond 0); [by left|right]. simpl.
  destruct (N.eqb_spec claims 0) as [->|]; [lia|]. apply N.Div0.mul_div_le.
Qed.

Lemma backed_by_le st n m : n ≤ m → backed_by st m → backed_by st n.
Proof.
  intros Hle [|Hb]; [by left|right]. etransitivity; [|exact Hb]. by apply N.mul_le_mono_r.
Qed.

(** Paying out at the stored rate, rounded down, keeps the rest backed. *)
Lemma backed_after_payout st n m :
  backed_by st (n + m) → m * atomics (exchange_rate st) / dec_unit ≤ total_bond_amount st →
  backed_by (set_total_bond_amount
    (total_bond_amount st - m * atomics (exchange_rate st) / dec_unit) st) n.
Proof.
  unfold backed_by. simpl. intros [Hz|Hb] Hle; [left; by rewrite Hz, N.sub_0_l|right].
  pose proof (N.Div0.mul_div_le (m * atomics (exchange_rate st)) dec_unit) as Hd.
  set (p := m * atomics (exchange_rate st) / dec_unit) in *. clearbody p.
  rewrite N.mul_sub_distr_r. rewrite N.mul_add_distr_r in Hb. lia.
Qed.

(** Compounding onto a bond. *)
Lemma backed_after_compound st rewards claims :
  claims ≠ 0 → total_bond_amount st ≠ 0 → backed_by st claims →
  backed_by (compounded_state rewards claims st) claims.
Proof.
  intros Hc Hb [|Hst]; [done|right]. unfold compounded_state. simpl.
  pose proof (N.Div0.mul_div_le (rewards * dec_unit) claims) as Hd.
  rewrite N.mul_add_distr_l, N.mul_add_distr_r. lia.
Qed.

(** ** The supply query looks at the configuration only *)
Lemma supply_of_query q s ti : query_total_issued q s = Ok ti → supply_or_zero q s = Ok ti.
Proof. unfold supply_or_zero. by intros ->. Qed.

Lemma slashing_backed q env s s1 c :
  is_store c = s → tells_supply c q → slashing q env s = Ok ((), s1) →
  backed s (is_supply c) → backed s1 (is_supply c).
Proof.
  intros <- Htell Hsl (cb & st & Hcb & Hst & Hb).
  apply slashing_spec in Hsl as (params & st' & ds & _ & Hst' & _ & [[_ ->]|(_ & ti & cb' & Hti & Hcb' & ->)]).
  { by exists cb, st. }
  assert (st' = st) as -> by congruence. assert (cb' = cb) as -> by congruence.
  rewrite <- (Htell _ _ eq_refl (supply_of_query _ _ _ Hti)) in *.
  exists cb. eexists. split; [done|]. split; [done|]. unfold slashed_state.
  destruct (_ <? _); [|done]. apply rate_of_backs.
Qed.

(** What the handlers that do not touch bond, rate and open batch keep. *)
Definition pool (s : HubStore) : option N * option (N * Decimal) :=
  (requested_with_fee <$> st_current_batch s,
   (λ st, (total_bond_amount st, exchange_rate st)) <$> st_state s).
Lemma pool_backed s s' n : pool s' = pool s → backed s n → backed s' n.
Proof.
  unfold pool. intros [= Hcb Hst] (cb & st & Hcb0 & Hst0 & Hb). rewrite Hcb0 in Hcb. rewrite Hst0 in Hst.
  destruct (st_current_batch s') as [cb'|] eqn:Hcb'; [|done].
  destruct (st_state s') as [st'|] eqn:Hst'; [|done]. simpl in *. injection Hcb as Hr.
  injection Hst as Hbond Hrate. exists cb', st'. do 2 (split; [done|]). unfold backed_by.
  by rewrite Hr, Hbond, Hrate.
Qed.

Lemma idle_pool q env info msg s r s' :
  moves_coins msg = false → msg ≠ CheckSlashing → execute q env info msg s = Ok (r, s') →
  pool s' = pool s.
Proof.
  intros Hm Hmsg Hrun. assert (keeps (preserves pool) (execute q env info msg)) as Hk;
    [|exact (Hk _ _ _ Hrun)].
  destruct msg; try discriminate Hm; simpl.
  - solve_keeps.
  - solve_keeps.
  - unfold execute_update_config. solve_keeps.
  - unfold execute_update_admin. solve_keeps.
  - unfold execute_register_validator, store_white_validators. solve_keeps.
  - unfold execute_deregister_validator, remove_white_validators. solve_keeps.
  - unfold execute_update_params. solve_keeps.
  - unfold execute_update_global. do 5 (apply keeps_bind; [apply _|solve_keeps|intros ?]).
    apply keeps_bind; [apply _| |solve_keeps]. apply keeps_update_state.
    intros s0 st st' Hst [= <-]. unfold pool. simpl. by rewrite Hst.
  - done.
Qed.

Lemma idle_tokens r : Forall idle (messages r) → total mints r = 0 ∧ total burns r = 0.
Proof.
  unfold total. rewrite Forall_forall. intros Hidle.
  split; apply sum_of_zero; intros m Hm; specialize (Hidle m Hm);
    destruct m as [| | | |? []| |]; simpl in *; done.
Qed.

(** ** The handlers *)
Lemma bond_backed q env info v s r s' c :
  is_store c = s → tells_supply c q → backed s (is_supply c) →
  execute_bond q env info v s = Ok (r, s') →
  total burns r = 0 ∧ backed s' (is_supply c + total mints r).
Proof.
  intros <- Htell Hb Hrun. apply execute_bond_spec in Hrun
    as (params & cb & pay & s1 & st & supply & m & minted & cf & raw & token & _ & _ & Hcb & _ & _ &
        _ & Hsl & Hst & Hsup & _ & _ & -> & _ & _ & _ & Hmsg).
  pose proof (slashing_settings q env _ _ _ Hsl) as Hset. injection Hset as _ _ Hcfg _ _.
  rewrite (Htell _ _ Hcfg Hsup) in *.
  pose proof (slashing_backed _ _ _ _ _ eq_refl Htell Hsl Hb) as (cb1 & st1 & Hcb1 & _ & _).
  pose proof (slashing_ledger q env _ _ _ Hsl) as Hleg. injection Hleg as Hcb2 _ _ _.
  assert (cb1 = cb) as -> by congruence.
  unfold total. rewrite Hmsg. cbn [sum_of foldr mints burns]. split; [done|].
  rewrite N.add_0_l, N.add_0_r. exists cb. eexists. split; [done|]. split; [done|].
  apply rate_of_backs.
Qed.

Lemma unbond_backed q env a u s r s' c :
  is_store c = s → tells_supply c q → backed s (is_supply c) →
  execute_unbond q env a u s = Ok (r, s') →
  total mints r = 0 ∧ total burns r = a ∧ backed s' (is_supply c - a).
Proof.
  intros <- Htell Hb Hrun. apply execute_unbond_spec in Hrun
    as (params & cb & s1 & st & supply & owed & s2 & msgs & cf & raw & token &
        Hp & _ & Hsl & Hst & Hsup & Ha & _ & Hw & [_ Hend] & _ & _ & _ & Hmsg).
  pose proof (slashing_settings q env _ _ _ Hsl) as Hset. injection Hset as _ _ Hcfg _ _.
  rewrite (Htell _ _ Hcfg Hsup) in *.
  set (cb' := mkCurrentBatch _ _) in *. set (st2 := burned_state _ _ _) in *.
  assert (backed_by st2 (is_supply c - a + requested_with_fee cb')) as Hst2 by apply rate_of_backs.
  assert (total mints r = sum_of mints msgs ∧ total burns r = sum_of burns msgs + a) as [-> ->].
  { unfold total. rewrite Hmsg, !sum_of_app. cbn [sum_of foldr mints burns]. lia. }
  destruct (_ <? _).
  - destruct Hend as (_ & Hle & _ & Hpick & ->).
    apply pick_validator_spec in Hpick as (params' & ds & takes & _ & _ & -> & _).
    assert (sum_of mints (undelegations (underlying_coin_denom params') takes) = 0 ∧
      sum_of burns (undelegations (underlying_coin_denom params') takes) = 0) as [-> ->].
    { split; apply sum_of_zero; unfold undelegations; by intros m ([] & -> & _)%list_elem_of_fmap. }
    do 2 (split; [done|]). eexists (mkCurrentBatch _ 0), _. split; [done|]. split; [done|].
    rewrite N.add_0_r. exact (backed_after_payout st2 _ _ Hst2 Hle).
  - destruct Hend as [-> ->]. do 2 (split; [done|]). by exists cb', st2.
Qed.

Lemma compound_backed q env info s r s' c :
  is_store c = s → tells_supply c q → bond_of s ≠ Some 0 → backed s (is_supply c) →
  execute_update_exchange_rate q env info s = Ok (r, s') →
  total mints r = 0 ∧ total burns r = 0 ∧ backed s' (is_supply c).
Proof.
  intros <- Htell Hne (cb & st & Hcb & Hst & Hb) Hrun. apply execute_update_exchange_rate_spec in Hrun
    as (st' & ? & ? & params & pay & cb' & ti & ds & coll & Hst' & _ & _ & _ & _ & Hcb' & _ & Hti & Hnz & _ &
        _ & -> & _ & staked & Hmsg & Hstaked).
  assert (st' = st) as -> by congruence. assert (cb' = cb) as -> by congruence.
  rewrite (Htell _ _ eq_refl (supply_of_query _ _ _ Hti)) in *.
  assert (total mints r = 0 ∧ total burns r = 0) as [-> ->].
  { unfold total, fee_msgs in *. rewrite Hmsg. destruct (_ =? 0), (_ =? 0);
      first [destruct Hstaked as (dl & _ & ->)|subst staked]; done. }
  do 2 (split; [done|]). exists cb. eexists. split; [done|]. split; [done|].
  apply backed_after_compound; [done| |done]. intros Hz. apply Hne. unfold bond_of. by rewrite Hst, <- Hz.
Qed.

Lemma withdraw_pool q env info s r s' :
  execute_withdraw_unbonded q env info s = Ok (r, s') → pool s' = pool s.
Proof.
  intros Hrun. pose proof (withdraw_settings _ _ _ _ _ _ Hrun) as _. apply execute_withdraw_spec in Hrun
    as (? & ? & s1 & ? & ? & s2 & st1 & _ & _ & _ & Hproc & _ & _ & _ & _ & Hrm & Hst1 & -> & _).
  apply process_withdraw_rate_spec in Hproc as (st & D & rs & s3 & Hst & _ & _ & _ & ([m ->] & _) & ->).
  destruct (remove_unbond_wait_list_frame _ _ _ _ Hrm) as [w ->].
  simpl in Hst1. injection Hst1 as <-. unfold pool. simpl. by rewrite Hst.
Qed.

Lemma execute_backed q env info msg r s' c :
  tells_supply c q → compounds_on_bond msg (is_store c) →
  execute q env info msg (is_store c) = Ok (r, s') → backed (is_store c) (is_supply c) →
  backed s' (is_supply c + total mints r - total burns r).
Proof.
  intros Htell Hcomp Hrun Hb. destruct (moves_coins msg) eqn:Hm.
  - destruct msg; try discriminate Hm; simpl in Hrun; bind Hrun as x Hx.
    + destruct (compound_backed _ _ _ _ _ _ c eq_refl Htell (Hcomp eq_refl) Hb Hrun) as (-> & -> & Hb').
      by rewrite N.add_0_r, N.sub_0_r.
    + destruct (bond_backed _ _ _ _ _ _ _ c eq_refl Htell Hb Hrun) as (-> & Hb'). by rewrite N.sub_0_r.
    + assert (total mints r = 0 ∧ total burns r = 0) as [-> ->].
      { apply execute_withdraw_spec in Hrun
          as (? & ? & ? & ? & ? & ? & ? & _ & _ & _ & _ & _ & _ & _ & _ & _ & _ & _ & Hmsg).
        unfold total. by rewrite Hmsg. }
      rewrite N.add_0_r, N.sub_0_r. eapply pool_backed; [by eapply withdraw_pool|done].
    + unfold receive_cw20 in Hrun. bind Hrun as hook Hhook. destruct hook.
      bind Hrun as conf Hconf. bind Hrun as raw Hraw. bind Hrun as token Htoken. bind Hrun as u' Hu'.
      destruct (unbond_backed _ _ _ _ _ _ _ c eq_refl Htell Hb Hrun) as (-> & -> & Hb').
      by rewrite N.add_0_r.
  - destruct (idle_tokens r (idle_execute _ _ _ _ _ _ _ Hm Hrun)) as [-> ->].
    rewrite N.add_0_r, N.sub_0_r. destruct (decide (msg = CheckSlashing)) as [->|Hmsg].
    + simpl in Hrun. bind Hrun as u Hu. unfold execute_slashing in Hrun. bind Hrun as x s1 Hsl.
      destruct x. bind Hrun as st Hst. apply cm_ret_ok in Hrun as [= -> ->].
      by eapply slashing_backed.
    + eapply pool_backed; [by eapply idle_pool|done].
Qed.

Lemma issue_run_backed c : issue_run c → backed (is_store c) (is_supply c).
Proof.
  induction 1 as [env info msg r s Hrun|c n _ IH Hz Hb|c q env info msg r s' _ IH Htell Hcomp Hrun Hle
                 |c msg r s' _ IH Hrun|c n _ IH Hn]; simpl.
  - apply instantiate_spec in Hrun as (pay & raw & _ & _ & -> & _). eexists _, _.
    split; [done|]. split; [done|]. right. apply N.le_0_l.
  - done.
  - by eapply execute_backed.
  - eapply pool_backed; [|exact IH].
    assert (keeps (preserves pool) (migrate msg)) as Hk by (unfold migrate, migrate_config; solve_keeps).
    exact (Hk _ _ _ Hrun).
  - destruct IH as (cb & st & Hcb & Hst & Hb). exists cb, st. do 2 (split; [done|]).
    eapply backed_by_le; [|exact Hb]. lia.
Qed.
End facts.
