(* ===== verification/System.v ===== *)
(** * The whole system: both contracts, the token, the bank and staking

    A transaction is one call from outside and all the messages that follow from
    it: the chain runs the messages of a response in order, and those of a call they
    make before the rest.  [dispatch] is this process; a transaction in which one
    message fails leaves no trace, so only completed ones are steps of a run.

    Chain.v and Backing.v let the messages of a response take effect at once and
    without calls in between.  SystemRuns.v shows that this is sound. *)
From S2P Require Import Prelude Bytes Cosmwasm Protocol SignedInteger HubState HubStateFacts.
From S2P Require Import HubMath HubCore HubConfig HubBond HubUnbond HubWithdraw.
From S2P Require Import HubAutoCompound HubContract RewardsContract HubCoreFacts.
From S2P Require Import HubBondFacts.
From S2P Require Import HubUnbondFacts HubAdminFacts HubWithdrawFacts HubInvariant.
From S2P Require Import HubPayments.
From S2P Require Import Book HubSolvency Chain ChainFacts ChainRuns Backing.

Section system.
  Context `{H : Host} `{HK : HookSerde}.

(** The stores of both contracts; the hub's coins and stake; the token's supply;
    the coins of the rewards contract; a record of what each validator paid when the
    hub withdrew its rewards, in order.  Amounts are in the hub's coin. *)
Record System := mkSystem {
  sy_hub : HubStore; sy_rewards : Rewards.Store;
  sy_coins : N; sy_staked : N; sy_supply : N; sy_fund : N; sy_paid : list (string * N);
}.
Definition chain_of (y : System) : Chain := mkChain (sy_hub y) (sy_coins y) (sy_staked y).
Definition issue_of (y : System) : Issue := mkIssue (sy_hub y) (sy_supply y).
Definition sys_coin (y : System) : string := coin_of (sy_hub y).

Definition with_hub (s : HubStore) (y : System) : System :=
  mkSystem s (sy_rewards y) (sy_coins y) (sy_staked y) (sy_supply y) (sy_fund y) (sy_paid y).
Definition with_rewards (s : Rewards.Store) (y : System) : System :=
  mkSystem (sy_hub y) s (sy_coins y) (sy_staked y) (sy_supply y) (sy_fund y) (sy_paid y).
Definition with_coins (n : N) (y : System) : System :=
  mkSystem (sy_hub y) (sy_rewards y) n (sy_staked y) (sy_supply y) (sy_fund y) (sy_paid y).
Definition with_staked (n : N) (y : System) : System :=
  mkSystem (sy_hub y) (sy_rewards y) (sy_coins y) n (sy_supply y) (sy_fund y) (sy_paid y).
Definition with_supply (n : N) (y : System) : System :=
  mkSystem (sy_hub y) (sy_rewards y) (sy_coins y) (sy_staked y) n (sy_fund y) (sy_paid y).
Definition with_fund (n : N) (y : System) : System :=
  mkSystem (sy_hub y) (sy_rewards y) (sy_coins y) (sy_staked y) (sy_supply y) n (sy_paid y).
(** Validator [v] pays [n] to the rewards contract. *)
Definition rewarded (v : string) (n : N) (y : System) : System :=
  mkSystem (sy_hub y) (sy_rewards y) (sy_coins y) (sy_staked y) (sy_supply y) (sy_fund y + n)
    (sy_paid y ++ [(v, n)]).

(** Validators pay what [log] says. *)
Definition all_rewarded (log : list (string * N)) (y : System) : System :=
  mkSystem (sy_hub y) (sy_rewards y) (sy_coins y) (sy_staked y) (sy_supply y)
    (sy_fund y + sum_of snd log) (sy_paid y ++ log).

(** The addresses of the two contracts and of the token. *)
Context (hub rewards token : Addr).

(** [n] coins reach [to]. *)
Definition credit (to : Addr) (n : N) (y : System) : System :=
  if decide (to = hub) then with_coins (sy_coins y + n) y
  else if decide (to = rewards) then with_fund (sy_fund y + n) y else y.
(** [from] gives [n] coins away; nobody but the two contracts is watched. *)
Definition debit (from : Addr) (n : N) (y : System) : option System :=
  if decide (from = hub) then
    if n <=? sy_coins y then Some (with_coins (sy_coins y - n) y) else None
  else if decide (from = rewards) then
    if n <=? sy_fund y then Some (with_fund (sy_fund y - n) y) else None
  else Some y.

(** What the chain and the token answer to the hub, once [funds] are credited, and
    to the rewards contract. *)
Record tells_hub (y : System) (funds : list Coin) (q : Querier) : Prop := {
  th_chain : answers hub (chain_of y) funds q;
  th_token : tells_supply (issue_of y) q;
}.
Definition tells_rewards (y : System) (q : Querier) : Prop :=
  ∀ d c, query_balance q rewards d = Ok c →
    denom c = d ∧ (d = sys_coin y → amount c = sy_fund y).

(** What is assumed of a call to the hub: the slashing shares fit, and rewards are
    not compounded onto an empty bond. *)
Definition fair (q : Querier) (env : Env) (msg : ExecuteMsg) (s : HubStore) : Prop :=
  rounding_fits q env msg s ∧ compounds_on_bond msg s.

Definition from_hub (r : Response WasmBody) : list (Addr * CosmosMsg WasmBody) :=
  (λ m, (hub, m)) <$> messages r.
Definition from_rewards (r : Response WasmBody) : list (Addr * CosmosMsg WasmBody) :=
  (λ m, (rewards, m)) <$> messages r.

Inductive dispatch : list (Addr * CosmosMsg WasmBody) → System → System → Prop :=
  | run_done y : dispatch [] y y
  (** staking; delegations that change pay their rewards [n] out *)
  | run_delegate v c n rest y y1 y' :
      debit hub (received (sys_coin y) [c]) y = Some y1 →
      dispatch rest (with_fund (sy_fund y + n)
        (with_staked (sy_staked y + received (sys_coin y) [c]) y1)) y' →
      dispatch ((hub, StakingDelegate v c) :: rest) y y'
  | run_undelegate v c n rest y y' :
      received (sys_coin y) [c] ≤ sy_staked y →
      dispatch rest (with_fund (sy_fund y + n)
        (with_staked (sy_staked y - received (sys_coin y) [c]) y)) y' →
      dispatch ((hub, StakingUndelegate v c) :: rest) y y'
  | run_redelegate v w c n rest y y' :
      dispatch rest (with_fund (sy_fund y + n) y) y' →
      dispatch ((hub, StakingRedelegate v w c) :: rest) y y'
  | run_withdraw_reward v n rest y y' :
      dispatch rest (rewarded v n y) y' →
      dispatch ((hub, WithdrawDelegatorReward v) :: rest) y y'
  | run_withdraw_address a rest y y' :
      dispatch rest y y' → dispatch ((hub, SetWithdrawAddress a) :: rest) y y'
  (** the bank *)
  | run_send to coins rest y y1 y' :
      debit hub (received (sys_coin y) coins) y = Some y1 →
      dispatch rest (credit to (received (sys_coin y) coins) y1) y' →
      dispatch ((hub, BankSend to coins) :: rest) y y'
  (** the token *)
  | run_mint to n rest y y' :
      dispatch rest (with_supply (sy_supply y + n) y) y' →
      dispatch ((hub, WasmExecute token (ToToken (Mint to n)) []) :: rest) y y'
  | run_burn n rest y y' :
      n ≤ sy_supply y → dispatch rest (with_supply (sy_supply y - n) y) y' →
      dispatch ((hub, WasmExecute token (ToToken (Burn n)) []) :: rest) y y'
  (** calls to the contracts *)
  | run_hub from msg coins q env r s' rest y y1 y' :
      debit from (received (sys_coin y) coins) y = Some y1 →
      contract_address env = hub → tells_hub y1 coins q → fair q env msg (sy_hub y1) →
      execute q env (mkInfo from coins) msg (sy_hub y1) = Ok (r, s') →
      dispatch (from_hub r ++ rest)
        (with_hub s' (credit hub (received (sys_coin y) coins) y1)) y' →
      dispatch ((from, WasmExecute hub (ToHub msg) coins) :: rest) y y'
  | run_rewards from msg coins q env r s' rest y y1 y' :
      debit from (received (sys_coin y) coins) y = Some y1 →
      contract_address env = rewards →
      tells_rewards (credit rewards (received (sys_coin y) coins) y1) q →
      Rewards.execute q env (mkInfo from coins) msg (sy_rewards y1) = Ok (r, s') →
      dispatch (from_rewards r ++ rest)
        (with_rewards s' (credit rewards (received (sys_coin y) coins) y1)) y' →
      dispatch ((from, WasmExecute rewards (ToRewards msg) coins) :: rest) y y'.

(** Someone outside: users, the administrator, the token. *)
Definition outside (a : Addr) : Prop := a ≠ hub ∧ a ≠ rewards.

(** The runs of a deployed system; [loss] is what slashing took. *)
Inductive sys_run : N → System → Prop :=
  | sys_init env info msg r s rinfo rmsg rr rs y :
      contract_address env = hub → instantiate env info msg empty_store = Ok (r, s) →
      Rewards.instantiate rinfo rmsg Rewards.empty_store = Ok (rr, rs) →
      dispatch (from_hub r) (mkSystem s rs (received (coin_of s) (funds info)) 0 0 0 []) y →
      sys_run 0 y
  (** somebody calls one of the contracts *)
  | sys_call_hub loss from msg coins y y' :
      sys_run loss y → outside from →
      dispatch [(from, WasmExecute hub (ToHub msg) coins)] y y' → sys_run loss y'
  | sys_call_rewards loss from msg coins y y' :
      sys_run loss y → outside from →
      dispatch [(from, WasmExecute rewards (ToRewards msg) coins)] y y' → sys_run loss y'
  | sys_migrate loss msg r s' y :
      sys_run loss y → migrate msg (sy_hub y) = Ok (r, s') → sys_run loss (with_hub s' y)
  (** coins arrive at a contract: undelegated ones, rewards, anything sent *)
  | sys_arrive loss to n y : sys_run loss y → sys_run loss (credit to n y)
  | sys_slash loss n y :
      sys_run loss y → n ≤ sy_staked y → sys_run (loss + n) (with_staked (sy_staked y - n) y)
  | sys_deploy loss n y :
      sys_run loss y → sy_supply y = 0 → backed (sy_hub y) n → sys_run loss (with_supply n y)
  | sys_burn loss n y :
      sys_run loss y → n ≤ sy_supply y → sys_run loss (with_supply (sy_supply y - n) y).
End system.
