(* ===== verification/SystemFacts.v ===== *)
(** * Transactions and the two compositions

    Every committed transaction of System.v is a sequence of steps of the chain
    (Chain.v) and of the token (Backing.v): what is proved of their runs holds of
    the whole system. *)
From S2P Require Import Prelude Bytes Cosmwasm Protocol SignedInteger HubState HubStateFacts.
From S2P Require Import HubMath HubCore HubConfig HubBond HubUnbond HubWithdraw.
From S2P Require Import HubAutoCompound HubContract RewardsContract HubCoreFacts.
From S2P Require Import HubBondFacts.
From S2P Require Import HubUnbondFacts HubAdminFacts HubWithdrawFacts HubInvariant.
From S2P Require Import HubPayments.
From S2P Require Import Book HubSolvency Chain ChainFacts ChainRuns Backing System.

(** A message that calls neither contract. *)
Definition leaf (m : CosmosMsg WasmBody) : Prop :=
  match m with WasmExecute _ (ToHub _ | ToRewards _) _ => False | _ => True end.

Ltac sys_fields :=
  cbn [sy_hub sy_rewards sy_coins sy_staked sy_supply sy_fund with_hub with_rewards with_coins
    with_staked with_supply with_fund sy_paid rewarded] in *.

Section facts.
  Context `{H : Host} {HS : HostSpec H} `{HK : HookSerde}.
  Context (hub rewards token : Addr) (Hdistinct : hub ≠ rewards).

Abbreviation dispatch := (dispatch hub rewards token).
Abbreviation debit := (debit hub rewards).
Abbreviation credit := (credit hub rewards).
Abbreviation from_hub := (from_hub hub).

(** ** Debits and credits *)
Lemma debit_hub n y y' :
  debit hub n y = Some y' → n ≤ sy_coins y ∧ y' = with_coins (sy_coins y - n) y.
Proof.
  unfold System.debit. rewrite decide_True by done. destruct (N.leb_spec n (sy_coins y)); [|done].
  by intros [= <-].
Qed.
Lemma debit_rewards n y y' :
  debit rewards n y = Some y' → n ≤ sy_fund y ∧ y' = with_fund (sy_fund y - n) y.
Proof.
  unfold System.debit. rewrite decide_False by done. rewrite decide_True by done.
  destruct (N.leb_spec n (sy_fund y)); [|done]. by intros [= <-].
Qed.
Lemma debit_outside from n y : outside hub rewards from → debit from n y = Some y.
Proof. intros [??]. unfold System.debit. by rewrite !decide_False. Qed.
Lemma debit_zero from y y' : debit from 0 y = Some y' → y' = y.
Proof.
  unfold System.debit. rewrite !(proj2 (N.leb_le 0 _)), !N.sub_0_r by lia.
  destruct y. repeat case_decide; by intros [= <-].
Qed.
Lemma credit_hub n y : credit hub n y = with_coins (sy_coins y + n) y.
Proof. unfold System.credit. by rewrite decide_True. Qed.
Lemma credit_rewards n y : credit rewards n y = with_fund (sy_fund y + n) y.
Proof. unfold System.credit. rewrite decide_False by done. by rewrite decide_True. Qed.

(** ** Sequences of messages *)
Lemma dispatch_app l1 l2 y y' :
  dispatch (l1 ++ l2) y y' → ∃ y1, dispatch l1 y y1 ∧ dispatch l2 y1 y'.
Proof.
  intros Hrun. remember (l1 ++ l2) as l eqn:Hl. revert l1 Hl.
  induction Hrun as [y|v c n rest y y1 y' ? Hrun IH|v c n rest y y' ? Hrun IH|v w c n rest y y' Hrun IH
    |v n rest y y' Hrun IH|a rest y y' Hrun IH|to coins rest y y1 y' ? Hrun IH|to n rest y y' Hrun IH
    |n rest y y' ? Hrun IH|from msg coins q env r s' rest y y1 y' ????? Hrun IH
    |from msg coins q env r s' rest y y1 y' ???? Hrun IH];
    intros l1 Hl; (destruct l1 as [|m l1]; [simpl in Hl; subst l2|]);
    try (eexists; split; [apply run_done|by econstructor; eauto]).
  { done. }
  all: simplify_eq/=; rewrite ?(assoc_L (++)) in IH; destruct (IH _ eq_refl) as (y2 & ? & ?);
    exists y2; split; [by econstructor|done].
Qed.

(** ** Messages that call no contract *)

(** What running them changes: the totals of Chain.v and Backing.v.  Coins the hub
    sends to itself are there again at the end. *)
Record leaf_effect (ms : list (CosmosMsg WasmBody)) (y y' : System) : Prop := {
  le_hub : sy_hub y' = sy_hub y;
  le_rewards : sy_rewards y' = sy_rewards y;
  le_coins : sy_coins y ≤ sy_coins y' + sum_of (leaves (sys_coin y)) ms;
  le_staked :
    sy_staked y' + sum_of (unstakes (sys_coin y)) ms = sy_staked y + sum_of (stakes (sys_coin y)) ms;
  le_supply : sy_supply y' + sum_of burns ms = sy_supply y + sum_of mints ms;
  le_fund : sy_fund y ≤ sy_fund y';
}.

Lemma leaf_effect_cons m ms y y1 y' :
  leaf_effect [m] y y1 → leaf_effect ms y1 y' → leaf_effect (m :: ms) y y'.
Proof.
  intros [Hh Hr Hc Hs Ht Hf] [Hh' Hr' Hc' Hs' Ht' Hf'].
  assert (sys_coin y1 = sys_coin y) as Hd by (unfold sys_coin; by rewrite Hh).
  rewrite Hd in *. split; [congruence|congruence|..|lia]; simpl in *; lia.
Qed.

Lemma dispatch_leaf m y y' : leaf m → dispatch [(hub, m)] y y' → leaf_effect [m] y y'.
Proof.
  intros Hleaf Hrun. inversion Hrun as
    [|v c n rest ? y1 ? Hdeb Hrest|v c n rest ?? Hle Hrest|v w c n rest ?? Hrest
    |v n rest ?? Hrest|a rest ?? Hrest|to coins rest ? y1 ? Hdeb Hrest|to n rest ?? Hrest
    |n rest ?? Hle Hrest|from msg coins q env r s' rest ? y1 ?|from msg coins q env r s' rest ? y1 ?];
    subst; try done; inversion Hrest; subst; clear Hrest Hrun;
    try (apply debit_hub in Hdeb as [Hle ->]);
    try match goal with |- context [System.credit _ _ _ _ _] => unfold System.credit; repeat case_decide end;
    split; try done; cbn [sum_of foldr leaves stakes unstakes mints burns] in *; sys_fields; lia.
Qed.

Lemma dispatch_leaves ms y y' :
  Forall leaf ms → dispatch ((λ m, (hub, m)) <$> ms) y y' → leaf_effect ms y y'.
Proof.
  intros Hms. revert y. induction Hms as [|m ms Hm Hms IH]; intros y Hrun.
  - inversion Hrun; subst. split; simpl; done || lia.
  - change (dispatch ([(hub, m)] ++ ((λ m, (hub, m)) <$> ms)) y y') in Hrun.
    apply dispatch_app in Hrun as (y1 & Hone & Hrest).
    eapply leaf_effect_cons; [by apply dispatch_leaf|by apply IH].
Qed.

(** Only messages that withdraw rewards write their record. *)
Definition asks_nothing (m : CosmosMsg WasmBody) : Prop :=
  leaf m ∧ match m with WithdrawDelegatorReward _ => False | _ => True end.

Lemma dispatch_asks_nothing ms y y' :
  Forall asks_nothing ms → dispatch ((λ m, (hub, m)) <$> ms) y y' → sy_paid y' = sy_paid y.
Proof.
  intros Hms. revert y. induction Hms as [|m ms [Hleaf Hm] Hms IH]; intros y Hrun; simpl in Hrun.
  - by inversion Hrun.
  - inversion Hrun; subst; try done;
      match goal with Hrest : System.dispatch _ _ _ _ _ _ |- _ => rewrite (IH _ Hrest) end;
      try match goal with Hdeb : System.debit _ _ _ _ _ = Some _ |- _ => apply debit_hub in Hdeb as [_ ->] end;
      unfold System.credit; by repeat case_decide.
Qed.

(** Withdrawing rewards pays them, and changes nothing else. *)
Lemma all_rewarded_nil y : all_rewarded [] y = y.
Proof. unfold all_rewarded. simpl. rewrite N.add_0_r, app_nil_r. by destruct y. Qed.
Lemma all_rewarded_cons v n log y : all_rewarded log (rewarded v n y) = all_rewarded ((v, n) :: log) y.
Proof.
  unfold all_rewarded, rewarded. sys_fields. rewrite <- (assoc_L (++)). f_equal.
  change (sum_of snd ((v, n) :: log)) with (n + sum_of snd log). lia.
Qed.

Lemma dispatch_withdraws vs y y' :
  dispatch ((λ v, (hub, WithdrawDelegatorReward v)) <$> vs) y y' →
  ∃ log, log.*1 = vs ∧ y' = all_rewarded log y.
Proof.
  revert y. induction vs as [|v vs IH]; intros y Hrun; simpl in Hrun.
  - inversion Hrun; subst. exists []. by rewrite all_rewarded_nil.
  - inversion Hrun as [| | | |? n ? ? ? Hrest| | | | | |]; subst. apply IH in Hrest as (log & <- & ->).
    exists ((v, n) :: log). by rewrite all_rewarded_cons.
Qed.
Lemma withdraws_dispatch log rest y y' :
  dispatch rest (all_rewarded log y) y' →
  dispatch (((λ v, (hub, WithdrawDelegatorReward v)) <$> log.*1) ++ rest) y y'.
Proof.
  revert y. induction log as [|[v n] log IH]; intros y Hrest; simpl.
  - by rewrite all_rewarded_nil in Hrest.
  - apply run_withdraw_reward with (n := n), IH. by rewrite all_rewarded_cons.
Qed.

(** ** The hub's responses *)
Lemma leaf_idle ms : Forall idle ms → sum_of mints ms = 0 ∧ sum_of burns ms = 0.
Proof. intros Hms. by apply (idle_tokens (mkResponse ms [])). Qed.

(** The three kinds of responses. *)
Inductive hub_response (env : Env) : list (CosmosMsg WasmBody) → Prop :=
  | hr_leaf ms : Forall leaf ms → hub_response env ms
  | hr_rewards vs a :
      hub_response env (((λ v, WithdrawDelegatorReward v) <$> vs) ++
        [WasmExecute a (ToRewards ProcessRewards) []])
  | hr_redelegate v w c :
      hub_response env [StakingRedelegate v w c;
        WasmExecute (contract_address env) (ToHub UpdateGlobalIndex) []].

Lemma update_global_response q env s r s' :
  execute_update_global q env s = Ok (r, s') →
  ∃ vs a, messages r = ((λ v, WithdrawDelegatorReward v) <$> vs) ++
    [WasmExecute a (ToRewards ProcessRewards) []].
Proof.
  intros (ds & a & -> & _)%update_global_messages. exists (validator <$> ds), a.
  by rewrite <- list_fmap_compose.
Qed.

Lemma unbond_leaf q env n u s r s' :
  execute_unbond q env n u s = Ok (r, s') → Forall leaf (messages r).
Proof.
  intros Hrun. apply execute_unbond_spec in Hrun
    as (? & cb & s1 & st & ? & ? & s2 & msgs & ? & ? & ? & _ & _ & _ & _ & _ & _ & _ & _ & [_ Hend] & _ & _ & _ & ->).
  apply Forall_app. split; [|by repeat constructor]. destruct (_ <? _); [|by destruct Hend as [-> _]].
  destruct Hend as (_ & _ & _ & Hpick & _).
  apply pick_validator_spec in Hpick as (params & ds & takes & _ & _ & -> & _).
  apply Forall_forall. unfold undelegations. by intros m ([] & -> & _)%list_elem_of_fmap.
Qed.

Lemma compound_leaf q env info s r s' :
  execute_update_exchange_rate q env info s = Ok (r, s') → Forall leaf (messages r).
Proof.
  intros Hrun. apply execute_update_exchange_rate_spec in Hrun
    as (? & ? & ? & ? & ? & ? & ? & ? & ? & _ & _ & _ & _ & _ & _ & _ & _ & _ & _ & _ & _ & _ & staked & -> & Hst).
  unfold fee_msgs. destruct (_ =? 0), (_ =? 0);
    first [destruct Hst as (dl & _ & ->)|subst staked]; by repeat constructor.
Qed.

Ltac solve_leaf := solve_returns ltac:(by repeat constructor).
Lemma returns_leaf env (m : cm HubStore (Response WasmBody)) s r s' :
  m s = Ok (r, s') → returns (Forall leaf ∘ messages) m → hub_response env (messages r).
Proof. intros Hrun Hm. apply hr_leaf. exact (Hm _ _ _ Hrun). Qed.

Lemma execute_response q env info msg s r s' :
  execute q env info msg s = Ok (r, s') → hub_response env (messages r).
Proof.
  intros Hrun. destruct msg; simpl in Hrun; try (apply reads_bind_ok in Hrun as (u & _ & Hrun)).
  - eapply returns_leaf; [exact Hrun|]. solve_leaf.
  - eapply returns_leaf; [exact Hrun|]. solve_leaf.
  - eapply returns_leaf; [exact Hrun|]. unfold execute_update_config. solve_leaf.
  - eapply returns_leaf; [exact Hrun|]. unfold execute_update_admin. solve_leaf.
  - apply hr_leaf. by eapply compound_leaf.
  - eapply returns_leaf; [exact Hrun|]. unfold execute_register_validator. solve_leaf.
  - apply deregister_messages in Hrun as [->|(d & w & _ & ->)]; [by apply hr_leaf|apply hr_redelegate].
  - eapply returns_leaf; [exact Hrun|]. unfold execute_update_params. solve_leaf.
  - apply hr_leaf. apply execute_bond_spec in Hrun
      as (? & ? & ? & ? & ? & ? & ? & ? & ? & ? & ? & _ & _ & _ & _ & _ & _ & _ & _ & _ & _ & _ & _ & _ & _ & _ & ->).
    by repeat constructor.
  - apply update_global_response in Hrun as (vs & a & ->). apply hr_rewards.
  - apply hr_leaf. apply execute_withdraw_spec in Hrun
      as (? & ? & ? & ? & ? & ? & ? & _ & _ & _ & _ & _ & _ & _ & _ & _ & _ & _ & ->).
    by repeat constructor.
  - eapply returns_leaf; [exact Hrun|]. unfold execute_slashing. solve_leaf.
  - apply hr_leaf. unfold receive_cw20 in Hrun. bind Hrun as hook Hhook. destruct hook.
    bind Hrun as conf Hconf. bind Hrun as raw Hraw. bind Hrun as t Ht. bind Hrun as u' Hu'.
    by eapply unbond_leaf.
Qed.

(** No handler spends more than the hub has. *)
Lemma leaves_covered q env info msg s r s' coins :
  execute q env info msg s = Ok (r, s') →
  (let d := coin_of s in query_balance q (contract_address env) d
     = Ok (mkCoin d (coins + received d (funds info)))) →
  total (leaves (coin_of s)) r ≤ coins + received (coin_of s) (funds info).
Proof.
  intros Hrun Hbal. destruct (moves_coins msg) eqn:Hm.
  - destruct msg; try discriminate Hm; simpl in Hrun; bind Hrun as u Hu.
    + apply compound_settles in Hrun as (Hl & _). lia.
    + apply bond_settles in Hrun as (Hl & _). lia.
    + apply withdraw_settles in Hrun as (_ & _ & bal & Hbal' & Hle & _). cbv zeta in Hbal.
      rewrite Hbal in Hbal'. by injection Hbal' as <-.
    + unfold receive_cw20 in Hrun. bind Hrun as hook Hhook. destruct hook.
      bind Hrun as conf Hconf. bind Hrun as raw Hraw. bind Hrun as t Ht. bind Hrun as u' Hu'.
      apply unbond_settles in Hrun as (-> & _). lia.
  - destruct (idle_total (coin_of s) r (idle_execute _ _ _ _ _ _ _ Hm Hrun)) as (-> & _ & _). lia.
Qed.
End facts.
