(* ===== verification/SystemRuns.v ===== *)
(** * The system runs like the chain and the token

    [sys_run_refines]: forgetting the rest of the system, a run of it is a run of
    Chain.v and a run of Backing.v. *)
From S2P Require Import Prelude Bytes Cosmwasm Protocol SignedInteger HubState HubStateFacts.
From S2P Require Import HubMath HubCore HubConfig HubBond HubUnbond HubWithdraw.
From S2P Require Import HubAutoCompound HubContract RewardsContract HubCoreFacts.
From S2P Require Import HubBondFacts.
From S2P Require Import HubUnbondFacts HubAdminFacts HubWithdrawFacts HubInvariant.
From S2P Require Import HubPayments.
From S2P Require Import Book HubSolvency Chain ChainFacts ChainRuns Backing System.
From S2P Require Import SystemFacts.

Section runs.
  Context `{H : Host} {HS : HostSpec H} `{HK : HookSerde}.
  Context (hub rewards token : Addr) (Hdistinct : hub ≠ rewards).

Abbreviation dispatch := (dispatch hub rewards token).
Abbreviation credit := (credit hub rewards).
Abbreviation debit := (debit hub rewards).

(** Both compositions can be in the state of [y]. *)
Definition runs (loss : N) (y : System) : Prop :=
  chain_run rounding_fits hub loss (chain_of y) ∧ issue_run (issue_of y).

(** Coins may arrive at any time; the funds of the rewards contract do not matter. *)
Lemma runs_arrive loss y y' :
  runs loss y → sy_hub y' = sy_hub y → sy_coins y ≤ sy_coins y' → sy_staked y' = sy_staked y →
  sy_supply y' = sy_supply y → runs loss y'.
Proof.
  intros [Hc Ht] Hh Hle Hs Hsup. split.
  - unfold chain_of. rewrite Hh, Hs. replace (sy_coins y') with (sy_coins y + (sy_coins y' - sy_coins y)) by lia.
    exact (chain_arrive _ _ loss (chain_of y) _ Hc).
  - unfold issue_of. by rewrite Hh, Hsup.
Qed.

Lemma runs_idle loss y y' ms : runs loss y → Forall idle ms → leaf_effect ms y y' → runs loss y'.
Proof.
  intros Hy Hms []. destruct (idle_total (sys_coin y) (mkResponse ms []) Hms) as (Hl & Hs & Hu).
  destruct (idle_tokens (mkResponse ms []) Hms) as [Hm Hb]. unfold total in *. simpl in *.
  eapply runs_arrive; [exact Hy|done|lia..].
Qed.
Lemma idle_effect ms y : Forall idle ms → leaf_effect ms y y.
Proof.
  intros Hms. destruct (idle_total (sys_coin y) (mkResponse ms []) Hms) as (Hl & Hs & Hu).
  destruct (idle_tokens (mkResponse ms []) Hms) as [Hm Hb]. unfold total in *. simpl in *.
  split; done || lia.
Qed.

(** ** A call to the hub *)
Lemma hub_call loss y coins q env from msg r s' y' :
  runs loss y → contract_address env = hub → tells_hub hub y coins q →
  fair q env msg (sy_hub y) → execute q env (mkInfo from coins) msg (sy_hub y) = Ok (r, s') →
  leaf_effect (messages r) (with_hub s' (credit hub (received (sys_coin y) coins) y)) y' →
  runs loss y'.
Proof.
  intros [Hc Ht] Henv [Hans Htell] [Hfit Hcomp] Hrun Heff.
  assert (coin_of s' = coin_of (sy_hub y)) as Hcoin by by eapply coin_constant.
  rewrite credit_hub in Heff. destruct Heff as [Hh _ Hco Hst Hsu _]. unfold sys_coin in *. sys_fields.
  rewrite Hcoin in *. split.
  - assert (total (leaves (coin_of (sy_hub y))) r ≤ sy_coins y + received (coin_of (sy_hub y)) coins) as Hle.
    { eapply (leaves_covered q env (mkInfo from coins)); [exact Hrun|]. rewrite Henv. apply Hans. }
    assert (settle (coin_of (sy_hub y)) (received (coin_of (sy_hub y)) coins) r s' (chain_of y) =
      Some (mkChain s' (sy_coins y + received (coin_of (sy_hub y)) coins - total (leaves (coin_of (sy_hub y))) r)
        (sy_staked y'))) as Hset.
    { unfold settle, total in *. simpl. rewrite (proj2 (N.leb_le _ _)) by done.
      rewrite (proj2 (N.leb_le _ _)) by lia. simpl. do 2 f_equal. lia. }
    pose proof (chain_execute _ _ loss _ q env (mkInfo from coins) msg r s' _ Hc Henv Hans Hfit Hrun Hset) as Hc'.
    unfold chain_of. rewrite Hh. apply (chain_arrive _ _ _ _
      (sy_coins y' - (sy_coins y + received (coin_of (sy_hub y)) coins - total (leaves (coin_of (sy_hub y))) r))) in Hc'.
    simpl in Hc'. unfold total in *. by rewrite N.add_comm, N.sub_add in Hc' by lia.
  - unfold issue_of. rewrite Hh.
    replace (sy_supply y') with (sy_supply y + total mints r - total burns r) by (unfold total; lia).
    apply (issue_execute (issue_of y) q env (mkInfo from coins) msg); try done.
    unfold total. simpl. lia.
Qed.

(** Who may pay for a call: somebody outside, or the hub itself, which pays nothing. *)
Definition free_caller (from : Addr) (coins : list Coin) : Prop :=
  outside hub rewards from ∨ from = hub ∧ coins = [].
Lemma free_debit from coins d y y' :
  free_caller from coins → debit from (received d coins) y = Some y' → y' = y.
Proof.
  intros [Hout|[-> ->]]; [|apply debit_zero]. rewrite (debit_outside hub rewards) by done.
  by intros [= <-].
Qed.

(** The compounding at the end of a chain of calls. *)
Lemma compound_call loss y y' coins :
  runs loss y → dispatch [(rewards, WasmExecute hub (ToHub UpdateExchangeRate) coins)] y y' →
  runs loss y'.
Proof.
  intros Hy Hrun.
  inversion Hrun as [| | | | | | | | |from msg coins' q env r s' rest ? y1 ? Hdeb Henv Htell Hfair Hexec Hrest|]; subst.
  apply (debit_rewards hub rewards Hdistinct) in Hdeb as [Hle ->].
  assert (runs loss (with_fund (sy_fund y - received (sys_coin y) coins) y)) as Hy1
    by by eapply runs_arrive.
  rewrite app_nil_r in Hrest. eapply hub_call; [exact Hy1|done|exact Htell|exact Hfair|exact Hexec|].
  apply (dispatch_leaves hub rewards token Hdistinct); [|exact Hrest].
  simpl in Hexec. bind Hexec as u Hu. by eapply compound_leaf.
Qed.

Lemma rewards_responses q env info msg s r s' :
  Rewards.execute q env info msg s = Ok (r, s') →
  (msg ≠ ProcessRewards ∧ messages r = []) ∨ ∃ d bal, msg = ProcessRewards ∧
    query_balance q (contract_address env) d = Ok bal ∧
    messages r = [WasmExecute (sender info) (ToHub UpdateExchangeRate) [bal]].
Proof.
  intros Hrun. destruct msg; simpl in Hrun.
  - left. split; [done|]. bind Hrun as u Hu. bind Hrun. by apply cm_ret_ok in Hrun as [= -> ->].
  - left. split; [done|]. bind Hrun as u Hu. bind Hrun. by apply cm_ret_ok in Hrun as [= -> ->].
  - left. split; [done|]. bind Hrun as u Hu. bind Hrun as a Ha. bind Hrun as x Hx. bind Hrun.
    by apply cm_ret_ok in Hrun as [= -> ->].
  - right. bind Hrun as u Hu. unfold Rewards.execute_process_rewards in Hrun.
    bind Hrun as c Hc. bind Hrun as a Ha. bind Hrun as u2 Hu2.
    apply fail_if_ok, bool_decide_eq_false in Hu2. apply dec_stable in Hu2. subst a.
    bind Hrun as bal Hbal. apply cm_ret_ok in Hrun as [= -> ->].
    exists (rc_underlying_coin_denom c), bal. split; [done|]. split; [done|]. by destruct bal.
Qed.

Lemma rewards_call loss y y' from msg coins :
  runs loss y → free_caller from coins →
  dispatch [(from, WasmExecute rewards (ToRewards msg) coins)] y y' → runs loss y'.
Proof.
  intros Hy Hfree Hrun.
  inversion Hrun as [| | | | | | | | | |from' msg' coins' q env r s' rest ? y1 ? Hdeb Henv Htell Hexec Hrest]; subst.
  apply free_debit in Hdeb as ->; [|done]. rewrite app_nil_r in Hrest.
  set (y2 := with_rewards s' (credit rewards (received (sys_coin y) coins) y)) in *.
  assert (runs loss y2) as Hy2.
  { unfold y2. rewrite (credit_rewards hub rewards Hdistinct). by eapply runs_arrive. }
  apply rewards_responses in Hexec as [[_ Hmsg]|(d & bal & -> & _ & Hmsg)];
    unfold System.from_rewards in Hrest; rewrite Hmsg in Hrest.
  - by inversion Hrest; subst.
  - simpl in Hrest. assert (from = hub) as -> by by inversion Hrest.
    by eapply compound_call.
Qed.

Lemma hub_call_step loss y y' from msg coins :
  runs loss y → free_caller from coins →
  dispatch [(from, WasmExecute hub (ToHub msg) coins)] y y' →
  ∃ env r y1, contract_address env = hub ∧ hub_response env (messages r) ∧
    dispatch (from_hub hub r) y1 y' ∧
    (Forall leaf (messages r) → runs loss y') ∧ (Forall idle (messages r) → runs loss y1) ∧
    (msg = UpdateGlobalIndex → ∃ vs a, messages r = ((λ v, WithdrawDelegatorReward v) <$> vs) ++
      [WasmExecute a (ToRewards ProcessRewards) []]).
Proof.
  intros Hy Hfree Hrun.
  inversion Hrun as [| | | | | | | | |from' msg' coins' q env r s' rest ? y1 ? Hdeb Henv Htell Hfair Hexec Hrest|]; subst.
  apply free_debit in Hdeb as ->; [|done]. rewrite app_nil_r in Hrest.
  eexists env, r, _. split; [done|]. split; [by eapply execute_response|]. split; [exact Hrest|].
  split; [|split].
  - intros Hleaf. eapply hub_call; [exact Hy|done|exact Htell|exact Hfair|exact Hexec|].
    by eapply (dispatch_leaves hub rewards token Hdistinct).
  - intros Hidle. eapply hub_call; [exact Hy|done|exact Htell|exact Hfair|exact Hexec|].
    by apply idle_effect.
  - intros ->. simpl in Hexec. bind Hexec as u Hu. by eapply update_global_response.
Qed.

Lemma global_messages loss y y' vs a :
  runs loss y →
  dispatch ((λ m, (hub, m)) <$> (((λ v, WithdrawDelegatorReward v) <$> vs) ++
    [WasmExecute a (ToRewards ProcessRewards) []])) y y' → runs loss y'.
Proof.
  intros Hy Hrun. rewrite fmap_app in Hrun.
  apply (dispatch_app hub rewards token Hdistinct) in Hrun as (y1 & Hw & Hrest).
  assert (Forall idle ((λ v, WithdrawDelegatorReward (P := WasmBody) v) <$> vs)) as Hidle
    by (apply Forall_fmap, Forall_forall; by intros).
  apply (dispatch_leaves hub rewards token Hdistinct) in Hw; [|apply Forall_fmap, Forall_forall; by intros].
  apply runs_idle with (loss := loss) in Hw; [|done..]. simpl in Hrest.
  assert (a = rewards) as -> by by inversion Hrest.
  eapply rewards_call; [exact Hw|by right|exact Hrest].
Qed.

Lemma call_runs loss y y' from msg coins :
  runs loss y → free_caller from coins →
  dispatch [(from, WasmExecute hub (ToHub msg) coins)] y y' → runs loss y'.
Proof.
  intros Hy Hfree Hrun.
  destruct (hub_call_step _ _ _ _ _ _ Hy Hfree Hrun) as (env & r & y1 & Henv & Hresp & Hrest & Hleaf & Hidle & _).
  unfold System.from_hub in Hrest. destruct Hresp as [ms Hms|vs a|v w c].
  - by apply Hleaf.
  - eapply global_messages; [|exact Hrest]. apply Hidle, Forall_app. split; [|by repeat constructor].
    apply Forall_fmap, Forall_forall. by intros.
  - specialize (Hidle ltac:(by repeat constructor)).
    change (dispatch ([(hub, StakingRedelegate v w c)] ++
      [(hub, WasmExecute (contract_address env) (ToHub UpdateGlobalIndex) [])]) y1 y') in Hrest.
    apply (dispatch_app hub rewards token Hdistinct) in Hrest as (y2 & Hre & Hrest).
    apply (dispatch_leaf hub rewards token Hdistinct) in Hre; [|done].
    apply runs_idle with (loss := loss) in Hre; [|done|by repeat constructor]. rewrite Henv in Hrest.
    destruct (hub_call_step _ _ _ hub UpdateGlobalIndex [] Hre (or_intror (conj eq_refl eq_refl)) Hrest)
      as (env2 & r2 & y3 & _ & _ & Hrest2 & _ & Hidle2 & Hglobal).
    destruct (Hglobal eq_refl) as (vs & a & Hmsg). unfold System.from_hub in Hrest2. rewrite Hmsg in *.
    eapply global_messages; [|exact Hrest2]. apply Hidle2, Forall_app. split; [|by repeat constructor].
    apply Forall_fmap, Forall_forall. by intros.
Qed.

(** ** Instantiation

    The hub's first message, to itself, runs before its delegation is carried out.
    It asks for the validators only, so it runs the same after it. *)
Definition asks_validators (q : Querier) (coins : N) (staked : Coin) : Querier :=
  mkQuerier (λ _, Ok [mkDelegation EmptyString staked]) (λ _ _, Ok None) (query_all_validators q)
    (λ _ d, Ok (mkCoin d coins)) (λ _, Ok (mkTokenInfo 0)).

Lemma register_moves_nothing q env info v s r s' :
  execute q env info (RegisterValidator v) s = Ok (r, s') → messages r = [].
Proof.
  assert (returns (λ r, messages r = []) (execute q env info (RegisterValidator v))) as Hr;
    [|apply Hr]. simpl. unfold execute_register_validator. solve_returns ltac:(reflexivity).
Qed.

(** The hub has registered its validator; the rest of its messages is still to run. *)
Lemma init_registered env info msg r s q renv v r2 s2 coins staked :
  contract_address env = hub → instantiate env info msg empty_store = Ok (r, s) →
  contract_address renv = hub →
  execute q renv (mkInfo hub []) (RegisterValidator v) s = Ok (r2, s2) →
  total (leaves (coin_of s)) r ≤ received (coin_of s) (funds info) →
  total (unstakes (coin_of s)) r = 0 →
  coins = received (coin_of s) (funds info) - total (leaves (coin_of s)) r →
  staked = total (stakes (coin_of s)) r →
  chain_run rounding_fits hub 0 (mkChain s2 coins staked).
Proof.
  intros Henv Hinit Hrenv Hrun Hle Hun -> ->. set (d := coin_of s) in *.
  set (c0 := mkChain s (received d (funds info) - total (leaves d) r) (total (stakes d) r)).
  assert (chain_run rounding_fits hub 0 c0) as Hc.
  { eapply (chain_init _ _ env info msg r s); [done|done|]. fold d. unfold settle. simpl.
    rewrite Hun, (proj2 (N.leb_le _ _)), (proj2 (N.leb_le 0 _)) by lia. simpl.
    by rewrite N.sub_0_r. }
  pose proof (register_moves_nothing _ _ _ _ _ _ _ Hrun) as Hmsg.
  set (q' := asks_validators q (ch_coins c0) (mkCoin d (ch_staked c0))).
  eapply (chain_execute _ _ 0 c0 q' renv (mkInfo hub []) (RegisterValidator v) r2 s2); [exact Hc|done|..].
  - split; [cbv zeta; change (received _ (funds _)) with 0; by rewrite N.add_0_r|]. intros ds [= <-]. unfold stake_in. simpl.
    fold d. rewrite String.eqb_refl. by rewrite N.add_0_r.
  - intros [=].
  - exact Hrun.
  - fold d. unfold settle, total. rewrite Hmsg. simpl.
    rewrite !(proj2 (N.leb_le 0 _)), !N.add_0_r, !N.sub_0_r by apply N.le_0_l. done.
Qed.

Lemma init_runs env info msg r s rs y :
  contract_address env = hub → instantiate env info msg empty_store = Ok (r, s) →
  dispatch (from_hub hub r) (mkSystem s rs (received (coin_of s) (funds info)) 0 0 0 []) y → runs 0 y.
Proof.
  intros Henv Hinit Hrun. pose proof Hinit as Hspec.
  apply instantiate_spec in Hspec as (pay & raw & Hpay & _ & Hs & Hmsg).
  assert (coin_of s = im_underlying_coin_denom msg) as Hd by by rewrite Hs.
  unfold System.from_hub in Hrun. rewrite Hmsg in Hrun. simpl in Hrun. rewrite Henv in Hrun.
  inversion Hrun as [| | | | | | | | |from' msg' coins' q renv r2 s2 rest ? y1 ? Hdeb Hrenv [_ Htell] Hfair Hexec Hrest|]; subst from' msg' coins' rest.
  apply debit_zero in Hdeb as ->. cbn [sy_hub] in Hexec.
  pose proof (register_moves_nothing _ _ _ _ _ _ _ Hexec) as Hmsg2.
  unfold System.from_hub in Hrest. rewrite Hmsg2 in Hrest. simpl in Hrest.
  change (dispatch ((λ m, (hub, m)) <$> [StakingDelegate (im_validator msg) pay;
    SetWithdrawAddress (im_rewards_contract msg)]) (with_hub s2 (credit hub 0
      (mkSystem s rs (received (coin_of s) (funds info)) 0 0 0 []))) y) in Hrest.
  apply (dispatch_leaves hub rewards token Hdistinct) in Hrest; [|by repeat constructor].
  rewrite credit_hub in Hrest. destruct Hrest as [Hh _ Hc Hst Hsu _]. unfold sys_coin in *. sys_fields.
  assert (coin_of s2 = coin_of s) as Hcoin by by eapply coin_constant.
  pose proof (received_found _ _ _ Hpay) as Hgot. rewrite <- Hd in Hgot.
  pose proof (received_payment _ _ _ Hpay) as Hle. rewrite <- Hd in Hle.
  rewrite Hcoin in *. cbn [sum_of foldr leaves stakes unstakes mints burns] in *. rewrite Hgot in *.
  assert (total (leaves (coin_of s)) r = amount pay ∧ total (stakes (coin_of s)) r = amount pay ∧
    total (unstakes (coin_of s)) r = 0) as (Hl & Hsk & Hun).
  { unfold total. rewrite Hmsg. cbn [sum_of foldr leaves stakes unstakes].
    rewrite Hgot. change (received _ []) with 0. lia. }
  split.
  - unfold chain_of. rewrite Hh. replace (sy_staked y) with (amount pay) by lia.
    pose proof (init_registered _ _ _ _ _ _ _ _ _ _ _ _ Henv Hinit Hrenv Hexec ltac:(lia) Hun eq_refl eq_refl) as Hrun2.
    rewrite Hl, Hsk in Hrun2.
    apply (chain_arrive _ _ _ _ (sy_coins y - (received (coin_of s) (funds info) - amount pay))) in Hrun2.
    simpl in Hrun2. by rewrite N.add_comm, N.sub_add in Hrun2 by lia.
  - unfold issue_of. rewrite Hh. replace (sy_supply y) with (0 + total mints r2 - total burns r2)
      by (unfold total; rewrite Hmsg2; simpl; lia).
    apply (issue_execute (mkIssue s 0) q renv (mkInfo hub []) (RegisterValidator (im_validator msg)));
      [by eapply issue_init|exact Htell|by intros [=]|exact Hexec|].
    unfold total. rewrite Hmsg2. done.
Qed.

(** ** The refinement *)
Lemma sys_run_refines loss y : sys_run hub rewards token loss y → runs loss y.
Proof.
  induction 1 as [env info msg r s rinfo rmsg rr rs y Henv Hinit _ Hrun
    |loss from msg coins y y' _ IH Hout Hrun|loss from msg coins y y' _ IH Hout Hrun
    |loss msg r s' y _ [Hc Ht] Hmig|loss to n y _ IH|loss n y _ [Hc Ht] Hn
    |loss n y _ [Hc Ht] Hz Hb|loss n y _ [Hc Ht] Hn].
  - by eapply init_runs.
  - eapply call_runs; [exact IH|by left|exact Hrun].
  - eapply rewards_call; [exact IH|by left|exact Hrun].
  - split; [exact (chain_migrate _ _ _ _ _ _ _ Hc Hmig)|exact (issue_migrate _ _ _ _ Ht Hmig)].
  - unfold System.credit. repeat case_decide; [|by eapply runs_arrive|done].
    eapply runs_arrive; [exact IH|done|simpl; lia|done..].
  - split; [exact (chain_slash _ _ _ _ _ Hc Hn)|exact Ht].
  - split; [exact Hc|exact (issue_deploy (issue_of y) n Ht Hz Hb)].
  - split; [exact Hc|exact (issue_burn (issue_of y) n Ht Hn)].
Qed.
End runs.
