(* ===== verification/Compounding.v ===== *)
(** * The auto-compounding transaction

    UpdateGlobalIndex collects the staking rewards in the rewards contract and has
    it process them; that calls the hub's UpdateExchangeRate, which delegates them.
    The three handlers together, with the chain's messages in between. *)
From S2P Require Import Prelude Bytes Cosmwasm Protocol SignedInteger HubState HubStateFacts.
From S2P Require Import HubMath HubCore HubConfig HubBond HubUnbond HubWithdraw.
From S2P Require Import HubAutoCompound HubContract RewardsContract HubCoreFacts.
From S2P Require Import HubBondFacts.
From S2P Require Import HubUnbondFacts HubAdminFacts HubWithdrawFacts HubInvariant.
From S2P Require Import HubPayments.
From S2P Require Import Book HubSolvency Chain ChainFacts ChainRuns Backing System.
From S2P Require Import SystemFacts.
From S2P Require Import SystemRuns.

Section compounding.
  Context `{H : Host} {HS : HostSpec H} `{HK : HookSerde}.
  Context (hub rewards token : Addr) (Hdistinct : hub ≠ rewards).

Abbreviation dispatch := (dispatch hub rewards token).

(** From [y] to [y'] the validators paid [log] and rewards of [rw] coins were
    compounded: less the protocol fee they were staked and added to the bond, and the
    rate grew by their share. *)
Record compounded (params : Parameters) (cb : CurrentBatch) (st : State) (rw : N)
    (log : list (string * N)) (y y' : System) : Prop := {
  co_fee : protocol_cut params rw ≤ rw;
  co_state : st_state (sy_hub y') =
    Some (compounded_state (rw - protocol_cut params rw) (sy_supply y + requested_with_fee cb) st);
  co_staked : sy_staked y' = sy_staked y + (rw - protocol_cut params rw);
  co_supply : sy_supply y' = sy_supply y;
  co_coins : sy_coins y ≤ sy_coins y';
  co_paid : sy_paid y' = sy_paid y ++ log;
}.

(** The handler, paid with one coin. *)
Lemma compound_handler q env from c s r s' params cb st :
  st_parameters s = Some params → st_state s = Some st → st_current_batch s = Some cb →
  execute_update_exchange_rate q env (mkInfo from [c]) s = Ok (r, s') →
  let d := underlying_coin_denom params in let fee := protocol_cut params (amount c) in
  denom c = d ∧ received d [c] = amount c ∧ fee ≤ amount c ∧
  (∃ ti, query_total_issued q s = Ok ti ∧
    s' = HubState.set_state (compounded_state (amount c - fee) (ti + requested_with_fee cb) st) s) ∧
  total (leaves d) r = amount c ∧ total (stakes d) r = amount c - fee ∧ total (unstakes d) r = 0 ∧
  total mints r = 0 ∧ total burns r = 0 ∧ Forall asks_nothing (messages r).
Proof.
  intros Hp Hst Hcb Hrun. apply execute_update_exchange_rate_spec in Hrun
    as (st0 & ? & ? & params0 & pay & cb0 & ti & ds & coll & Hst0 & _ & _ & _ & Hp0 & Hcb0 & Hpay & Hti & _ & _ &
        Hfee & -> & _ & staked & Hmsg & Hstaked).
  assert (st0 = st) as -> by congruence. assert (params0 = params) as -> by congruence.
  assert (cb0 = cb) as -> by congruence. cbv zeta.
  pose proof (received_found _ _ _ Hpay) as Hgot. apply find_some in Hpay as [Hin [Hd _]%andb_prop].
  destruct Hin as [<-|[]]. apply String.eqb_eq in Hd.
  destruct (compound_totals _ _ _ c staked ds r Hfee Hmsg Hstaked) as (Hl & Hs & Hun).
  do 3 (split; [done|]). split; [by exists ti|]. do 3 (split; [done|]). unfold total. rewrite Hmsg.
  unfold fee_msgs in *. destruct (_ =? 0), (_ =? 0);
    first [destruct Hstaked as (dl & _ & ->)|subst staked]; by repeat constructor.
Qed.

(** The last call: the rewards contract pays with one coin. *)
Lemma compound_effect y y' c params cb st :
  st_parameters (sy_hub y) = Some params → st_state (sy_hub y) = Some st →
  st_current_batch (sy_hub y) = Some cb →
  dispatch [(rewards, WasmExecute hub (ToHub UpdateExchangeRate) [c])] y y' →
  denom c = sys_coin y ∧ compounded params cb st (amount c) [] y y'.
Proof.
  intros Hp Hst Hcb Hrun.
  inversion Hrun as [| | | | | | | | |from msg coins q env r s' rest ? y1 ? Hdeb Henv Htell Hfair Hexec Hrest|]; subst from msg coins rest.
  apply (debit_rewards hub rewards Hdistinct) in Hdeb as [Hle ->]. rewrite app_nil_r in Hrest.
  cbn [execute] in Hexec. apply reads_bind_ok in Hexec as (u & _ & Hexec).
  pose proof (compound_leaf _ _ _ _ _ _ Hexec) as Hleaf.
  apply (compound_handler _ _ _ _ _ _ _ params cb st) in Hexec
    as (Hd & Hgot & Hfee & (ti & Hti & ->) & Hl & Hs & Hun & Hm & Hb & Hask); [|done..].
  pose proof (dispatch_asks_nothing hub rewards token Hdistinct _ _ _ Hask Hrest) as Hpaid.
  apply (dispatch_leaves hub rewards token Hdistinct) in Hrest; [|exact Hleaf].
  pose proof (th_token _ _ _ _ Htell _ _ eq_refl (supply_of_query _ _ _ Hti)) as ->.
  assert (sys_coin y = underlying_coin_denom params) as Hcoin by by apply coin_of_params.
  rewrite credit_hub in Hrest, Hpaid. destruct Hrest as [Hh _ Hc Hsk Hsu _].
  unfold total, sys_coin in *. sys_fields. cbn [is_supply issue_of sy_supply with_fund] in *.
  change (coin_of (HubState.set_state _ _)) with (coin_of (sy_hub y)) in *.
  rewrite Hcoin, Hgot in *. split; [done|]. split; [done|by rewrite Hh|lia..|by rewrite app_nil_r].
Qed.

(** The call before it: the hub asks the rewards contract to process. *)
Lemma process_effect y y' a params cb st :
  st_parameters (sy_hub y) = Some params → st_state (sy_hub y) = Some st →
  st_current_batch (sy_hub y) = Some cb →
  dispatch [(hub, WasmExecute a (ToRewards ProcessRewards) [])] y y' →
  compounded params cb st (sy_fund y) [] y y'.
Proof.
  intros Hp Hst Hcb Hrun. assert (a = rewards) as -> by by inversion Hrun.
  inversion Hrun as [| | | | | | | | | |from msg coins q env r s' rest ? y1 ? Hdeb Henv Htell Hexec Hrest]; subst from msg coins rest.
  apply debit_zero in Hdeb as ->. rewrite app_nil_r, (credit_rewards hub rewards Hdistinct) in Hrest.
  rewrite (credit_rewards hub rewards Hdistinct) in Htell.
  apply rewards_responses in Hexec as [[? _]|(d & bal & _ & Hbal & Hmsg)]; [done|].
  unfold System.from_rewards in Hrest. rewrite Hmsg in Hrest.
  rewrite Henv in Hbal. apply Htell in Hbal as [Hden Ham]. simpl in Hrest.
  eapply compound_effect in Hrest as [Hcoin [Hfee Hs Hsk Hsu Hc Hpaid]]; [|done..]. sys_fields.
  assert (amount bal = sy_fund y) as Hrw.
  { rewrite Ham by (rewrite <- Hden; exact Hcoin). sys_fields. change (received _ []) with 0. apply N.add_0_r. }
  rewrite Hrw in *. by split.
Qed.

(** What UpdateGlobalIndex itself writes: the time. *)
Lemma update_global_writes q env s r s' st :
  st_state s = Some st → execute_update_global q env s = Ok (r, s') →
  s' = HubState.set_state (set_last_index_modification (block_time env) st) s.
Proof.
  intros Hst Hrun. unfold execute_update_global in Hrun.
  bind Hrun as c Hc. bind Hrun as raw Hraw. bind Hrun as a Ha. bind Hrun as msgs Hmsgs.
  bind Hrun as u s1 Hu. apply cm_ret_ok in Hrun as [= -> ->].
  apply update_state_ok in Hu as (st0 & st' & Hst0 & [= <-] & [= _ ->]).
  by assert (st0 = st) as -> by congruence.
Qed.

(** The messages of UpdateGlobalIndex: the rewards of every delegation are withdrawn,
    then the rewards contract processes them. *)
Lemma global_rest q env from coins s r s1 y y' ds params cb st :
  st_parameters s = Some params → st_state s = Some st → st_current_batch s = Some cb →
  query_all_delegations q (contract_address env) = Ok ds →
  execute q env (mkInfo from coins) UpdateGlobalIndex s = Ok (r, s1) → sy_hub y = s1 →
  dispatch (from_hub hub r) y y' →
  ∃ log, log.*1 = validator <$> ds ∧
    compounded params cb (set_last_index_modification (block_time env) st)
      (sy_fund y + sum_of snd log) log y y'.
Proof.
  intros Hp Hst Hcb Hds Hexec Hy Hrun. cbn [execute] in Hexec.
  apply reads_bind_ok in Hexec as (u & _ & Hexec).
  pose proof (update_global_writes _ _ _ _ _ _ Hst Hexec) as ->.
  apply update_global_messages in Hexec as (ds' & a & Hmsg & Hds').
  apply Hds' in Hds as <-. clear Hds'. unfold System.from_hub in Hrun. rewrite Hmsg, fmap_app in Hrun.
  apply (dispatch_app hub rewards token Hdistinct) in Hrun as (y2 & Hw & Hrest).
  assert ((λ m, (hub, m)) <$> map (λ d, WithdrawDelegatorReward (validator d)) ds =
    (λ v, (hub, WithdrawDelegatorReward (P := WasmBody) v)) <$> (validator <$> ds)) as Heq
    by (clear; induction ds as [|d ds IH]; [done|]; simpl; by f_equal).
  rewrite Heq in Hw.
  apply dispatch_withdraws in Hw as (log & Hlog & ->). exists log. split; [exact Hlog|].
  apply (process_effect _ _ _ params cb (set_last_index_modification (block_time env) st)) in Hrest
    as [Hfee Hst' Hsk Hsu Hc Hpaid]; [|by simpl; rewrite Hy..].
  rewrite app_nil_r in Hpaid. by split.
Qed.

(** The transaction: anybody starts it. *)
Lemma global_effect q env y y' from coins r s1 ds params cb st :
  contract_address env = hub → query_all_delegations q hub = Ok ds →
  st_parameters (sy_hub y) = Some params → st_state (sy_hub y) = Some st →
  st_current_batch (sy_hub y) = Some cb →
  execute q env (mkInfo from coins) UpdateGlobalIndex (sy_hub y) = Ok (r, s1) →
  dispatch (from_hub hub r) (with_hub s1 (credit hub rewards hub (received (sys_coin y) coins) y)) y' →
  ∃ log, log.*1 = validator <$> ds ∧
    compounded params cb (set_last_index_modification (block_time env) st)
      (sy_fund y + sum_of snd log) log y y'.
Proof.
  intros Henv Hds Hp Hst Hcb Hexec Hrun. rewrite <- Henv in Hds. rewrite credit_hub in Hrun.
  destruct (global_rest q env from coins (sy_hub y) r s1
    (with_hub s1 (with_coins (sy_coins y + received (sys_coin y) coins) y)) y' ds params cb st
    Hp Hst Hcb Hds Hexec eq_refl Hrun)
    as (log & Hlog & [Hfee Hst' Hsk Hsu Hc Hpaid]).
  exists log. split; [exact Hlog|]. sys_fields. split; done || lia.
Qed.
End compounding.
