(* ===== verification/HubProgress.v ===== *)
(** * Progress: a withdrawal that is due succeeds

    The other files say what holds when a handler succeeds; here are conditions
    under which the withdrawal cannot fail: as much as is due has arrived, or
    less (slashing), and every due batch holds something. *)
From S2P Require Import Prelude Bytes Cosmwasm Protocol SignedInteger HubState HubStateFacts.
From S2P Require Import HubMath HubCore HubConfig HubBond HubUnbond HubWithdraw.
From S2P Require Import HubAutoCompound HubContract HubCoreFacts HubBondFacts HubUnbondFacts.
From S2P Require Import HubAdminFacts HubWithdrawFacts HubInvariant HubPayments Book.
From S2P Require Import HubSolvency.
From S2P Require Import HubTypes.

Section progress.
  Context `{H : Host} {HS : HostSpec H}.

(** ** Reading and deleting claims *)
Lemma get_finished_amount_total s a l :
  claims s a l → u128 (claims_payout s l) → get_finished_amount a s = Ok (claims_payout s l).
Proof.
  intros (k & Hk & Hl). unfold get_finished_amount, claims_payout. rewrite Hk. simpl.
  match goal with
  | |- _ → fold_o ?g ?m _ = _ =>
      enough (∀ acc, u128 (acc + sum_of (claim_payout s) (List.filter (claim_released s) l)) →
        fold_o g m acc = Ok (acc + sum_of (claim_payout s) (List.filter (claim_released s) l)))
        as Hgen by exact (Hgen 0)
  end.
  induction Hl as [|[kb v] [b v'] r l (Hb & Hkb & Hv) Hl IH]; intros acc Hacc; simpl in *.
  - by rewrite N.add_0_r.
  - rewrite (u64_from_to b kb) by done. simpl. rewrite try_read_history. simpl.
    subst v'. destruct (claim_released s (b, v)) eqn:Hc; unfold claim_released in Hc; simpl in Hc.
    + destruct (hist s b) as [h|] eqn:Hh; [|done]. rewrite Hc. simpl in *. unfold u128 in Hacc.
      assert (claim_payout s (b, v) = v * atomics (withdraw_rate h) / dec_unit) as Hp
        by (unfold claim_payout, claim_rate; simpl; by rewrite Hh).
      rewrite (proj2 (Uint128_mul_Decimal_ok v (withdraw_rate h) _)) by (split; [done|lia]). simpl.
      rewrite (proj2 (Uint128_add_ok _ _ _)) by (split; [done|lia]). simpl.
      rewrite IH by (unfold u128; lia). f_equal. lia.
    + destruct (hist s b) as [h|]; [rewrite Hc|]; by apply IH.
Qed.

Lemma remove_unbond_wait_list_total l a s :
  Forall (λ b, b < u64_bound) l → ∃ s', remove_unbond_wait_list l a s = Ok ((), s').
Proof.
  intros Hl. unfold remove_unbond_wait_list. destruct (string_roundtrip a) as (ka & Hka & _).
  setoid_rewrite lift_bind_ok. setoid_rewrite Hka.
  enough (∃ s', remove_batches ka l s = Ok ((), s')) as (s' & Hs') by (exists s', ka; done).
  revert s; induction Hl as [|b l Hb Hl IH]; intros s; [by exists s|]. simpl.
  destruct (u64_roundtrip b Hb) as (kb & Hkb & _).
  destruct (IH (set_wait (<[ka:=delete kb (wait_bucket s ka)]> (st_wait s)) s)) as (s' & Hs').
  exists s'. apply lift_bind_ok. exists kb. split; [done|]. by apply writes_bind_ok.
Qed.

(** ** The two loops *)

(** A due batch that holds something, at widths the types allow. *)
Definition payable (jh : N * UnbondHistory) : Prop :=
  0 < unbonded_of jh ∧ 0 < h_amount jh.2 ∧ dec128 (withdraw_rate jh.2).

Lemma sum_unbonded_total fuel t i total count s D :
  Due s t i D → (length D < fuel)%nat → u128 (total + sum_of unbonded_of D) →
  count + N.of_nat (length D) < u64_bound →
  sum_unbonded fuel t i total count s =
    Ok (total + sum_of unbonded_of D, count + N.of_nat (length D)).
Proof.
  intros HD. revert fuel total count.
  induction HD as [i Hi|i h D Hb Hh Ht Hr HD IH]; intros fuel total count Hfuel Htot Hcount.
  - destruct fuel; [lia|]. rewrite sum_unbonded_idle by done. simpl. by rewrite !N.add_0_r.
  - destruct fuel as [|fuel]; [lia|]. simpl in *. rewrite try_read_history. simpl.
    rewrite Hh, (proj2 (N.ltb_ge _ _)), Hr by done. simpl.
    assert (unbonded_of (i, h) = h_amount h * atomics (withdraw_rate h) / dec_unit) as Hu by done.
    unfold u128 in Htot. rewrite Hu in *.
    rewrite (proj2 (Uint128_mul_Decimal_ok (h_amount h) (withdraw_rate h) _)) by (split; [done|lia]). simpl.
    rewrite (proj2 (Uint128_add_ok total _ _)) by (split; [done|lia]). simpl.
    rewrite (proj2 (u64_add_ok count 1 _)), (proj2 (u64_add_ok i 1 _)) by (split; [done|lia]). simpl.
    rewrite IH; [|lia|unfold u128; lia|lia]. do 2 f_equal; lia.
Qed.

(** The rate of a batch when no more than due arrived. *)
Lemma new_rate_total T A jh :
  payable jh → unbonded_of jh ≤ T → 0 < A → A ≤ T → u128 T → ∃ r, new_rate (slash_of T A) T jh r.
Proof.
  intros (Hu & Hh & Hrate) HuT HA HAT HT. unfold u128, dec128 in *.
  set (u := unbonded_of jh) in *.
  enough (∃ a, a ≤ u ∧ actual_unbonded_of_batch (slash_of T A) T u = Ok a) as (a & Hau & Ha).
  { exists (mkDecimal (a * dec_unit / h_amount jh.2)). exists a. split; [done|].
    apply Decimal_from_ratio_ok. split; [lia|]. split; [done|].
    eapply N.le_lt_trans; [|exact Hrate].
    transitivity (u * dec_unit / h_amount jh.2);
      [apply N.Div0.div_le_mono, N.mul_le_mono_r; done|].
    apply N.Div0.div_le_upper_bound. unfold u, unbonded_of.
    rewrite (N.mul_comm _ dec_unit). apply N.Div0.mul_div_le. }
  unfold actual_unbonded_of_batch, slash_of. rewrite (proj2 (N.leb_le A T)) by done. simpl.
  assert (u * dec_unit / T ≤ dec_unit) as Hw by (apply N.Div0.div_le_upper_bound; by apply N.mul_le_mono_r).
  rewrite (proj2 (Decimal_from_ratio_ok u T _)) by (split; [lia|split; [done|unfold u128_bound, dec_unit in *; lia]]).
  simpl. pose proof (share_upper (T - A) u T ltac:(lia)) as Hup.
  set (x := (T - A) * (u * dec_unit / T) / dec_unit) in *.
  assert (x ≤ T - A) as Hx.
  { unfold x. apply N.Div0.div_le_upper_bound. rewrite (N.mul_comm dec_unit). by apply N.mul_le_mono_l. }
  assert (x < u128_bound) as Hxb
    by (eapply N.le_lt_trans; [exact Hx|]; eapply N.le_lt_trans; [apply N.le_sub_l|exact HT]).
  rewrite (proj2 (Uint128_mul_Decimal_ok (T - A) _ x)) by done. simpl. clearbody x.
  destruct (N.eqb_spec (T - A) 0) as [Hz|Hz]; simpl.
  - rewrite from_subtraction_eq. assert (x = 0) as -> by lia.
    rewrite (proj2 (N.leb_le 0 u)) by lia. simpl. exists (u - 0). split; [lia|done].
  - assert (x < u) as Hxu.
    { apply (N.mul_lt_mono_pos_l T); [lia|]. eapply N.le_lt_trans; [exact Hup|].
      apply N.mul_lt_mono_pos_r; lia. }
    rewrite (proj2 (Uint128_add_ok x 1 _)) by (split; [done|lia]). simpl.
    rewrite from_subtraction_eq, (proj2 (N.leb_le _ _)) by lia. simpl.
    exists (u - (x + 1)). split; [lia|done].
Qed.

Lemma release_batches_total fuel t i sl T lp s D :
  Due s t i D → i < u64_bound → (length D < fuel)%nat →
  Forall (λ jh, u128 (unbonded_of jh) ∧ ∃ r, new_rate sl T jh r) D →
  ∃ x, release_batches fuel t i sl T lp s = Ok x.
Proof.
  intros HD. revert fuel lp s HD.
  induction D as [|[j h] D IH] in i |- *; intros fuel lp s HD Hib Hfuel Hall;
    (destruct fuel as [|fuel]; [lia|]); cbn [release_batches].
  - inversion HD as [? Hstop|]; subst. unfold is_due in Hstop.
    setoid_rewrite reads_bind_ok. setoid_rewrite try_read_history.
    eenough (∃ x, _ = Ok x) as (x & Hx) by (exists x, (hist s i); split; [done|exact Hx]).
    destruct (hist s i) as [h|]; [|by eexists].
    destruct (N.ltb_spec t (h_time h)); [by eexists|]. destruct (released h); [by eexists|].
    by rewrite (proj2 (N.leb_le _ _)) in Hstop.
  - inversion HD as [|? ? ? Hb Hh Ht Hrel HD']; subst.
    apply Forall_cons in Hall as [[Hu (r & a & Ha & Hr)] Hall]. simpl in Hr.
    set (s2 := set_history (<[to_be_bytes j:=release r h]> (st_history s)) s).
    assert (Due s2 t (j + 1) D) as HD2.
    { apply (Due_hist_ext s); [done|done|]. intros k ??. unfold s2.
      rewrite store_history_hist by lia. by rewrite decide_False by lia. }
    destruct (IH (j + 1) fuel j s2 HD2 Hb ltac:(simpl in Hfuel; lia) Hall) as (x & Hx).
    exists x. apply reads_bind_ok. exists (Some h). rewrite try_read_history, Hh. split; [done|].
    rewrite (proj2 (N.ltb_ge _ _)), Hrel by done. simpl.
    apply lift_bind_ok. exists (unbonded_of (j, h)).
    split; [by apply Uint128_mul_Decimal_ok|].
    apply lift_bind_ok. exists a. split; [done|]. apply lift_bind_ok. exists r. split; [done|].
    apply writes_bind_ok. apply lift_bind_ok. exists (j + 1). split; [by apply u64_add_ok|done].
Qed.

(** The number of due batches never exceeds the size of the history. *)
Lemma Due_length s t i D : Due s t i D → i < u64_bound → (length D ≤ size (st_history s))%nat.
Proof.
  intros HD Hi. apply (present_keys_le_size _ i). intros k Hk.
  pose proof (Due_bound _ _ _ _ Hi HD). split; [lia|].
  assert (i + N.of_nat k ∈ D.*1) as Hin by (apply (Due_ids _ _ _ _ HD); lia).
  apply list_elem_of_fmap in Hin as ([j h] & Hj & Hin). simpl in Hj. subst j.
  destruct (Due_hist _ _ _ _ _ _ HD Hin) as [Hh _]. by exists h.
Qed.

(** Releasing cannot fail when no more than due arrived, but something did - or
    nothing is due. *)
Lemma process_total t bal s cb st D :
  hub_inv_at s cb st → Due s t (last_processed_batch st + 1) D → Forall payable D →
  (D = [] ∨ 0 < arrived st bal ≤ sum_of unbonded_of D) →
  u128 (arrived st bal) → u128 (sum_of unbonded_of D) → ∃ s1, process_withdraw_rate t bal s = Ok ((), s1).
Proof.
  intros Hi HD Hpay Hsome Ha Hwidth. pose proof (inv_st _ _ _ Hi) as Hst.
  assert (last_processed_batch st + 1 < u64_bound) as Hb
    by (pose proof (inv_processed _ _ _ Hi); pose proof (inv_bound _ _ _ Hi); lia).
  destruct (decide (D = [])) as [->|Hne].
  { eexists. apply process_idle; try done. by inversion HD. }
  destruct Hsome as [|[H0 Hle]]; [done|].
  pose proof (Due_bound _ _ _ _ Hb HD) as Hlen. pose proof (Due_length _ _ _ _ HD Hb) as Hsize.
  destruct (release_batches_total (S (size (st_history s))) t (last_processed_batch st + 1)
    (slash_of (sum_of unbonded_of D) (arrived st bal)) (sum_of unbonded_of D)
    (last_processed_batch st) s D HD Hb ltac:(lia)) as ([last s1] & Hrel).
  { apply Forall_forall. intros jh Hin. rewrite Forall_forall in Hpay.
    pose proof (sum_of_elem unbonded_of D jh Hin). split; [by eapply u128_le|].
    apply new_rate_total; auto. }
  eexists. unfold process_withdraw_rate.
  apply reads_bind_ok. exists st. split; [by apply ok_or_ok|].
  apply lift_bind_ok. eexists. split; [apply from_subtraction_eq|].
  apply lift_bind_ok. exists (arrived st bal). split.
  { apply Uint128_add_ok. unfold arrived in *. by destruct (_ <=? _). }
  apply lift_bind_ok. exists (last_processed_batch st + 1). split; [by apply u64_add_ok|].
  apply reads_bind_ok. exists (S (size (st_history s))). split; [done|].
  apply reads_bind_ok. exists (0 + sum_of unbonded_of D, 0 + N.of_nat (length D)).
  split; [apply sum_unbonded_total; try done; lia|]. rewrite !N.add_0_l.
  apply cm_bind_ok. exists last, s1. split; [|by apply writes_ok].
  cbn [fst snd]. rewrite (proj2 (N.leb_le 1 _)) by (destruct D; [done|simpl; lia]).
  apply lift_bind_ok. eexists. split; [apply from_subtraction_eq|exact Hrel].
Qed.

(** After the release, a withdrawal fails only for a user without claims. *)
Lemma withdraw_total q env info s params bal s1 l cb st :
  hub_inv_at s cb st → st_parameters s = Some params → unbonding_period params ≤ block_time env →
  query_balance q (contract_address env) (underlying_coin_denom params) = Ok bal → coin_ok bal →
  process_withdraw_rate (block_time env - unbonding_period params) (amount bal) s = Ok ((), s1) →
  claims s1 (sender info) l → 0 < claims_payout s1 l ≤ amount bal →
  ∃ r s', execute_withdraw_unbonded q env info s = Ok (r, s') ∧
    messages r = [BankSend (sender info)
      [mkCoin (underlying_coin_denom params) (claims_payout s1 l)]].
Proof.
  intros Hi Hp Ht Hbal Hbalok Hproc Hl [Hpos Hle].
  destruct (inv_process _ _ _ _ _ _ Hi Hproc) as (D & rs & _ & _ & _ & _ & Hi1).
  set (ids := (List.filter (claim_released s1) l).*1).
  destruct (remove_unbond_wait_list_total ids (sender info) s1) as (s2 & Hrm).
  { apply Forall_forall. intros b Hin. by eapply claims_ids_bound. }
  destruct (remove_unbond_wait_list_frame _ _ _ _ Hrm) as [w ->].
  eexists (mkResponse _ _), _. split; [|reflexivity]. unfold execute_withdraw_unbonded.
  apply reads_bind_ok. exists params. split; [by apply ok_or_ok|].
  apply lift_bind_ok. eexists. split; [by apply u64_sub_ok|].
  apply lift_bind_ok. exists bal. split; [done|].
  apply cm_bind_ok. exists (), s1. split; [exact Hproc|].
  apply reads_bind_ok. exists (claims_payout s1 l). split.
  { apply (unwrap_ok (get_finished_amount _ _)). apply get_finished_amount_total; [done|].
    by apply (u128_le _ (amount bal)). }
  apply lift_bind_ok. exists (). split; [apply fail_if_ok, N.eqb_neq; lia|].
  apply reads_bind_ok. exists ids. split; [by apply get_unbond_batches_claims|].
  apply cm_bind_ok. eexists (), _. split; [exact Hrm|].
  apply lift_bind_ok. eexists. split; [by apply Uint128_checked_sub_ok|].
  apply cm_bind_ok. eexists (), _. split; [|by apply cm_ret_ok].
  apply update_state_ok. eexists _, _. split; [apply (inv_st _ _ _ Hi1)|]. by split.
Qed.
End progress.
