(* ===== verification/HubWorking.v ===== *)
(** * A hub in working order

    What the progress files share: the slashing check and the update of the rate
    cannot fail, and what holds after the check. *)
From S2P Require Import Prelude Bytes Cosmwasm Protocol SignedInteger HubState HubStateFacts.
From S2P Require Import HubMath HubCore HubConfig HubBond HubUnbond HubWithdraw.
From S2P Require Import HubAutoCompound HubContract HubCoreFacts HubBondFacts HubUnbondFacts.
From S2P Require Import HubAdminFacts HubWithdrawFacts HubInvariant HubTypes.

Section working.
  Context `{H : Host} {HS : HostSpec H}.

(** ** The parts *)
Lemma update_exchange_rate_total ti rq st :
  u128 (ti + rq) → rate_of (total_bond_amount st) (ti + rq) < u128_bound →
  update_exchange_rate ti rq st =
    Ok (set_exchange_rate (mkDecimal (rate_of (total_bond_amount st) (ti + rq))) st).
Proof.
  unfold update_exchange_rate, rate_of, u128. intros Hsum Hrate.
  rewrite (proj2 (Uint128_add_ok ti rq _)) by (split; [done|exact Hsum]). simpl.
  destruct (_ || _) eqn:Hz; [by rewrite Decimal_one_eq|].
  apply orb_false_iff in Hz as [_ Hz%N.eqb_neq].
  by rewrite (proj2 (Decimal_from_ratio_ok _ _ _)) by (split; [exact Hz|by split]).
Qed.

Lemma sum_delegations_total coin ds :
  u128 (stake_in coin ds) → sum_delegations coin ds = Ok (stake_in coin ds).
Proof.
  unfold sum_delegations, stake_in. intros Hb.
  set (f := λ d, if String.eqb (denom (del_amount d)) coin then amount (del_amount d) else 0) in *.
  rewrite <- (N.add_0_l (sum_of f ds)) in Hb |- *. revert Hb.
  generalize 0 as acc. induction ds as [|d ds IH]; intros acc Hb.
  - simpl. by rewrite N.add_0_r.
  - change (sum_of f (d :: ds)) with (f d + sum_of f ds) in *. simpl.
    unfold u128 in *. assert (f d = if String.eqb (denom (del_amount d)) coin
      then amount (del_amount d) else 0) as Hf by done.
    destruct (String.eqb _ _); rewrite Hf in *.
    + rewrite (proj2 (Uint128_add_ok acc _ _)) by (split; [done|lia]). simpl.
      rewrite IH by (unfold u128; lia). f_equal. lia.
    + simpl. by rewrite IH by (unfold u128; lia).
Qed.

Lemma rate_of_mono a b supply :
  0 < b → a ≤ b → rate_of b supply < u128_bound → rate_of a supply < u128_bound.
Proof.
  unfold rate_of. intros Hb Hle Hrate. rewrite (proj2 (N.eqb_neq b 0)) in Hrate by lia.
  destruct (N.eqb_spec supply 0); [by rewrite orb_true_r|]. destruct (N.eqb_spec a 0); [done|].
  simpl in *. eapply N.le_lt_trans; [|exact Hrate].
  apply N.Div0.div_le_mono, N.mul_le_mono_r; done.
Qed.

Lemma slashing_total q env s params cb st ds supply :
  st_parameters s = Some params → st_current_batch s = Some cb → st_state s = Some st →
  query_all_delegations q (contract_address env) = Ok ds → ds ≠ [] →
  let stake := stake_in (underlying_coin_denom params) ds in
  let claims := supply + requested_with_fee cb in
  u128 stake → query_total_issued q s = Ok supply → u128 claims →
  0 < total_bond_amount st → rate_of (total_bond_amount st) claims < u128_bound →
  slashing q env s = Ok ((), HubState.set_state (slashed_state stake claims st) s).
Proof.
  intros Hp Hcb Hst Hds Hne stake claims Hstake Hsup Hclaims Hbond Hrate. unfold slashing.
  apply reads_bind_ok. exists params. split; [by apply load_parameters_ok|].
  apply reads_bind_ok. exists st. split; [by apply load_state_ok|].
  apply lift_bind_ok. exists ds. split; [done|]. destruct ds as [|d ds]; [done|].
  apply lift_bind_ok. exists stake. split; [by apply sum_delegations_total|].
  apply reads_bind_ok. exists supply. split; [done|].
  apply reads_bind_ok. exists cb. split; [by apply load_current_batch_ok|].
  unfold slashed_state. destruct (N.ltb_spec stake (total_bond_amount st)) as [Hlt|Hge].
  - apply update_state_ok. eexists st, _. split; [done|]. split; [|done].
    apply update_exchange_rate_total; [exact Hclaims|]. simpl.
    by apply (rate_of_mono _ (total_bond_amount st)); [|lia|].
  - apply cm_ret_ok. f_equal. destruct s. simpl in *. by subst.
Qed.

Lemma stake_in_total coin ds :
  Forall (λ d, denom (del_amount d) = coin) ds → stake_in coin ds = total_delegated ds.
Proof.
  unfold stake_in, total_delegated, delegated. induction 1 as [|d ds Hd _ IH]; simpl; [done|].
  by rewrite Hd, String.eqb_refl, IH.
Qed.

(** A batch is worth no more than the bond. *)
Lemma batch_worth_le b supply req :
  0 < b → req * rate_of b (supply + req) / dec_unit ≤ b.
Proof.
  intros Hb. unfold rate_of. rewrite (proj2 (N.eqb_neq b 0)) by lia. simpl.
  apply N.Div0.div_le_upper_bound. destruct (N.eqb_spec (supply + req) 0) as [Hz|Hz].
  - replace req with 0 by lia. lia.
  - transitivity ((supply + req) * (b * dec_unit / (supply + req))).
    + apply N.mul_le_mono_r. lia.
    + rewrite (N.mul_comm dec_unit). apply N.Div0.mul_div_le.
Qed.

(** Below par the supply exceeds the bond. *)
Lemma below_par b claims : 0 < b → rate_of b claims < dec_unit → b < claims.
Proof.
  unfold rate_of. intros Hb. rewrite (proj2 (N.eqb_neq b 0)) by lia. simpl.
  destruct (N.eqb_spec claims 0) as [|Hz]; [lia|]. intros Hlt.
  destruct (N.lt_ge_cases b claims) as [|Hge]; [done|].
  assert (dec_unit ≤ b * dec_unit / claims); [|lia].
  apply N.div_le_lower_bound; [done|]. by apply N.mul_le_mono_r.
Qed.

(** *** A hub that works: the token and staking answer, something is staked and bonded,
    the peg recovery fee is sound, the numbers stay within their types. *)
Record working (q : Querier) (env : Env) (s : HubStore) (params : Parameters) (cb : CurrentBatch)
    (st : State) (ds : list Delegation) (supply : N) : Prop := {
  wk_params : st_parameters s = Some params;
  wk_batch : st_current_batch s = Some cb;
  wk_state : st_state s = Some st;
  wk_supply : query_total_issued q s = Ok supply;
  wk_stake : query_all_delegations q (contract_address env) = Ok ds;
  wk_coin : Forall (λ d, denom (del_amount d) = underlying_coin_denom params) ds;
  wk_staked : 0 < total_delegated ds < u128_bound;
  wk_bonded : 0 < total_bond_amount st < u128_bound;
  wk_claims : supply + requested_with_fee cb < u128_bound;
  wk_rate : rate_of (total_bond_amount st) (supply + requested_with_fee cb) < u128_bound;
  wk_fee : atomics (peg_recovery_fee params) ≤ dec_unit;
  wk_threshold : atomics (er_threshold params) ≤ dec_unit;
  wk_peg : atomics (exchange_rate st) < atomics (er_threshold params) →
    total_bond_amount st ≤ supply + requested_with_fee cb;
}.

(** The state after the slashing check. *)
Definition checked (params : Parameters) (cb : CurrentBatch) (st : State) (ds : list Delegation)
    (supply : N) : State :=
  slashed_state (stake_in (underlying_coin_denom params) ds) (supply + requested_with_fee cb) st.

Lemma checked_bond_le params cb st ds supply :
  total_bond_amount (checked params cb st ds supply) ≤ total_bond_amount st.
Proof.
  unfold checked, slashed_state.
  destruct (N.ltb_spec (stake_in (underlying_coin_denom params) ds) (total_bond_amount st)); simpl; lia.
Qed.

Lemma working_slashing q env s params cb st ds supply :
  working q env s params cb st ds supply →
  slashing q env s = Ok ((), HubState.set_state (checked params cb st ds supply) s).
Proof.
  intros []. apply slashing_total; try done; [|rewrite stake_in_total by done; apply wk_staked0|lia].
  intros ->. unfold total_delegated in wk_staked0. simpl in wk_staked0. lia.
Qed.

(** The check leaves a bond that the stake covers, and a rate that fits the peg. *)
Lemma checked_facts q env s params cb st ds supply :
  working q env s params cb st ds supply →
  let st1 := checked params cb st ds supply in
  0 < total_bond_amount st1 ∧ total_bond_amount st1 ≤ total_delegated ds ∧
  rate_of (total_bond_amount st1) (supply + requested_with_fee cb) < u128_bound ∧
  last_unbonded_time st1 = last_unbonded_time st ∧
  (atomics (exchange_rate st1) < atomics (er_threshold params) →
    total_bond_amount st1 ≤ supply + requested_with_fee cb).
Proof.
  intros Hc. destruct Hc. cbv zeta. unfold checked, slashed_state.
  rewrite stake_in_total by done.
  destruct (N.ltb_spec (total_delegated ds) (total_bond_amount st)); simpl.
  - split; [lia|]. split; [done|].
    split; [by apply (rate_of_mono _ (total_bond_amount st)); [lia|lia|]|]. split; [done|].
    intros Hlt. apply N.lt_le_incl, below_par; lia.
  - split; [lia|]. split; [lia|]. done.
Qed.

(** A fraction of at most one is at most the whole. *)
Lemma fee_le a (d : Decimal) : atomics d ≤ dec_unit → a * atomics d / dec_unit ≤ a.
Proof.
  intros Hd. apply N.Div0.div_le_upper_bound. rewrite (N.mul_comm dec_unit). by apply N.mul_le_mono_l.
Qed.
End working.
