(* ===== verification/HubUnbondProgress.v ===== *)
(** * Progress: an unbonding request goes through

    Conditions under which an unbonding request cannot fail, at the end of an epoch
    included: neither the [expect]s of unbond.rs nor the random draw of
    [pick_validator] panics, since the slashing check has cut the bond down to the
    stake and the new rate keeps the batch below the bond. *)
From S2P Require Import Prelude Bytes Cosmwasm Protocol SignedInteger HubState HubStateFacts.
From S2P Require Import HubMath HubCore HubConfig HubBond HubUnbond HubWithdraw.
From S2P Require Import HubAutoCompound HubContract HubCoreFacts HubBondFacts HubUnbondFacts.
From S2P Require Import HubAdminFacts HubWithdrawFacts HubInvariant HubTypes HubWorking.

Section progress.
  Context `{H : Host} {HS : HostSpec H}.

Lemma store_unbond_wait_list_total b a n s :
  b < u64_bound → u128 (wait_total s b + n) → ∃ s', store_unbond_wait_list b a n s = Ok ((), s').
Proof.
  intros Hb Hsum. destruct (u64_roundtrip b Hb) as (kb & Hkb & _).
  destruct (string_roundtrip a) as (ka & Hka & _).
  assert (default 0 (wait_bucket s ka !! kb) ≤ wait_total s b) as Hle.
  { pose proof (wait_sum_set_bucket (λ v, v) s ka ∅ b eq_refl) as Hw.
    unfold batch_key in Hw. rewrite Hkb in Hw. simpl in Hw.
    unfold bucket_amount, wait_total in *. rewrite lookup_empty in Hw. simpl in Hw. lia. }
  unfold u128 in Hsum. eexists. unfold store_unbond_wait_list.
  apply lift_bind_ok. exists kb. split; [done|]. apply lift_bind_ok. exists ka. split; [done|].
  apply reads_bind_ok. eexists. split; [reflexivity|]. apply lift_bind_ok. eexists.
  split; [apply Uint128_add_ok; split; [reflexivity|lia]|]. by apply writes_ok.
Qed.

(** ** The request *)

(** What the user is owed for [a] tokens, and the batch the end of the handler works
    with. *)
Definition owed_for (params : Parameters) (cb : CurrentBatch) (st1 : State) (supply a : N) : N :=
  a - fee_of (er_threshold params) (peg_recovery_fee params) (exchange_rate st1) a
        (supply + requested_with_fee cb - total_bond_amount st1).
Definition grown (cb : CurrentBatch) (n : N) : CurrentBatch :=
  mkCurrentBatch (cb_id cb) (requested_with_fee cb + n).
Definition epoch_over (params : Parameters) (env : Env) (st : State) : bool :=
  epoch_period params <? block_time env - last_unbonded_time st.

(** What an unbonding request for [a] tokens needs besides: the numbers stay within
    their types, and the batch is not worth exactly one coin when it ends. *)
Record can_unbond (q : Querier) (env : Env) (s : HubStore) (params : Parameters) (cb : CurrentBatch)
    (st : State) (ds : list Delegation) (supply a : N) : Prop := {
  cu_working : working q env s params cb st ds supply;
  cu_amount : a ≤ supply;
  cu_claims : supply + requested_with_fee cb + a < u128_bound;
  cu_time : last_unbonded_time st ≤ block_time env;
  cu_id : cb_id cb + 1 < u64_bound;
  cu_draws : block_height env + N.of_nat (length ds) < u64_bound;
  cu_not_one :
    let st1 := checked params cb st ds supply in
    let cb' := grown cb (owed_for params cb st1 supply a) in
    epoch_over params env st = true → undelegated cb' (burned_state (supply - a) cb' st1) ≠ 1;
}.

(** The peg recovery fee never underflows, and the rate after it fits. *)
Lemma fee_total q env s params cb st ds supply a :
  can_unbond q env s params cb st ds supply a →
  let st1 := checked params cb st ds supply in
  let owed := owed_for params cb st1 supply a in
  unbond_after_fee (er_threshold params) (peg_recovery_fee params) st1 supply a
    (requested_with_fee cb) = Ok owed ∧ owed ≤ a ∧
  rate_of (total_bond_amount st1) (supply - a + (requested_with_fee cb + owed)) < u128_bound.
Proof.
  intros [Hwk Ha Hclaims _ _ _ _].
  destruct (checked_facts _ _ _ _ _ _ _ _ Hwk) as (Hpos & _ & Hrate & _ & Hpeg).
  pose proof (fee_le a _ (wk_fee _ _ _ _ _ _ _ _ Hwk)) as Hfee. clear Hwk. cbv zeta. set (st1 := checked params cb st ds supply) in *. clearbody st1.
  unfold owed_for, fee_of, unbond_after_fee. rewrite Decimal_lt_spec.
  destruct (N.ltb_spec (atomics (exchange_rate st1)) (atomics (er_threshold params))) as [Hlt|Hge].
  - specialize (Hpeg Hlt).
    rewrite (proj2 (Uint128_mul_Decimal_ok a (peg_recovery_fee params) _)) by (split; [done|lia]).
    revert Hfee. generalize (a * atomics (peg_recovery_fee params) / dec_unit). intros mx Hfee. simpl.
    rewrite (proj2 (Uint128_add_ok supply _ _)) by (split; [done|lia]). simpl.
    rewrite (proj2 (Uint128_checked_sub_ok _ (total_bond_amount st1) _)) by done. simpl.
    set (fee := N.min mx _). assert (fee ≤ a ∧ fee ≤ supply + requested_with_fee cb - total_bond_amount st1)
      as [Hfa Hfg] by lia. clearbody fee.
    rewrite (proj2 (Uint128_checked_sub_ok a fee _)) by done. split; [done|]. split; [lia|].
    eapply N.le_lt_trans; [apply rate_of_le_par; lia|done].
  - rewrite N.sub_0_r. split; [done|]. split; [done|].
    by replace (supply - a + (requested_with_fee cb + a)) with (supply + requested_with_fee cb) by lia.
Qed.

(** *** The end of the epoch *)
Lemma pick_validator_plan q claim a height s params ds :
  st_parameters s = Some params → query_all_delegations q a = Ok ds →
  claim ≤ total_delegated ds → height + N.of_nat (length ds) < u64_bound →
  ∃ takes, pick_validator q claim a height s = Ok (undelegations (underlying_coin_denom params) takes) ∧
    undelegation_plan ds claim takes.
Proof.
  intros Hp Hds Hle Hb.
  destruct (pick_loop_total (S (length ds)) (underlying_coin_denom params) height 0 claim ds [])
    as [out Hout]; [lia|done|lia|].
  pose proof (pick_loop_spec _ _ _ _ _ _ _ _ Hout) as (takes & -> & Hplan).
  exists takes. split; [|done]. unfold pick_validator.
  apply outcome_bind_ok. exists params. split; [by apply load_parameters_ok|].
  apply outcome_bind_ok. exists ds. split; [by apply unwrap_ok|exact Hout].
Qed.

Lemma close_batch_total q env cb st ds params s :
  st_parameters s = Some params → query_all_delegations q (contract_address env) = Ok ds →
  undelegated cb st ≤ total_bond_amount st → total_bond_amount st ≤ total_delegated ds →
  total_bond_amount st < u128_bound → undelegated cb st ≠ 1 →
  cb_id cb + 1 < u64_bound → block_height env + N.of_nat (length ds) < u64_bound →
  ∃ takes, undelegation_plan ds (undelegated cb st) takes ∧
    close_batch q env cb st s =
      Ok ((undelegations (underlying_coin_denom params) takes, mkCurrentBatch (cb_id cb + 1) 0,
        closed_state env cb st), with_history cb (closed_history env cb st) s).
Proof.
  intros Hp Hds Hle Hstake Hbond Hone Hid Hdraw.
  destruct (pick_validator_plan q (undelegated cb st) (contract_address env) (block_height env) s params ds)
    as (takes & Hpick & Hplan); [done|done|lia|done|].
  exists takes. split; [exact Hplan|]. unfold close_batch.
  apply lift_bind_ok. exists (undelegated cb st).
  split; [apply Uint128_mul_Decimal_ok; split; [done|]; fold (undelegated cb st); lia|].
  apply lift_bind_ok. exists (). split; [by apply fail_if_ok, N.eqb_neq|].
  apply reads_bind_ok. eexists. split; [exact Hpick|].
  apply lift_bind_ok. exists (total_bond_amount st - undelegated cb st).
  split; [by apply (unwrap_ok (Uint128_checked_sub _ _)), Uint128_checked_sub_ok|].
  apply writes_bind_ok. apply lift_bind_ok. exists (cb_id cb + 1). split; [by apply u64_add_ok|].
  by apply cm_ret_ok.
Qed.

(** The end of the handler, from the batch and state it works with. *)
Lemma unbond_end_total q env s params cb st2 ds :
  st_parameters s = Some params → query_all_delegations q (contract_address env) = Ok ds →
  (epoch_over params env st2 = true → undelegated cb st2 ≠ 1) →
  undelegated cb st2 ≤ total_bond_amount st2 → total_bond_amount st2 ≤ total_delegated ds →
  total_bond_amount st2 < u128_bound → cb_id cb + 1 < u64_bound →
  block_height env + N.of_nat (length ds) < u64_bound →
  ∃ takes res s', (if epoch_over params env st2
      then close_batch q env cb st2 else mret ([], cb, st2)) s = Ok (res, s') ∧
    st_wait s' = st_wait s ∧ st_config s' = st_config s ∧
    res.1.1 = (if epoch_over params env st2
      then undelegations (underlying_coin_denom params) takes else []) ∧
    (epoch_over params env st2 = true → undelegation_plan ds (undelegated cb st2) takes).
Proof.
  intros Hp Hds Hone Hle Hstake Hbond Hid Hdraw. destruct (epoch_over params env st2).
  - destruct (close_batch_total q env cb st2 ds params s) as (takes & Hplan & Hrun); try done; [by apply Hone|].
    exists takes. eexists _, _. split; [exact Hrun|]. done.
  - exists []. eexists _, _. split; [by apply cm_ret_ok|]. done.
Qed.

(** The handler put together from its parts. *)
Lemma execute_unbond_intro q env a u s params cb s1 st1 supply owed s2 st2 res s3 c raw token :
  st_parameters s = Some params → st_current_batch s = Some cb →
  slashing q env s = Ok ((), s1) → st_state s1 = Some st1 →
  query_total_issued q s1 = Ok supply → a ≤ supply →
  unbond_after_fee (er_threshold params) (peg_recovery_fee params) st1 supply a
    (requested_with_fee cb) = Ok owed →
  requested_with_fee cb + owed < u128_bound →
  store_unbond_wait_list (cb_id cb) u owed s1 = Ok ((), s2) →
  update_exchange_rate (supply - a) (requested_with_fee cb + owed) st1 = Ok st2 →
  last_unbonded_time st2 ≤ block_time env →
  (if epoch_over params env st2 then close_batch q env (grown cb owed) st2
   else mret ([], grown cb owed, st2)) s2 = Ok (res, s3) →
  st_config s3 = Some (ConfigJson c) → token_contract c = Some raw → addr_humanize raw = Ok token →
  execute_unbond q env a u s = Ok
    (mkResponse (res.1.1 ++ [WasmExecute token (ToToken (Burn a)) []])
      [("action", AStr "burn"); ("from", AStr u); ("burnt_amount", AUint a);
       ("unbonded_amount", AUint owed)],
     HubState.set_state res.2 (set_current_batch res.1.2 s3)).
Proof.
  intros Hp Hcb Hsl Hst1 Hsup Ha Hfee Hreq Hw Hupd Htime Hend Hcfg Hraw Htok. unfold execute_unbond.
  apply reads_bind_ok. exists params. split; [by apply load_parameters_ok|].
  apply reads_bind_ok. exists cb. split; [by apply load_current_batch_ok|].
  apply cm_bind_ok. exists (), s1. split; [exact Hsl|].
  apply reads_bind_ok. exists st1. split; [by apply load_state_ok|].
  apply reads_bind_ok. exists supply. split; [by rewrite Hsup|].
  apply lift_bind_ok. exists owed. split; [exact Hfee|].
  apply lift_bind_ok. eexists. split; [by apply Uint128_add_ok|].
  apply cm_bind_ok. exists (), s2. split; [exact Hw|].
  apply lift_bind_ok. eexists. split; [by apply (unwrap_ok (Uint128_checked_sub _ _)), Uint128_checked_sub_ok|].
  apply lift_bind_ok. exists st2. split; [exact Hupd|].
  apply lift_bind_ok. eexists. split; [by apply u64_sub_ok|].
  apply cm_bind_ok. exists res, s3. split; [exact Hend|].
  apply writes_bind_ok, writes_bind_ok. apply reads_bind_ok. exists c. split; [by apply load_config_ok|].
  apply lift_bind_ok. exists raw. split; [by apply unwrap_option_ok|].
  apply lift_bind_ok. exists token. split; [exact Htok|]. by apply cm_ret_ok.
Qed.

(** A request that meets the conditions succeeds: it records what the user is owed
    and burns the tokens; at the end of an epoch the batch is undelegated. *)
Lemma unbond_total q env s params cb st ds supply a u :
  hub_inv_at s cb st → can_unbond q env s params cb st ds supply a →
  let st1 := checked params cb st ds supply in
  let owed := owed_for params cb st1 supply a in
  let cb' := grown cb owed in
  let und := undelegated cb' (burned_state (supply - a) cb' st1) in
  ∃ r s' takes c raw token, execute_unbond q env a u s = Ok (r, s') ∧
    st_config s = Some (ConfigJson c) ∧ token_contract c = Some raw ∧ addr_humanize raw = Ok token ∧
    messages r = (if epoch_over params env st
      then undelegations (underlying_coin_denom params) takes else []) ++
      [WasmExecute token (ToToken (Burn a)) []] ∧
    (epoch_over params env st = true → undelegation_plan ds und takes) ∧
    wait_entry s' u (cb_id cb) = Some (default 0 (wait_entry s u (cb_id cb)) + owed).
Proof.
  intros Hi Hc. cbv zeta.
  pose proof (fee_total _ _ _ _ _ _ _ _ _ Hc) as (Hfee & Hle & Hrate2).
  destruct Hc as [Hwk Ha Hclaims Htime Hid Hdraw Hone].
  pose proof (checked_facts _ _ _ _ _ _ _ _ Hwk) as (Hpos & Hcov & Hrate1 & Htime1 & _).
  pose proof (working_slashing _ _ _ _ _ _ _ _ Hwk) as Hsl.
  destruct Hwk as [Hp Hcb Hst Hsup Hds _ Hstaked _ _ _ _ _ _].
  destruct (query_total_issued_ok _ _ _ Hsup) as (c & raw & token & Hcfg & Hraw & Htok & _).
  set (st1 := checked params cb st ds supply) in *. set (owed := owed_for params cb st1 supply a) in *.
  set (st2 := burned_state (supply - a) (grown cb owed) st1) in *.
  set (s1 := HubState.set_state st1 s) in *.
  destruct (store_unbond_wait_list_total (cb_id cb) u owed s1 (inv_bound _ _ _ Hi)) as (s2 & Hw).
  { change (wait_total s1 (cb_id cb)) with (wait_total s (cb_id cb)).
    rewrite (inv_wait_current _ _ _ Hi). unfold u128. lia. }
  destruct (store_unbond_wait_list_spec _ _ _ _ _ (inv_bound _ _ _ Hi) Hw) as ([w ->] & _ & He & _).
  assert (epoch_over params env st2 = epoch_over params env st) as Hover
    by (unfold epoch_over; by rewrite <- Htime1).
  destruct (unbond_end_total q env (set_wait w s1) params (grown cb owed) st2 ds)
    as (takes & res & s3 & Hend & Hwait & Hcfg3 & Hres & Hplan);
    [exact Hp|exact Hds|rewrite Hover; exact Hone| |exact Hcov| |exact Hid|exact Hdraw|].
  { unfold undelegated, st2, burned_state. cbn [exchange_rate set_exchange_rate atomics].
    by apply batch_worth_le. }
  { eapply N.le_lt_trans; [exact Hcov|lia]. }
  rewrite Hover in Hres, Hplan. eexists (mkResponse _ _), _, takes, c, raw, token. split.
  { eapply (execute_unbond_intro _ _ _ _ _ params cb s1 st1 supply owed _ st2 res s3 c raw token);
      try done; [lia| |exact (eq_ind_r (λ t, t ≤ _) Htime Htime1)|by rewrite Hcfg3].
    apply update_exchange_rate_total; [unfold u128; lia|exact Hrate2]. }
  do 3 (split; [done|]). split; [cbn [messages]; by rewrite Hres|]. split; [exact Hplan|].
  transitivity (wait_entry (set_wait w s1) u (cb_id cb)).
  - unfold wait_entry, user_bucket, wait_bucket. simpl. by rewrite Hwait.
  - etransitivity; [apply (He u (cb_id cb) (inv_bound _ _ _ Hi))|]. by rewrite decide_True.
Qed.
End progress.
