(* ===== verification/HubBondProgress.v ===== *)
(** * Progress: a payment is bonded

    Conditions under which a bond cannot fail: the division through nine digits is
    defined and fits, and the peg recovery fee does not underflow. *)
From S2P Require Import Prelude Bytes Cosmwasm Protocol SignedInteger HubState HubStateFacts.
From S2P Require Import HubMath HubCore HubConfig HubBond HubUnbond HubWithdraw.
From S2P Require Import HubAutoCompound HubContract HubCoreFacts HubBondFacts HubUnbondFacts.
From S2P Require Import HubAdminFacts HubWithdrawFacts HubInvariant HubTypes HubWorking.

Section progress.
  Context `{H : Host} {HS : HostSpec H}.

(** What a payment of [p] is worth in tokens, and what of it is minted. *)
Definition tokens_for (st1 : State) (p : N) : N := p * DECIMAL_FRACTIONAL / rate_digits (exchange_rate st1).
Definition minted_for (params : Parameters) (cb : CurrentBatch) (st1 : State) (supply p : N) : N :=
  tokens_for st1 p - fee_of (er_threshold params) (peg_recovery_fee params) (exchange_rate st1)
    (tokens_for st1 p)
    (supply + tokens_for st1 p + requested_with_fee cb - (total_bond_amount st1 + p)).

(** What a payment of [p] needs: a working hub, a whitelisted validator, a rate that
    the division can handle, and numbers within their types. *)
Record can_bond (q : Querier) (env : Env) (s : HubStore) (params : Parameters) (cb : CurrentBatch)
    (st : State) (ds : list Delegation) (supply : N) (v : string) (p : N) : Prop := {
  bo_working : working q env s params cb st ds supply;
  bo_valid : is_valid_validator v s = Ok true;
  bo_paid : 0 < p;
  bo_bond : total_bond_amount st + p < u128_bound;
  bo_rate :
    let st1 := checked params cb st ds supply in
    DECIMAL_FRACTIONAL ≤ atomics (exchange_rate st1) < u128_bound ∧
    p * dec_unit / rate_digits (exchange_rate st1) < u128_bound;
  bo_claims :
    let st1 := checked params cb st ds supply in
    supply + tokens_for st1 p + requested_with_fee cb < u128_bound ∧
    rate_of (total_bond_amount st1 + p)
      (supply + minted_for params cb st1 supply p + requested_with_fee cb) < u128_bound;
}.

Lemma decimal_division_total p (rate : Decimal) :
  DECIMAL_FRACTIONAL ≤ atomics rate < u128_bound → p * dec_unit / rate_digits rate < u128_bound →
  rate_digits rate ≠ 0 ∧ decimal_division p rate = Ok (p * DECIMAL_FRACTIONAL / rate_digits rate).
Proof.
  intros [Hlow Hhigh] Hq.
  assert (0 < rate_digits rate) as Hk by by apply N.div_str_pos.
  assert (rate_digits rate ≤ atomics rate) as Hle by (apply N.Div0.div_le_upper_bound; unfold DECIMAL_FRACTIONAL; lia).
  split; [lia|]. unfold decimal_division.
  rewrite (proj2 (Uint128_mul_Decimal_ok _ rate (rate_digits rate)))
    by (rewrite rate_digits_eq; split; [done|lia]). simpl.
  rewrite (proj2 (Decimal_from_ratio_ok p (rate_digits rate) _)) by (split; [lia|by split]). simpl.
  apply Uint128_mul_Decimal_ok. cbn [atomics]. rewrite nine_digits_quotient. split; [done|].
  eapply N.le_lt_trans; [|exact Hq]. apply N.Div0.div_le_mono, N.mul_le_mono_l.
  unfold DECIMAL_FRACTIONAL, dec_unit. lia.
Qed.

(** Below par a payment is worth at least as many tokens as coins. *)
Lemma tokens_ge st1 p :
  DECIMAL_FRACTIONAL ≤ atomics (exchange_rate st1) → atomics (exchange_rate st1) < dec_unit →
  p ≤ tokens_for st1 p.
Proof.
  intros Hlow Hlt. unfold tokens_for, rate_digits.
  assert (0 < atomics (exchange_rate st1) / DECIMAL_FRACTIONAL) as Hk by by apply N.div_str_pos.
  apply N.div_le_lower_bound; [lia|]. rewrite N.mul_comm. apply N.mul_le_mono_l.
  apply N.Div0.div_le_upper_bound. unfold DECIMAL_FRACTIONAL, dec_unit in *. lia.
Qed.

Lemma mint_total q env s params cb st ds supply v p :
  can_bond q env s params cb st ds supply v p →
  let st1 := checked params cb st ds supply in
  mint_after_fee (er_threshold params) (peg_recovery_fee params) st1 supply (tokens_for st1 p)
    (requested_with_fee cb) p = Ok (minted_for params cb st1 supply p) ∧
  minted_for params cb st1 supply p ≤ tokens_for st1 p.
Proof.
  intros [Hwk _ _ Hbond [[Hlow _] _] [Hclaims _]]. cbv zeta.
  destruct (checked_facts _ _ _ _ _ _ _ _ Hwk) as (_ & _ & _ & _ & Hpeg).
  pose proof (checked_bond_le params cb st ds supply) as Hle.
  set (st1 := checked params cb st ds supply) in *. clearbody st1.
  pose proof (fee_le (tokens_for st1 p) _ (wk_fee _ _ _ _ _ _ _ _ Hwk)) as Hfee.
  pose proof (wk_threshold _ _ _ _ _ _ _ _ Hwk) as Hth. clear Hwk.
  split; [|unfold minted_for; lia]. unfold minted_for, fee_of, mint_after_fee. rewrite Decimal_lt_spec.
  destruct (N.ltb_spec (atomics (exchange_rate st1)) (atomics (er_threshold params))) as [Hlt|Hge];
    [|by rewrite N.sub_0_r].
  specialize (Hpeg Hlt). pose proof (tokens_ge st1 p Hlow ltac:(lia)) as Hge.
  revert Hclaims Hfee Hge. generalize (tokens_for st1 p). intros m Hclaims Hfee Hge.
  rewrite (proj2 (Uint128_mul_Decimal_ok m (peg_recovery_fee params) _)) by (split; [done|lia]).
  revert Hfee. generalize (m * atomics (peg_recovery_fee params) / dec_unit). intros mx Hfee. simpl.
  rewrite (proj2 (Uint128_add_ok supply m _)) by (split; [done|lia]). simpl.
  rewrite (proj2 (Uint128_add_ok (supply + m) _ _)) by (split; [done|lia]). simpl.
  rewrite (proj2 (Uint128_add_ok (total_bond_amount st1) p _)) by (split; [done|lia]). simpl.
  rewrite (proj2 (Uint128_checked_sub_ok _ (total_bond_amount st1 + p) _)) by (split; [done|lia]). simpl.
  apply Uint128_checked_sub_ok. split; [done|]. lia.
Qed.

(** A payment that meets the conditions is bonded. *)
Lemma bond_total q env s params cb st ds supply v p user :
  can_bond q env s params cb st ds supply v p →
  let st1 := checked params cb st ds supply in
  let minted := minted_for params cb st1 supply p in
  let pay := mkCoin (underlying_coin_denom params) p in
  ∃ r c raw token,
    execute_bond q env (mkInfo user [pay]) v s = Ok (r, HubState.set_state
      (bonded_state p (supply + minted + requested_with_fee cb) st1) (HubState.set_state st1 s)) ∧
    st_config s = Some (ConfigJson c) ∧ token_contract c = Some raw ∧ addr_humanize raw = Ok token ∧
    messages r = [StakingDelegate v pay; WasmExecute token (ToToken (Mint user minted)) []].
Proof.
  intros Hc. cbv zeta. destruct (mint_total _ _ _ _ _ _ _ _ _ _ Hc) as [Hmint Hle].
  destruct Hc as [Hwk Hvalid Hpaid Hbond [Hrate Hq] [Hclaims Hnew]].
  pose proof (working_slashing _ _ _ _ _ _ _ _ Hwk) as Hsl.
  pose proof (checked_bond_le params cb st ds supply) as Hleb.
  set (st1 := checked params cb st ds supply) in *. clearbody st1.
  destruct (decimal_division_total p _ Hrate Hq) as [_ Hdiv]. fold (tokens_for st1 p) in Hdiv.
  destruct Hwk as [Hp Hcb Hst Hsup _ _ _ _ _ _ _ _ _].
  destruct (query_total_issued_ok _ _ _ Hsup) as (c & raw & token & Hcfg & Hraw & Htok & _).
  eexists (mkResponse _ _), c, raw, token. split; [|by do 3 (split; [done|])].
  unfold execute_bond. apply reads_bind_ok. exists true. split; [done|].
  apply lift_bind_ok. exists (). split; [done|].
  apply reads_bind_ok. exists params. split; [by apply load_parameters_ok|].
  apply reads_bind_ok. exists cb. split; [by apply load_current_batch_ok|].
  apply lift_bind_ok. exists (). split; [done|].
  apply lift_bind_ok. exists (mkCoin (underlying_coin_denom params) p). split.
  { apply ok_or_ok. unfold find_payment. simpl. by rewrite String.eqb_refl, (proj2 (N.ltb_lt _ _)). }
  apply cm_bind_ok. eexists (), _. split; [exact Hsl|].
  apply reads_bind_ok. exists st1. split; [by apply load_state_ok|].
  apply reads_bind_ok. exists supply. split; [by rewrite (query_total_issued_ext q s), Hsup|].
  apply lift_bind_ok. eexists. split; [exact Hdiv|].
  apply lift_bind_ok. eexists. split; [exact Hmint|].
  apply lift_bind_ok. eexists. split; [apply Uint128_add_ok; split; [done|lia]|].
  apply cm_bind_ok. eexists (), _. split.
  { apply update_state_ok. eexists st1, _. split; [done|]. split; [|done].
    apply outcome_bind_ok. exists (total_bond_amount st1 + p).
    split; [apply Uint128_add_ok; simpl; split; [done|lia]|].
    apply update_exchange_rate_total; [unfold u128; lia|exact Hnew]. }
  apply reads_bind_ok. exists c. split; [by apply load_config_ok|].
  apply lift_bind_ok. exists raw. split; [by apply unwrap_option_ok|].
  apply lift_bind_ok. exists token. split; [exact Htok|]. by apply cm_ret_ok.
Qed.
End progress.
