(* ===== verification/SystemProgress.v ===== *)
(** * Transactions that commit

    HubUnbondProgress.v shows that the handler succeeds; here the rest of the
    transaction is carried out too: the undelegations and the burn. *)
From S2P Require Import Prelude Bytes Cosmwasm Protocol SignedInteger HubState HubStateFacts.
From S2P Require Import HubMath HubCore HubConfig HubBond HubUnbond HubWithdraw.
From S2P Require Import HubAutoCompound HubContract RewardsContract HubCoreFacts.
From S2P Require Import HubBondFacts.
From S2P Require Import HubUnbondFacts HubAdminFacts HubWithdrawFacts HubInvariant HubTypes.
From S2P Require Import HubPayments.
From S2P Require Import Book HubSolvency Chain ChainFacts ChainRuns Backing System.
From S2P Require Import SystemFacts.
From S2P Require Import SystemRuns HubWorking HubUnbondProgress HubBondProgress.

Section progress.
  Context `{H : Host} {HS : HostSpec H} `{HK : HookSerde}.
  Context (hub rewards token : Addr) (Hdistinct : hub ≠ rewards).

Abbreviation dispatch := (dispatch hub rewards token).

(** The token passes a request on. *)
Lemma receive_unbond q env token' user a hook c raw s r s' :
  st_pause s = Some false → st_config s = Some (ConfigJson c) → token_contract c = Some raw →
  addr_canonicalize token' = Ok raw → hook_from_binary hook = Ok HookUnbond →
  execute_unbond q env a user s = Ok (r, s') →
  execute q env (mkInfo token' []) (Receive (mkCw20ReceiveMsg user a hook)) s = Ok (r, s').
Proof.
  intros Hpause Hcfg Hraw Htok Hhook Hrun. simpl. apply reads_bind_ok. eexists. split.
  { unfold is_contract_paused. apply outcome_bind_ok. exists false. split; [by apply load_pause_ok|done]. }
  unfold receive_cw20. apply lift_bind_ok. exists HookUnbond. split; [done|].
  apply reads_bind_ok. exists c. split; [by apply load_config_ok|].
  apply lift_bind_ok. exists raw. split; [done|].
  apply lift_bind_ok. exists raw. split; [by apply unwrap_option_ok|].
  apply lift_bind_ok. exists (). split; [by apply fail_if_ok; apply bool_decide_eq_false; intros []|done].
Qed.

(** The undelegations of a plan are carried out one by one. *)
Lemma dispatch_undelegations d takes rest y y' :
  sys_coin y = d → sum_of snd takes ≤ sy_staked y →
  dispatch rest (with_staked (sy_staked y - sum_of snd takes) y) y' →
  dispatch (((λ m, (hub, m)) <$> undelegations d takes) ++ rest) y y'.
Proof.
  revert y. induction takes as [|[dl t] takes IH]; intros y Hd Hle Hrest.
  - simpl in *. rewrite N.sub_0_r in Hrest. by destruct y.
  - rewrite undelegations_cons. simpl in Hle, Hrest. destruct (N.ltb_spec 0 t) as [Ht|Ht].
    + simpl. eapply run_undelegate with (n := 0); rewrite Hd, received_one; [lia|].
      apply IH; [done|simpl; lia|]. simpl.
      replace (sy_staked y - t - sum_of snd takes) with (sy_staked y - (t + sum_of snd takes)) by lia.
      by rewrite N.add_0_r; destruct y.
    + simpl. apply IH; [done|lia|]. by replace (t + sum_of snd takes) with (sum_of snd takes) in Hrest by lia.
Qed.

(** What the end of an epoch undelegates is there. *)
Lemma plan_covered q env y params cb st ds a :
  contract_address env = hub → tells_hub hub y [] q →
  can_unbond q env (sy_hub y) params cb st ds (sy_supply y) a →
  let st1 := checked params cb st ds (sy_supply y) in
  let cb' := grown cb (owed_for params cb st1 (sy_supply y) a) in
  undelegated cb' (burned_state (sy_supply y - a) cb' st1) ≤ sy_staked y.
Proof.
  intros Henv Htell Hc. cbv zeta.
  destruct Hc as [Hwk _ _ _ _ _ _]. pose proof (checked_facts _ _ _ _ _ _ _ _ Hwk) as (Hpos & Hcov & _).
  pose proof (an_stake _ _ _ _ (th_chain _ _ _ _ Htell) ds) as Hst. rewrite <- Henv in Hst at 1.
  cbn [chain_of ch_store ch_staked] in Hst. destruct Hwk as [Hp _ _ _ Hds Hcoin].
  rewrite <- Hst, (coin_of_params _ _ Hp), stake_in_total by done.
  etransitivity; [|exact Hcov]. unfold undelegated, burned_state. by apply batch_worth_le.
Qed.

(** A user's unbonding request, sent on by the token, and what follows from it. *)
Lemma unbond_commits loss y q env params cb st ds a user hook c raw :
  sys_run hub rewards token loss y → tells_hub hub y [] q → contract_address env = hub →
  outside hub rewards token → hook_from_binary hook = Ok HookUnbond →
  st_pause (sy_hub y) = Some false →
  st_config (sy_hub y) = Some (ConfigJson c) → token_contract c = Some raw →
  addr_canonicalize token = Ok raw →
  can_unbond q env (sy_hub y) params cb st ds (sy_supply y) a →
  let st1 := checked params cb st ds (sy_supply y) in
  let owed := owed_for params cb st1 (sy_supply y) a in
  let cb' := grown cb owed in
  let und := undelegated cb' (burned_state (sy_supply y - a) cb' st1) in
  ∃ y', dispatch [(token, WasmExecute hub (ToHub (Receive (mkCw20ReceiveMsg user a hook))) [])] y y' ∧
    sys_run hub rewards token loss y' ∧
    sy_supply y' = sy_supply y - a ∧
    sy_staked y' = sy_staked y - (if epoch_over params env st then und else 0) ∧
    wait_entry (sy_hub y') user (cb_id cb) =
      Some (default 0 (wait_entry (sy_hub y) user (cb_id cb)) + owed).
Proof.
  intros Hy Htell Henv Hout Hhook Hpause Hcfg Hraw Htok Hc. cbv zeta.
  destruct (sys_run_refines hub rewards token Hdistinct _ _ Hy) as [Hchain _].
  destruct (reachable_inv _ (ci_reachable _ _ (chain_run_inv _ _ _ _ Hchain))) as (cb0 & st0 & Hi).
  destruct (cu_working _ _ _ _ _ _ _ _ _ Hc) as [Hp Hcb Hst].
  assert (cb0 = cb) as -> by (pose proof (inv_cb _ _ _ Hi); simpl in *; congruence).
  assert (st0 = st) as -> by (pose proof (inv_st _ _ _ Hi); simpl in *; congruence).
  destruct (unbond_total q env _ params cb st ds _ a user Hi Hc)
    as (r & s' & takes & c' & raw' & token' & Hrun & Hcfg' & Hraw' & Htok' & Hmsg & Hplan & Hwait).
  apply addr_humanize_canonicalize in Htok as Hback. cbn [chain_of ch_store] in *.
  assert (token' = token) as -> by congruence.
  set (und := if epoch_over params env st then _ else 0).
  assert (sum_of snd (if epoch_over params env st then takes else []) = und ∧ und ≤ sy_staked y) as [Hsum Hle].
  { unfold und. destruct (epoch_over params env st); [|split; [done|lia]].
    destruct (Hplan eq_refl) as (_ & _ & ->). split; [done|]. by eapply plan_covered. }
  assert (execute q env (mkInfo token []) (Receive (mkCw20ReceiveMsg user a hook)) (sy_hub y) = Ok (r, s')) as Hexec.
  { by eapply (receive_unbond _ _ _ _ _ _ c raw). }
  set (y1 := with_hub s' y).
  assert (dispatch [(token, WasmExecute hub (ToHub (Receive (mkCw20ReceiveMsg user a hook))) [])] y
    (with_supply (sy_supply y - a) (with_staked (sy_staked y - und) y1))) as Hdis.
  { eapply (run_hub hub rewards token token _ [] q env r s' [] y y).
    - unfold System.debit. destruct Hout. by rewrite !decide_False.
    - done.
    - done.
    - by split.
    - done.
    - rewrite app_nil_r, credit_hub. unfold System.from_hub. rewrite Hmsg, fmap_app.
      change (received _ []) with 0. rewrite N.add_0_r.
      replace (if epoch_over params env st then undelegations (underlying_coin_denom params) takes else [])
        with (undelegations (underlying_coin_denom params) (if epoch_over params env st then takes else []))
        by by destruct (epoch_over params env st).
      apply dispatch_undelegations; [|by rewrite Hsum|].
      + unfold sys_coin. simpl. rewrite (coin_constant _ _ _ _ _ _ _ Hexec). by apply coin_of_params.
      + rewrite Hsum. apply run_burn; [by destruct Hc|]. simpl. apply run_done. }
  eexists. split; [exact Hdis|]. split; [by eapply sys_call_hub|]. done.
Qed.

(** A user's payment, and what follows from it. *)
Lemma bonding_commits loss y q env params cb st ds p v user c raw :
  let pay := mkCoin (sys_coin y) p in
  sys_run hub rewards token loss y → tells_hub hub y [pay] q → contract_address env = hub →
  outside hub rewards user → st_pause (sy_hub y) = Some false →
  st_config (sy_hub y) = Some (ConfigJson c) → token_contract c = Some raw →
  addr_canonicalize token = Ok raw →
  can_bond q env (sy_hub y) params cb st ds (sy_supply y) v p →
  let st1 := checked params cb st ds (sy_supply y) in
  let minted := minted_for params cb st1 (sy_supply y) p in
  ∃ y', dispatch [(user, WasmExecute hub (ToHub (Bond v)) [pay])] y y' ∧
    sys_run hub rewards token loss y' ∧
    sy_staked y' = sy_staked y + p ∧ sy_supply y' = sy_supply y + minted ∧
    st_state (sy_hub y') =
      Some (bonded_state p (sy_supply y + minted + requested_with_fee cb) st1).
Proof.
  intros pay Hy Htell Henv Hout Hpause Hcfg Hraw Htok Hc. cbv zeta.
  destruct (bond_total _ _ _ _ _ _ _ _ _ _ user Hc) as (r & c' & raw' & token' & Hrun & Hcfg' & Hraw' & Htok' & Hmsg).
  apply addr_humanize_canonicalize in Htok. assert (token' = token) as -> by congruence.
  pose proof (wk_params _ _ _ _ _ _ _ _ (bo_working _ _ _ _ _ _ _ _ _ _ Hc)) as Hp.
  pose proof (coin_of_params _ _ Hp) as Hcoin. rewrite <- Hcoin in Hrun, Hmsg. clear Hc Hp.
  fold (sys_coin y) in Hrun, Hmsg, Hcoin. fold pay in Hrun, Hmsg.
  set (minted := minted_for _ _ _ _ _) in *. set (s' := HubState.set_state _ _) in Hrun.
  assert (execute q env (mkInfo user [pay]) (Bond v) (sy_hub y) = Ok (r, s')) as Hexec.
  { simpl. apply reads_bind_ok. eexists. split; [|exact Hrun].
    unfold is_contract_paused. apply outcome_bind_ok. exists false. split; [by apply load_pause_ok|done]. }
  assert (coin_of s' = sys_coin y) as Hcoin' by by rewrite (coin_constant _ _ _ _ _ _ _ Hexec).
  assert (received (sys_coin y) [pay] = p) as Hgot by apply received_one.
  assert (dispatch [(user, WasmExecute hub (ToHub (Bond v)) [pay])] y
    (with_supply (sy_supply y + minted) (with_fund (sy_fund y + 0) (with_staked (sy_staked y + p)
      (with_coins (sy_coins y + p - p) (with_hub s' (with_coins (sy_coins y + p) y))))))) as Hdis.
  { eapply (run_hub hub rewards token user _ [pay] q env r s' [] y y); [|done|done| |exact Hexec|].
    - unfold System.debit. destruct Hout. by rewrite !decide_False.
    - split; by intros [=].
    - rewrite app_nil_r, credit_hub, Hgot. unfold System.from_hub. rewrite Hmsg.
      eapply run_delegate with (n := 0).
      + unfold sys_coin. cbn [sy_hub with_hub]. rewrite Hcoin', Hgot.
        unfold System.debit. rewrite decide_True by done. cbn [sy_coins with_hub with_coins].
        by rewrite (proj2 (N.leb_le _ _)) by lia.
      + unfold sys_coin. cbn [sy_hub with_hub]. rewrite Hcoin', Hgot. apply run_mint. apply run_done. }
  eexists. split; [exact Hdis|]. split; [by eapply sys_call_hub|]. done.
Qed.
End progress.
