(* ===== verification/CompoundProgress.v ===== *)
(** * Progress: the compounding transaction goes through

    Under the conditions below UpdateExchangeRate cannot fail, and on a chain that
    answers its queries with the truth the whole transaction that UpdateGlobalIndex
    starts is carried out. *)
From S2P Require Import Prelude Bytes Cosmwasm Protocol SignedInteger HubState HubStateFacts.
From S2P Require Import HubMath HubCore HubConfig HubBond HubUnbond HubWithdraw.
From S2P Require Import HubAutoCompound HubContract RewardsContract HubCoreFacts.
From S2P Require Import HubBondFacts.
From S2P Require Import HubUnbondFacts HubAdminFacts HubWithdrawFacts HubInvariant HubTypes.
From S2P Require Import HubPayments.
From S2P Require Import Book HubSolvency Chain ChainFacts ChainRuns Backing System.
From S2P Require Import SystemFacts.
From S2P Require Import SystemRuns Compounding.

(** A hub that is ready for the rewards of [rewards_addr]: not paused, configured
    with that contract and a fee collector, a fee of at most one, something staked
    and issued, and numbers that stay within 128 bits for a payment of [pay]. *)
Record ready_for_rewards `{H : Host} (q : Querier) (env : Env) (rewards_addr : Addr) (pay : Coin)
    (s : HubStore) (st : State) (params : Parameters) (fee : N) : Prop := {
  rd_pause : st_pause s = Some false;
  rd_state : st_state s = Some st;
  rd_params : st_parameters s = Some params;
  rd_config : ∃ c raw fc col, st_config s = Some (ConfigJson c) ∧
    rewards_contract c = Some raw ∧ addr_humanize raw = Ok rewards_addr ∧
    protocol_fee_collector c = Some fc ∧ addr_humanize fc = Ok col;
  rd_pay : denom pay = underlying_coin_denom params ∧ 0 < amount pay;
  rd_stake : ∃ ds, query_all_delegations q (contract_address env) = Ok ds ∧ ds ≠ [];
  rd_fee : fee = amount pay * atomics (protocol_fee params) / dec_unit ∧
    atomics (protocol_fee params) ≤ dec_unit;
  rd_supply : ∃ cb ti, st_current_batch s = Some cb ∧ query_total_issued q s = Ok ti ∧
    ti + requested_with_fee cb ≠ 0 ∧ ti + requested_with_fee cb < u128_bound ∧
    atomics (exchange_rate st) + (amount pay - fee) * dec_unit / (ti + requested_with_fee cb)
      < u128_bound;
  rd_bound : total_bond_amount st + amount pay < u128_bound;
}.

Section progress.
  Context `{H : Host} {HS : HostSpec H} `{HK : HookSerde}.

(** *** The handler *)
Lemma compound_total q env rewards_addr bal s st params fee :
  ready_for_rewards q env rewards_addr bal s st params fee →
  ∃ r s' st', execute q env (mkInfo rewards_addr [bal]) UpdateExchangeRate s = Ok (r, s') ∧
    st_state s' = Some st' ∧ total_bond_amount st' + fee = total_bond_amount st + amount bal.
Proof.
  intros [Hpause Hst Hp (cf & raw & fc & col & Hcf & Hraw & Hra & Hfc & Hcol)
    [Hden Hpos] (ds & Hds & Hne) [Hfee Hle] (cb & ti & Hcb & Hti & Hnz & Hsup & Hrate) Hbond].
  assert (fee ≤ amount bal) as Hfle.
  { rewrite Hfee. apply N.Div0.div_le_upper_bound. rewrite (N.mul_comm dec_unit).
    by apply N.mul_le_mono_l. }
  assert (find_payment (underlying_coin_denom params) [bal] = Some bal) as Hfind.
  { unfold find_payment. simpl. by rewrite Hden, String.eqb_refl, (proj2 (N.ltb_lt _ _)). }
  destruct (draw_some (block_height env) ds Hne) as (i & d & Hi & Hd).
  eexists _, _, _. split; [simpl; apply reads_bind_ok|split].
  - exists (mkResponse [] []). split; [unfold is_contract_paused, load_pause, item_load; by rewrite Hpause|].
    unfold execute_update_exchange_rate.
    apply reads_bind_ok. exists st. split; [by apply load_state_ok|].
    apply reads_bind_ok. exists cf. split; [by apply load_config_ok|].
    apply lift_bind_ok. exists raw. split; [by apply unwrap_option_ok|].
    apply lift_bind_ok. exists rewards_addr. split; [done|].
    apply lift_bind_ok. exists (). split; [apply fail_if_ok; by apply bool_decide_eq_false; intros []|].
    apply reads_bind_ok. exists params. split; [by apply load_parameters_ok|].
    apply lift_bind_ok. exists bal. split; [apply ok_or_ok; exact Hfind|].
    apply lift_bind_ok. exists fee. split.
    { case_bool_decide as Hz.
      - apply Uint128_mul_Decimal_ok. rewrite <- Hfee. split; [done|lia].
      - rewrite Hfee, Hz, Decimal_zero_spec. by rewrite N.mul_0_r. }
    apply lift_bind_ok. exists (amount bal - fee). split; [by apply Uint128_checked_sub_ok|].
    apply reads_bind_ok. exists cb. split; [by apply load_current_batch_ok|].
    apply reads_bind_ok. exists ti. split; [done|].
    apply lift_bind_ok. eexists. split; [apply Uint128_add_ok; split; [reflexivity|exact Hsup]|].
    apply lift_bind_ok. eexists. split; [apply Decimal_from_ratio_ok; split; [done|]; split; [reflexivity|lia]|].
    apply lift_bind_ok. eexists. split; [apply Decimal_add_ok; split; [reflexivity|exact Hrate]|].
    apply lift_bind_ok. eexists. split; [apply Uint128_add_ok; split; [reflexivity|lia]|].
    apply writes_bind_ok.
    apply lift_bind_ok. exists ds. split; [by apply unwrap_ok|].
    apply lift_bind_ok. exists i. split; [done|].
    apply lift_bind_ok. exists (fee_msgs (underlying_coin_denom params) col fee). split.
    { unfold fee_msgs. destruct (fee =? 0); [done|]. simpl. by rewrite Hfc; simpl; rewrite Hcol. }
    apply lift_bind_ok. eexists. split; [|by apply cm_ret_ok].
    instantiate (1 := if amount bal - fee =? 0 then [] else
      [StakingDelegate (validator d) (mkCoin (underlying_coin_denom params) (amount bal - fee))]).
    destruct (amount bal - fee =? 0); [done|]. simpl. by rewrite Hd.
  - reflexivity.
  - simpl. lia.
Qed.

(** *** The transaction *)
Context (hub rewards token : Addr) (Hdistinct : hub ≠ rewards).
Abbreviation dispatch := (dispatch hub rewards token).

(** Messages that only spend the hub's coins are carried out when it has them. *)
Definition spends (m : CosmosMsg WasmBody) : Prop :=
  match m with StakingDelegate _ _ | BankSend _ _ => True | _ => False end.

Lemma dispatch_spending ms y :
  Forall spends ms → sum_of (leaves (sys_coin y)) ms ≤ sy_coins y →
  ∃ y', dispatch ((λ m, (hub, m)) <$> ms) y y'.
Proof.
  intros Hms. revert y. induction Hms as [|m ms Hm Hms IH]; intros y Hle.
  { eexists. apply run_done. }
  change (leaves (sys_coin y) m + sum_of (leaves (sys_coin y)) ms ≤ sy_coins y) in Hle.
  assert (debit hub rewards hub (leaves (sys_coin y) m) y =
    Some (with_coins (sy_coins y - leaves (sys_coin y) m) y)) as Hdeb.
  { unfold System.debit. rewrite decide_True by done. by rewrite (proj2 (N.leb_le _ _)) by lia. }
  destruct m as [v c| | |to coins| | |]; try done; cbn [leaves] in *.
  - destruct (IH (with_fund (sy_fund y + 0) (with_staked (sy_staked y + received (sys_coin y) [c])
      (with_coins (sy_coins y - received (sys_coin y) [c]) y)))) as (y' & Hrun); [unfold sys_coin in *; sys_fields; lia|].
    exists y'. simpl. by eapply run_delegate.
  - destruct (IH (credit hub rewards to (received (sys_coin y) coins)
      (with_coins (sy_coins y - received (sys_coin y) coins) y))) as (y' & Hrun).
    { unfold System.credit. repeat case_decide; unfold sys_coin in *; sys_fields; lia. }
    exists y'. simpl. by eapply run_send.
Qed.

Lemma compound_spends q env info s r s' :
  execute_update_exchange_rate q env info s = Ok (r, s') → Forall spends (messages r).
Proof.
  intros Hrun. apply execute_update_exchange_rate_spec in Hrun
    as (? & ? & ? & ? & ? & ? & ? & ? & ? & _ & _ & _ & _ & _ & _ & _ & _ & _ & _ & _ & _ & _ & staked & -> & Hst).
  unfold fee_msgs. destruct (_ =? 0), (_ =? 0);
    first [destruct Hst as (dl & _ & ->)|subst staked]; by repeat constructor.
Qed.

(** The last call of the transaction. *)
Lemma compound_call_total y q env c st params fee :
  tells_hub hub (with_fund (sy_fund y - amount c) y) [c] q → contract_address env = hub →
  amount c ≤ sy_fund y → ready_for_rewards q env rewards c (sy_hub y) st params fee →
  0 < total_bond_amount st →
  ∃ y', dispatch [(rewards, WasmExecute hub (ToHub UpdateExchangeRate) [c])] y y'.
Proof.
  intros Htell Henv Hle Hrd Hbond.
  destruct (compound_total _ _ _ _ _ _ _ _ Hrd) as (r & s' & st' & Hexec & _).
  pose proof (rd_params _ _ _ _ _ _ _ _ Hrd) as Hp. pose proof (rd_pay _ _ _ _ _ _ _ _ Hrd) as [Hden Hpos].
  assert (received (sys_coin y) [c] = amount c) as Hgot.
  { unfold sys_coin. rewrite (coin_of_params _ _ Hp), <- Hden. destruct c. apply received_one. }
  assert (total (leaves (coin_of (sy_hub y))) r ≤ sy_coins y + received (coin_of (sy_hub y)) [c]) as Hcov.
  { eapply (leaves_covered q env (mkInfo rewards [c])); [exact Hexec|]. rewrite Henv. by apply Htell. }
  pose proof Hexec as Hexec'. cbn [execute] in Hexec'. apply reads_bind_ok in Hexec' as (u & _ & Hexec').
  destruct (dispatch_spending (messages r) (with_hub s' (credit hub rewards hub (received (sys_coin y) [c])
    (with_fund (sy_fund y - amount c) y)))) as (y' & Hrun).
  { by eapply compound_spends. }
  { rewrite credit_hub. unfold sys_coin in *. cbn [sy_hub with_hub with_coins with_fund sy_coins].
    by rewrite (coin_constant _ _ _ _ _ _ _ Hexec). }
  exists y'. eapply (run_hub hub rewards token rewards _ [c] q env r s' [] y); [|exact Henv|exact Htell| |exact Hexec|by rewrite app_nil_r].
  - rewrite Hgot. unfold System.debit. rewrite decide_False, decide_True by done.
    by rewrite (proj2 (N.leb_le _ _)).
  - split; [by intros [=]|]. intros _. unfold bond_of. simpl.
    rewrite (rd_state _ _ _ _ _ _ _ _ Hrd). intros [= Hz]. lia.
Qed.

(** *** From the first call to the last *)
Lemma update_global_total q env s st c raw ds :
  st_state s = Some st → st_config s = Some (ConfigJson c) → rewards_contract c = Some raw →
  addr_humanize raw = Ok rewards → query_all_delegations q (contract_address env) = Ok ds →
  execute_update_global q env s = Ok
    (mkResponse (((λ d, WithdrawDelegatorReward (validator d)) <$> ds) ++
      [WasmExecute rewards (ToRewards ProcessRewards) []]) [("action", AStr "update_global_index")],
     HubState.set_state (set_last_index_modification (block_time env) st) s).
Proof.
  intros Hst Hc Hraw Hrw Hds. unfold execute_update_global, withdraw_all_rewards.
  apply reads_bind_ok. exists c. split; [by apply load_config_ok|].
  apply lift_bind_ok. exists raw. split; [by apply unwrap_option_ok|].
  apply lift_bind_ok. exists rewards. split; [done|].
  apply lift_bind_ok. eexists. split; [by rewrite Hds|].
  apply cm_bind_ok. eexists (), _. split; [|by apply cm_ret_ok].
  apply update_state_ok. by eexists st, _.
Qed.

Lemma process_rewards_total q env s c bal :
  Rewards.rw_config s = Some c → Rewards.rw_pause s = Some false →
  addr_humanize (hub_contract c) = Ok hub →
  query_balance q (contract_address env) (rc_underlying_coin_denom c) = Ok bal →
  Rewards.execute q env (mkInfo hub []) ProcessRewards s = Ok
    (mkResponse [WasmExecute hub (ToHub UpdateExchangeRate) [bal]]
      [("reward_accumulated", AUint (amount bal))], s).
Proof.
  intros Hc Hpause Hhub Hbal. simpl. apply reads_bind_ok. exists (mkResponse [] []).
  split; [unfold Rewards.is_contract_paused; by rewrite Hpause|]. unfold Rewards.execute_process_rewards.
  apply reads_bind_ok. exists c. split; [unfold Rewards.load_config; by rewrite Hc|].
  apply lift_bind_ok. exists hub. split; [done|].
  apply lift_bind_ok. exists (). split; [apply fail_if_ok, bool_decide_eq_false; by intros []|].
  apply lift_bind_ok. exists bal. split; [done|]. apply cm_ret_ok. by destruct bal.
Qed.

(** The states between the calls: the time is noted, the validators pay, the rewards
    leave with the last call. *)
Definition noted (now : N) (st : State) (y : System) : System :=
  with_hub (HubState.set_state (set_last_index_modification now st) (sy_hub y)) y.
Definition paid (log : list (string * N)) (now : N) (st : State) (y : System) : System :=
  all_rewarded log (noted now st y).

(** What the rewards contract needs to process the rewards for the hub. *)
Record ready_to_process (q : Querier) (env : Env) (s : Rewards.Store) (coin : string) (rw : N) : Prop := {
  rp_address : contract_address env = rewards;
  rp_pause : Rewards.rw_pause s = Some false;
  rp_config : ∃ c, Rewards.rw_config s = Some c ∧ addr_humanize (hub_contract c) = Ok hub ∧
    rc_underlying_coin_denom c = coin;
  rp_balance : query_balance q rewards coin = Ok (mkCoin coin rw);
}.

Lemma process_call_total q q3 renv env coin rw y st params fee :
  ready_to_process q renv (sy_rewards y) coin rw → tells_rewards rewards y q → sy_fund y = rw →
  tells_hub hub (with_fund 0 y) [mkCoin coin rw] q3 → contract_address env = hub →
  ready_for_rewards q3 env rewards (mkCoin coin rw) (sy_hub y) st params fee →
  0 < total_bond_amount st →
  ∃ y', dispatch [(hub, WasmExecute rewards (ToRewards ProcessRewards) [])] y y' ∧
    dispatch [(rewards, WasmExecute hub (ToHub UpdateExchangeRate) [mkCoin coin rw])] y y'.
Proof.
  intros [Haddr Hpause (c & Hc & Hhub & Hcoin) Hbal] Htell Hfund Htell3 Henv Hrd Hbond. subst coin.
  destruct (compound_call_total y q3 env (mkCoin (rc_underlying_coin_denom c) rw) st params fee) as (y' & Hrun); try done.
  { simpl. by rewrite Hfund, N.sub_diag. }
  { simpl. by rewrite Hfund. }
  exists y'. split; [|exact Hrun]. assert (with_fund (sy_fund y + 0) y = y) as Hsame
    by (rewrite N.add_0_r; by destruct y).
  assert (with_rewards (sy_rewards y) y = y) as Hsame2 by by destruct y.
  eapply (run_rewards hub rewards token hub _ [] q renv _ (sy_rewards y) [] y y);
    [|exact Haddr| |eapply process_rewards_total; [exact Hc|exact Hpause|exact Hhub|by rewrite Haddr]|].
  - unfold System.debit. rewrite decide_True by done. rewrite (proj2 (N.leb_le _ _)) by apply N.le_0_l.
    change (received _ []) with 0. rewrite N.sub_0_r. by destruct y.
  - change (received _ []) with 0. by rewrite (credit_rewards hub rewards Hdistinct), Hsame.
  - change (received _ []) with 0. rewrite (credit_rewards hub rewards Hdistinct), Hsame, Hsame2, app_nil_r.
    exact Hrun.
Qed.

(** The whole transaction, on a chain that answers each call with the truth. *)
Lemma compounding_commits y from q1 q2 q3 env renv ds log st params cb fee :
  let rw := sy_fund y + sum_of snd log in
  let coin := sys_coin y in
  let st1 := set_last_index_modification (block_time env) st in
  let y2 := paid log (block_time env) st y in
  outside hub rewards from → contract_address env = hub →
  tells_hub hub y [] q1 → query_all_delegations q1 hub = Ok ds →
  log.*1 = validator <$> ds → tells_rewards rewards y2 q2 → ready_to_process q2 renv (sy_rewards y) coin rw →
  tells_hub hub (with_fund 0 y2) [mkCoin coin rw] q3 →
  st_state (sy_hub y) = Some st → st_current_batch (sy_hub y) = Some cb →
  ready_for_rewards q3 env rewards (mkCoin coin rw) (sy_hub y2) st1 params fee →
  0 < total_bond_amount st →
  ∃ y', dispatch [(from, WasmExecute hub (ToHub UpdateGlobalIndex) [])] y y' ∧
    compounded params cb st1 rw log y y'.
Proof.
  intros rw coin st1 y2 Hout Henv Htell1 Hds Hlog Htell2 Hrp Htell3 Hst Hcb Hrd Hbond.
  destruct (rd_config _ _ _ _ _ _ _ _ Hrd) as (c & raw & fc & col & Hc & Hraw & Hra & _ & _).
  destruct (process_call_total q2 q3 renv env coin rw y2 st1 params fee Hrp Htell2 eq_refl Htell3 Henv Hrd Hbond)
    as (y' & Hprocess & Hcompound).
  exists y'. split.
  - eapply (run_hub hub rewards token from _ [] q1 env _ _ [] y y); [|exact Henv|exact Htell1| | |].
    + rewrite (debit_outside hub rewards) by done. done.
    + split; by intros [=].
    + cbn [execute]. apply reads_bind_ok. exists (mkResponse [] []). split.
      { unfold is_contract_paused, load_pause, item_load.
        pose proof (rd_pause _ _ _ _ _ _ _ _ Hrd) as Hpause. simpl in Hpause. by rewrite Hpause. }
      eapply (update_global_total q1 env (sy_hub y) st c raw ds); try done. by rewrite Henv.
    + rewrite app_nil_r, credit_hub. change (received _ []) with 0. rewrite N.add_0_r.
      unfold System.from_hub. cbn [messages]. rewrite fmap_app.
      replace ((λ m, (hub, m)) <$> ((λ d, WithdrawDelegatorReward (validator d)) <$> ds))
        with ((λ v, (hub, WithdrawDelegatorReward (P := WasmBody) v)) <$> log.*1)
        by by rewrite Hlog, <- !list_fmap_compose.
      apply withdraws_dispatch. exact Hprocess.
  - eapply (compound_effect hub rewards token Hdistinct) in Hcompound as [_ [Hfee Hs Hsk Hsu Hco Hpaid]];
      [|exact (rd_params _ _ _ _ _ _ _ _ Hrd)|exact (rd_state _ _ _ _ _ _ _ _ Hrd)|exact Hcb].
    split; [done..|]. by rewrite Hpaid, app_nil_r.
Qed.
End progress.
