(* ===== verification/Termination.v ===== *)
(** * Every entry point terminates

    The loops of the program run on fuel in the model; here it is shown that no
    message, query or migration runs out of it, whatever the stores hold, when the
    code outside the repository returns.  The database [halts] holds what is known
    of the parts, [solve_halts] follows the code. *)
From S2P Require Import Prelude Bytes Cosmwasm Protocol SignedInteger HubState HubStateFacts.
From S2P Require Import HubMath HubCore HubConfig HubBond HubUnbond HubWithdraw.
From S2P Require Import HubAutoCompound HubContract RewardsContract HubUnbondFacts.
From S2P Require Import HubWithdrawFacts.

Definition halts {A} (o : outcome A) : Prop := o ≠ OutOfFuel.
Definition always_halts {S A} (m : cm S A) : Prop := ∀ s, halts (m s).

Create HintDb halts.

(** ** The parts of both monads *)
Section rules.
  Context {A B : Type}.

Lemma halts_ok (a : A) : halts (Ok a).
Proof. done. Qed.
Lemma halts_err e : halts (Err (A := A) e).
Proof. done. Qed.
Lemma halts_panic : halts (Panic (A := A)).
Proof. done. Qed.
Lemma halts_bind (m : outcome A) (f : A → outcome B) :
  halts m → (∀ a, halts (f a)) → halts (m ≫= f).
Proof. intros Hm Hf. destruct m; [apply Hf|done..]. Qed.
Lemma halts_unwrap (o : outcome A) : halts o → halts (unwrap o).
Proof. by destruct o. Qed.
Lemma halts_unwrap_option (o : option A) : halts (unwrap_option o).
Proof. by destruct o. Qed.
Lemma halts_unwrap_or (d : A) o : halts o → halts (unwrap_or d o).
Proof. by destruct o. Qed.
Lemma halts_try_ok (o : outcome A) : halts o → halts (try_ok o).
Proof. by destruct o. Qed.
Lemma halts_ok_or e (o : option A) : halts (ok_or e o).
Proof. by destruct o. Qed.
End rules.

Lemma halts_fold {A B} (f : B → A → outcome B) l b :
  (∀ b a, halts (f b a)) → halts (fold_o f l b).
Proof. intros Hf. revert b. induction l as [|a l IH]; intros b; [done|]. exact (halts_bind _ _ (Hf b a) IH). Qed.
Lemma halts_fail_if b e : halts (fail_if b e).
Proof. by destruct b. Qed.
Lemma halts_u64_add a b : halts (u64_add a b).
Proof. unfold u64_add. by destruct (_ <? _). Qed.
Lemma halts_u64_sub a b : halts (u64_sub a b).
Proof. unfold u64_sub. by destruct (_ <=? _). Qed.

Section cm_rules.
  Context {S A B : Type}.

Lemma always_ret (a : A) : always_halts (mret a : cm S A).
Proof. done. Qed.
Lemma always_lift (o : outcome A) : halts o → always_halts (lift o : cm S A).
Proof. intros Ho s. unfold lift. by destruct o. Qed.
Lemma always_reads (f : S → outcome A) : (∀ s, halts (f s)) → always_halts (reads f).
Proof. intros Hf s. unfold reads. specialize (Hf s). by destruct (f s). Qed.
Lemma always_writes (f : S → S) : always_halts (writes f).
Proof. done. Qed.
Lemma always_bind (m : cm S A) (f : A → cm S B) :
  always_halts m → (∀ a, always_halts (f a)) → always_halts (m ≫= f).
Proof.
  intros Hm Hf s. specialize (Hm s). unfold mbind, cm_bind.
  destruct (m s) as [[a s']| | |]; [apply Hf|done..].
Qed.
End cm_rules.

#[export] Hint Resolve halts_ok halts_err halts_panic halts_unwrap halts_unwrap_option halts_unwrap_or
halts_try_ok halts_ok_or halts_fail_if halts_u64_add halts_u64_sub : halts.
#[export] Hint Resolve always_ret always_writes : halts.

Ltac solve_halts :=
  repeat first
    [ solve [eauto with halts]
    | apply always_bind; [|intros ?]
    | apply halts_bind; [|intros ?]
    | apply always_lift | apply always_reads; intros ?
    | apply halts_unwrap | apply halts_unwrap_or | apply halts_try_ok
    | apply halts_fold; intros ? ?
    | match goal with |- halts (match ?x with _ => _ end) => destruct x end
    | match goal with |- always_halts (match ?x with _ => _ end) => destruct x end ].

(** ** The code outside the repository *)

(** The host's calls return, and so does the decoding of the token's message. *)
Class Responsive (H : Host) : Prop := {
  rs_validate a : halts (addr_validate a);
  rs_canonicalize a : halts (addr_canonicalize a);
  rs_humanize c : halts (addr_humanize c);
  rs_u64_to_vec x : halts (u64_to_vec x);
  rs_u64_from_slice k : halts (u64_from_slice k);
  rs_string_from_slice k : halts (string_from_slice k);
}.
Class ResponsiveHook (HK : HookSerde) : Prop := {
  rs_hook b : halts (hook_from_binary b);
}.
(** The chain answers its queries. *)
Record answering (q : Querier) : Prop := {
  aw_delegations a : halts (query_all_delegations q a);
  aw_delegation a v : halts (query_delegation q a v);
  aw_validators : halts (query_all_validators q);
  aw_balance a d : halts (query_balance q a d);
  aw_token a : halts (query_token_info q a);
}.
#[export] Hint Resolve rs_validate rs_canonicalize rs_humanize rs_u64_to_vec rs_u64_from_slice
rs_string_from_slice rs_hook aw_delegations aw_delegation aw_validators aw_balance aw_token : halts.

Section hub.
  Context `{H : Host} {HS : HostSpec H} {HR : Responsive H}.

(** *** What follows from the laws of the host *)
Lemma halts_add a b : halts (Uint128_add a b).
Proof. rewrite Uint128_add_spec. by destruct (_ <? _). Qed.
Lemma halts_sub a b : halts (Uint128_checked_sub a b).
Proof. rewrite Uint128_checked_sub_spec. by destruct (_ <=? _). Qed.
Lemma halts_mul u d : halts (Uint128_mul_Decimal u d).
Proof. rewrite Uint128_mul_Decimal_spec. by destruct (_ <? _). Qed.
Lemma halts_ratio n d : halts (Decimal_from_ratio n d).
Proof. rewrite Decimal_from_ratio_spec. destruct (d =? 0); [done|]. by destruct (_ <? _). Qed.
Lemma halts_decimal_add a b : halts (Decimal_add a b).
Proof. rewrite Decimal_add_spec. by destruct (_ <? _). Qed.
Lemma halts_draw seed n : halts (gen_range_from seed n).
Proof.
  destruct n as [|n]; [by rewrite gen_range_empty|].
  destruct (gen_range_in seed (S n)) as (r & -> & _); [lia|done].
Qed.
Lemma halts_admin_get slot : halts (admin_get slot).
Proof. destruct slot; [by rewrite admin_get_spec|]. destruct admin_get_none as [e Hget]. by rewrite Hget. Qed.
Lemma halts_admin_set slot o : halts (admin_set slot o).
Proof. by rewrite admin_set_spec. Qed.
Lemma halts_string_to_vec a : halts (string_to_vec a).
Proof. by destruct (string_roundtrip a) as (k & -> & _). Qed.
Lemma halts_from_subtraction a b : halts (from_subtraction a b).
Proof. by rewrite from_subtraction_eq. Qed.
End hub.
#[export] Hint Resolve halts_add halts_sub halts_mul halts_ratio halts_decimal_add halts_draw
halts_admin_get halts_admin_set halts_string_to_vec halts_from_subtraction : halts.

Section handlers.
  Context `{H : Host} {HS : HostSpec H} {HR : Responsive H} `{HK : HookSerde} {HRK : ResponsiveHook HK}.
  Context (q : Querier) (Hq : answering q).

(** ** Shared parts *)
Lemma halts_load_config s : halts (load_config s).
Proof. unfold load_config, item_load. solve_halts. Qed.
Lemma halts_update_rate ti rq st : halts (update_exchange_rate ti rq st).
Proof. unfold update_exchange_rate. solve_halts. Qed.
Lemma always_update_state f : (∀ st, halts (f st)) → always_halts (update_state f).
Proof. intros Hf. unfold update_state, load_state, item_load. solve_halts. Qed.
Lemma halts_assert_admin slot a : halts (HubCore.unwrap_assert_admin slot a).
Proof. unfold HubCore.unwrap_assert_admin. solve_halts. Qed.
Lemma halts_paused s : halts (HubCore.is_contract_paused s).
Proof. unfold HubCore.is_contract_paused, load_pause, item_load. solve_halts. Qed.
Lemma halts_read_validators s : halts (read_validators s).
Proof. unfold read_validators. solve_halts. Qed.
#[local] Hint Resolve halts_load_config halts_update_rate halts_assert_admin halts_paused
halts_read_validators : halts.
#[local] Hint Resolve always_update_state : halts.
Ltac loads := unfold load_state, load_parameters, load_current_batch, load_pause, item_load.

Lemma halts_total_issued s : halts (query_total_issued q s).
Proof. unfold query_total_issued. solve_halts. Qed.
#[local] Hint Resolve halts_total_issued : halts.
Lemma always_slashing env : always_halts (slashing q env).
Proof. unfold slashing, sum_delegations. loads. solve_halts. Qed.
#[local] Hint Resolve always_slashing : halts.

(** ** The handlers *)
Lemma halts_division a b : halts (decimal_division a b).
Proof. unfold decimal_division. solve_halts. Qed.
Lemma halts_mint th f st a b c d : halts (mint_after_fee th f st a b c d).
Proof. unfold mint_after_fee. solve_halts. Qed.
Lemma halts_unbond_fee th f st a b c : halts (unbond_after_fee th f st a b c).
Proof. unfold unbond_after_fee. solve_halts. Qed.
Lemma halts_pick claim a height s : halts (pick_validator q claim a height s).
Proof.
  unfold pick_validator. loads. apply halts_bind; [solve_halts|intros params].
  apply halts_bind; [solve_halts|intros ds]. apply pick_loop_fuel. lia.
Qed.
Lemma always_store_wait b a n : always_halts (store_unbond_wait_list b a n).
Proof. unfold store_unbond_wait_list. solve_halts. Qed.
Lemma always_remove_wait l a : always_halts (remove_unbond_wait_list l a).
Proof.
  unfold remove_unbond_wait_list. apply always_bind; [solve_halts|intros k].
  induction l as [|b l IH]; simpl; solve_halts.
Qed.
Lemma always_process t bal : always_halts (process_withdraw_rate t bal).
Proof. intros s. apply process_withdraw_rate_terminates. Qed.
#[local] Hint Resolve halts_division halts_mint halts_unbond_fee halts_pick always_store_wait
always_remove_wait always_process : halts.

Lemma always_close_batch env cb st : always_halts (close_batch q env cb st).
Proof. unfold close_batch, store_unbond_history. solve_halts. Qed.
#[local] Hint Resolve always_close_batch : halts.

Lemma execute_terminates env info msg : always_halts (execute q env info msg).
Proof.
  destruct msg; simpl; (apply always_bind; [solve_halts|intros ?]).
  - solve_halts.
  - solve_halts.
  - unfold execute_update_config, token_locked. solve_halts.
  - unfold execute_update_admin. solve_halts.
  - unfold execute_update_exchange_rate. loads. solve_halts.
  - unfold execute_register_validator, store_white_validators. solve_halts.
  - unfold execute_deregister_validator, remove_white_validators. solve_halts.
  - unfold execute_update_params. loads. solve_halts.
  - unfold execute_bond, is_valid_validator. loads. solve_halts.
  - unfold execute_update_global, withdraw_all_rewards. solve_halts.
  - unfold execute_withdraw_unbonded, get_finished_amount, get_unbond_batches, read_unbond_history.
    loads. solve_halts.
  - unfold execute_slashing. loads. solve_halts.
  - unfold receive_cw20, execute_unbond. loads. solve_halts.
Qed.

Lemma query_terminates env msg s : halts (query env msg s).
Proof.
  destruct msg; simpl.
  - unfold query_config, humanize_option. solve_halts.
  - unfold query_state. loads. solve_halts.
  - unfold query_white_validators. solve_halts.
  - unfold query_current_batch. loads. solve_halts.
  - unfold query_withdrawable_unbonded, query_get_finished_amount, read_unbond_history. loads. solve_halts.
  - unfold query_params. loads. solve_halts.
  - unfold query_unbond_requests, get_unbond_requests. solve_halts.
  - unfold query_unbond_requests_limitation, all_unbond_history. solve_halts.
  - solve_halts.
Qed.

Lemma instantiate_terminates env info msg : always_halts (instantiate env info msg).
Proof. unfold instantiate, validate_params. solve_halts. Qed.
Lemma migrate_terminates msg : always_halts (migrate msg).
Proof. unfold migrate, migrate_config, read_legacy_config, item_load. solve_halts. Qed.

(** ** The rewards contract *)
Lemma rewards_execute_terminates env info msg : always_halts (Rewards.execute q env info msg).
Proof.
  destruct msg; simpl; unfold Rewards.unwrap_assert_admin, Rewards.is_contract_paused,
    Rewards.execute_process_rewards, Rewards.load_config; solve_halts.
Qed.
Lemma rewards_instantiate_terminates info msg : always_halts (Rewards.instantiate info msg).
Proof. unfold Rewards.instantiate. solve_halts. Qed.
Lemma rewards_query_terminates msg s : halts (Rewards.query msg s).
Proof. destruct msg; simpl; unfold Rewards.query_config, Rewards.load_config; solve_halts. Qed.
End handlers.
