(* ===== verification/HubWhitelist.v ===== *)
(** * The whitelist: the stored map and the list the code reads from it *)
From S2P Require Import Prelude Bytes Cosmwasm Protocol HubState HubStateFacts HubMath.
From S2P Require Import HubCore HubConfig HubBond HubUnbond HubWithdraw HubAutoCompound.
From S2P Require Import HubContract HubCoreFacts HubBondFacts HubUnbondFacts HubAdminFacts.
From S2P Require Import HubInvariant.

Section whitelist.
  Context `{H : Host} {HS : HostSpec H}.

Definition whitelisted (s : HubStore) (v : string) : Prop := is_valid_validator v s = Ok true.

(** Every key of the map is the encoding of an address. *)
Definition whitelist_keys_ok (s : HubStore) : Prop :=
  ∀ k b, st_validators s !! k = Some b → ∃ v, string_to_vec v = Ok k.

Lemma whitelisted_lookup s v k :
  string_to_vec v = Ok k → whitelisted s v ↔ is_Some (st_validators s !! k).
Proof.
  intros Hk. unfold whitelisted, is_valid_validator. rewrite Hk. simpl.
  destruct (st_validators s !! k); split; [by eexists|done|done|by intros []].
Qed.

(** The list the code reads is the whitelist, each address once. *)
Lemma read_validators_spec s :
  whitelist_keys_ok s →
  ∃ l, read_validators s = Ok l ∧ NoDup l ∧ (∀ v, v ∈ l ↔ whitelisted s v) ∧
       length l = size (st_validators s).
Proof.
  intros Hok. unfold read_validators.
  assert (∀ r : list (bytes * bool), (∀ kv, kv ∈ r → ∃ v, string_to_vec v = Ok kv.1) →
    ∃ l, Forall2 (λ kv v, string_to_vec v = Ok kv.1) r l ∧
      ∀ acc, fold_o (λ validators item, sender ← unwrap (string_from_slice item.1);
        Ok (validators ++ [sender])) r acc = Ok (acc ++ l)) as Hfold.
  { induction r as [|kv r IH]; intros Hr.
    - exists []. split; [constructor|]. intros acc. by rewrite app_nil_r.
    - destruct (Hr kv) as [v Hv]; [left|]. destruct IH as (l & Hl & Hf).
      { intros kv' ?. apply Hr. by right. }
      exists (v :: l). split; [by constructor|]. intros acc. simpl.
      rewrite (string_from_to v kv.1 Hv). simpl. rewrite Hf. by rewrite <- app_assoc. }
  destruct (Hfold (kv_range (st_validators s) None)) as (l & Hl & Hf).
  { intros [k b] [Hk _]%kv_range_elem. by apply (Hok k b). }
  exists l. split; [apply (Hf [])|].
  assert (∀ v, v ∈ l ↔ ∃ k, k ∈ (kv_range (st_validators s) None).*1 ∧ string_to_vec v = Ok k)
    as Hin.
  { clear Hf. induction Hl as [|kv v r l Hkv Hl IH]; intros v'; simpl.
    - split; [by intros ?%elem_of_nil|]. intros (k & Hk & _). by apply elem_of_nil in Hk.
    - rewrite elem_of_cons, IH. setoid_rewrite elem_of_cons. split.
      + intros [->|(k & ? & ?)]; eauto.
      + intros (k & [->|?] & Hv'); [left; by apply (string_to_vec_inj v' v kv.1)|eauto]. }
  split; [|split].
  - pose proof (kv_range_keys_NoDup (st_validators s) None) as Hnd. clear Hf Hin.
    induction Hl as [|kv v r l Hkv Hl IH]; [constructor|].
    simpl in Hnd. apply NoDup_cons in Hnd as [Hni Hnd]. constructor; [|by apply IH].
    intros Hv. apply Hni. apply list_elem_of_lookup in Hv as [i Hi].
    destruct (Forall2_lookup_r _ _ _ _ _ Hl Hi) as (kv' & Hr & Hkv').
    apply list_elem_of_fmap. exists kv'. split; [congruence|by eapply list_elem_of_lookup_2].
  - intros v. rewrite Hin. destruct (string_roundtrip v) as (k & Hk & _).
    rewrite (whitelisted_lookup s v k Hk). split.
    + intros (k' & Hk' & Hv). assert (k' = k) as -> by congruence.
      apply list_elem_of_fmap in Hk' as ([k2 b] & -> & Hkb). apply kv_range_elem in Hkb as [Hkb _].
      simpl. by exists b.
    + intros [b Hb]. exists k. split; [|done]. apply list_elem_of_fmap. exists (k, b).
      split; [done|]. by apply kv_range_elem.
  - apply Forall2_length in Hl. rewrite <- Hl.
    rewrite (Permutation_length (kv_range_all (st_validators s))).
    apply length_map_to_list.
Qed.

(** The map after a registration and after a removal. *)
Lemma store_white_validators_ok v s r s' :
  store_white_validators v s = Ok (r, s') →
  ∃ k, string_to_vec v = Ok k ∧ s' = set_validators (<[k := true]> (st_validators s)) s.
Proof. intros Hrun. unfold store_white_validators in Hrun. bind Hrun as k Hk. inv_ok. by exists k. Qed.
Lemma remove_white_validators_ok v s r s' :
  remove_white_validators v s = Ok (r, s') →
  ∃ k, string_to_vec v = Ok k ∧ s' = set_validators (delete k (st_validators s)) s.
Proof. intros Hrun. unfold remove_white_validators in Hrun. bind Hrun as k Hk. inv_ok. by exists k. Qed.

Lemma whitelisted_store v s r s' :
  store_white_validators v s = Ok (r, s') →
  (whitelist_keys_ok s → whitelist_keys_ok s') ∧
  ∀ w, whitelisted s' w ↔ w = v ∨ whitelisted s w.
Proof.
  intros (k & Hk & ->)%store_white_validators_ok. split.
  - intros Hok k' b Hb. simpl in Hb. apply lookup_insert_Some in Hb as [[<- _]|[_ Hb]]; [by exists v|].
    by apply (Hok k' b).
  - intros w. destruct (string_roundtrip w) as (kw & Hkw & _).
    rewrite !(whitelisted_lookup _ w kw Hkw). simpl. rewrite lookup_insert_is_Some. split.
    + intros [<-|[_ ?]]; [left; by apply (string_to_vec_inj w v k)|by right].
    + intros [->|?]; [left; congruence|]. destruct (decide (k = kw)); [by left|by right].
Qed.
Lemma whitelisted_remove v s r s' :
  remove_white_validators v s = Ok (r, s') →
  (whitelist_keys_ok s → whitelist_keys_ok s') ∧
  ∀ w, whitelisted s' w ↔ w ≠ v ∧ whitelisted s w.
Proof.
  intros (k & Hk & ->)%remove_white_validators_ok. split.
  - intros Hok k' b Hb. simpl in Hb. apply lookup_delete_Some in Hb as [_ Hb]. by apply (Hok k' b).
  - intros w. destruct (string_roundtrip w) as (kw & Hkw & _).
    rewrite !(whitelisted_lookup _ w kw Hkw). simpl. rewrite lookup_delete_is_Some. split.
    + intros [Hne ?]. split; [|done]. intros ->. congruence.
    + intros [Hne ?]. split; [|done]. intros ->. by apply Hne, (string_to_vec_inj w v kw).
Qed.

Lemma deregister_spec q env info v s r s' :
  execute_deregister_validator q env info v s = Ok (r, s') →
  st_admin s = Some (Some (sender info)) ∧
  ∃ l, read_validators s = Ok l ∧ length l ≠ 1%nat ∧
    remove_white_validators v s = Ok ((), s') ∧
    match query_delegation q (contract_address env) v with
    | Ok (Some d) => ∃ w l', read_validators s' = Ok l' ∧ w ∈ l' ∧
        messages r = [StakingRedelegate v w (del_amount d);
                      WasmExecute (contract_address env) (ToHub UpdateGlobalIndex) []]
    | _ => messages r = []
    end.
Proof.
  intros Hrun. unfold execute_deregister_validator in Hrun.
  bind Hrun as u Hadmin. apply unwrap_assert_admin_ok in Hadmin. bind Hrun as l Hl.
  bind Hrun as u2 Hlen. apply fail_if_ok, Nat.eqb_neq in Hlen.
  bind Hrun as u3 s1 Hrm. destruct u3. bind Hrun as dq Hdq.
  bind Hrun as rr s2 Hr. apply cm_ret_ok in Hrun as [= -> ->]. simpl.
  split; [done|]. exists l. split; [done|]. split; [done|].
  apply try_ok_ok in Hdq as [(od & Hq & ->)|[(e & Hq) ->]]; rewrite Hq; [|by apply cm_ret_ok in Hr as [= -> ->]].
  bind Hr as l' Hl'. bind Hr as i Hi. bind Hr as w Hw. apply unwrap_option_ok in Hw.
  destruct od as [d|]; apply cm_ret_ok in Hr as [= -> ->]; (split; [done|]); [|done].
  exists w, l'. split; [done|]. split; [by eapply list_elem_of_lookup_2|done].
Qed.
End whitelist.

Section reachable.
  Context `{H : Host} {HS : HostSpec H} `{HK : HookSerde}.

Lemma keeps_settings_validators {A} (m : cm HubStore A) :
  keeps (preserves settings) m → keeps (preserves st_validators) m.
Proof.
  intros Hm s a s' Hrun. specialize (Hm s a s' Hrun). unfold preserves, settings in *. congruence.
Qed.
Hint Resolve keeps_settings_validators : keeps.

Lemma update_admin_validators info a : keeps (preserves st_validators) (execute_update_admin info a).
Proof. unfold execute_update_admin. solve_keeps. Qed.
Lemma update_params_validators info a b c d e :
  keeps (preserves st_validators) (execute_update_params info a b c d e).
Proof. unfold execute_update_params. solve_keeps. Qed.
Lemma update_config_validators info t f : keeps (preserves st_validators) (execute_update_config info t f).
Proof. unfold execute_update_config. solve_keeps. Qed.
Hint Resolve update_admin_validators update_params_validators update_config_validators : keeps.

Lemma receive_settings q env info msg : keeps (preserves settings) (receive_cw20 q env info msg).
Proof.
  unfold receive_cw20. apply keeps_bind; [apply _|solve_keeps|]. intros [].
  solve_keeps.
Qed.
Hint Resolve receive_settings : keeps.

Lemma register_spec q env info v s r s' :
  execute_register_validator q env info v s = Ok (r, s') →
  ∃ admin, admin_get (st_admin s) = Ok (Some admin) ∧
    (sender info = admin ∨ sender info = contract_address env) ∧
    (∃ vals, query_all_validators q = Ok vals ∧ v ∈ val_address <$> vals) ∧
    store_white_validators v s = Ok ((), s') ∧ messages r = [].
Proof.
  intros Hrun. unfold execute_register_validator in Hrun.
  bind Hrun as oa Hoa. bind Hrun as admin Hadmin. apply unwrap_option_ok in Hadmin as ->.
  bind Hrun as sr Hsr. bind Hrun as cr Hcr. bind Hrun as u Hu. apply fail_if_ok in Hu.
  bind Hrun as vals Hvals. bind Hrun as u2 Hu2. apply fail_if_ok in Hu2.
  bind Hrun as u3 s1 Hst. destruct u3. apply cm_ret_ok in Hrun as [= -> ->].
  exists admin. split; [done|]. split; [|split; [|done]].
  - apply andb_false_iff in Hu as [Hu%bool_decide_eq_false|Hu%bool_decide_eq_false];
      apply dec_stable in Hu; [by left|right]. subst.
    apply addr_humanize_canonicalize in Hsr. apply addr_humanize_canonicalize in Hcr. congruence.
  - exists vals. split; [done|]. apply negb_false_iff, existsb_exists in Hu2 as (x & Hx & Heq).
    apply String.eqb_eq in Heq as <-. apply list_elem_of_fmap. exists x. split; [done|].
    by apply list_elem_of_In.
Qed.

Lemma step_whitelist s s' : whitelist_keys_ok s → hub_step s s' → whitelist_keys_ok s'.
Proof.
  intros Hok Hstep.
  assert (∀ A (m : cm HubStore A) a, keeps (preserves st_validators) m → m s = Ok (a, s') →
    whitelist_keys_ok s') as Hframe.
  { intros A m a Hm Hrun k b. rewrite (Hm _ _ _ Hrun). apply Hok. }
  destruct Hstep as [q env info msg r Hrun|msg r Hrun].
  - destruct msg; simpl in Hrun;
      try solve [eapply Hframe; [|exact Hrun]; solve_keeps].
    + bind Hrun as u Hu. apply register_spec in Hrun as (admin & _ & _ & _ & Hst & _).
      by apply (whitelisted_store _ _ _ _ Hst).
    + bind Hrun as u Hu. apply deregister_spec in Hrun as (_ & l & _ & _ & Hrm & _).
      by apply (whitelisted_remove _ _ _ _ Hrm).
  - eapply Hframe; [|exact Hrun]. unfold migrate, migrate_config. solve_keeps.
Qed.

Lemma reachable_whitelist s : reachable s → whitelist_keys_ok s.
Proof.
  induction 1 as [env info msg r s Hinit|s s' _ IH Hstep]; [|by eapply step_whitelist].
  apply instantiate_spec in Hinit as (pay & raw & _ & _ & -> & _).
  intros k b Hk. simpl in Hk. by rewrite lookup_empty in Hk.
Qed.
End reachable.
#[export] Hint Resolve receive_settings : keeps.
