(* ===== verification/HubHistory.v ===== *)
(** * Reading the history in pages *)
From S2P Require Import Prelude Bytes Cosmwasm Protocol HubState HubStateFacts HubMath.
From S2P Require Import HubCore HubConfig HubBond HubUnbond HubWithdraw HubAutoCompound.
From S2P Require Import HubContract HubCoreFacts HubBondFacts HubUnbondFacts HubAdminFacts.
From S2P Require Import HubWithdrawFacts HubInvariant.

Section history.
  Context `{H : Host} {HS : HostSpec H}.

(** The keys of [n] consecutive batches, in order. *)
Definition batch_keys (first : N) (n : nat) : list bytes :=
  (λ k, to_be_bytes (first + N.of_nat k)) <$> seq 0 n.

Lemma batch_keys_sorted first n :
  first + N.of_nat n ≤ u64_bound → keys_sorted (batch_keys first n).
Proof.
  unfold batch_keys. intros Hb.
  assert (∀ m, (m + n)%nat = (m + n)%nat → first + N.of_nat (m + n) ≤ u64_bound →
    keys_sorted ((λ k, to_be_bytes (first + N.of_nat k)) <$> seq m n)) as Hgen; [|by apply Hgen].
  clear Hb. induction n as [|n IH]; intros m _ Hb; simpl; [constructor|]. constructor.
  - apply IH; [done|lia].
  - apply Forall_fmap, Forall_forall. intros k Hk. apply elem_of_seq in Hk. unfold compose.
    rewrite to_be_bytes_lt by lia. apply Is_true_true, N.ltb_lt. lia.
Qed.

Lemma elem_of_batch_keys first n k :
  k ∈ batch_keys first n ↔ ∃ i, first ≤ i < first + N.of_nat n ∧ k = to_be_bytes i.
Proof.
  unfold batch_keys. rewrite list_elem_of_fmap. setoid_rewrite elem_of_seq. split.
  - intros (j & -> & ?). exists (first + N.of_nat j). split; [lia|done].
  - intros (i & ? & ->). exists (N.to_nat (i - first)). split; [f_equal; lia|lia].
Qed.

(** The first batch of a page that starts after [start]. *)
Definition page_first (start : option N) : N :=
  match start with Some i => i + 1 | None => 1 end.

Lemma key_from_convert start j :
  from_option (λ i, i < u64_bound) True start → 1 ≤ j → j < u64_bound →
  key_from (convert start) (to_be_bytes j) ↔ page_first start ≤ j.
Proof.
  intros Hs H1 Hj. destruct start as [i|]; [|split; [intros _; exact H1|done]].
  change (i < u64_bound) in Hs.
  change (key_from _ _) with (negb (bytes_lt (to_be_bytes j) (to_be_bytes i ++ [1]))).
  change (page_first (Some i)) with (i + 1).
  rewrite bytes_lt_app by (by rewrite ?length_be_bytes || done).
  rewrite to_be_bytes_lt by done.
  rewrite Is_true_true, negb_true_iff, orb_false_iff, N.ltb_ge, bool_decide_eq_false.
  split.
  - intros [Hle Hne]. destruct (decide (j = i)) as [->|]; [done|lia].
  - intros Hlt. split; [lia|]. intros Heq. apply to_be_bytes_inj in Heq; lia.
Qed.

(** The range the code reads is the consecutive closed batches. *)
Lemma history_range_keys s cb st start :
  hub_inv_at s cb st → from_option (λ i, i < u64_bound) True start →
  (kv_range (st_history s) (convert start)).*1 =
    batch_keys (page_first start) (N.to_nat (cb_id cb - page_first start)).
Proof.
  intros Hi Hs. pose proof (inv_bound _ _ _ Hi) as Hb. apply keys_sorted_ext.
  - apply kv_range_sorted.
  - destruct (N.le_gt_cases (page_first start) (cb_id cb)); [apply batch_keys_sorted; lia|].
    replace (cb_id cb - page_first start) with 0 by lia. constructor.
  - intros k. rewrite elem_of_batch_keys, list_elem_of_fmap. split.
    + intros ([k' h] & -> & [Hk Hfrom]%kv_range_elem). simpl.
      destruct (inv_hist_keys _ _ _ Hi _ _ Hk) as (i & Hib & ->).
      assert (is_Some (hist s i)) as Hsome by by exists h.
      apply (inv_hist_dom _ _ _ Hi i Hib) in Hsome.
      apply key_from_convert in Hfrom; [|done|lia|done]. exists i. split; [lia|done].
    + intros (i & Hrange & ->).
      assert (1 ≤ page_first start) by (destruct start; simpl; lia).
      destruct (proj2 (inv_hist_dom _ _ _ Hi i ltac:(lia)) ltac:(lia)) as [h Hh].
      exists (to_be_bytes i, h). split; [done|]. apply kv_range_elem. split; [done|].
      apply key_from_convert; [done|lia|lia|lia].
Qed.

Lemma all_unbond_history_spec s cb st start limit l :
  hub_inv_at s cb st → from_option (λ i, i < u64_bound) True start →
  all_unbond_history start limit s = Ok l →
  N.of_nat (length l) = N.min (N.min (default DEFAULT_LIMIT limit) MAX_LIMIT)
                              (cb_id cb - page_first start) ∧
  ∀ k h, l !! k = Some h → hist s (page_first start + N.of_nat k) = Some h.
Proof.
  intros Hi Hs [= <-]. set (lim := N.min (default DEFAULT_LIMIT limit) MAX_LIMIT).
  pose proof (history_range_keys s cb st start Hi Hs) as Hkeys.
  set (r := kv_range (st_history s) (convert start)) in *.
  assert (length r = N.to_nat (cb_id cb - page_first start)) as Hlen.
  { rewrite <- (length_fmap fst r), Hkeys. unfold batch_keys. by rewrite length_fmap, length_seq. }
  split.
  - rewrite length_fmap, length_take, Hlen. lia.
  - intros k h Hk. apply list_lookup_fmap_Some in Hk as ([key h'] & -> & Hk).
    rewrite lookup_take_Some in Hk. destruct Hk as [Hk _].
    assert (r.*1 !! k = Some key) as Hkey by (by rewrite list_lookup_fmap, Hk).
    rewrite Hkeys in Hkey. unfold batch_keys in Hkey.
    apply list_lookup_fmap_Some in Hkey as (j & -> & Hj). apply lookup_seq in Hj as [-> _].
    apply list_elem_of_lookup_2, kv_range_elem in Hk as [Hk _]. done.
Qed.
End history.
