(* ===== verification/HubRefinement.v ===== *)
(** * The hub implements the claim book

    [book_of] reads the claim book out of a store, [event_of] reads the event out
    of an executed message.  Every successful message is the book's step. *)
From S2P Require Import Prelude Bytes Cosmwasm Protocol SignedInteger HubState HubStateFacts.
From S2P Require Import HubMath HubCore HubConfig HubBond HubUnbond HubWithdraw.
From S2P Require Import HubAutoCompound HubContract HubCoreFacts HubBondFacts HubUnbondFacts.
From S2P Require Import HubAdminFacts HubWithdrawFacts HubInvariant HubPayments Book.
From S2P Require Import HubSolvency Chain ChainFacts.

Section abstraction.
  Context `{H : Host}.

Definition open_batch (s : HubStore) : N := from_option cb_id 0 (st_current_batch s).
Definition done_batch (s : HubStore) : N := from_option last_processed_batch 0 (st_state s).
Definition rate_in (s : HubStore) (b : N) : Decimal :=
  from_option withdraw_rate (mkDecimal 0) (hist s b).
Definition book_of (s : HubStore) : Book :=
  mkBook (open_batch s) (done_batch s) (wait_entry s) (rate_in s).

(** The coins a message sends to [to]. *)
Definition coins_to (to : Addr) (msg : CosmosMsg WasmBody) : N :=
  match msg with
  | BankSend to' coins => if decide (to' = to) then sum_of amount coins else 0
  | _ => 0
  end.

Definition event_of (s : HubStore) (info : MessageInfo) (msg : ExecuteMsg)
    (r : Response WasmBody) (s' : HubStore) : event :=
  match msg with
  | WithdrawUnbonded => EvPay (sender info) (sum_of (coins_to (sender info)) (messages r))
  | Receive m => request_between (book_of s) (book_of s') (cw20_sender m)
  | _ => EvQuiet
  end.

(** What an event has to do with the message and its response: a payment is the
    one bank message that a withdrawal sends to its sender, a request comes with
    tokens of at least its amount. *)
Definition event_matches (info : MessageInfo) (msg : ExecuteMsg) (r : Response WasmBody)
    (ev : event) : Prop :=
  match ev with
  | EvQuiet => True
  | EvRequest u _ v | EvClose u _ v =>
      ∃ m, msg = Receive m ∧ u = cw20_sender m ∧ v ≤ cw20_amount m
  | EvPay u p =>
      msg = WithdrawUnbonded ∧ u = sender info ∧ 0 < p ∧
      ∃ denom, messages r = [BankSend u [mkCoin denom p]]
  end.
End abstraction.

Section runs.
  Context `{H : Host} `{HK : HookSerde}.

(** The messages of a response; the protocol fee that compounding sends to the
    collector is not taken from anybody's claims and left out. *)
Definition outgoing (msg : ExecuteMsg) (r : Response WasmBody) : list (CosmosMsg WasmBody) :=
  match msg with UpdateExchangeRate => [] | _ => messages r end.

(** What the hub's messages have sent to [u], whoever asked for it. *)
Definition sent (log : list (event * list (CosmosMsg WasmBody))) (u : Addr) : N :=
  sum_of (λ e, sum_of (coins_to u) e.2) log.

(** The runs of a deployed hub, with the events so far and the messages that the hub
    sent, latest first. *)
Inductive hub_run : list (event * list (CosmosMsg WasmBody)) → HubStore → Prop :=
  | hub_run_init env info msg r s :
      instantiate env info msg empty_store = Ok (r, s) → hub_run [] s
  | hub_run_execute log s q env info msg r s' :
      hub_run log s → execute q env info msg s = Ok (r, s') →
      hub_run ((event_of s info msg r s', outgoing msg r) :: log) s'
  | hub_run_migrate log s msg r s' :
      hub_run log s → migrate msg s = Ok (r, s') → hub_run ((EvQuiet, messages r) :: log) s'.
End runs.

Section simulation.
  Context `{H : Host} {HS : HostSpec H} `{HK : HookSerde}.

Lemma hub_run_reachable log s : hub_run log s → reachable s.
Proof.
  induction 1; [by eapply reach_init|eapply reach_step; [done|]..].
  - by eapply step_execute.
  - by eapply step_migrate.
Qed.

(** A book depends on the ledger only. *)
Lemma book_of_ledger s s' : ledger s' = ledger s → book_of s' = book_of s.
Proof.
  unfold ledger. intros [= Hcb Hst Hw Hh].
  unfold book_of, open_batch, done_batch. f_equal.
  - by rewrite Hcb.
  - unfold ledger_state in Hst.
    destruct (st_state s'), (st_state s); simpl in *; congruence.
  - unfold wait_entry, user_bucket, wait_bucket. by rewrite Hw.
  - unfold rate_in, hist. by rewrite Hh.
Qed.

Lemma same_book_quiet s s' : ledger s' = ledger s → book_step (book_of s) (book_of s') EvQuiet.
Proof. intros Hl. rewrite (book_of_ledger s s' Hl). by constructor. Qed.

Lemma book_of_inv s cb st :
  hub_inv_at s cb st → open_batch s = cb_id cb ∧ done_batch s = last_processed_batch st.
Proof.
  intros Hi. unfold open_batch, done_batch. by rewrite (inv_cb _ _ _ Hi), (inv_st _ _ _ Hi).
Qed.

(** A stored request is the book's request. *)
Lemma store_asks s cb st u n s' s3 :
  hub_inv_at s cb st → store_unbond_wait_list (cb_id cb) u n s = Ok ((), s') →
  st_wait s3 = st_wait s' → asks (book_of s) (book_of s3) u n.
Proof.
  intros Hi Hw Heq. pose proof (inv_bound _ _ _ Hi) as Hbb.
  destruct (store_unbond_wait_list_spec _ _ _ _ _ Hbb Hw) as (_ & _ & He & _).
  destruct (book_of_inv _ _ _ Hi) as [Ho _]. intros a b Hb.
  change (wait_entry s3 a b = if decide (a = u ∧ b = open_batch s)
    then Some (default 0 (wait_entry s u b) + n) else wait_entry s a b).
  replace (wait_entry s3 a b) with (wait_entry s' a b)
    by (unfold wait_entry, user_bucket, wait_bucket; by rewrite Heq).
  rewrite He, Ho by done. destruct (decide (u = a ∧ cb_id cb = b)) as [[-> ->]|Hn].
  - by rewrite decide_True.
  - by rewrite decide_False by naive_solver.
Qed.

(** The rates of the processed batches do not depend on what happens to others. *)
Lemma book_same_rates s s' :
  (∀ b, 1 ≤ b ≤ done_batch s → hist s' b = hist s b) → same_rates (book_of s) (book_of s').
Proof. intros Hh b Hb. simpl. unfold rate_in. by rewrite Hh. Qed.

Lemma unbond_effects q env a u s r s' :
  hub_inv s → execute_unbond q env a u s = Ok (r, s') →
  ∃ v, v ≤ a ∧ (open_batch s' = open_batch s ∨ open_batch s' = open_batch s + 1) ∧
    done_batch s' = done_batch s ∧ same_rates (book_of s) (book_of s') ∧
    asks (book_of s) (book_of s') u v.
Proof.
  intros (cb & st & Hi) Hrun. apply execute_unbond_spec in Hrun
    as (params & cb' & s1 & st1 & supply & owed & s2 & msgs & c & raw & token &
        _ & Hcb & Hsl & Hst1 & _ & _ & Hfee & Hw & [_ Hend] & _).
  apply unbond_after_fee_ok in Hfee as [Howed _].
  rewrite (inv_cb _ _ _ Hi) in Hcb. injection Hcb as <-.
  pose proof (slashing_ledger q env _ _ _ Hsl) as Hleg.
  destruct (hub_inv_ledger _ _ _ _ Hleg Hi) as (st1' & Hi1 & _).
  assert (st1' = st1) as -> by (pose proof (inv_st _ _ _ Hi1); congruence).
  pose proof (book_of_ledger _ _ Hleg) as Hbook. rewrite <- Hbook.
  injection Hbook as <- <- _ _.
  destruct (book_of_inv _ _ _ Hi1) as [Ho Hd].
  pose proof (inv_processed _ _ _ Hi1) as Hlt. pose proof (inv_bound _ _ _ Hi1) as Hb.
  destruct (store_unbond_wait_list_spec _ _ _ _ _ Hb Hw) as ([w ->] & _).
  exists owed. split; [lia|]. split; [|split; [|split]].
  - rewrite Ho. destruct (_ <? _); [destruct Hend as (_ & _ & _ & _ & ->)|destruct Hend as [_ ->]];
      [by right|by left].
  - rewrite Hd. by destruct (_ <? _);
      [destruct Hend as (_ & _ & _ & _ & ->)|destruct Hend as [_ ->]].
  - apply book_same_rates. rewrite Hd. intros b Hbin.
    destruct (_ <? _); [destruct Hend as (_ & _ & _ & _ & ->)|by destruct Hend as [_ ->]].
    etransitivity; [apply (hist_set_history_insert s1 (cb_id cb)); lia|].
    by rewrite decide_False by lia.
  - eapply store_asks; [exact Hi1|exact Hw|].
    by destruct (_ <? _); [destruct Hend as (_ & _ & _ & _ & ->)|destruct Hend as [_ ->]].
Qed.

Lemma unbond_step q env a u s r s' :
  hub_inv s → execute_unbond q env a u s = Ok (r, s') →
  book_step (book_of s) (book_of s') (request_between (book_of s) (book_of s') u).
Proof.
  intros Hi Hrun. destruct (unbond_effects _ _ _ _ _ _ _ Hi Hrun) as (v & _ & Ho & Hd & Hr & Ha).
  apply (request_between_step _ _ _ v); try done.
  destruct Hi as (cb & st & Hi). destruct (book_of_inv _ _ _ Hi) as [Hcb _].
  simpl. rewrite Hcb. apply (inv_bound _ _ _ Hi).
Qed.

(** Every claim on a processed batch is among the released ones. *)
Lemma released_claim s cb st a l b v :
  hub_inv_at s cb st → claims s a l → 1 ≤ b ≤ last_processed_batch st →
  wait_entry s a b = Some v → b ∈ (List.filter (claim_released s) l).*1.
Proof.
  intros Hi Hl Hb He. pose proof (inv_processed _ _ _ Hi). pose proof (inv_bound _ _ _ Hi).
  assert (is_Some (hist s b)) as [h Hh] by (apply (inv_hist_dom _ _ _ Hi); lia).
  apply list_elem_of_fmap. exists (b, v). split; [done|].
  apply list_elem_of_In, filter_In. split.
  - apply list_elem_of_In, (claims_elem _ _ _ _ _ Hl). split; [lia|done].
  - unfold claim_released. simpl. rewrite Hh, (inv_released _ _ _ Hi b h) by (done || lia).
    apply bool_decide_eq_true. lia.
Qed.

Lemma claims_payout_book s cb st a l :
  hub_inv_at s cb st → claims s a l →
  claims_payout s l = sum_of (λ b, payout (rate_in s b) (default 0 (wait_entry s a b)))
    (upto (last_processed_batch st)).
Proof.
  intros Hi Hl. rewrite (claims_payout_upto _ _ _ _ _ Hi Hl). apply sum_of_ext.
  intros b Hb%elem_of_upto. pose proof (inv_processed _ _ _ Hi). pose proof (inv_bound _ _ _ Hi).
  assert (is_Some (hist s b)) as [h Hh] by (apply (inv_hist_dom _ _ _ Hi); lia).
  unfold paid_for, rate_in. rewrite Hh. simpl. case_decide as Hin; [done|].
  destruct (wait_entry s a b) as [v|] eqn:He; [|by rewrite payout_zero].
  exfalso. eapply Hin, released_claim; done.
Qed.

(** A payment strikes out every claim on a rated batch. *)
Lemma withdraw_step q env info s r s' :
  hub_inv s → execute_withdraw_unbonded q env info s = Ok (r, s') →
  book_step (book_of s) (book_of s') (EvPay (sender info) (sum_of (coins_to (sender info)) (messages r))).
Proof.
  intros Hinv Hrun. destruct (withdraw_effects _ _ _ _ _ _ Hinv Hrun)
    as (params & bal & s1 & l & _ & _ & _ & Hproc & Hl & _ & -> & (st1 & Hst1 & Hst') & Hh & _ & He).
  destruct Hinv as (cb & st & Hi). destruct (book_of_inv _ _ _ Hi) as [Ho Hd].
  destruct (withdraw_inv_at _ _ _ _ _ _ _ _ Hi Hrun) as (st' & Hi').
  destruct (book_of_inv _ _ _ Hi') as [Ho' Hd'].
  destruct (inv_process _ _ _ _ _ _ Hi Hproc) as (D & rs & HD & _ & (_ & _ & Hout) & Hw & Hi1).
  pose proof (inv_st _ _ _ Hi1) as Hst2. rewrite Hst1 in Hst2. injection Hst2 as ->.
  pose proof (inv_st _ _ _ Hi') as Hst2. rewrite Hst' in Hst2. injection Hst2 as <-.
  simpl in Hd'. pose proof (inv_processed _ _ _ Hi') as Hlt. simpl in Hlt.
  pose proof (inv_bound _ _ _ Hi) as Hb.
  assert (∀ b, hist s' b = hist s1 b) as Hhist by (intros b; by apply hist_ext).
  assert (∀ a b, wait_entry s1 a b = wait_entry s a b) as Hent
    by (intros a b; unfold wait_entry, user_bucket, wait_bucket; by rewrite Hw).
  apply bs_pay; simpl; [congruence|lia|lia|..].
  - apply book_same_rates. intros b Hbin. rewrite Hhist. apply Hout; [lia|].
    rewrite (Due_ids _ _ _ _ HD). lia.
  - intros a b Hbb. simpl. rewrite Hd', He by done.
    destruct (decide (a = sender info ∧ 1 ≤ b ≤ _)) as [[-> Hbin]|Hn].
    + case_decide as Hin; [done|]. destruct (wait_entry s (sender info) b) as [v|] eqn:Hv; [|done].
      exfalso. apply Hin. split; [done|].
      apply (released_claim _ _ _ _ _ _ v Hi1 Hl); [done|by rewrite Hent].
    + rewrite decide_False; [done|]. intros [-> Hin]. apply Hn. split; [done|].
      destruct (released_ids _ _ _ Hin) as (h & Hh1 & Hr).
      rewrite (inv_released _ _ _ Hi1 b h) in Hr by done. apply bool_decide_eq_true in Hr.
      split; [|done]. apply (inv_hist_dom _ _ _ Hi1 b Hbb). by exists h.
  - rewrite decide_True by done. simpl. rewrite Hd', !N.add_0_r, (claims_payout_book _ _ _ _ _ Hi1 Hl). apply sum_of_ext.
    intros b _. unfold rate_in. by rewrite Hhist, Hent.
Qed.

(** ** Every message is a step of the book *)
Lemma execute_step q env info msg s r s' :
  hub_inv s → execute q env info msg s = Ok (r, s') →
  book_step (book_of s) (book_of s') (event_of s info msg r s').
Proof.
  intros Hi Hrun. destruct msg; simpl in Hrun;
    try solve [apply same_book_quiet;
      match type of Hrun with ?m s = _ =>
        let Hk := fresh in assert (keeps (preserves ledger) m) as Hk by solve_keeps;
        exact (Hk _ _ _ Hrun) end].
  - bind Hrun as u Hu. by eapply withdraw_step.
  - bind Hrun as u Hu. unfold receive_cw20 in Hrun. bind Hrun as hook Hhook. destruct hook.
    bind Hrun as conf Hconf. bind Hrun as raw Hraw. bind Hrun as token Htoken.
    bind Hrun as u' Hu'. by eapply unbond_step.
Qed.

Lemma request_between_matches info m r k k' v :
  bk_open k < u64_bound → asks k k' (cw20_sender m) v → v ≤ cw20_amount m →
  event_matches info (Receive m) r (request_between k k' (cw20_sender m)).
Proof.
  intros Hb Ha Hv. unfold request_between. rewrite Ha, decide_True by done. simpl.
  case_match; exists m; repeat split; lia.
Qed.

Lemma execute_event q env info msg s r s' :
  hub_inv s → execute q env info msg s = Ok (r, s') →
  event_matches info msg r (event_of s info msg r s').
Proof.
  intros Hi Hrun. destruct msg; simpl in Hrun; try exact I.
  - bind Hrun as u Hu. destruct (withdraw_effects _ _ _ _ _ _ Hi Hrun)
      as (params & bal & s1 & l & _ & _ & _ & _ & _ & Hpos & Hmsg & _).
    simpl. rewrite Hmsg. simpl. rewrite decide_True by done. simpl. rewrite !N.add_0_r.
    do 2 (split; [done|]). split; [lia|by eexists].
  - bind Hrun as u Hu. unfold receive_cw20 in Hrun. bind Hrun as hook Hhook. destruct hook.
    bind Hrun as conf Hconf. bind Hrun as raw Hraw. bind Hrun as token Htoken.
    bind Hrun as u' Hu'. destruct (unbond_effects _ _ _ _ _ _ _ Hi Hrun) as (v & Hv & _ & _ & _ & Ha).
    eapply request_between_matches; [|exact Ha|exact Hv].
    destruct Hi as (cb & st & Hi). simpl. destruct (book_of_inv _ _ _ Hi) as [-> _].
    apply (inv_bound _ _ _ Hi).
Qed.

Lemma hub_run_book log s : hub_run log s → book_run log.*1 (book_of s).
Proof.
  induction 1 as [env info msg r s Hinit|log s q env info msg r s' Hrun IH Hexec
                 |log s msg r s' Hrun IH Hmig]; simpl.
  - apply instantiate_spec in Hinit as (pay & raw & _ & _ & -> & _).
    apply run_new; [done..|]. intros u b _. simpl. unfold wait_entry, user_bucket, wait_bucket.
    simpl. destruct (batch_key b); simpl; [|done]. destruct (addr_key u); simpl; by rewrite ?lookup_empty.
  - assert (hub_inv s) as Hi by (eapply reachable_inv, hub_run_reachable; exact Hrun).
    eapply run_step; [exact IH|by eapply execute_step|].
    destruct (hub_step_inv s s' Hi) as (cb & st & Hi'); [by eapply step_execute|].
    simpl. destruct (book_of_inv _ _ _ Hi') as [-> _]. apply (inv_bound _ _ _ Hi').
  - assert (hub_inv s) as Hi by (eapply reachable_inv, hub_run_reachable; exact Hrun).
    eapply run_step; [exact IH|apply same_book_quiet; exact (migrate_ledger _ _ _ _ Hmig)|].
    destruct (hub_step_inv s s' Hi) as (cb & st & Hi'); [by eapply step_migrate|].
    simpl. destruct (book_of_inv _ _ _ Hi') as [-> _]. apply (inv_bound _ _ _ Hi').
Qed.

(** ** Who is paid *)
Lemma coins_to_none u ms : Forall (λ m, coins_to u m = 0) ms → sum_of (coins_to u) ms = 0.
Proof. rewrite Forall_forall. apply sum_of_zero. Qed.

(** Withdrawals and compounding apart, no handler sends coins. *)
Lemma execute_sends_nothing q env info msg s r s' u :
  msg ≠ WithdrawUnbonded → msg ≠ UpdateExchangeRate → execute q env info msg s = Ok (r, s') →
  sum_of (coins_to u) (messages r) = 0.
Proof.
  intros Hw Hx Hrun. destruct (moves_coins msg) eqn:Hm.
  - apply coins_to_none. destruct msg; try done; simpl in Hrun; bind Hrun as p Hp.
    + apply execute_bond_spec in Hrun as (? & ? & ? & ? & ? & ? & ? & ? & ? & ? & ? & _ & _ & _ & _
        & _ & _ & _ & _ & _ & _ & _ & _ & _ & _ & _ & ->). by repeat constructor.
    + unfold receive_cw20 in Hrun. bind Hrun as hook Hhook. destruct hook.
      bind Hrun as conf Hconf. bind Hrun as raw Hraw. bind Hrun as t Ht. bind Hrun as u' Hu'.
      apply execute_unbond_spec in Hrun as (? & ? & ? & ? & ? & ? & ? & msgs & ? & ? & ? & _ & _ & _ & _
        & _ & _ & _ & _ & [_ Hend] & _ & _ & _ & ->).
      apply Forall_app. split; [|by repeat constructor]. destruct (_ <? _); [|by destruct Hend as [-> _]].
      destruct Hend as (_ & _ & _ & Hpick & _).
      apply pick_validator_spec in Hpick as (params & ds & takes & _ & _ & -> & _).
      apply Forall_forall. unfold undelegations. by intros m ([] & -> & _)%list_elem_of_fmap.
  - apply coins_to_none. eapply Forall_impl; [by eapply idle_execute|].
    intros [| | |to coins| | |] Hidle; simpl in *; try done. subst coins. by case_decide.
Qed.

Lemma execute_sent q env info msg s r s' u :
  hub_inv s → execute q env info msg s = Ok (r, s') →
  sum_of (coins_to u) (outgoing msg r) = paid_to u (event_of s info msg r s').
Proof.
  intros Hi Hrun. pose proof (execute_event _ _ _ _ _ _ _ Hi Hrun) as Hev.
  destruct msg; try done; try (eapply execute_sends_nothing; [| |exact Hrun]; done).
  - destruct Hev as (_ & _ & _ & d & Hmsg). simpl in *. rewrite Hmsg. simpl.
    rewrite (decide_True (P := sender info = sender info)) by done. rewrite !N.add_0_r. done.
  - simpl. rewrite (execute_sends_nothing _ _ _ _ _ _ _ u) with (3 := Hrun) by done.
    unfold request_between. by destruct (_ =? _).
Qed.

(** The coins the hub sent to a user are those that the book records as paid. *)
Lemma hub_run_sent log s u : hub_run log s → sent log u = paid log.*1 u.
Proof.
  induction 1 as [|log s q env info msg r s' Hrun IH Hexec|log s msg r s' Hrun IH Hmig];
    [done|unfold sent, paid in *; simpl; rewrite IH; f_equal..].
  - eapply execute_sent; [|exact Hexec]. by eapply reachable_inv, hub_run_reachable.
  - unfold migrate in Hmig. bind Hmig as raw Hraw. bind Hmig as x s1 Hm.
    by apply cm_ret_ok in Hmig as [= -> _].
Qed.
End simulation.
