(* ===== verification/ChainProgress.v ===== *)
(** * Claims on a chain are paid

    Once what the due batches are worth has come back, the withdrawal of every
    user with a claim succeeds, sends the full worth of the claims, and the chain
    can carry the message out. *)
From S2P Require Import Prelude Bytes Cosmwasm Protocol SignedInteger HubState HubStateFacts.
From S2P Require Import HubMath HubCore HubConfig HubBond HubUnbond HubWithdraw.
From S2P Require Import HubAutoCompound HubContract HubCoreFacts HubBondFacts HubUnbondFacts.
From S2P Require Import HubAdminFacts HubWithdrawFacts HubInvariant HubTypes HubPayments.
From S2P Require Import Book.
From S2P Require Import HubSolvency Chain ChainFacts ChainRuns HubProgress HubRefinement.

Section owed.
  Context `{H : Host}.

(** What [u] can expect at a withdrawal that releases [D] without a loss: the
    claims on processed batches at their rates, those on [D] at full rates. *)
Definition owed_to (s : HubStore) (u : string) (D : list (N * UnbondHistory)) : N :=
  sum_of (λ b, payout (rate_in s b) (default 0 (wait_entry s u b))) (upto (done_batch s)) +
  sum_of (λ jh, payout (full_rate jh) (default 0 (wait_entry s u jh.1))) D.
End owed.

Section progress.
  Context `{H : Host} {HS : HostSpec H} `{HK : HookSerde}.

Lemma unslashed_claims t bal s s1 cb st D u l :
  hub_inv_at s cb st → Due s t (last_processed_batch st + 1) D →
  arrived st bal = sum_of unbonded_of D → process_withdraw_rate t bal s = Ok ((), s1) →
  claims s1 u l → claims_payout s1 l = owed_to s u D.
Proof.
  intros Hi HD Ha Hrun Hl.
  pose proof (process_unslashed _ _ _ _ _ _ _ Hi HD Ha Hrun) as Hfull.
  destruct (inv_process _ _ _ _ _ _ Hi Hrun) as (D' & rs & HD' & _ & (_ & _ & Hout) & Hw & Hi1).
  assert (D' = D) as -> by by eapply Due_unique.
  assert (last_processed_batch st + 1 < u64_bound) as Hb
    by (pose proof (inv_processed _ _ _ Hi); pose proof (inv_bound _ _ _ Hi); lia).
  assert (∀ a b, wait_entry s1 a b = wait_entry s a b) as Hent
    by (intros a b; unfold wait_entry, user_bucket, wait_bucket; by rewrite Hw).
  rewrite (claims_payout_book _ _ _ _ _ Hi1 Hl). cbn [last_processed_batch processed_state
    set_actual_unbonded_amount set_last_processed_batch].
  rewrite (sum_of_perm _ _ _ (upto_due s t st D Hb HD)), sum_of_app, sum_of_fmap.
  unfold owed_to. destruct (book_of_inv _ _ _ Hi) as [_ ->]. f_equal; apply sum_of_ext.
  - intros b Hbin%elem_of_upto. rewrite Hent. f_equal. unfold rate_in. rewrite Hout; [done|lia|].
    rewrite (Due_ids _ _ _ _ HD). lia.
  - intros [j h] Hin. simpl. rewrite Hent. f_equal. unfold rate_in. by rewrite (Hfull j h Hin).
Qed.

(** The balance with which exactly what is due has arrived. *)
Lemma arrived_exactly s cb st n :
  hub_inv_at s cb st → arrived st (prev_hub_balance st + n) = n.
Proof. intros Hi. rewrite (arrived_grown cb st s) by (done || lia). lia. Qed.

(** What a withdrawal needs: the hub works, the batches [D] that are due hold
    something, and of what they are worth something has arrived, and no more. *)
Record can_release (env : Env) (s : HubStore) (params : Parameters) (st : State)
    (D : list (N * UnbondHistory)) (bal : N) : Prop := {
  cr_pause : st_pause s = Some false;
  cr_params : st_parameters s = Some params;
  cr_state : st_state s = Some st;
  cr_time : unbonding_period params ≤ block_time env;
  cr_due : Due s (block_time env - unbonding_period params) (last_processed_batch st + 1) D;
  cr_payable : Forall payable D;
  cr_prev : prev_hub_balance st ≤ bal;
  cr_arrived : D = [] ∨ 0 < bal - prev_hub_balance st ≤ sum_of unbonded_of D;
  cr_balance : u128 bal;
  cr_worth : u128 (sum_of unbonded_of D);
}.

Lemma can_release_process env s params st D bal cb :
  hub_inv_at s cb st → can_release env s params st D bal →
  ∃ s1, process_withdraw_rate (block_time env - unbonding_period params) bal s = Ok ((), s1).
Proof.
  intros Hi []. pose proof (arrived_grown cb st s bal Hi cr_prev0) as Ha.
  eapply process_total; [exact Hi|exact cr_due0|done|by rewrite Ha| |done].
  rewrite Ha. apply (u128_le _ bal); [lia|done].
Qed.

(** What a user is owed after the release is covered by the balance. *)
Lemma claim_covered env s params cb st D bal s1 user l :
  hub_inv_at s cb st → solvent s → can_release env s params st D bal →
  shares_fit D (bal - prev_hub_balance st) →
  process_withdraw_rate (block_time env - unbonding_period params) bal s = Ok ((), s1) →
  claims s1 user l → claims_payout s1 l ≤ bal.
Proof.
  intros Hi Hsolv [] Hfit Hproc Hl.
  destruct (inv_process _ _ _ _ _ _ Hi Hproc) as (? & ? & _ & _ & _ & _ & Hi1).
  etransitivity; [apply (claims_payout_le s1 user l); [by eexists _, _|exact Hl]|].
  eapply process_solvent; [by exists cb, st|done| |exact Hproc]. by exists st, D.
Qed.

(** After the release every user with claims can withdraw them. *)
Lemma claim_paid q env s params d cb st D bal s1 user l :
  hub_inv_at s cb st → solvent s → can_release env s params st D bal →
  shares_fit D (bal - prev_hub_balance st) →
  query_balance q (contract_address env) (underlying_coin_denom params) = Ok (mkCoin d bal) →
  process_withdraw_rate (block_time env - unbonding_period params) bal s = Ok ((), s1) →
  claims s1 user l → 0 < claims_payout s1 l →
  claims_payout s1 l ≤ bal ∧
  ∃ r s', execute q env (mkInfo user []) WithdrawUnbonded s = Ok (r, s') ∧
    messages r = [BankSend user [mkCoin (underlying_coin_denom params) (claims_payout s1 l)]].
Proof.
  intros Hi Hsolv Hcr Hfit Hbal Hproc Hl Hpos.
  pose proof (claim_covered _ _ _ _ _ _ _ _ _ _ Hi Hsolv Hcr Hfit Hproc Hl) as Hle. destruct Hcr.
  split; [done|].
  destruct (withdraw_total q env (mkInfo user []) s params _ s1 l cb st Hi cr_params0 cr_time0 Hbal)
    as (r & s' & Hrun & Hmsg); try done.
  exists r, s'. split; [|done]. simpl. apply reads_bind_ok.
  exists (mkResponse [] []). split; [|exact Hrun]. unfold is_contract_paused.
  apply outcome_bind_ok. exists false. split; [by apply ok_or_ok|done].
Qed.

(** The chain carries out a single payment that it has the coins for. *)
Lemma payment_settles d a n r s s' coins staked :
  messages r = [BankSend a [mkCoin d n]] → n ≤ coins →
  settle d 0 r s' (mkChain s coins staked) = Some (mkChain s' (coins - n) staked).
Proof.
  intros Hmsg Hle. unfold settle, total. rewrite Hmsg.
  cbn [sum_of foldr leaves stakes unstakes ch_coins ch_staked].
  rewrite received_one, !N.add_0_r, N.sub_0_r.
  by rewrite (proj2 (N.leb_le n coins)), (proj2 (N.leb_le 0 staked)) by (done || lia).
Qed.

(** A call on a chain is fair when the shares of the due batches fit. *)
Lemma shares_fair q env s params st D d bal :
  st_parameters s = Some params → st_state s = Some st →
  Due s (block_time env - unbonding_period params) (last_processed_batch st + 1) D →
  query_balance q (contract_address env) (underlying_coin_denom params) = Ok (mkCoin d bal) →
  shares_fit D (bal - prev_hub_balance st) → rounding_fits q env WithdrawUnbonded s.
Proof.
  intros Hp Hst HD Hbal Hfit _ params' st' bal' D' Hp' Hst' Hbal' HD'.
  assert (params' = params) as -> by congruence. assert (st' = st) as -> by congruence.
  assert (D' = D) as -> by by eapply Due_unique.
  rewrite Hbal in Hbal'. by injection Hbal' as <-.
Qed.

(** The same on a chain: the message is carried out and the run goes on. *)
Lemma chain_claim_paid hub loss c params st D env q s1 user l :
  chain_run rounding_fits hub loss c → contract_address env = hub → answers hub c [] q →
  can_release env (ch_store c) params st D (ch_coins c) →
  shares_fit D (ch_coins c - prev_hub_balance st) →
  process_withdraw_rate (block_time env - unbonding_period params) (ch_coins c) (ch_store c)
    = Ok ((), s1) →
  claims s1 user l → 0 < claims_payout s1 l →
  ∃ r s' c', execute q env (mkInfo user []) WithdrawUnbonded (ch_store c) = Ok (r, s') ∧
    messages r = [BankSend user [mkCoin (underlying_coin_denom params) (claims_payout s1 l)]] ∧
    settle (coin_of (ch_store c)) 0 r s' c = Some c' ∧ chain_run rounding_fits hub loss c'.
Proof.
  intros Hc Henv Hq Hcr Hfit Hproc Hl Hpos. subst hub.
  pose proof (an_balance _ _ _ _ Hq) as Hbal. cbv zeta in Hbal. change (received _ []) with 0 in Hbal.
  rewrite N.add_0_r, (coin_of_params _ _ (cr_params _ _ _ _ _ _ Hcr)) in Hbal.
  pose proof (fair_solvent _ (chain_run_fair _ _ _ Hc)) as Hsolv.
  destruct (reachable_inv _ (ci_reachable _ _ (chain_run_inv _ _ _ _ Hc))) as (cb & st' & Hi).
  assert (st' = st) as -> by (pose proof (inv_st _ _ _ Hi); destruct Hcr; congruence).
  destruct (claim_paid _ _ _ _ _ _ _ _ _ _ _ _ Hi Hsolv Hcr Hfit Hbal Hproc Hl Hpos)
    as (Hle & r & s' & Hrun & Hmsg).
  destruct c as [s coins staked]. cbn [ch_store ch_coins ch_staked] in *. destruct Hcr.
  pose proof (payment_settles _ _ _ r s s' _ staked Hmsg Hle) as Hset.
  eexists r, s', _. rewrite (coin_of_params _ _ cr_params0).
  split; [exact Hrun|]. split; [exact Hmsg|]. split; [exact Hset|].
  eapply (chain_execute _ _ loss _ q env (mkInfo user [])); [exact Hc|done|exact Hq| |exact Hrun|].
  - by eapply shares_fair.
  - simpl. rewrite (coin_of_params _ _ cr_params0). exact Hset.
Qed.
End progress.
