(* ===== verification/Runs.v ===== *)
(** * Concrete runs

    The stores and responses of the scenarios, as values, and the fact that the
    scenarios are runs in the sense of HubInvariant.v and HubSolvency.v. *)
From S2P Require Import Prelude Bytes Cosmwasm RefHost Protocol HubState HubStateFacts.
From S2P Require Import HubUnbond HubWithdraw HubContract Scenario HubWithdrawFacts.
From S2P Require Import HubInvariant HubSolvency.

(** The two parts of a successful run. *)
Definition resp_at {S} (o : outcome (Response WasmBody * S)) : Response WasmBody :=
  match o with Ok (r, _) => r | _ => mkResponse [] [] end.
Definition store_at {A} (o : outcome (A * HubStore)) : HubStore :=
  match o with Ok (_, s) => s | _ => empty_store end.

Lemma run_parts (o : outcome (Response WasmBody * HubStore)) :
  is_ok o = true → o = Ok (resp_at o, store_at o).
Proof. by destruct o as [[]| | |]. Qed.

Definition init_run : outcome (Response WasmBody * HubStore) :=
  instantiate (mock_env 0) (mock_info "owner1" [uluna 1000000]) sample_init_msg empty_store.

(** No call of the list is a withdrawal. *)
Definition no_withdrawals (cs : list call) : bool :=
  forallb (λ c, match c_msg c with WithdrawUnbonded => false | _ => true end) cs.

Lemma run_calls_fair cs s s' :
  no_withdrawals cs = true → fair_reachable s → run_calls cs s = Ok ((), s') → fair_reachable s'.
Proof.
  revert s; induction cs as [|c cs IH]; intros s Hcs Hs Hrun; simpl in *.
  - apply cm_ret_ok in Hrun as [= ->]. done.
  - apply andb_prop in Hcs as [Hc Hcs]. bind Hrun as r s1 Hrun1. eapply IH; [done| |exact Hrun].
    eapply fair_execute; [exact Hs| |exact Hrun1]. intros Heq. by rewrite Heq in Hc.
Qed.

Lemma scenario_fair cs s' :
  no_withdrawals cs = true → scenario cs empty_store = Ok ((), s') → fair_reachable s'.
Proof.
  intros Hcs Hrun. unfold scenario in Hrun. bind Hrun as r s1 Hinit.
  apply (run_calls_fair (init_calls ++ cs) s1 s'); [by unfold no_withdrawals|by eapply fair_init|done].
Qed.

(** Bob has unbonded twice; both requests are in the closed batch 1. *)
Definition bob_store : HubStore := store_of bob_unbonds.
Lemma bob_store_fair : fair_reachable bob_store.
Proof. apply (scenario_fair bob_unbonds); vm_compute; reflexivity. Qed.
Lemma bob_store_reachable : reachable bob_store.
Proof. apply fair_reachable_reachable, bob_store_fair. Qed.

(** The withdrawal of Bob when [n] coins have come back. *)
Definition bob_run (n : N) : outcome (Response WasmBody * HubStore) :=
  run_call (bob_withdraws n) bob_store.
