(* ===== verification/ChainScenario.v ===== *)
(** * Runs of the chain

    A chain that answers the hub's queries with its own state, and Bob's story on
    it: he bonds, unbonds twice, the undelegated coins come back. *)
From S2P Require Import Prelude Bytes Cosmwasm RefHost Protocol HubState HubUnbond.
From S2P Require Import HubWithdraw.
From S2P Require Import HubContract Scenario HubCoreFacts HubStateFacts HubWithdrawFacts.
From S2P Require Import HubInvariant.
From S2P Require Import HubBondFacts HubCore HubSolvency Chain ChainRuns Backing Runs.

(** The querier of a chain; [supply] is the token's. *)
Definition chain_querier (c : Chain) (funds : list Coin) (supply : N) : Querier :=
  mock_querier (del (ch_staked c)) (ch_coins c + received "uluna" funds) supply.

Record chain_call := mkChainCall {
  cc_later : N; cc_info : MessageInfo; cc_msg : ExecuteMsg; cc_supply : N;
}.
Definition call_on (c : Chain) (k : chain_call) : call :=
  mkCall (chain_querier c (funds (cc_info k)) (cc_supply k)) (cc_later k) (cc_info k) (cc_msg k).

Definition chain_step (k : chain_call) (c : Chain) : option Chain :=
  match run_call (call_on c k) (ch_store c) with
  | Ok (r, s') => settle "uluna" (received "uluna" (funds (cc_info k))) r s' c
  | _ => None
  end.
Fixpoint chain_steps (ks : list chain_call) (c : Chain) : option Chain :=
  match ks with
  | [] => Some c
  | k :: ks => c' ← chain_step k c; chain_steps ks c'
  end.

(** No call is a withdrawal: then nothing has to be assumed of the shares. *)
Definition no_chain_withdrawals (ks : list chain_call) : bool :=
  forallb (λ k, match cc_msg k with WithdrawUnbonded => false | _ => true end) ks.

Lemma chain_querier_answers c fs supply :
  coin_of (ch_store c) = "uluna" → answers mock_contract c fs (chain_querier c fs supply).
Proof.
  intros Hd. split; rewrite Hd; [done|]. intros ds [= <-]. unfold stake_in. simpl. lia.
Qed.

Lemma chain_steps_run ks loss c c' :
  no_chain_withdrawals ks = true → coin_of (ch_store c) = "uluna" →
  chain_run rounding_fits mock_contract loss c → chain_steps ks c = Some c' →
  chain_run rounding_fits mock_contract loss c'.
Proof.
  revert c; induction ks as [|k ks IH]; intros c Hks Hd Hc Hrun; simpl in *.
  - by injection Hrun as <-.
  - apply andb_prop in Hks as [Hk Hks]. apply bind_Some in Hrun as (c1 & Hstep & Hrun).
    unfold chain_step in Hstep.
    destruct (run_call (call_on c k) (ch_store c)) as [[r s']| | |] eqn:Hcall; try done.
    assert (coin_of (ch_store c1) = "uluna") as Hd1.
    { apply settle_some in Hstep as (_ & _ & ->). simpl. unfold run_call in Hcall.
      rewrite <- Hd. by eapply coin_constant. }
    apply (IH c1); [done|done| |done].
    apply (chain_execute _ _ loss c (c_querier (call_on c k)) (mock_env (cc_later k)) (cc_info k)
      (cc_msg k) r s' c1); [done|done| | |exact Hcall|by rewrite Hd].
    + by apply chain_querier_answers.
    + intros Hmsg. by rewrite Hmsg in Hk.
Qed.

(** ** Bob on the chain *)
Definition chain_at (o : option Chain) : Chain := default (mkChain empty_store 0 0) o.
Definition new_chain : option Chain :=
  settle "uluna" 1000000 (resp_at init_run) (store_at init_run)
    (mkChain (store_at init_run) 0 0).
Definition bob_chain_calls : list chain_call :=
  [mkChainCall 0 (mock_info "owner1" []) (UpdateConfig (Some "token") None) 1000000;
   mkChainCall 0 (mock_info "owner1" []) (RegisterValidator "default-validator") 1000000;
   mkChainCall 0 (mock_info "bob" [uluna 10000]) (Bond "default-validator") 1000000;
   mkChainCall 0 (mock_info "token" []) (unbond_msg "bob" 500) 1010000;
   mkChainCall 31 (mock_info "token" []) (unbond_msg "bob" 500) 1009500].
Definition bob_chain : Chain := chain_at (chain_steps bob_chain_calls (chain_at new_chain)).

Example bob_chain_money : ch_coins bob_chain = 0 ∧ ch_staked bob_chain = 1009000.
Proof. vm_compute. split; reflexivity. Qed.

Lemma bob_chain_run : chain_run rounding_fits mock_contract 0 bob_chain.
Proof.
  apply (chain_steps_run bob_chain_calls 0 (chain_at new_chain));
    [vm_compute; reflexivity|vm_compute; reflexivity| |vm_compute; reflexivity].
  apply (chain_init _ _ (mock_env 0) (mock_info "owner1" [uluna 1000000]) sample_init_msg
    (resp_at init_run) (store_at init_run)); vm_compute; reflexivity.
Qed.

(** ** Bob and the token *)
Definition token_tells (q : Querier) (c : Issue) : bool :=
  match supply_or_zero q (is_store c) with Ok x => x =? is_supply c | _ => true end.
Definition issue_step (k : call) (c : Issue) : option Issue :=
  match run_call k (is_store c) with
  | Ok (r, s') =>
      if token_tells (c_querier k) c && (total burns r <=? is_supply c + total mints r)
         && negb (bool_decide (c_msg k = UpdateExchangeRate))
      then Some (mkIssue s' (is_supply c + total mints r - total burns r)) else None
  | _ => None
  end.
Fixpoint issue_steps (ks : list call) (c : Issue) : option Issue :=
  match ks with
  | [] => Some c
  | k :: ks => c' ← issue_step k c; issue_steps ks c'
  end.

Lemma token_tells_supply q c : token_tells q c = true → tells_supply c q.
Proof.
  unfold token_tells. intros Ht s x Hcfg Hx.
  replace (supply_or_zero q (is_store c)) with (supply_or_zero q s) in Ht
    by (unfold supply_or_zero, query_total_issued, load_config; by rewrite Hcfg).
  rewrite Hx in Ht. by apply N.eqb_eq.
Qed.

Lemma issue_steps_run ks c c' : issue_run c → issue_steps ks c = Some c' → issue_run c'.
Proof.
  revert c; induction ks as [|k ks IH]; intros c Hc Hrun; simpl in *.
  - by injection Hrun as <-.
  - apply bind_Some in Hrun as (c1 & Hstep & Hrun). apply (IH c1); [|done].
    unfold issue_step in Hstep. destruct (run_call k (is_store c)) as [[r s']| | |] eqn:Hcall; try done.
    destruct (_ && _) eqn:Hguard; [|done]. injection Hstep as <-.
    apply andb_prop in Hguard as [[Htell Hle]%andb_prop Hmsg].
    apply (issue_execute c (c_querier k) (mock_env (c_later k)) (c_info k) (c_msg k)); [done| | |done|].
    + by apply token_tells_supply.
    + intros Heq. by rewrite Heq in Hmsg.
    + by apply N.leb_le.
Qed.

(** The token is deployed with the tokens of the first payment. *)
Definition bob_token_calls : list call :=
  [mkCall (mock_querier [] 0 1000000) 0 (mock_info "bob" [uluna 10000]) (Bond "default-validator");
   mkCall (mock_querier (del 1009000) 0 1010000) 0 (mock_info "token" []) (unbond_msg "bob" 500);
   mkCall (mock_querier (del 1009000) 0 1009500) 31 (mock_info "token" []) (unbond_msg "bob" 500)].
Definition issue_at (o : option Issue) : Issue := default (mkIssue empty_store 0) o.
Definition token_ready : Issue := issue_at (issue_steps init_calls (mkIssue (store_at init_run) 0)).
Definition bob_issue : Issue :=
  issue_at (issue_steps bob_token_calls (mkIssue (is_store token_ready) 1000000)).

(** The stake has shrunk by 1000, so the rate fell below one before Bob unbonded. *)
Example bob_issue_supply :
  is_supply bob_issue = 1009000 ∧
  exchange_rate <$> st_state (is_store bob_issue) = Some (mkDecimal (1009000 * dec_unit / 1010000)).
Proof. vm_compute. split; reflexivity. Qed.

Lemma bob_issue_run : issue_run bob_issue.
Proof.
  apply (issue_steps_run bob_token_calls (mkIssue (is_store token_ready) 1000000));
    [|vm_compute; reflexivity].
  apply (issue_deploy token_ready 1000000).
  - apply (issue_steps_run init_calls (mkIssue (store_at init_run) 0)); [|vm_compute; reflexivity].
    apply (issue_init (mock_env 0) (mock_info "owner1" [uluna 1000000]) sample_init_msg
      (resp_at init_run)). vm_compute; reflexivity.
  - vm_compute; reflexivity.
  - exists (mkCurrentBatch 1 0), (default (initial_state 0 0) (st_state (is_store token_ready))).
    split; [vm_compute; reflexivity|]. split; [vm_compute; reflexivity|].
    right. vm_compute. discriminate.
Qed.
