(* ===== verification/SystemScenario.v ===== *)
(** * A run of the whole system

    An executable chain for System.v, in the place of its queriers: [perform] carries
    out the messages of a transaction, [perform_dispatch] shows that what it reaches
    is a transaction in the sense of System.v.  On it the two contracts are deployed
    and rewards are compounded. *)
From S2P Require Import Prelude Bytes Cosmwasm RefHost Protocol HubState HubUnbond.
From S2P Require Import HubWithdraw.
From S2P Require Import HubContract RewardsContract Scenario HubCoreFacts HubStateFacts.
From S2P Require Import ChainFacts.
From S2P Require Import HubWithdrawFacts HubInvariant HubBondFacts HubCore HubSolvency Chain.
From S2P Require Import ChainRuns Backing System SystemFacts Runs ChainScenario.

Definition mock_rewards : Addr := "rewards_contract".
Definition mock_token : Addr := "token".
Abbreviation message := (Addr * CosmosMsg WasmBody)%type.
Abbreviation got := (received "uluna").

(** The calls for which [fair] assumes nothing. *)
Definition surely_fair (msg : ExecuteMsg) (s : HubStore) : bool :=
  match msg with
  | WithdrawUnbonded => false
  | UpdateExchangeRate => match bond_of s with Some 0 => false | _ => true end
  | _ => true
  end.
Definition hub_querier (y : System) (coins : list Coin) : Querier :=
  chain_querier (chain_of y) coins (sy_supply y).
Definition fund_querier (y : System) : Querier :=
  mock_querier (del (sy_staked y)) (sy_fund y) (sy_supply y).

(** One message: those it adds, and the system after it.  Withdrawing a validator's
    rewards pays [pays] of them. *)
Definition deliver (later pays : N) (from : Addr) (m : CosmosMsg WasmBody) (y : System)
    : option (list message * System) :=
  match m with
  | WasmExecute to (ToHub msg) coins =>
      if decide (to = mock_contract) then
        y1 ← debit mock_contract mock_rewards from (got coins) y;
        let q := hub_querier y1 coins in
        if token_tells q (issue_of y1) && surely_fair msg (sy_hub y1) then
          match execute q (mock_env later) (mkInfo from coins) msg (sy_hub y1) with
          | Ok (r, s') => Some (from_hub mock_contract r,
              with_hub s' (credit mock_contract mock_rewards mock_contract (got coins) y1))
          | _ => None
          end
        else None
      else None
  | WasmExecute to (ToRewards msg) coins =>
      if decide (to = mock_rewards) then
        y1 ← debit mock_contract mock_rewards from (got coins) y;
        let y2 := credit mock_contract mock_rewards mock_rewards (got coins) y1 in
        match Rewards.execute (fund_querier y2) (mkEnv 12345 (mock_time + later) mock_rewards)
            (mkInfo from coins) msg (sy_rewards y1) with
        | Ok (r, s') => Some (from_rewards mock_rewards r, with_rewards s' y2)
        | _ => None
        end
      else None
  | StakingDelegate v c =>
      if decide (from = mock_contract) then
        y1 ← debit mock_contract mock_rewards mock_contract (got [c]) y;
        Some ([], with_fund (sy_fund y + 0) (with_staked (sy_staked y + got [c]) y1))
      else None
  | StakingUndelegate v c =>
      if decide (from = mock_contract) then
        if got [c] <=? sy_staked y then
          Some ([], with_fund (sy_fund y + 0) (with_staked (sy_staked y - got [c]) y))
        else None
      else None
  | WithdrawDelegatorReward v =>
      if decide (from = mock_contract) then Some ([], rewarded v pays y) else None
  | SetWithdrawAddress a => if decide (from = mock_contract) then Some ([], y) else None
  | BankSend to coins =>
      if decide (from = mock_contract) then
        y1 ← debit mock_contract mock_rewards mock_contract (got coins) y;
        Some ([], credit mock_contract mock_rewards to (got coins) y1)
      else None
  | WasmExecute to (ToToken (Mint _ n)) [] =>
      if decide (from = mock_contract ∧ to = mock_token) then
        Some ([], with_supply (sy_supply y + n) y)
      else None
  | WasmExecute to (ToToken (Burn n)) [] =>
      if decide (from = mock_contract ∧ to = mock_token) then
        if n <=? sy_supply y then Some ([], with_supply (sy_supply y - n) y) else None
      else None
  | _ => None
  end.

Fixpoint perform (fuel : nat) (later pays : N) (ms : list message) (y : System) : option System :=
  match fuel, ms with
  | _, [] => Some y
  | O, _ => None
  | S fuel, (from, m) :: ms => r ← deliver later pays from m y; perform fuel later pays (r.1 ++ ms) r.2
  end.

Abbreviation mock_dispatch := (dispatch mock_contract mock_rewards mock_token).

Lemma surely_fair_fair q env msg s : surely_fair msg s = true → fair q env msg s.
Proof.
  intros Hf. split.
  - intros ->. discriminate Hf.
  - intros -> Hb. simpl in Hf. by rewrite Hb in Hf.
Qed.

Lemma hub_querier_tells y coins :
  sys_coin y = "uluna" → token_tells (hub_querier y coins) (issue_of y) = true →
  tells_hub mock_contract y coins (hub_querier y coins).
Proof. intros Hd Ht. split; [by apply chain_querier_answers|by apply token_tells_supply]. Qed.
Lemma fund_querier_tells y : tells_rewards mock_rewards y (fund_querier y).
Proof. by intros d c [= <-]. Qed.

Lemma credit_coin to n y : sys_coin (credit mock_contract mock_rewards to n y) = sys_coin y.
Proof. unfold credit. by repeat case_decide. Qed.
Lemma debit_coin from n y y1 :
  debit mock_contract mock_rewards from n y = Some y1 → sys_coin y1 = sys_coin y.
Proof. unfold debit. repeat case_decide; try destruct (_ <=? _); by intros [= <-]. Qed.

(** Each delivery is a step of [dispatch]. *)
Lemma deliver_dispatch later pays from m y ms y1 :
  sys_coin y = "uluna" → deliver later pays from m y = Some (ms, y1) →
  sys_coin y1 = "uluna" ∧
  ∀ rest y', mock_dispatch (ms ++ rest) y1 y' → mock_dispatch ((from, m) :: rest) y y'.
Proof.
  intros Hd Hm. destruct m as [v c|v c|v w c|to coins|to [msg|msg|[dst n|n]] coins|a|v]; cbn [deliver] in Hm;
    try discriminate Hm; try (destruct coins; [|discriminate Hm]).
  - case_decide; [|done]. subst from. apply bind_Some in Hm as (y2 & Hdeb & [= <- <-]).
    pose proof (debit_coin _ _ _ _ Hdeb) as Hd2. split; [by rewrite <- Hd, <- Hd2|].
    intros rest y' Hrun. eapply run_delegate with (n := 0); rewrite Hd; [exact Hdeb|exact Hrun].
  - case_decide; [|done]. subst from. destruct (N.leb_spec (got [c]) (sy_staked y)) as [Hle|]; [|done].
    injection Hm as <- <-. split; [done|]. intros rest y' Hrun.
    eapply run_undelegate with (n := 0); rewrite Hd; [exact Hle|exact Hrun].
  - case_decide; [|done]. subst from. apply bind_Some in Hm as (y2 & Hdeb & [= <- <-]).
    pose proof (debit_coin _ _ _ _ Hdeb) as Hd2. split; [by rewrite credit_coin, Hd2|].
    intros rest y' Hrun. eapply run_send; rewrite Hd; [exact Hdeb|exact Hrun].
  - case_decide; [|done]. subst to. apply bind_Some in Hm as (y2 & Hdeb & Hm).
    destruct (_ && _) eqn:Hok; [|done]. apply andb_prop in Hok as [Htell Hfair].
    destruct (execute _ _ _ _ _) as [[r s']| | |] eqn:Hexec; try done. injection Hm as <- <-.
    pose proof (debit_coin _ _ _ _ Hdeb) as Hd2. split.
    + rewrite <- Hd, <- Hd2. unfold sys_coin. by eapply coin_constant.
    + intros rest y' Hrun. eapply run_hub; rewrite ?Hd; [exact Hdeb| | | |exact Hexec|exact Hrun].
      * done.
      * apply hub_querier_tells; [congruence|exact Htell].
      * by apply surely_fair_fair.
  - case_decide; [|done]. subst to. apply bind_Some in Hm as (y2 & Hdeb & Hm).
    destruct (Rewards.execute _ _ _ _ _) as [[r s']| | |] eqn:Hexec; try done. injection Hm as <- <-.
    pose proof (debit_coin _ _ _ _ Hdeb) as Hd2. split.
    + rewrite <- Hd, <- Hd2. exact (credit_coin _ _ _).
    + intros rest y' Hrun. eapply run_rewards; rewrite ?Hd; [exact Hdeb| | |exact Hexec|exact Hrun].
      * done.
      * apply fund_querier_tells.
  - case_decide as Hft; [|done]. destruct Hft as [-> ->]. injection Hm as <- <-. split; [done|].
    intros rest y' Hrun. by apply run_mint.
  - case_decide as Hft; [|done]. destruct Hft as [-> ->].
    destruct (N.leb_spec n (sy_supply y)) as [Hle|]; [|done].
    injection Hm as <- <-. split; [done|]. intros rest y' Hrun. by apply run_burn.
  - case_decide; [|done]. subst from. injection Hm as <- <-. split; [done|].
    intros rest y' Hrun. by apply run_withdraw_address.
  - case_decide; [|done]. subst from. injection Hm as <- <-. split; [done|].
    intros rest y' Hrun. by apply run_withdraw_reward with (n := pays).
Qed.

Lemma perform_dispatch fuel later pays ms y y' :
  sys_coin y = "uluna" → perform fuel later pays ms y = Some y' →
  sys_coin y' = "uluna" ∧ mock_dispatch ms y y'.
Proof.
  revert ms y. induction fuel as [|fuel IH]; intros [|[from m] ms] y Hd Hrun; simpl in Hrun;
    try (injection Hrun as <-; split; [done|apply run_done]); [done|].
  apply bind_Some in Hrun as ([ms1 y1] & Hm & Hrun).
  destruct (deliver_dispatch _ _ _ _ _ _ _ Hd Hm) as [Hd1 Hstep].
  destruct (IH _ _ Hd1 Hrun) as [Hd' Hdis]. split; [exact Hd'|by apply Hstep].
Qed.

(** ** Deployment, Bob's bond, and the compounding of 100 coins *)
Definition system_at (o : option System) : System :=
  default (mkSystem empty_store Rewards.empty_store 0 0 0 0 []) o.
Definition hub_call (who : Addr) (msg : ExecuteMsg) (coins : list Coin) : list message :=
  [(who, WasmExecute mock_contract (ToHub msg) coins)].

Definition rewards_init : outcome (Response WasmBody * Rewards.Store) :=
  Rewards.instantiate (mock_info "owner1" []) (mkRewardsInstantiateMsg mock_contract "uluna")
    Rewards.empty_store.
Definition rewards_start : Rewards.Store :=
  match rewards_init with Ok (_, s) => s | _ => Rewards.empty_store end.
Definition deployed : System :=
  system_at (perform 9 0 0 (from_hub mock_contract (resp_at init_run))
    (mkSystem (store_at init_run) rewards_start 1000000 0 0 0 [])).

(** Calls in a row, each a transaction of its own. *)
Fixpoint transactions (ts : list (list message)) (y : System) : option System :=
  match ts with
  | [] => Some y
  | t :: ts => y1 ← perform 9 0 0 t y; transactions ts y1
  end.
Definition from_outside (t : list message) : bool :=
  match t with
  | [(from, WasmExecute to (ToHub _) _)] => bool_decide (to = mock_contract ∧
      from ≠ mock_contract ∧ from ≠ mock_rewards)
  | _ => false
  end.

Lemma transactions_run ts loss y y' :
  forallb from_outside ts = true → sys_coin y = "uluna" →
  sys_run mock_contract mock_rewards mock_token loss y → transactions ts y = Some y' →
  sys_run mock_contract mock_rewards mock_token loss y'.
Proof.
  revert y; induction ts as [|t ts IH]; intros y Hts Hd Hy Hrun; cbn [transactions] in Hrun.
  - by injection Hrun as <-.
  - apply andb_prop in Hts as [Ht Hts]. apply bind_Some in Hrun as (y1 & Hone & Hrun).
    destruct (perform_dispatch _ _ _ _ _ _ Hd Hone) as [Hd1 Hdis].
    apply (IH y1); [done|done| |done].
    destruct t as [|[from []] [|]]; try done; destruct msg; try done.
    simpl in Ht. apply bool_decide_eq_true in Ht as (-> & ? & ?).
    by eapply (sys_call_hub _ _ _ loss from _ _ y y1 Hy).
Qed.

(** The administrator connects the token and sets a fee of five percent. *)
Definition settings : list (list message) :=
  [hub_call "owner1" (UpdateConfig (Some "token") None) [];
   hub_call "owner1" (RegisterValidator "default-validator") [];
   hub_call "owner1" (UpdateParams None None None None (Some (mkDecimal 50000000000000000))) [];
   hub_call "owner1" (UpdateConfig None (Some "treasury")) []].
Definition configured : System := system_at (transactions settings deployed).
(** The tokens of the first payment are issued, Bob bonds, 40 coins reach the
    rewards contract. *)
Definition bonded : System :=
  system_at (transactions [hub_call "bob" (Bond "default-validator") [uluna 10000]]
    (with_supply 1000000 configured)).
Definition waiting : System := with_fund (sy_fund bonded + 40) bonded.
(** Anybody compounds; withdrawing the validator's rewards pays 60. *)
Definition global_call : list message := hub_call "anybody" UpdateGlobalIndex [].
Definition compounded_system : System := system_at (perform 9 0 60 global_call waiting).

Example compounded_money :
  sy_coins compounded_system = 0 ∧ sy_staked compounded_system = 1010095 ∧
  sy_supply compounded_system = 1010000 ∧ sy_fund compounded_system = 0 ∧
  bond_of (sy_hub compounded_system) = Some 1010095.
Proof. vm_compute. repeat (split; [reflexivity|]). reflexivity. Qed.

Lemma waiting_run : sys_run mock_contract mock_rewards mock_token 0 waiting.
Proof.
  apply (sys_arrive mock_contract mock_rewards mock_token 0 mock_rewards 40 bonded).
  apply (transactions_run [hub_call "bob" (Bond "default-validator") [uluna 10000]] 0
    (with_supply 1000000 configured)); [vm_compute; reflexivity|vm_compute; reflexivity| |vm_compute; reflexivity].
  apply sys_deploy.
  - apply (transactions_run settings 0 deployed);
      [vm_compute; reflexivity|vm_compute; reflexivity| |vm_compute; reflexivity].
    apply (sys_init _ _ _ (mock_env 0) (mock_info "owner1" [uluna 1000000]) sample_init_msg
      (resp_at init_run) (store_at init_run) (mock_info "owner1" [])
      (mkRewardsInstantiateMsg mock_contract "uluna") (mkResponse [] [("hub_contract", AStr mock_contract);
        ("admin", AStr "owner1")]) rewards_start);
      [vm_compute; reflexivity|vm_compute; reflexivity|vm_compute; reflexivity|].
    eapply (perform_dispatch 9 0 0); vm_compute; reflexivity.
  - vm_compute; reflexivity.
  - exists (mkCurrentBatch 1 0), (default (initial_state 0 0) (st_state (sy_hub configured))).
    split; [vm_compute; reflexivity|]. split; [vm_compute; reflexivity|].
    right. vm_compute. discriminate.
Qed.

Lemma compounded_dispatch : mock_dispatch global_call waiting compounded_system.
Proof. eapply (perform_dispatch 9 0 60); vm_compute; reflexivity. Qed.

Lemma compounded_run : sys_run mock_contract mock_rewards mock_token 0 compounded_system.
Proof.
  apply (sys_call_hub _ _ _ 0 "anybody" UpdateGlobalIndex [] waiting);
    [exact waiting_run|by split|exact compounded_dispatch].
Qed.
