(* ===== verification/PropLedger.v ===== *)
(** * Properties of the unbonding ledger

    The invariant, solvency, the release of batches and withdrawals. *)
From S2P Require Import Prelude Bytes Cosmwasm RefHost Protocol SignedInteger HubState.
From S2P Require Import HubStateFacts HubUnbond HubWithdraw HubContract Scenario.
From S2P Require Import HubWithdrawFacts HubInvariant HubPayments HubSolvency Runs.

(** C3. In every store a deployed hub can reach (instantiation, then any sequence
    of successful messages and migrations), the unbonding ledger is consistent:
    the history holds exactly the closed batches 1 .. id-1 under their numbers,
    those up to the last processed one and no others are released, the users'
    wait-list entries of the open batch add up to its requested amount, those of
    a closed, unreleased batch add up to the recorded amount, and there are none
    for batches that do not exist yet. *)
Theorem reachable_ledger_invariant `{H : Host} {HS : HostSpec H} `{HK : HookSerde}
    (s : HubStore) :
  reachable s → hub_inv s.
Proof. apply reachable_inv. Qed.

Lemma reachable_ledger_invariant_witness : hub_inv bob_store.
Proof. apply reachable_ledger_invariant. exact bob_store_reachable. Defined.

(** Solvency: along every run in which the hub's coins are not taken away
    between withdrawals and the rounding of the slashing shares fits (see
    [fair_balance]), what the hub owes on released batches never exceeds the
    balance it recorded after its last payment. *)
Theorem fair_run_solvent `{H : Host} {HS : HostSpec H} `{HK : HookSerde} (s : HubStore) :
  fair_reachable s → solvent s.
Proof. apply fair_solvent. Qed.

Lemma fair_run_solvent_witness : solvent bob_store.
Proof. apply fair_run_solvent. exact bob_store_fair. Defined.

(** The hub can pay: in such a run, once a withdrawal has released the due
    batches, every user's finished amount is covered by the hub's balance, so the
    subtraction [hub_balance - withdraw_amount] never fails. *)
Theorem hub_can_pay `{H : Host} {HS : HostSpec H} `{HK : HookSerde} q env params bal
    (s s1 : HubStore) (user : string) (paid : N) :
  fair_reachable s → fair_call q env WithdrawUnbonded s →
  st_parameters s = Some params →
  query_balance q (contract_address env) (underlying_coin_denom params) = Ok bal →
  process_withdraw_rate (block_time env - unbonding_period params) (amount bal) s = Ok ((), s1) →
  get_finished_amount user s1 = Ok paid →
  paid ≤ amount bal.
Proof.
  intros Hs Hfair Hp Hbal Hproc Hpaid.
  pose proof (reachable_inv _ (fair_reachable_reachable s Hs)) as Hinv.
  pose proof (process_solvent _ _ _ _ Hinv (fair_solvent s Hs) (Hfair eq_refl _ _ Hp Hbal) Hproc).
  destruct Hinv as (cb & st & Hi).
  destruct (inv_process _ _ _ _ _ _ Hi Hproc) as (D & rs & _ & _ & _ & _ & Hi1).
  destruct (claims_exist s1 user (inv_wait_keys _ _ _ Hi1)) as [l Hl].
  rewrite (get_finished_amount_claims _ _ _ _ Hl Hpaid).
  etransitivity; [apply (claims_payout_le s1 user l); [by eexists _, _|done]|done].
Qed.

(** The batch that is due when Bob withdraws. *)
Definition bob_batch : UnbondHistory :=
  mkUnbondHistory 1 (mock_time + 31) 1000 (mkDecimal dec_unit) (mkDecimal dec_unit) false.
Definition bob_params : Parameters :=
  mkParameters 30 "uluna" 2 (mkDecimal 0) (mkDecimal dec_unit) (mkDecimal 0).
Definition bob_state : State := default (initial_state 0 0) (st_state bob_store).
Lemma bob_due : Due bob_store (mock_time + 120) (last_processed_batch bob_state + 1) [(1, bob_batch)].
Proof.
  apply (due_next _ _ _ bob_batch); [vm_compute; done|vm_compute; reflexivity|vm_compute; done|done|].
  apply due_stop. vm_compute. reflexivity.
Qed.
Lemma bob_fair_call : fair_call (c_querier (bob_withdraws 900)) (mock_env 122) WithdrawUnbonded bob_store.
Proof.
  intros _ params bal Hp Hbal. assert (params = bob_params) as -> by (vm_compute in Hp; injection Hp as <-; reflexivity).
  assert (bal = uluna 900) as -> by (vm_compute in Hbal; injection Hbal as <-; reflexivity).
  exists bob_state, [(1, bob_batch)]. split; [vm_compute; reflexivity|].
  split; [exact bob_due|]. split; [vm_compute; discriminate|].
  intros _. split; [vm_compute; reflexivity|]. split; [repeat constructor|vm_compute; discriminate].
Qed.
Definition bob_processed : outcome (() * HubStore) :=
  process_withdraw_rate (mock_time + 122 - 2) 900 bob_store.

Lemma hub_can_pay_witness : 899 ≤ 900.
Proof.
  apply (hub_can_pay (c_querier (bob_withdraws 900)) (mock_env 122) bob_params (uluna 900)
    bob_store (store_at bob_processed) "bob" 899).
  - exact bob_store_fair.
  - exact bob_fair_call.
  - vm_compute; reflexivity.
  - vm_compute; reflexivity.
  - vm_compute; reflexivity.
  - vm_compute; reflexivity.
Defined.
