(* ===== verification/PropTypes.v ===== *)
(** * The types of the numbers *)
From S2P Require Import Prelude Bytes Cosmwasm RefHost Protocol HubState HubUnbond.
From S2P Require Import HubWithdraw.
From S2P Require Import HubContract Scenario HubTypes Runs.

(** C14. No number ever leaves its machine type: in every store that a hub reaches
    by messages of their types, every [u64] field is below 2^64 and every
    [Uint128] field and the atomics of every [Decimal] are below 2^128, for the
    parameters, the open batch, the state, each wait-list entry and each record
    of the history; and so is every amount in every message it then sends. *)
Theorem numbers_keep_their_types `{H : Host} {HS : HostSpec H} `{HK : HookSerde} (s : HubStore) :
  typed_reachable s →
  store_ok s ∧
  ∀ q env info msg r s', call_typed q env info msg →
    execute q env info msg s = Ok (r, s') → response_ok r.
Proof.
  intros Hs%typed_reachable_ok. split; [done|].
  intros q env info msg r s' (?&?&?&?) Hrun. by eapply execute_typed.
Qed.

(** The mocked chain answers within the types. *)
Lemma mock_querier_ok n balance supply :
  u128 n → u128 balance → u128 supply → querier_ok (mock_querier (del n) balance supply).
Proof.
  intros Hn Hb Hs. split.
  - intros a ds [= <-]. by repeat constructor.
  - intros a v d [= Hd]. cbn [del List.find validator] in Hd.
    case_match; [by simplify_eq|done].
  - by intros a d c [= <-].
  - by intros a t [= <-].
Qed.
Lemma mock_querier_none_ok balance supply :
  u128 balance → u128 supply → querier_ok (mock_querier [] balance supply).
Proof.
  intros Hb Hs. split.
  - intros a ds [= <-]. by constructor.
  - done.
  - by intros a d c [= <-].
  - by intros a t [= <-].
Qed.

Definition scenario_call_typed (c : call) : Prop :=
  call_typed (c_querier c) (mock_env (c_later c)) (c_info c) (c_msg c).

Lemma run_calls_typed cs s s' :
  Forall scenario_call_typed cs → typed_reachable s → run_calls cs s = Ok ((), s') → typed_reachable s'.
Proof.
  intros Hcs. revert s. induction Hcs as [|c cs Hc _ IH]; intros s Hs Hrun; simpl in Hrun.
  - by apply cm_ret_ok in Hrun as [= ->].
  - bind Hrun as r s1 Hrun1. eapply IH; [|exact Hrun]. by eapply typed_execute.
Qed.

Ltac typed_call :=
  split; cbn [c_querier c_later c_info c_msg];
  [first [apply mock_querier_none_ok|apply mock_querier_ok]; vm_compute; reflexivity|];
  split; [split; vm_compute; reflexivity|];
  split; [|first [exact I|vm_compute; reflexivity]];
  first [by apply Forall_nil|apply Forall_singleton; vm_compute; reflexivity].

Lemma bob_calls_typed : Forall scenario_call_typed (init_calls ++ bob_unbonds).
Proof. repeat (apply Forall_cons; split); [typed_call..|by apply Forall_nil]. Qed.

Lemma bob_store_typed : typed_reachable bob_store.
Proof.
  apply (run_calls_typed (init_calls ++ bob_unbonds) (store_at init_run));
    [exact bob_calls_typed| |vm_compute; reflexivity].
  apply (typed_init (mock_env 0) (mock_info "owner1" [uluna 1000000]) sample_init_msg
    (resp_at init_run)); [split; vm_compute; reflexivity
    |apply Forall_singleton; vm_compute; reflexivity|repeat split; vm_compute; reflexivity|].
  vm_compute; reflexivity.
Qed.

Lemma numbers_keep_their_types_witness :
  store_ok bob_store ∧
  ∀ q env info msg r s', call_typed q env info msg →
    execute q env info msg bob_store = Ok (r, s') → response_ok r.
Proof. apply numbers_keep_their_types. exact bob_store_typed. Defined.
