(* ===== verification/PropChain.v ===== *)
(** * Properties of the hub on a chain

    The chain of Chain.v: the bank credits and debits the hub's coins, staking its
    delegations, and queries are answered with them. *)
From S2P Require Import Prelude Bytes Cosmwasm RefHost Protocol SignedInteger HubState.
From S2P Require Import HubStateFacts HubUnbond HubWithdraw HubContract Scenario.
From S2P Require Import HubCoreFacts.
From S2P Require Import HubWithdrawFacts HubInvariant HubTypes HubPayments Book HubSolvency.
From S2P Require Import Chain ChainFacts ChainRuns HubProgress HubRefinement ChainProgress.
From S2P Require Import Backing Runs ChainScenario.

(** C1. Solvency: on a chain, as long as the rounding of slashing shares fits
    ([rounding_fits]), what the hub owes on released batches is covered by the
    balance it recorded after its last payment, and that balance by the coins it
    really has; nobody else's message, whatever it is, can spend them. *)
Theorem chain_solvent `{H : Host} {HS : HostSpec H} `{HK : HookSerde} hub loss c :
  chain_run rounding_fits hub loss c →
  outstanding (ch_store c) ≤ prev_of (ch_store c) ∧ prev_of (ch_store c) ≤ ch_coins c.
Proof.
  intros Hc. split; [|by eapply ci_prev, chain_run_inv].
  destruct (fair_solvent _ (chain_run_fair _ _ _ Hc)) as (st & Hst & Hle).
  unfold prev_of. by rewrite Hst.
Qed.

Lemma chain_solvent_witness :
  outstanding (ch_store bob_chain) ≤ prev_of (ch_store bob_chain) ∧
  prev_of (ch_store bob_chain) ≤ ch_coins bob_chain.
Proof. apply (chain_solvent mock_contract 0). exact bob_chain_run. Defined.

(** C12. The bookkeeping of the bond is right: on a chain, whatever messages arrive,
    the recorded bond is never below the hub's real stake, and above it by no more
    than what validators were slashed; without slashing the two are equal. *)
Theorem bond_follows_stake `{H : Host} {HS : HostSpec H} `{HK : HookSerde} allowed hub loss c :
  chain_run allowed hub loss c →
  ∃ bond, bond_of (ch_store c) = Some bond ∧ ch_staked c ≤ bond ≤ ch_staked c + loss.
Proof. intros Hc. by eapply ci_bond, chain_run_inv. Qed.

Lemma bond_follows_stake_witness :
  ∃ bond, bond_of (ch_store bob_chain) = Some bond ∧
    ch_staked bob_chain ≤ bond ≤ ch_staked bob_chain + 0.
Proof. apply (bond_follows_stake rounding_fits mock_contract). exact bob_chain_run. Defined.

(** C13. The token is backed: along every run of the hub and its token - the token
    answers the hub with its supply and carries out its mints and burns, holders may
    burn, anyone may call the hub with anything - the tokens in circulation and the
    requests of the open batch together are worth, at the stored exchange rate, no
    more than the bond.  The exception is a bond of zero, when the code sets the rate
    to one; rewards are not compounded in that case. *)
Theorem tokens_are_backed `{H : Host} {HS : HostSpec H} `{HK : HookSerde} c :
  issue_run c →
  ∃ cb st, st_current_batch (is_store c) = Some cb ∧ st_state (is_store c) = Some st ∧
    (total_bond_amount st = 0 ∨
     (is_supply c + requested_with_fee cb) * atomics (exchange_rate st)
       ≤ total_bond_amount st * dec_unit).
Proof. intros (cb & st & ? & ? & ?)%issue_run_backed. by exists cb, st. Qed.

Lemma tokens_are_backed_witness :
  ∃ cb st, st_current_batch (is_store bob_issue) = Some cb ∧ st_state (is_store bob_issue) = Some st ∧
    (total_bond_amount st = 0 ∨
     (is_supply bob_issue + requested_with_fee cb) * atomics (exchange_rate st)
       ≤ total_bond_amount st * dec_unit).
Proof. apply tokens_are_backed. exact bob_issue_run. Defined.

(** C6. Claims are paid in the end, when no batch is worthless: on a chain whose run so
    far kept the slashing shares fitting ([rounding_fits]), take the store it
    reached, the batches [D] that are due at some time, and a user whose claims on
    them or on processed batches are worth a coin.  Suppose that the hub is not
    paused, that the clock is past the unbonding period, that every batch of [D] has
    an amount, a value of at least one coin and a rate within its type, that the
    value of [D] and the funded balance fit 128 bits ([can_release]), and that the hub
    holds no more than its recorded balance and what [D] is worth.  Then, once the
    rest of that has come back, the withdrawal of the user succeeds and sends exactly
    the worth of the claims - at full rates - and the chain carries it out.  (A
    worthless due batch or a small surplus blocks it:
    [worthless_batches_block_withdrawals], [small_surplus_blocks_withdrawals].) *)
Theorem claims_get_paid `{H : Host} {HS : HostSpec H} `{HK : HookSerde} hub loss c params st D env user :
  let s := ch_store c in
  let funded := mkChain s (prev_hub_balance st + sum_of unbonded_of D) (ch_staked c) in
  chain_run rounding_fits hub loss c → contract_address env = hub →
  can_release env s params st D (ch_coins funded) → ch_coins c ≤ ch_coins funded →
  0 < owed_to s user D →
  chain_run rounding_fits hub loss funded ∧
  ∀ q, answers hub funded [] q →
    ∃ r s' c', execute q env (mkInfo user []) WithdrawUnbonded s = Ok (r, s') ∧
      messages r = [BankSend user [mkCoin (underlying_coin_denom params) (owed_to s user D)]] ∧
      settle (coin_of s) 0 r s' funded = Some c' ∧ chain_run rounding_fits hub loss c'.
Proof.
  cbv zeta. set (s := ch_store c). set (T := sum_of unbonded_of D).
  set (funded := mkChain s _ _). intros Hc Henv Hcr Hle Hpos.
  assert (chain_run rounding_fits hub loss funded) as Hf.
  { unfold funded. replace (prev_hub_balance st + T) with (ch_coins c + (ch_coins funded - ch_coins c))
      by (simpl in *; lia). by apply chain_arrive. }
  split; [exact Hf|]. intros q Hq.
  destruct (reachable_inv s (ci_reachable _ _ (chain_run_inv _ _ _ _ Hc))) as (cb & st' & Hi).
  assert (st' = st) as -> by (pose proof (inv_st _ _ _ Hi); destruct Hcr; congruence).
  destruct (can_release_process _ _ _ _ _ _ _ Hi Hcr) as (s1 & Hproc).
  destruct (inv_process _ _ _ _ _ _ Hi Hproc) as (? & ? & _ & _ & _ & _ & Hi1).
  destruct (claims_exist s1 user (inv_wait_keys _ _ _ Hi1)) as [l Hl].
  pose proof (unslashed_claims _ _ _ _ _ _ _ _ _ Hi (cr_due _ _ _ _ _ _ Hcr)
    (arrived_exactly _ _ _ _ Hi) Hproc Hl) as Howed.
  rewrite <- Howed in *. apply (chain_claim_paid hub loss funded params st D env q s1 user l); try done.
  intros Hshort. simpl in Hshort. fold T in Hshort. lia.
Qed.

(** The batch that Bob's two requests closed. *)
Definition bob_chain_batch : UnbondHistory :=
  mkUnbondHistory 1 (mock_time + 31) 1000 (mkDecimal dec_unit) (mkDecimal dec_unit) false.
Definition bob_chain_state : State := default (initial_state 0 0) (st_state (ch_store bob_chain)).
Definition bob_chain_params : Parameters :=
  mkParameters 30 "uluna" 2 (mkDecimal 0) (mkDecimal dec_unit) (mkDecimal 0).

Lemma bob_chain_due :
  Due (ch_store bob_chain) (mock_time + 122 - 2) (last_processed_batch bob_chain_state + 1)
    [(1, bob_chain_batch)].
Proof.
  apply (due_next _ _ _ bob_chain_batch);
    [vm_compute; reflexivity|vm_compute; reflexivity|vm_compute; discriminate|reflexivity|].
  apply due_stop. vm_compute. reflexivity.
Qed.
Lemma bob_chain_ready :
  can_release (mock_env 122) (ch_store bob_chain) bob_chain_params bob_chain_state
    [(1, bob_chain_batch)] 1000.
Proof.
  split.
  - vm_compute; reflexivity.
  - vm_compute; reflexivity.
  - vm_compute; reflexivity.
  - vm_compute; discriminate.
  - exact bob_chain_due.
  - repeat constructor; vm_compute; reflexivity.
  - vm_compute; discriminate.
  - right. vm_compute. split; [reflexivity|discriminate].
  - vm_compute; reflexivity.
  - vm_compute; reflexivity.
Qed.

Lemma claims_get_paid_witness :
  let funded := mkChain (ch_store bob_chain)
    (prev_hub_balance bob_chain_state + sum_of unbonded_of [(1, bob_chain_batch)])
    (ch_staked bob_chain) in
  chain_run rounding_fits mock_contract 0 funded ∧
  ∀ q, answers mock_contract funded [] q →
    ∃ r s' c', execute q (mock_env 122) (mkInfo "bob" []) WithdrawUnbonded (ch_store bob_chain) = Ok (r, s') ∧
      messages r = [BankSend "bob" [mkCoin (underlying_coin_denom bob_chain_params)
        (owed_to (ch_store bob_chain) "bob" [(1, bob_chain_batch)])]] ∧
      settle (coin_of (ch_store bob_chain)) 0 r s' funded = Some c' ∧
      chain_run rounding_fits mock_contract 0 c'.
Proof.
  apply (claims_get_paid mock_contract 0 bob_chain bob_chain_params bob_chain_state
    [(1, bob_chain_batch)] (mock_env 122) "bob").
  - exact bob_chain_run.
  - reflexivity.
  - exact bob_chain_ready.
  - vm_compute; discriminate.
  - vm_compute; reflexivity.
Defined.

(** C7. A loss by slashing alone does not jam withdrawals: on a chain whose run so far
    kept the slashing shares fitting, suppose that the hub is not paused, that the
    clock is past the unbonding period, that every due batch has an amount, a value
    of at least one coin and a rate within its type, that nothing is due or something
    has arrived but no more than the due batches are worth, that the balance and that
    worth fit 128 bits ([can_release]), and that the shares of this loss fit
    ([shares_fit]).  Then their release succeeds; after it every user whose claims
    have become worth something - everyone the released rates owe a coin - can
    withdraw at once, is paid exactly that, and the chain carries it out. *)
Theorem slashing_cannot_jam `{H : Host} {HS : HostSpec H} `{HK : HookSerde} hub loss c params st D env :
  chain_run rounding_fits hub loss c → contract_address env = hub →
  can_release env (ch_store c) params st D (ch_coins c) →
  shares_fit D (ch_coins c - prev_hub_balance st) →
  ∃ s1, process_withdraw_rate (block_time env - unbonding_period params) (ch_coins c) (ch_store c)
      = Ok ((), s1) ∧
    ∀ user, ∃ owed, get_finished_amount user s1 = Ok owed ∧
      (0 < owed → ∀ q, answers hub c [] q →
        ∃ r s' c', execute q env (mkInfo user []) WithdrawUnbonded (ch_store c) = Ok (r, s') ∧
          messages r = [BankSend user [mkCoin (underlying_coin_denom params) owed]] ∧
          settle (coin_of (ch_store c)) 0 r s' c = Some c' ∧ chain_run rounding_fits hub loss c').
Proof.
  intros Hc Henv Hcr Hfit.
  pose proof (fair_solvent _ (chain_run_fair _ _ _ Hc)) as Hsolv.
  destruct (reachable_inv _ (ci_reachable _ _ (chain_run_inv _ _ _ _ Hc))) as (cb & st' & Hi).
  assert (st' = st) as -> by (pose proof (inv_st _ _ _ Hi); destruct Hcr; congruence).
  destruct (can_release_process _ _ _ _ _ _ _ Hi Hcr) as (s1 & Hproc).
  exists s1. split; [exact Hproc|]. intros user.
  destruct (inv_process _ _ _ _ _ _ Hi Hproc) as (? & ? & _ & _ & _ & _ & Hi1).
  destruct (claims_exist s1 user (inv_wait_keys _ _ _ Hi1)) as [l Hl].
  exists (claims_payout s1 l). split.
  - apply get_finished_amount_total; [exact Hl|]. apply (u128_le _ (ch_coins c)); [|apply Hcr].
    exact (claim_covered _ _ _ _ _ _ _ _ _ _ Hi Hsolv Hcr Hfit Hproc Hl).
  - intros Hpos q Hq. by eapply chain_claim_paid.
Qed.

(** Only 900 of the 1000 have come back. *)
Definition bob_short : Chain := mkChain (ch_store bob_chain) 900 (ch_staked bob_chain).
Lemma bob_short_run : chain_run rounding_fits mock_contract 0 bob_short.
Proof. exact (chain_arrive _ _ 0 bob_chain 900 bob_chain_run). Qed.
Lemma bob_short_ready :
  can_release (mock_env 122) (ch_store bob_short) bob_chain_params bob_chain_state
    [(1, bob_chain_batch)] 900.
Proof.
  destruct bob_chain_ready. split; [done..| |right| |done].
  - vm_compute; discriminate.
  - vm_compute. split; [reflexivity|discriminate].
  - vm_compute; reflexivity.
Qed.

Lemma slashing_cannot_jam_witness :
  ∃ s1, process_withdraw_rate (mock_time + 122 - 2) 900 (ch_store bob_short) = Ok ((), s1) ∧
    ∀ user, ∃ owed, get_finished_amount user s1 = Ok owed ∧
      (0 < owed → ∀ q, answers mock_contract bob_short [] q →
        ∃ r s' c', execute q (mock_env 122) (mkInfo user []) WithdrawUnbonded (ch_store bob_short) = Ok (r, s') ∧
          messages r = [BankSend user [mkCoin (underlying_coin_denom bob_chain_params) owed]] ∧
          settle (coin_of (ch_store bob_short)) 0 r s' bob_short = Some c' ∧
          chain_run rounding_fits mock_contract 0 c').
Proof.
  apply (slashing_cannot_jam mock_contract 0 bob_short bob_chain_params bob_chain_state
    [(1, bob_chain_batch)] (mock_env 122)).
  - exact bob_short_run.
  - reflexivity.
  - exact bob_short_ready.
  - intros _. split; [vm_compute; reflexivity|].
    split; [repeat constructor; vm_compute; reflexivity|vm_compute; discriminate].
Defined.
