(* ===== verification/PropSystem.v ===== *)
(** * Properties of the whole system

    Both contracts with the token, the bank and staking (System.v): what holds after
    any sequence of transactions, and two transactions as a whole. *)
From S2P Require Import Prelude Bytes Cosmwasm RefHost Protocol HubState HubStateFacts.
From S2P Require Import HubMath HubCore HubUnbond HubWithdraw HubContract RewardsContract.
From S2P Require Import Scenario.
From S2P Require Import HubCoreFacts HubBondFacts HubUnbondFacts HubAdminFacts.
From S2P Require Import HubWithdrawFacts HubInvariant.
From S2P Require Import HubSolvency Chain ChainFacts ChainRuns Backing System SystemFacts.
From S2P Require Import SystemRuns Compounding HubWorking HubUnbondProgress HubBondProgress.
From S2P Require Import SystemProgress Runs.
From S2P Require Import ChainScenario.
From S2P Require Import CompoundProgress SystemScenario Termination.

(** C2. Transactions are safe: take any transactions of the two contracts - calls from
    outside, each with everything the contracts then send, run depth first - in which
    every call of the hub is [fair]: at each withdrawal the roundings of the slashing
    shares fit ([rounding_fits], which the code does not ensure), and rewards are not
    compounded onto an empty bond.  After them what the hub owes on released batches
    is covered by its coins, the recorded bond is at least the stake and above it by
    no more than slashing took, and the tokens with the requests of the open batch
    are worth at most the bond, unless the bond is empty, when the code sets the rate
    to one. *)
Theorem system_is_safe `{H : Host} {HS : HostSpec H} `{HK : HookSerde} hub rewards token loss y :
  hub ≠ rewards → sys_run hub rewards token loss y →
  outstanding (sy_hub y) ≤ prev_of (sy_hub y) ∧ prev_of (sy_hub y) ≤ sy_coins y ∧
  ∃ cb st, st_current_batch (sy_hub y) = Some cb ∧ st_state (sy_hub y) = Some st ∧
    sy_staked y ≤ total_bond_amount st ≤ sy_staked y + loss ∧
    (total_bond_amount st = 0 ∨
     (sy_supply y + requested_with_fee cb) * atomics (exchange_rate st)
       ≤ total_bond_amount st * dec_unit).
Proof.
  intros Hd Hy. destruct (sys_run_refines _ _ _ Hd _ _ Hy) as [Hc Ht].
  destruct (fair_solvent _ (chain_run_fair _ _ _ Hc)) as (st' & Hst' & Hle).
  pose proof (ci_prev _ _ (chain_run_inv _ _ _ _ Hc)) as Hprev.
  pose proof (ci_bond _ _ (chain_run_inv _ _ _ _ Hc)) as (bond & Hbond & Hstake).
  destruct (issue_run_backed _ Ht) as (cb & st & Hcb & Hst & Hb).
  cbn [chain_of issue_of ch_store ch_coins ch_staked is_store is_supply] in *.
  unfold prev_of, bond_of in *. rewrite Hst in *. simplify_eq/=.
  split; [done|]. split; [done|]. by exists cb, st'.
Qed.

Lemma system_is_safe_witness :
  outstanding (sy_hub compounded_system) ≤ prev_of (sy_hub compounded_system) ∧
  prev_of (sy_hub compounded_system) ≤ sy_coins compounded_system ∧
  ∃ cb st, st_current_batch (sy_hub compounded_system) = Some cb ∧
    st_state (sy_hub compounded_system) = Some st ∧
    sy_staked compounded_system ≤ total_bond_amount st ≤ sy_staked compounded_system + 0 ∧
    (total_bond_amount st = 0 ∨
     (sy_supply compounded_system + requested_with_fee cb) * atomics (exchange_rate st)
       ≤ total_bond_amount st * dec_unit).
Proof.
  apply (system_is_safe mock_contract mock_rewards mock_token 0 compounded_system).
  - discriminate.
  - exact compounded_run.
Defined.

(** C10. Compounding as a whole: somebody calls the hub's [UpdateGlobalIndex], and the
    messages of its response are carried out to the end, every query answered with the
    truth and the bond not zero ([dispatch], [fair]).  Then every validator that the
    chain reports a delegation to has been asked for its rewards, once for each, and
    all they paid, together with what waited at the rewards contract, less the
    protocol fee, has been staked and added to the bond; the token's supply is the
    same, and the rate grew by the rewards' share per token. *)
Theorem rewards_are_compounded `{H : Host} {HS : HostSpec H} `{HK : HookSerde}
    hub rewards token y y' q env from coins r s1 ds params cb st :
  hub ≠ rewards → contract_address env = hub → query_all_delegations q hub = Ok ds →
  st_parameters (sy_hub y) = Some params → st_state (sy_hub y) = Some st →
  st_current_batch (sy_hub y) = Some cb →
  execute q env (mkInfo from coins) UpdateGlobalIndex (sy_hub y) = Ok (r, s1) →
  dispatch hub rewards token (from_hub hub r)
    (with_hub s1 (credit hub rewards hub (received (sys_coin y) coins) y)) y' →
  ∃ log st', sy_paid y' = sy_paid y ++ log ∧ log.*1 = validator <$> ds ∧
    st_state (sy_hub y') = Some st' ∧
    let rw := sy_fund y + sum_of snd log in
    let fee := protocol_cut params rw in
    fee ≤ rw ∧ total_bond_amount st' + fee = total_bond_amount st + rw ∧
    sy_staked y' + fee = sy_staked y + rw ∧ sy_supply y' = sy_supply y ∧
    sy_coins y ≤ sy_coins y' ∧
    atomics (exchange_rate st') = atomics (exchange_rate st) +
      (rw - fee) * dec_unit / (sy_supply y + requested_with_fee cb).
Proof.
  intros Hd Henv Hds Hp Hst Hcb Hexec Hrun.
  destruct (global_effect hub rewards token Hd q env y y' from coins r s1 ds params cb st
    Henv Hds Hp Hst Hcb Hexec Hrun) as (log & Hlog & [Hfee Hst' Hsk Hsu Hc Hpaid]).
  exists log. eexists. do 2 (split; [done|]). split; [exact Hst'|]. simpl. split; [done|].
  split; [lia|]. split; [lia|]. done.
Qed.

Definition fee_params : Parameters :=
  mkParameters 30 "uluna" 2 (mkDecimal 0) (mkDecimal dec_unit) (mkDecimal 50000000000000000).
Definition state_in (y : System) : State := default (initial_state 0 0) (st_state (sy_hub y)).

Definition global_run : outcome (Response WasmBody * HubStore) :=
  execute (hub_querier waiting []) (mock_env 0) (mkInfo "anybody" []) UpdateGlobalIndex (sy_hub waiting).
Lemma global_run_dispatch :
  mock_dispatch (from_hub mock_contract (resp_at global_run))
    (with_hub (store_at global_run) (credit mock_contract mock_rewards mock_contract 0 waiting))
    compounded_system.
Proof. eapply (perform_dispatch 8 0 60); vm_compute; reflexivity. Qed.

Lemma rewards_are_compounded_witness :
  ∃ log st', sy_paid compounded_system = sy_paid waiting ++ log ∧
    log.*1 = validator <$> del (sy_staked waiting) ∧
    st_state (sy_hub compounded_system) = Some st' ∧
    let rw := sy_fund waiting + sum_of snd log in
    let fee := protocol_cut fee_params rw in
    fee ≤ rw ∧ total_bond_amount st' + fee = total_bond_amount (state_in waiting) + rw ∧
    sy_staked compounded_system + fee = sy_staked waiting + rw ∧
    sy_supply compounded_system = sy_supply waiting ∧
    sy_coins waiting ≤ sy_coins compounded_system ∧
    atomics (exchange_rate st') = atomics (exchange_rate (state_in waiting)) +
      (rw - fee) * dec_unit / (sy_supply waiting + requested_with_fee (mkCurrentBatch 1 0)).
Proof.
  apply (rewards_are_compounded mock_contract mock_rewards mock_token waiting compounded_system
    (hub_querier waiting []) (mock_env 0) "anybody" [] (resp_at global_run) (store_at global_run)
    (del (sy_staked waiting)) fee_params (mkCurrentBatch 1 0) (state_in waiting)).
  - discriminate.
  - reflexivity.
  - vm_compute; reflexivity.
  - vm_compute; reflexivity.
  - vm_compute; reflexivity.
  - vm_compute; reflexivity.
  - vm_compute; reflexivity.
  - exact global_run_dispatch.
Defined.





(** Bob leaves with 500 tokens, a second after the end of the epoch. *)
Definition leaving_q : Querier := hub_querier compounded_system [].





(** C21. Every entry point terminates: no message, query, instantiation or migration of
    either contract loops, whatever its store holds and whatever is sent - the draw
    of validators, both loops over the batches, the reading and deleting of claims
    and the whitelist included - when the host's calls and the chain's answers
    return. *)
Theorem every_call_terminates `{H : Host} {HS : HostSpec H} {HR : Responsive H} `{HK : HookSerde}
    {HRK : ResponsiveHook HK} q env info :
  answering q →
  (∀ msg s, execute q env info msg s ≠ OutOfFuel) ∧
  (∀ msg s, query env msg s ≠ OutOfFuel) ∧
  (∀ msg s, instantiate env info msg s ≠ OutOfFuel) ∧
  (∀ msg s, migrate msg s ≠ OutOfFuel) ∧
  (∀ msg s, Rewards.execute q env info msg s ≠ OutOfFuel) ∧
  (∀ msg s, Rewards.query msg s ≠ OutOfFuel) ∧
  (∀ msg s, Rewards.instantiate info msg s ≠ OutOfFuel).
Proof.
  intros Hq. repeat split.
  - intros msg. by apply execute_terminates.
  - intros msg. by apply query_terminates.
  - intros msg. by apply instantiate_terminates.
  - intros msg. by apply migrate_terminates.
  - intros msg. by apply rewards_execute_terminates.
  - intros msg. by apply rewards_query_terminates.
  - intros msg. by apply rewards_instantiate_terminates.
Qed.

#[local] Instance ref_host_responsive : Responsive ref_host.
Proof.
  split; intros x; unfold halts; simpl; try done.
  - by case_decide.
  - by repeat case_match.
  - by destruct x.
Qed.
#[local] Instance ref_hook_responsive : ResponsiveHook ref_hook.
Proof. split. intros b. unfold halts. simpl. by case_decide. Qed.
Lemma leaving_q_answers : answering leaving_q.
Proof. by split. Qed.

Lemma every_call_terminates_witness :
  answering leaving_q ∧
  ∀ msg s, execute leaving_q (mock_env 31) (mock_info "bob" []) msg s ≠ OutOfFuel.
Proof.
  split; [exact leaving_q_answers|].
  apply (every_call_terminates leaving_q (mock_env 31) (mock_info "bob" [])).
  exact leaving_q_answers.
Defined.
