(* ===== verification/PropRefinement.v ===== *)
(** * The hub as a claim book

    The refinement of Book.v by the contract, and what it means for the users. *)
From S2P Require Import Prelude Bytes Cosmwasm RefHost Protocol HubState HubStateFacts.
From S2P Require Import HubWithdraw HubContract Scenario HubInvariant Book HubSolvency.
From S2P Require Import HubRefinement Runs.

(** C4. Refinement: every message that the hub executes with success, whatever it
    is and whoever sends it, is one step of the abstract claim book.  A withdrawal
    is the payment of all the sender's claims on rated batches, and it is made by
    the one bank message of the response; an unbonding is a request of at most the
    tokens that came with it, and closes the open batch or does not; all other
    messages leave the claims, the batches and the rates as they are. *)
Theorem hub_refines_book `{H : Host} {HS : HostSpec H} `{HK : HookSerde} q env info msg
    (s s' : HubStore) r :
  reachable s → execute q env info msg s = Ok (r, s') →
  book_step (book_of s) (book_of s') (event_of s info msg r s') ∧
  event_matches info msg r (event_of s info msg r s').
Proof.
  intros Hs Hrun. pose proof (reachable_inv s Hs) as Hi.
  split; [by eapply execute_step|by eapply execute_event].
Qed.

(** Bob's withdrawal of 899 coins as a step of the book. *)
Definition bob_paid : HubStore := store_at (bob_run 900).
Lemma hub_refines_book_witness :
  book_step (book_of bob_store) (book_of bob_paid) (EvPay "bob" 899) ∧
  event_matches (mock_info "bob" []) WithdrawUnbonded (resp_at (bob_run 900)) (EvPay "bob" 899).
Proof.
  apply (hub_refines_book (c_querier (bob_withdraws 900)) (mock_env 122) (mock_info "bob" [])
    WithdrawUnbonded bob_store bob_paid (resp_at (bob_run 900))).
  - exact bob_store_reachable.
  - vm_compute. reflexivity.
Defined.

(** The events and messages of a list of calls. *)
Abbreviation entry := (event * list (CosmosMsg WasmBody))%type.
Fixpoint trace (cs : list call) (s : HubStore) (log : list entry) : list entry :=
  match cs with
  | [] => log
  | c :: cs =>
      let o := run_call c s in
      trace cs (store_at o)
        ((event_of s (c_info c) (c_msg c) (resp_at o) (store_at o), outgoing (c_msg c) (resp_at o)) :: log)
  end.
Lemma trace_run cs s log s' :
  hub_run log s → run_calls cs s = Ok ((), s') → hub_run (trace cs s log) s'.
Proof.
  revert s log; induction cs as [|c cs IH]; intros s log Hs Hrun; simpl in *.
  - by apply cm_ret_ok in Hrun as [= ->].
  - bind Hrun as r s1 Hrun1. apply IH; rewrite Hrun1; simpl; [|done].
    eapply hub_run_execute; [exact Hs|exact Hrun1].
Qed.

(** C5. Lifetime accounting: in every run of a deployed hub, however requests,
    slashings, releases and withdrawals of all users are interleaved, all the coins
    the hub's bank messages ever sent to an address - in any message's response, but
    for the protocol fee of compounding - plus what the address is still owed on
    released batches are exactly what its own requests in the released batches are
    worth at the batches' rates.  No claim is paid twice, lost, or paid to somebody
    else, since the equation holds for the other address too. *)
Theorem lifetime_payments `{H : Host} {HS : HostSpec H} `{HK : HookSerde}
    (log : list (event * list (CosmosMsg WasmBody))) (s : HubStore) (u : string) :
  hub_run log s →
  sent log u + sum_of (owed (book_of s) u) (upto (done_batch s)) =
  sum_of (λ b, payout (rate_in s b) (requested log.*1 u b)) (upto (done_batch s)).
Proof.
  intros Hrun. rewrite (hub_run_sent _ _ _ Hrun).
  apply (bi_paid _ _ (book_run_inv _ _ (hub_run_book _ _ Hrun))).
Qed.

Definition bob_log : list entry :=
  trace (init_calls ++ bob_unbonds ++ [bob_withdraws 900]) (store_at init_run) [].
Lemma bob_paid_run : hub_run bob_log bob_paid.
Proof.
  apply trace_run; [|vm_compute; reflexivity].
  apply (hub_run_init (mock_env 0) (mock_info "owner1" [uluna 1000000]) sample_init_msg
    (resp_at init_run)). vm_compute. reflexivity.
Qed.
Lemma lifetime_payments_witness :
  done_batch bob_paid = 1 ∧ requested bob_log.*1 "bob" 1 = 1000 ∧ sent bob_log "bob" = 899 ∧
  899 + 0 = payout (rate_in bob_paid 1) 1000.
Proof.
  pose proof (lifetime_payments bob_log bob_paid "bob" bob_paid_run) as Hp.
  vm_compute in Hp. do 3 (split; [vm_compute; reflexivity|]). vm_compute. exact Hp.
Defined.
