(* ===== verification/PropWithdraw.v ===== *)
(** * Properties of releasing and withdrawing (unbond.rs, second half) *)
From S2P Require Import Prelude Bytes Cosmwasm RefHost Protocol SignedInteger HubState.
From S2P Require Import HubStateFacts HubUnbond HubWithdraw HubContract Scenario.
From S2P Require Import HubWithdrawFacts HubInvariant HubPayments HubSolvency Runs.
From S2P Require Import PropLedger.

(** C17. What [process_withdraw_rate] does: starting after the last processed batch
    it takes the consecutive batches that are due and gives each the rate of its own
    share of the arrived coins: what it is worth when as much arrived as the batches
    are worth together, otherwise that less its part of the loss and one coin (the
    distance, should these exceed it), or with its part of the surplus but one coin,
    the parts by the batch's weight in the total ([own_share]).  As long as the roundings fit, the shares together do not
    exceed what arrived.  It marks the batches released, advances the last processed
    batch by their number, and leaves every other record and the wait list alone. *)
Theorem process_releases_due `{H : Host} {HS : HostSpec H} t bal (s s' : HubStore) st cb :
  hub_inv_at s cb st → process_withdraw_rate t bal s = Ok ((), s') →
  ∃ D acts,
    Due s t (last_processed_batch st + 1) D ∧
    is_due s t (last_processed_batch st + 1 + N.of_nat (length D)) = false ∧
    Forall2 (λ jh a,
        own_share (sum_of unbonded_of D) (arrived st bal) (unbonded_of jh) a ∧
        hist s' jh.1 = Some (release (mkDecimal (a * dec_unit / h_amount jh.2)) jh.2))
      D acts ∧
    (shares_fit D (arrived st bal) → sum_of (λ a, a) acts ≤ arrived st bal) ∧
    (∀ j, j < u64_bound → j ∉ D.*1 → hist s' j = hist s j) ∧
    st_state s' = Some (processed_state st (last_processed_batch st + N.of_nat (length D))) ∧
    st_wait s' = st_wait s.
Proof.
  intros Hi Hrun. destruct (inv_process _ _ _ _ _ _ Hi Hrun)
    as (D & rs & HD & Hrs & (_ & Hin & Hout) & Hw & Hi').
  exists D.
  destruct (Forall_choice (λ jh a, takes_actual (sum_of unbonded_of D) (arrived st bal) jh a ∧
    hist s' jh.1 = Some (release (mkDecimal (a * dec_unit / h_amount jh.2)) jh.2)) D) as [acts Hacts].
  { apply Forall_lookup. intros k [j h] Hk.
    destruct (Forall2_lookup_l _ _ _ _ _ Hrs Hk) as (r & Hr & a & Ha & Hrate).
    apply Decimal_from_ratio_ok in Hrate as (_ & -> & _). exists a. split; [done|].
    by apply (Hin k). }
  exists acts. split; [done|]. split; [by apply Due_maximal|]. split; [|split].
  - eapply Forall2_impl; [exact Hacts|]. intros jh a [Ha ?]. split; [by apply actual_own_share|done].
  - apply actuals_covered. eapply Forall2_impl; [exact Hacts|]. by intros jh a [Ha _].
  - split; [done|]. split; [apply (inv_st _ _ _ Hi')|done].
Qed.

(** The invariant at Bob's store. *)
Definition bob_cb : CurrentBatch := mkCurrentBatch 2 0.
Lemma bob_inv : hub_inv_at bob_store bob_cb bob_state.
Proof.
  destruct (reachable_inv bob_store bob_store_reachable) as (cb & st & Hi).
  assert (cb = bob_cb) as <-
    by (pose proof (inv_cb _ _ _ Hi) as Hc; vm_compute in Hc; injection Hc as <-; reflexivity).
  assert (st = bob_state) as <-
    by (pose proof (inv_st _ _ _ Hi) as Hc; unfold bob_state; by rewrite Hc).
  exact Hi.
Qed.

Lemma process_releases_due_witness :
  ∃ D acts,
    Due bob_store (mock_time + 122 - 2) (last_processed_batch bob_state + 1) D ∧
    is_due bob_store (mock_time + 122 - 2)
      (last_processed_batch bob_state + 1 + N.of_nat (length D)) = false ∧
    Forall2 (λ jh a,
        own_share (sum_of unbonded_of D) (arrived bob_state 900) (unbonded_of jh) a ∧
        hist (store_at bob_processed) jh.1
          = Some (release (mkDecimal (a * dec_unit / h_amount jh.2)) jh.2))
      D acts ∧
    (shares_fit D (arrived bob_state 900) → sum_of (λ a, a) acts ≤ arrived bob_state 900) ∧
    (∀ j, j < u64_bound → j ∉ D.*1 → hist (store_at bob_processed) j = hist bob_store j) ∧
    st_state (store_at bob_processed) =
      Some (processed_state bob_state (last_processed_batch bob_state + N.of_nat (length D))) ∧
    st_wait (store_at bob_processed) = st_wait bob_store.
Proof.
  apply (process_releases_due _ _ _ _ _ bob_cb); [exact bob_inv|vm_compute; reflexivity].
Defined.

(** What is released together pays out no more than what arrived: the
    outstanding payouts grow by at most the arrived coins. *)
Theorem released_payouts_bounded `{H : Host} {HS : HostSpec H} t bal (s s' : HubStore) cb st D :
  hub_inv_at s cb st → Due s t (last_processed_batch st + 1) D →
  shares_fit D (arrived st bal) → process_withdraw_rate t bal s = Ok ((), s') →
  outstanding s' ≤ outstanding s + arrived st bal.
Proof. intros Hi HD Hfit Hrun. by eapply process_outstanding. Qed.

Lemma released_payouts_bounded_witness :
  outstanding (store_at bob_processed) ≤ outstanding bob_store + arrived bob_state 900.
Proof.
  apply (released_payouts_bounded (mock_time + 120) 900 bob_store _ bob_cb bob_state [(1, bob_batch)]).
  - exact bob_inv.
  - exact bob_due.
  - intros _. split; [vm_compute; reflexivity|]. split; [repeat constructor|vm_compute; discriminate].
  - vm_compute; reflexivity.
Defined.

(** Without slashing nobody loses: when exactly the due amount has arrived,
    every due batch is released at the rate of its full unbonded amount. *)
Theorem unslashed_release_is_full `{H : Host} {HS : HostSpec H} t bal (s s' : HubStore) cb st D :
  hub_inv_at s cb st → Due s t (last_processed_batch st + 1) D →
  arrived st bal = sum_of unbonded_of D → process_withdraw_rate t bal s = Ok ((), s') →
  ∀ j h, (j, h) ∈ D →
    hist s' j = Some (release (mkDecimal (unbonded_of (j, h) * dec_unit / h_amount h)) h).
Proof.
  intros Hi HD Ha Hrun j h. by apply (process_unslashed t bal s s' cb st D).
Qed.

Lemma unslashed_release_is_full_witness :
  hist (store_at (process_withdraw_rate (mock_time + 120) 1000 bob_store)) 1 =
    Some (release (mkDecimal (unbonded_of (1, bob_batch) * dec_unit / h_amount bob_batch)) bob_batch).
Proof.
  apply (unslashed_release_is_full (mock_time + 120) 1000 bob_store _ bob_cb bob_state
    [(1, bob_batch)]).
  - exact bob_inv.
  - exact bob_due.
  - vm_compute; reflexivity.
  - vm_compute; reflexivity.
  - left.
Defined.

(** C29. The unbonding period is respected: a batch that a withdrawal turns from
    unreleased to released was closed at least an unbonding period ago. *)
Theorem unbonding_period_respected `{H : Host} {HS : HostSpec H} q env info params
    (s s' : HubStore) r j h h' :
  hub_inv s → st_parameters s = Some params →
  execute_withdraw_unbonded q env info s = Ok (r, s') → j < u64_bound →
  hist s j = Some h → released h = false → hist s' j = Some h' → released h' = true →
  h_time h + unbonding_period params ≤ block_time env.
Proof.
  intros Hinv Hp Hrun Hj Hh Hr Hh' Hr'.
  destruct (withdraw_effects _ _ _ _ _ _ Hinv Hrun)
    as (params' & bal & s1 & l & Hp' & Ht & _ & Hproc & _ & _ & _ & _ & Hhist & _).
  assert (params' = params) as -> by congruence.
  destruct Hinv as (cb & st & Hi). destruct (inv_process _ _ _ _ _ _ Hi Hproc)
    as (D & rs & HD & _ & (_ & _ & Hout) & _).
  rewrite (hist_ext s1 s' j Hhist) in Hh'.
  destruct (decide (j ∈ D.*1)) as [Hd|Hd]; [|rewrite Hout in Hh' by done; congruence].
  apply list_elem_of_fmap in Hd as ([j' h0] & -> & Hd). simpl in *.
  destruct (Due_hist _ _ _ _ _ _ HD Hd) as (Hh0 & Hle & _).
  assert (h0 = h) as -> by congruence. lia.
Qed.

Definition bob_paid : outcome (Response WasmBody * HubStore) :=
  execute_withdraw_unbonded (c_querier (bob_withdraws 900)) (mock_env 122) (mock_info "bob" [])
    bob_store.
Lemma unbonding_period_respected_witness : h_time bob_batch + 2 ≤ mock_time + 122.
Proof.
  apply (unbonding_period_respected (c_querier (bob_withdraws 900)) (mock_env 122)
    (mock_info "bob" []) bob_params bob_store (store_at bob_paid) (resp_at bob_paid) 1 bob_batch
    (release (mkDecimal 899000000000000000) bob_batch)).
  - exact (reachable_inv bob_store bob_store_reachable).
  - vm_compute; reflexivity.
  - vm_compute; reflexivity.
  - vm_compute; reflexivity.
  - vm_compute; reflexivity.
  - reflexivity.
  - vm_compute; reflexivity.
  - reflexivity.
Defined.

(** C15. A withdrawal pays the sender exactly the claims that are released after
    processing: one bank message with their total at the batches' withdraw rates
    (positive and at most the hub's balance); those claims leave the wait list,
    every other entry of every user stays, and the balance that remains is
    recorded. *)
Theorem withdraw_pays_claims `{H : Host} {HS : HostSpec H} q env info (s s' : HubStore) r :
  hub_inv s → execute_withdraw_unbonded q env info s = Ok (r, s') →
  ∃ params bal s1 l,
    st_parameters s = Some params ∧
    query_balance q (contract_address env) (underlying_coin_denom params) = Ok bal ∧
    process_withdraw_rate (block_time env - unbonding_period params) (amount bal) s
      = Ok ((), s1) ∧
    claims s1 (sender info) l ∧
    0 < claims_payout s1 l ≤ amount bal ∧
    messages r = [BankSend (sender info)
      [mkCoin (underlying_coin_denom params) (claims_payout s1 l)]] ∧
    prev_hub_balance <$> st_state s' = Some (amount bal - claims_payout s1 l) ∧
    (∀ a b, b < u64_bound →
      wait_entry s' a b =
        if decide (a = sender info ∧ b ∈ (List.filter (claim_released s1) l).*1)
        then None else wait_entry s a b).
Proof.
  intros Hinv Hrun. destruct (withdraw_effects _ _ _ _ _ _ Hinv Hrun)
    as (params & bal & s1 & l & Hp & _ & Hbal & Hproc & Hl & Hpay & Hmsg & (st & _ & Hst) & _ & _ & He).
  exists params, bal, s1, l. do 6 (split; [done|]). split; [by rewrite Hst|done].
Qed.

Lemma withdraw_pays_claims_witness :
  ∃ params bal s1 l,
    st_parameters bob_store = Some params ∧
    query_balance (c_querier (bob_withdraws 900)) mock_contract (underlying_coin_denom params)
      = Ok bal ∧
    process_withdraw_rate (mock_time + 122 - unbonding_period params) (amount bal) bob_store
      = Ok ((), s1) ∧
    claims s1 "bob" l ∧
    0 < claims_payout s1 l ≤ amount bal ∧
    messages (resp_at bob_paid) = [BankSend "bob"
      [mkCoin (underlying_coin_denom params) (claims_payout s1 l)]] ∧
    prev_hub_balance <$> st_state (store_at bob_paid) = Some (amount bal - claims_payout s1 l) ∧
    (∀ a b, b < u64_bound →
      wait_entry (store_at bob_paid) a b =
        if decide (a = "bob" ∧ b ∈ (List.filter (claim_released s1) l).*1)
        then None else wait_entry bob_store a b).
Proof.
  apply (withdraw_pays_claims (c_querier (bob_withdraws 900)) (mock_env 122) (mock_info "bob" [])
    bob_store (store_at bob_paid) (resp_at bob_paid)).
  - exact (reachable_inv bob_store bob_store_reachable).
  - vm_compute; reflexivity.
Defined.

(** C16. No double payment: after a successful withdrawal the same user, at the same
    time and whatever the hub's balance has become, gets the error that nothing
    is available. *)
Theorem withdraw_twice_fails `{H : Host} {HS : HostSpec H} q q' env info (s s' : HubStore) r
    params bal bal' :
  hub_inv s → st_parameters s = Some params →
  query_balance q (contract_address env) (underlying_coin_denom params) = Ok bal →
  execute_withdraw_unbonded q env info s = Ok (r, s') →
  query_balance q' (contract_address env) (underlying_coin_denom params) = Ok bal' →
  amount bal < u128_bound → amount bal' < u128_bound →
  execute_withdraw_unbonded q' env info s' =
    Err (GenericErr ("No withdrawable " +:+ underlying_coin_denom params +:+
                     " assets are available yet")).
Proof.
  intros Hinv Hp Hbal Hrun Hbal' Hb Hb'.
  destruct (withdraw_effects _ _ _ _ _ _ Hinv Hrun)
    as (params' & bal0 & s1 & l & Hp' & Ht & Hbal0 & Hproc & Hl & Hpay & _ & (st1 & Hst1 & Hst') &
        Hhist & Hpar & He).
  assert (params' = params) as -> by congruence. assert (bal0 = bal) as -> by congruence.
  destruct Hinv as (cb & st & Hi). destruct (inv_process _ _ _ _ _ _ Hi Hproc)
    as (D & rs & HD & Hrs & (_ & Hin & Hout) & _ & Hi1).
  pose proof (inv_st _ _ _ Hi1) as Hst1'. rewrite Hst1 in Hst1'. injection Hst1' as ->.
  set (t := block_time env - unbonding_period params) in *.
  set (st1 := processed_state _ _) in *. set (st2 := set_prev_hub_balance _ st1) in *.
  pose proof (inv_processed _ _ _ Hi1) as Hlt. pose proof (inv_bound _ _ _ Hi1) as Hbd.
  (* nothing is due any more *)
  assert (is_due s' t (last_processed_batch st2 + 1) = false) as Hidle.
  { pose proof (Due_maximal _ _ _ _ HD) as Hm. simpl.
    replace (last_processed_batch st + N.of_nat (length D) + 1) with
      (last_processed_batch st + 1 + N.of_nat (length D)) by lia.
    unfold is_due in *. rewrite (hist_ext s1 s') by done. simpl in Hlt.
    rewrite Hout; [done|lia|]. rewrite (Due_ids _ _ _ _ HD). lia. }
  assert (arrived st2 (amount bal') < u128_bound) as Harr.
  { unfold arrived. simpl. destruct (_ <=? _); lia. }
  assert (last_processed_batch st2 + 1 < u64_bound) as Hlp by (simpl in *; lia).
  pose proof (process_idle t (amount bal') s' st2 Hst' Hlp Hidle Harr) as Hproc2.
  set (s2 := HubState.set_state _ s') in Hproc2.
  (* and every claim left is for an unreleased batch *)
  assert (wait_keys_ok s') as Hkeys.
  { destruct (withdraw_inv_at _ _ _ _ _ _ _ _ Hi Hrun) as [st3 Hi3]. apply (inv_wait_keys _ _ _ Hi3). }
  destruct (claims_exist s2 (sender info) Hkeys) as [l2 Hl2].
  assert (get_finished_amount (sender info) s2 = Ok 0) as Hzero.
  { apply (get_finished_amount_none _ _ l2 Hl2). apply Forall_forall. intros [b v] Hbv.
    apply (claims_elem _ _ _ _ _ Hl2) in Hbv as [Hbb Hv].
    change (wait_entry s' (sender info) b = Some v) in Hv. rewrite He in Hv by done.
    case_decide as Hd; [done|]. unfold claim_released. simpl.
    rewrite (hist_ext s1 s2) by done.
    destruct (claim_released s1 (b, v)) eqn:Hrel; [|done]. destruct Hd. split; [done|].
    apply list_elem_of_fmap. exists (b, v). split; [done|]. apply list_elem_of_In, filter_In.
    split; [|done]. apply list_elem_of_In, (claims_elem _ _ _ _ _ Hl). split; [done|].
    destruct (inv_process _ _ _ _ _ _ Hi Hproc) as (_ & _ & _ & _ & _ & Hw & _).
    unfold wait_entry, user_bucket, wait_bucket in *. by rewrite Hw. }
  unfold execute_withdraw_unbonded, mbind, cm_bind, reads, lift.
  unfold load_parameters, item_load. rewrite Hpar, Hp. simpl.
  unfold u64_sub. rewrite (proj2 (N.leb_le _ _)) by done. simpl. rewrite Hbal'. simpl.
  fold t. rewrite Hproc2. rewrite Hzero. done.
Qed.

Lemma withdraw_twice_fails_witness :
  execute_withdraw_unbonded (mock_querier (del 10000) 1 9000) (mock_env 122) (mock_info "bob" [])
    (store_at bob_paid) =
  Err (GenericErr ("No withdrawable " +:+ "uluna" +:+ " assets are available yet")).
Proof.
  apply (withdraw_twice_fails (c_querier (bob_withdraws 900)) (mock_querier (del 10000) 1 9000)
    (mock_env 122) (mock_info "bob" []) bob_store (store_at bob_paid) (resp_at bob_paid)
    bob_params (uluna 900) (uluna 1)).
  - exact (reachable_inv bob_store bob_store_reachable).
  - vm_compute; reflexivity.
  - vm_compute; reflexivity.
  - vm_compute; reflexivity.
  - vm_compute; reflexivity.
  - vm_compute; reflexivity.
  - vm_compute; reflexivity.
Defined.

(** Termination: both loops over the history end, whatever the store holds. *)
Theorem withdraw_loops_terminate `{H : Host} {HS : HostSpec H} t bal (s : HubStore) :
  process_withdraw_rate t bal s ≠ OutOfFuel.
Proof. apply process_withdraw_rate_terminates. Qed.

Lemma withdraw_loops_terminate_witness : process_withdraw_rate 0 0 bob_store ≠ OutOfFuel.
Proof. apply (withdraw_loops_terminate 0 0 bob_store). Defined.

(** C34. A small surplus blocks every withdrawal: if more coins arrived than are due,
    and some due batch's share of the surplus is less than one unit, no user can
    withdraw - the share loses its unit to [checked_sub(1)], which is an error. *)
Theorem small_surplus_blocks_withdrawals `{H : Host} {HS : HostSpec H} q env info (s : HubStore) cb st
    params bal D j h :
  hub_inv_at s cb st → st_parameters s = Some params →
  query_balance q (contract_address env) (underlying_coin_denom params) = Ok bal →
  Due s (block_time env - unbonding_period params) (last_processed_batch st + 1) D →
  (j, h) ∈ D → sum_of unbonded_of D < arrived st (amount bal) →
  (arrived st (amount bal) - sum_of unbonded_of D)
    * (unbonded_of (j, h) * dec_unit / sum_of unbonded_of D) < dec_unit →
  is_ok (execute_withdraw_unbonded q env info s) = false.
Proof.
  intros Hi Hp Hbal HD Hj Hsurplus Hshare.
  destruct (execute_withdraw_unbonded q env info s) as [[r s']| | |] eqn:Hrun; try done.
  exfalso. apply execute_withdraw_spec in Hrun
    as (params' & bal' & s1 & ids & paid & s2 & st' & Hp' & _ & Hbal' & Hproc & _).
  assert (params' = params) as -> by congruence. assert (bal' = bal) as -> by congruence.
  destruct (inv_process _ _ _ _ _ _ Hi Hproc) as (D' & rs & HD' & Hrs & _).
  assert (D' = D) as -> by by eapply Due_unique.
  apply list_elem_of_lookup in Hj as [k Hk].
  destruct (Forall2_lookup_l _ _ _ _ _ Hrs Hk) as (rate & _ & a & Hact & _).
  unfold actual_unbonded_of_batch, slash_of in Hact.
  rewrite (proj2 (N.leb_gt (arrived st (amount bal)) (sum_of unbonded_of D))) in Hact by done.
  bind Hact as w Hw. apply Decimal_from_ratio_ok in Hw as (_ & -> & _).
  bind Hact as x Hx. apply Uint128_mul_Decimal_ok in Hx as [-> _]. simpl in Hact.
  rewrite N.div_small in Hact by done. bind Hact as y Hy.
  apply Uint128_checked_sub_ok in Hy as [_ Hy]. lia.
Qed.

(** Two batches of 1000 and 500 are due; 1501 coins have come back. *)
Definition two_batches : list call :=
  bob_unbonds ++
  [mkCall (mock_querier (del 9000) 0 9000) 40 (mock_info "token" []) (unbond_msg "bob" 300);
   mkCall (mock_querier (del 9000) 0 8700) 80 (mock_info "token" []) (unbond_msg "bob" 200)].
Definition two_batch_store : HubStore := store_of two_batches.
Lemma two_batch_reachable : reachable two_batch_store.
Proof. apply fair_reachable_reachable, (scenario_fair two_batches); vm_compute; reflexivity. Qed.
Definition two_batch_state : State := default (initial_state 0 0) (st_state two_batch_store).
Lemma two_batch_inv : hub_inv_at two_batch_store (mkCurrentBatch 3 0) two_batch_state.
Proof.
  destruct (reachable_inv two_batch_store two_batch_reachable) as (cb & st & Hi).
  assert (cb = mkCurrentBatch 3 0) as <-
    by (pose proof (inv_cb _ _ _ Hi) as Hc; vm_compute in Hc; injection Hc as <-; reflexivity).
  assert (st = two_batch_state) as <-
    by (pose proof (inv_st _ _ _ Hi) as Hc; unfold two_batch_state; by rewrite Hc).
  exact Hi.
Qed.
Definition second_batch : UnbondHistory :=
  mkUnbondHistory 2 (mock_time + 80) 500 (mkDecimal dec_unit) (mkDecimal dec_unit) false.
Lemma two_batches_due :
  Due two_batch_store (mock_time + 122 - 2) (last_processed_batch two_batch_state + 1)
    [(1, bob_batch); (2, second_batch)].
Proof.
  apply (due_next _ _ _ bob_batch); [vm_compute; done|vm_compute; reflexivity|vm_compute; done|done|].
  apply (due_next _ _ _ second_batch); [vm_compute; done|vm_compute; reflexivity|vm_compute; done|done|].
  apply due_stop. vm_compute. reflexivity.
Qed.

Lemma small_surplus_blocks_withdrawals_witness :
  is_ok (execute_withdraw_unbonded (mock_querier (del 9000) 1501 8500) (mock_env 122)
    (mock_info "bob" []) two_batch_store) = false.
Proof.
  apply (small_surplus_blocks_withdrawals _ _ _ _ (mkCurrentBatch 3 0) two_batch_state bob_params
    (uluna 1501) [(1, bob_batch); (2, second_batch)] 1 bob_batch).
  - exact two_batch_inv.
  - vm_compute; reflexivity.
  - vm_compute; reflexivity.
  - exact two_batches_due.
  - left.
  - vm_compute; reflexivity.
  - vm_compute; reflexivity.
Defined.

(** C36. A withdrawal forgets what has arrived, also when it released nothing: with
    the balance it leaves behind, the next processing counts zero arrived coins, so
    coins that came early for a later batch are never credited to that batch. *)
Theorem withdrawal_forgets_arrivals `{H : Host} {HS : HostSpec H} q env info (s s' : HubStore) r
    params bal :
  hub_inv s → st_parameters s = Some params →
  query_balance q (contract_address env) (underlying_coin_denom params) = Ok bal →
  execute_withdraw_unbonded q env info s = Ok (r, s') →
  ∃ st' paid, st_state s' = Some st' ∧
    messages r = [BankSend (sender info) [mkCoin (underlying_coin_denom params) paid]] ∧
    actual_unbonded_amount st' = 0 ∧ arrived st' (amount bal - paid) = 0.
Proof.
  intros Hinv Hp Hbal Hrun. destruct (withdraw_effects _ _ _ _ _ _ Hinv Hrun)
    as (params' & bal' & s1 & l & Hp' & _ & Hbal' & Hproc & _ & _ & Hmsg & (st1 & Hst1 & Hst') & _).
  assert (params' = params) as -> by congruence. assert (bal' = bal) as -> by congruence.
  destruct Hinv as (cb & st & Hi). destruct (inv_process _ _ _ _ _ _ Hi Hproc)
    as (D & rs & _ & _ & _ & _ & Hi1).
  assert (st1 = processed_state st (last_processed_batch st + N.of_nat (length D))) as ->
    by (pose proof (inv_st _ _ _ Hi1); congruence).
  eexists _, _. split; [exact Hst'|]. split; [exact Hmsg|]. split; [done|].
  unfold arrived. simpl. rewrite N.leb_refl, N.sub_diag. done.
Qed.

(** Alice withdraws from the batch Bob's withdrawal released; meanwhile 200 coins
    of a later batch have arrived. *)
Definition two_users : list call :=
  [mkCall (mock_querier [] 0 10000) 0 (mock_info "bob" [uluna 10000]) (Bond "default-validator");
   mkCall (mock_querier (del 10000) 0 10000) 0 (mock_info "token" []) (unbond_msg "bob" 500);
   mkCall (mock_querier (del 10000) 0 9500) 31 (mock_info "token" []) (unbond_msg "alice" 500)].
Definition two_users_store : HubStore := store_of two_users.
Lemma two_users_reachable : reachable two_users_store.
Proof. apply fair_reachable_reachable, (scenario_fair two_users); vm_compute; reflexivity. Qed.
Definition bob_first : HubStore := store_at (run_call (bob_withdraws 1000) two_users_store).
Lemma bob_first_inv : hub_inv bob_first.
Proof.
  apply (hub_step_inv two_users_store); [exact (reachable_inv _ two_users_reachable)|].
  eapply (step_execute two_users_store bob_first (c_querier (bob_withdraws 1000)) (mock_env 122)
    (mock_info "bob" []) WithdrawUnbonded). unfold bob_first. vm_compute. reflexivity.
Qed.
Definition alice_run : outcome (Response WasmBody * HubStore) :=
  execute_withdraw_unbonded (mock_querier (del 10000) 700 9000) (mock_env 122)
    (mock_info "alice" []) bob_first.
Lemma withdrawal_forgets_arrivals_witness :
  ∃ st' paid, st_state (store_at alice_run) = Some st' ∧
    messages (resp_at alice_run) = [BankSend "alice" [mkCoin "uluna" paid]] ∧
    actual_unbonded_amount st' = 0 ∧ arrived st' (700 - paid) = 0.
Proof.
  apply (withdrawal_forgets_arrivals (mock_querier (del 10000) 700 9000) (mock_env 122)
    (mock_info "alice" []) bob_first (store_at alice_run) (resp_at alice_run) bob_params (uluna 700)).
  - exact bob_first_inv.
  - vm_compute; reflexivity.
  - vm_compute; reflexivity.
  - vm_compute; reflexivity.
Defined.

(** C35. Worthless batches block every withdrawal: when the due batches are worth
    nothing together, or one of them has no amount at all, no user can withdraw,
    whatever the hub's balance - a ratio with a zero denominator is computed. *)
Theorem worthless_batches_block_withdrawals `{H : Host} {HS : HostSpec H} `{HK : HookSerde}
    env (s : HubStore) params st D :
  st_parameters s = Some params → st_state s = Some st →
  Due s (block_time env - unbonding_period params) (last_processed_batch st + 1) D →
  D ≠ [] → sum_of unbonded_of D = 0 ∨ (∃ jh, jh ∈ D ∧ h_amount jh.2 = 0) →
  ∀ q info, is_ok (execute q env info WithdrawUnbonded s) = false.
Proof.
  intros Hp Hst HD Hne Hzero q info.
  destruct (execute q env info WithdrawUnbonded s) as [[r s']| | |] eqn:Hrun; try done.
  exfalso. simpl in Hrun. bind Hrun as u Hu. apply execute_withdraw_spec in Hrun
    as (params' & bal & s1 & ids & paid & s2 & st' & Hp' & _ & _ & Hproc & _).
  assert (params' = params) as -> by congruence.
  apply process_withdraw_rate_spec in Hproc as (st0 & D' & rs & s3 & Hst0 & _ & HD' & Hrs & _).
  assert (st0 = st) as -> by congruence. assert (D' = D) as -> by by eapply Due_unique.
  destruct Hzero as [Hzero|(jh & Hin & Hzero)].
  - destruct D as [|jh D0]; [done|]. inversion Hrs as [|? r0 ? rs0 (a & Ha & _) _]; subst.
    unfold actual_unbonded_of_batch in Ha. bind Ha as w Hw.
    by apply Decimal_from_ratio_ok in Hw as [? _].
  - apply list_elem_of_lookup in Hin as [k Hk].
    destruct (Forall2_lookup_l _ _ _ _ _ Hrs Hk) as (r0 & _ & a & _ & Hr).
    by apply Decimal_from_ratio_ok in Hr as [? _].
Qed.

(** A slashed hub, and a request for a single token that closes its batch: 1 * 0.9
    rounds to nothing, and the guard of the code refuses amounts of one only. *)
Definition dust_calls : list call :=
  slashing_calls ++
  [mkCall (mock_querier (del 900) 0 1000) 31 (mock_info "token" []) (unbond_msg "addr1000" 1)].
Definition dust_store : HubStore := store_of dust_calls.
Definition dust_state : State := default (initial_state 0 0) (st_state dust_store).
Definition dust_batch : UnbondHistory :=
  mkUnbondHistory 1 (mock_time + 31) 1 (exchange_rate dust_state) (exchange_rate dust_state) false.

Example dust_store_reachable : reachable dust_store.
Proof. apply fair_reachable_reachable, (scenario_fair dust_calls); vm_compute; reflexivity. Qed.

Lemma worthless_batches_block_withdrawals_witness :
  reachable dust_store ∧
  is_ok (execute (mock_querier (del 900) 900 999) (mock_env 122) (mock_info "addr1000" [])
    WithdrawUnbonded dust_store) = false.
Proof.
  split; [exact dust_store_reachable|].
  apply (worthless_batches_block_withdrawals (mock_env 122) dust_store bob_params dust_state
    [(1, dust_batch)]).
  - vm_compute; reflexivity.
  - vm_compute; reflexivity.
  - apply (due_next _ _ _ dust_batch);
      [vm_compute; reflexivity|vm_compute; reflexivity|vm_compute; discriminate|reflexivity|].
    apply due_stop. vm_compute. reflexivity.
  - discriminate.
  - left. vm_compute. reflexivity.
Defined.
