(* ===== verification/PropUnbond.v ===== *)
(** * Properties of unbonding (unbond.rs, first half) *)
From S2P Require Import Prelude Bytes Cosmwasm RefHost Protocol HubState HubStateFacts.
From S2P Require Import HubMath HubCore HubBond HubUnbond HubContract Scenario HubCoreFacts.
From S2P Require Import HubBondFacts HubUnbondFacts HubAdminFacts HubInvariant HubSolvency.
From S2P Require Import Runs PropLedger PropWithdraw.

(** C20. [pick_validator] undelegates exactly the claim: its messages take amounts
    from pairwise different delegations of the contract, none more than is
    delegated there, none zero, and together the claim to the last unit. *)
Theorem pick_validator_exact `{H : Host} {HS : HostSpec H} q claim delegator height s msgs :
  pick_validator q claim delegator height s = Ok msgs →
  ∃ params ds takes rest,
    st_parameters s = Some params ∧ query_all_delegations q delegator = Ok ds ∧
    ds ≡ₚ takes.*1 ++ rest ∧
    Forall (λ dt, dt.2 ≤ amount (del_amount dt.1)) takes ∧
    sum_of snd takes = claim ∧
    msgs = map (λ dt, StakingUndelegate (validator dt.1)
                        (mkCoin (underlying_coin_denom params) dt.2))
             (List.filter (λ dt, 0 <? dt.2) takes).
Proof.
  intros Hrun. apply pick_validator_spec in Hrun
    as (params & ds & takes & Hp & Hds & -> & ([rest Hrest] & Hf & Hs)).
  by exists params, ds, takes, rest.
Qed.

Definition two_delegations : list Delegation :=
  [mkDelegation "val1" (uluna 600); mkDelegation "val2" (uluna 700)].
Definition two_querier : Querier := mock_querier two_delegations 0 1000.
Definition two_picked : outcome (list (CosmosMsg WasmBody)) :=
  pick_validator two_querier 1000 mock_contract 12345 bob_store.
Definition msgs_at {A} (o : outcome (list A)) : list A := match o with Ok l => l | _ => [] end.

Lemma pick_validator_exact_witness :
  ∃ params ds takes rest,
    st_parameters bob_store = Some params ∧
    query_all_delegations two_querier mock_contract = Ok ds ∧
    ds ≡ₚ takes.*1 ++ rest ∧
    Forall (λ dt, dt.2 ≤ amount (del_amount dt.1)) takes ∧
    sum_of snd takes = 1000 ∧
    msgs_at two_picked = map (λ dt, StakingUndelegate (validator dt.1)
                        (mkCoin (underlying_coin_denom params) dt.2))
             (List.filter (λ dt, 0 <? dt.2) takes).
Proof.
  apply (pick_validator_exact two_querier 1000 mock_contract 12345 bob_store).
  vm_compute; reflexivity.
Defined.

(** C22. [pick_validator] succeeds exactly when the delegations cover the claim; if
    they do not, it panics; it never loops (the block height plus the number of
    delegations fits 64 bits). *)
Theorem pick_validator_total `{H : Host} {HS : HostSpec H} q claim delegator height s params ds :
  st_parameters s = Some params → query_all_delegations q delegator = Ok ds →
  height + N.of_nat (length ds) < u64_bound →
  if claim <=? sum_of (λ d, amount (del_amount d)) ds
  then ∃ msgs, pick_validator q claim delegator height s = Ok msgs
  else pick_validator q claim delegator height s = Panic.
Proof.
  intros Hp Hds Hb.
  assert (pick_validator q claim delegator height s =
    pick_loop (S (length ds)) (underlying_coin_denom params) height 0 claim ds []) as ->.
  { unfold pick_validator, load_parameters, item_load. by rewrite Hp; simpl; rewrite Hds. }
  destruct (N.leb_spec claim (sum_of (λ d, amount (del_amount d)) ds)).
  - apply pick_loop_total; [lia|done|lia].
  - apply pick_loop_short; [lia|done].
Qed.

Lemma pick_validator_total_witness :
  (∃ msgs, pick_validator two_querier 1300 mock_contract 12345 bob_store = Ok msgs) ∧
  pick_validator two_querier 1301 mock_contract 12345 bob_store = Panic.
Proof.
  split.
  - apply (pick_validator_total two_querier 1300 mock_contract 12345 bob_store bob_params
      two_delegations); vm_compute; reflexivity.
  - apply (pick_validator_total two_querier 1301 mock_contract 12345 bob_store bob_params
      two_delegations); vm_compute; reflexivity.
Defined.

(** What both cases of an unbonding request have in common: the store after the
    slashing check, the supply and the amount the user is owed. *)
Definition unbond_request `{H : Host} (q : Querier) (env : Env) (s : HubStore) (a : N)
    (params : Parameters) (cb : CurrentBatch) (s1 : HubStore) (st : State) (supply owed : N) : Prop :=
  st_parameters s = Some params ∧ st_current_batch s = Some cb ∧
  slashing q env s = Ok ((), s1) ∧ st_state s1 = Some st ∧
  supply_or_zero q s1 = Ok supply ∧ a ≤ supply ∧
  unbond_after_fee (er_threshold params) (peg_recovery_fee params) st supply a
    (requested_with_fee cb) = Ok owed ∧
  last_unbonded_time st ≤ block_time env.

(** C19. An unbonding request inside the epoch: the user's entry for the open batch
    and the batch's total grow by the amount owed, every other entry stays, the
    rate is recomputed for the reduced supply and the grown batch, the batch stays
    open, the history is untouched, and the only message burns the whole amount. *)
Theorem unbond_within_epoch `{H : Host} {HS : HostSpec H} q env a u s r s' params cb s1 st supply owed :
  hub_inv s → unbond_request q env s a params cb s1 st supply owed →
  block_time env - last_unbonded_time st ≤ epoch_period params →
  execute_unbond q env a u s = Ok (r, s') →
  st_current_batch s' = Some (mkCurrentBatch (cb_id cb) (requested_with_fee cb + owed)) ∧
  st_state s' = Some (burned_state (supply - a)
    (mkCurrentBatch (cb_id cb) (requested_with_fee cb + owed)) st) ∧
  wait_entry s' u (cb_id cb) = Some (default 0 (wait_entry s u (cb_id cb)) + owed) ∧
  (∀ u' b, b < u64_bound → ¬ (u' = u ∧ b = cb_id cb) → wait_entry s' u' b = wait_entry s u' b) ∧
  st_history s' = st_history s ∧
  (∃ token, messages r = [WasmExecute token (ToToken (Burn a)) []]).
Proof.
  intros (cb0 & st0 & Hi) (Hp & Hcb & Hsl & Hst & Hsup & Ha & Howed & Htime) Hepoch Hrun.
  apply execute_unbond_spec in Hrun
    as (params' & cb' & s1' & st' & supply' & owed' & s2 & msgs & c & raw & token &
        Hp' & Hcb' & Hsl' & Hst' & Hsup' & _ & Howed' & Hw & [_ Hend] & _ & _ & _ & Hmsg).
  assert (cb0 = cb) as -> by (pose proof (inv_cb _ _ _ Hi); congruence).
  assert (params' = params) as -> by congruence. assert (cb' = cb) as -> by congruence.
  assert (s1' = s1) as -> by congruence. assert (st' = st) as -> by congruence.
  assert (supply' = supply) as -> by congruence. assert (owed' = owed) as -> by congruence.
  simpl in Hend. rewrite (proj2 (N.ltb_ge _ _)) in Hend by done.
  destruct Hend as [-> ->].
  pose proof (slashing_ledger q env _ _ _ Hsl) as Hleg.
  unfold preserves, ledger in Hleg. injection Hleg as _ _ Hwait Hhist.
  destruct (store_unbond_wait_list_spec _ _ _ _ _ (inv_bound _ _ _ Hi) Hw) as ([w ->] & _ & He & _).
  assert (∀ u' b, wait_entry s1 u' b = wait_entry s u' b) as Hsame.
  { intros u' b. unfold wait_entry, user_bucket, wait_bucket. by rewrite Hwait. }
  do 2 (split; [done|]). split; [|split; [|split; [exact Hhist|by exists token]]].
  - etransitivity; [apply (He u (cb_id cb) (inv_bound _ _ _ Hi))|].
    rewrite decide_True by done. by rewrite Hsame.
  - intros u' b Hb Hn. etransitivity; [apply (He u' b Hb)|].
    rewrite decide_False; [apply Hsame|]. intros [<- <-]. by apply Hn.
Qed.

(** C18. An unbonding request after the epoch closes the batch: what the batch is
    worth at the new rate is undelegated (exactly, by the messages of
    [pick_validator]) and leaves the bond, the batch is recorded unreleased under
    its number with its total, time and rate, and an empty batch with the next
    number is opened. *)
Theorem unbond_closes_batch `{H : Host} {HS : HostSpec H} q env a u s r s' params cb s1 st supply owed :
  hub_inv s → unbond_request q env s a params cb s1 st supply owed →
  epoch_period params < block_time env - last_unbonded_time st →
  execute_unbond q env a u s = Ok (r, s') →
  let total := requested_with_fee cb + owed in
  let rate := mkDecimal (rate_of (total_bond_amount st) (supply - a + total)) in
  let und := total * atomics rate / dec_unit in
  st_current_batch s' = Some (mkCurrentBatch (cb_id cb + 1) 0) ∧
  hist s' (cb_id cb) = Some (mkUnbondHistory (cb_id cb) (block_time env) total rate rate false) ∧
  total_bond_amount <$> st_state s' = Some (total_bond_amount st - und) ∧
  und ≤ total_bond_amount st ∧ last_unbonded_time <$> st_state s' = Some (block_time env) ∧
  wait_entry s' u (cb_id cb) = Some (default 0 (wait_entry s u (cb_id cb)) + owed) ∧
  ∃ msgs token s2, pick_validator q und (contract_address env) (block_height env) s2 = Ok msgs ∧
    st_parameters s2 = st_parameters s ∧
    messages r = msgs ++ [WasmExecute token (ToToken (Burn a)) []].
Proof.
  intros (cb0 & st0 & Hi) (Hp & Hcb & Hsl & Hst & Hsup & Ha & Howed & Htime) Hepoch Hrun.
  intros total rate und. apply execute_unbond_spec in Hrun
    as (params' & cb' & s1' & st' & supply' & owed' & s2 & msgs & c & raw & token &
        Hp' & Hcb' & Hsl' & Hst' & Hsup' & _ & Howed' & Hw & [_ Hend] & _ & _ & _ & Hmsg).
  assert (cb0 = cb) as -> by (pose proof (inv_cb _ _ _ Hi); congruence).
  assert (params' = params) as -> by congruence. assert (cb' = cb) as -> by congruence.
  assert (s1' = s1) as -> by congruence. assert (st' = st) as -> by congruence.
  assert (supply' = supply) as -> by congruence. assert (owed' = owed) as -> by congruence.
  simpl in Hend. rewrite (proj2 (N.ltb_lt _ _)) in Hend by done.
  destruct Hend as (_ & Hle & Hb & Hpick & ->).
  pose proof (slashing_ledger q env _ _ _ Hsl) as Hleg.
  pose proof (slashing_settings q env _ _ _ Hsl) as Hset.
  unfold preserves, ledger in Hleg. injection Hleg as _ _ Hwait Hhist.
  unfold preserves, settings in Hset. injection Hset as _ _ _ Hpar _.
  destruct (store_unbond_wait_list_spec _ _ _ _ _ (inv_bound _ _ _ Hi) Hw) as ([w ->] & _ & He & _).
  split; [done|]. split.
  { etransitivity; [apply (hist_set_history_insert (set_wait w s1) (cb_id cb));
      apply (inv_bound _ _ _ Hi)|]. by rewrite decide_True. }
  do 3 (split; [done|]). split.
  - etransitivity; [apply (He u (cb_id cb) (inv_bound _ _ _ Hi))|].
    rewrite decide_True by done. do 3 f_equal.
    unfold wait_entry, user_bucket, wait_bucket. by rewrite Hwait.
  - by exists msgs, token, (set_wait w s1).
Qed.

(** The second request of the scenario, which closes the batch. *)
Definition unbond_store : HubStore := store_of (take 2 bob_unbonds).
Definition unbond_q : Querier := mock_querier (del 10000) 0 9500.
Lemma unbond_store_reachable : reachable unbond_store.
Proof. apply fair_reachable_reachable, (scenario_fair (take 2 bob_unbonds)); vm_compute; reflexivity. Qed.
Definition unbond_s1 (later : N) : HubStore :=
  store_at (slashing unbond_q (mock_env later) unbond_store).
Definition unbond_st (later : N) : State := default (initial_state 0 0) (st_state (unbond_s1 later)).
Definition unbond_run (later : N) : outcome (Response WasmBody * HubStore) :=
  execute_unbond unbond_q (mock_env later) 500 "bob" unbond_store.
Lemma unbond_store_request later :
  later = 10 ∨ later = 31 →
  unbond_request unbond_q (mock_env later) unbond_store 500 bob_params (mkCurrentBatch 1 500)
    (unbond_s1 later) (unbond_st later) 9500 500.
Proof.
  intros [-> | ->]; unfold unbond_request; do 5 (split; [vm_compute; reflexivity|]);
    (split; [vm_compute; discriminate|]); (split; [vm_compute; reflexivity|vm_compute; discriminate]).
Qed.

Lemma unbond_within_epoch_witness :
  st_current_batch (store_at (unbond_run 10)) = Some (mkCurrentBatch 1 (500 + 500)).
Proof.
  apply (unbond_within_epoch unbond_q (mock_env 10) 500 "bob" unbond_store
    (resp_at (unbond_run 10)) _ bob_params (mkCurrentBatch 1 500) (unbond_s1 10) (unbond_st 10)
    9500 500).
  - exact (reachable_inv unbond_store unbond_store_reachable).
  - exact (unbond_store_request 10 (or_introl eq_refl)).
  - vm_compute; discriminate.
  - vm_compute; reflexivity.
Defined.

Lemma unbond_closes_batch_witness :
  st_current_batch (store_at (unbond_run 31)) = Some (mkCurrentBatch (1 + 1) 0).
Proof.
  apply (unbond_closes_batch unbond_q (mock_env 31) 500 "bob" unbond_store
    (resp_at (unbond_run 31)) _ bob_params (mkCurrentBatch 1 500) (unbond_s1 31) (unbond_st 31)
    9500 500).
  - exact (reachable_inv unbond_store unbond_store_reachable).
  - exact (unbond_store_request 31 (or_intror eq_refl)).
  - vm_compute; reflexivity.
  - vm_compute; reflexivity.
Defined.

(** The peg recovery fee on unbonding: nothing at or above the threshold;
    below it the fee is the smaller of the configured fraction of the request and
    the gap between supply (open batch included) and bond, so the user is owed at
    most what was asked; and the code fails instead of underflowing. *)
Theorem unbond_fee_bounds `{H : Host} {HS : HostSpec H} threshold fee st supply asked requested owed :
  unbond_after_fee threshold fee st supply asked requested = Ok owed →
  owed ≤ asked ∧
  (atomics threshold ≤ atomics (exchange_rate st) → owed = asked) ∧
  (atomics (exchange_rate st) < atomics threshold →
     asked - owed = N.min (asked * atomics fee / dec_unit)
                          (supply + requested - total_bond_amount st)).
Proof.
  intros Hrun. destruct (unbond_after_fee_ok _ _ _ _ _ _ _ Hrun) as (-> & Hf & Hgap).
  clear Hrun. unfold fee_of in *. revert Hf. generalize (asked * atomics fee / dec_unit). intros f.
  destruct (N.ltb_spec (atomics (exchange_rate st)) (atomics threshold)); intros Hf;
    (split; [lia|split; intros; lia]).
Qed.

Lemma unbond_fee_bounds_witness :
  (490 ≤ 500) ∧ (500 - 490 = 10).
Proof.
  assert (unbond_after_fee (mkDecimal dec_unit) (mkDecimal 20000000000000000)
    (set_exchange_rate (mkDecimal 900000000000000000) (initial_state 0 900)) 1000 500 0 = Ok 490)
    as Hrun by (vm_compute; reflexivity).
  destruct (unbond_fee_bounds _ _ _ _ _ _ _ Hrun) as (Hle & _ & Heq).
  split; [exact Hle|]. rewrite Heq by (vm_compute; reflexivity). vm_compute; reflexivity.
Defined.
