(* ===== verification/PropBond.v ===== *)
(** * Properties of bonding, slashing and compounding

    bond.rs, math.rs, the slashing check of contract.rs, autho_compounding.rs and
    [State::update_exchange_rate] of hub.rs. *)
From S2P Require Import Prelude Bytes Cosmwasm RefHost Protocol HubState HubStateFacts.
From S2P Require Import HubMath HubCore HubBond HubUnbond HubAutoCompound HubContract.
From S2P Require Import Scenario HubCoreFacts HubBondFacts HubUnbondFacts HubAdminFacts Runs.

(** C26. [decimal_division a b] panics for rates below 10^-9; otherwise it divides by
    the rate cut to nine digits.  The result is never below the exact quotient,
    and what it is worth at the full rate exceeds [a] by less than one part in
    10^9 of the result. *)
Theorem decimal_division_exact `{M : Math} {MS : MathSpec M} (a : N) (b : Decimal) :
  (atomics b < DECIMAL_FRACTIONAL → decimal_division a b = Panic) ∧
  (∀ m, decimal_division a b = Ok m →
     m = a * DECIMAL_FRACTIONAL / (atomics b / DECIMAL_FRACTIONAL) ∧
     a * dec_unit / atomics b ≤ m ∧
     m * atomics b ≤ a * dec_unit + m * DECIMAL_FRACTIONAL).
Proof.
  split.
  - intros Hb. unfold decimal_division. rewrite Uint128_mul_Decimal_spec, rate_digits_eq.
    unfold rate_digits. rewrite N.div_small by done. simpl.
    by rewrite Decimal_from_ratio_spec.
  - intros m Hrun. apply decimal_division_ok in Hrun as [Hk ->]. split; [done|].
    unfold rate_digits in *. set (F := DECIMAL_FRACTIONAL) in *.
    pose proof (N.Div0.mul_div_le (atomics b) F) as Hk1.
    pose proof (N.mul_succ_div_gt (atomics b) F ltac:(done)) as Hk2.
    set (k := atomics b / F) in *.
    pose proof (N.Div0.mul_div_le (a * F) k) as Hm1.
    pose proof (N.mul_succ_div_gt (a * F) k Hk) as Hm2.
    set (m := a * F / k) in *. replace dec_unit with (F * F) by done.
    split.
    + apply N.lt_succ_r, N.Div0.div_lt_upper_bound.
      apply N.lt_le_trans with (F * (k * N.succ m)).
      * rewrite (N.mul_comm a), <- N.mul_assoc, (N.mul_comm F a). by apply N.mul_lt_mono_pos_l.
      * rewrite N.mul_assoc. by apply N.mul_le_mono_r.
    + transitivity (m * (F * N.succ k)); [apply N.mul_le_mono_l; lia|].
      rewrite N.mul_succ_r, N.mul_add_distr_l.
      apply N.add_le_mono_r. rewrite (N.mul_comm a), <- N.mul_assoc, (N.mul_comm F a).
      rewrite (N.mul_comm m), <- N.mul_assoc. by apply N.mul_le_mono_l.
Qed.

Lemma decimal_division_exact_witness :
  decimal_division 1000 (mkDecimal 5) = Panic ∧
  1111 * 900000000000000000 ≤ 1000 * dec_unit + 1111 * DECIMAL_FRACTIONAL.
Proof.
  split.
  - apply (decimal_division_exact 1000 (mkDecimal 5)). vm_compute; reflexivity.
  - apply (decimal_division_exact 1000 (mkDecimal 900000000000000000)). vm_compute; reflexivity.
Defined.

(** The contract of bonding: the validator is whitelisted, exactly one coin of the
    bonded denomination came along; after the slashing check the bond grows by the
    payment, the tokens minted are the division's result less the fee, the rate is
    that of the new bond and supply, the coin is delegated whole. *)
Definition bonds `{H : Host} (q : Querier) (env : Env) (info : MessageInfo) (v : string)
    (s s' : HubStore) (msgs : list (CosmosMsg WasmBody)) : Prop :=
  ∃ params cb pay s1 st supply m token,
    let minted := m - fee_of (er_threshold params) (peg_recovery_fee params) (exchange_rate st) m
      (supply + m + requested_with_fee cb - (total_bond_amount st + amount pay)) in
    let bond := total_bond_amount st + amount pay in
    is_valid_validator v s = Ok true ∧ st_parameters s = Some params ∧
    st_current_batch s = Some cb ∧
    funds info = [pay] ∧ denom pay = underlying_coin_denom params ∧ 0 < amount pay ∧
    slashing q env s = Ok ((), s1) ∧ st_state s1 = Some st ∧ supply_or_zero q s1 = Ok supply ∧
    decimal_division (amount pay) (exchange_rate st) = Ok m ∧
    s' = HubState.set_state
      (set_exchange_rate (mkDecimal (rate_of bond (supply + minted + requested_with_fee cb)))
        (set_total_bond_amount bond st)) s1 ∧
    msgs = [StakingDelegate v pay; WasmExecute token (ToToken (Mint (sender info) minted)) []].

(** C23. A successful bond does what the contract of bonding says. *)
Theorem bond_spec `{H : Host} {HS : HostSpec H} q env info v s r s' :
  execute_bond q env info v s = Ok (r, s') → bonds q env info v s s' (messages r).
Proof.
  intros Hrun. apply execute_bond_spec in Hrun
    as (params & cb & pay & s1 & st & supply & m & minted & c & raw & token & Hv & Hp & Hcb & Hf &
        Hd & Hpos & Hsl & Hst & Hsup & Hm & Hmint & -> & _ & _ & _ & ->).
  apply mint_after_fee_ok in Hmint as (-> & _ & _).
  exists params, cb, pay, s1, st, supply, m, token.
  cbv zeta. do 9 (split; [done|]). split; [exact Hm|]. split; done.
Qed.

Definition bond_store : HubStore := store_of slashing_calls.
Definition bond_q : Querier := c_querier slashing_bond.
Definition bond_info : MessageInfo := c_info slashing_bond.
Definition bond_run : outcome (Response WasmBody * HubStore) :=
  execute_bond bond_q (mock_env 0) bond_info "default-validator" bond_store.

Lemma bond_spec_witness :
  bonds bond_q (mock_env 0) bond_info "default-validator" bond_store (store_at bond_run)
    (messages (resp_at bond_run)).
Proof. apply bond_spec. vm_compute; reflexivity. Defined.

(** C27. The peg is not overshot by a bond: if the rate is below the threshold when
    the fee is computed, the new rate is at most one. *)
Theorem bond_keeps_peg `{H : Host} {HS : HostSpec H} q env info v s r s' params s1 st :
  st_parameters s = Some params → slashing q env s = Ok ((), s1) → st_state s1 = Some st →
  atomics (exchange_rate st) < atomics (er_threshold params) →
  execute_bond q env info v s = Ok (r, s') →
  ∃ st', st_state s' = Some st' ∧ atomics (exchange_rate st') ≤ dec_unit.
Proof.
  intros Hp Hsl Hst Hlt Hrun. apply execute_bond_spec in Hrun
    as (params' & cb & pay & s1' & st' & supply & m & minted & c & raw & token & _ & Hp' & _ & _ &
        _ & _ & Hsl' & Hst' & _ & _ & Hmint & -> & _).
  assert (params' = params) as -> by congruence. assert (s1' = s1) as -> by congruence.
  assert (st' = st) as -> by congruence.
  apply mint_after_fee_ok in Hmint as (-> & Hf & Hgap). specialize (Hgap Hlt).
  eexists. split; [done|]. simpl. apply rate_of_le_par. revert Hf. unfold fee_of.
  rewrite (proj2 (N.ltb_lt _ _) Hlt). generalize (m * atomics (peg_recovery_fee params) / dec_unit).
  lia.
Qed.

Lemma bond_keeps_peg_witness :
  ∃ st', st_state (store_at bond_run) = Some st' ∧ atomics (exchange_rate st') ≤ dec_unit.
Proof.
  apply (bond_keeps_peg bond_q (mock_env 0) bond_info "default-validator" bond_store
    (resp_at bond_run) (store_at bond_run)
    (mkParameters 30 "uluna" 2 (mkDecimal 0) (mkDecimal dec_unit) (mkDecimal 0))
    (store_at (slashing bond_q (mock_env 0) bond_store))
    (default (initial_state 0 0) (st_state (store_at (slashing bond_q (mock_env 0) bond_store))))).
  - vm_compute; reflexivity.
  - vm_compute; reflexivity.
  - vm_compute; reflexivity.
  - vm_compute; reflexivity.
  - vm_compute; reflexivity.
Defined.

(** With a threshold above one, a rate between one and the threshold makes the
    fee computation underflow: minting fails instead of charging nothing. *)
Theorem mint_fails_above_par `{H : Host} {HS : HostSpec H} threshold fee st supply m requested pay :
  atomics (exchange_rate st) < atomics threshold →
  m * atomics fee / dec_unit < u128_bound →
  supply + m + requested < total_bond_amount st + pay →
  total_bond_amount st + pay < u128_bound →
  mint_after_fee threshold fee st supply m requested pay = Err OverflowErr.
Proof.
  intros Hlt Hfee Hover Hb. unfold mint_after_fee.
  rewrite Decimal_lt_spec, (proj2 (N.ltb_lt _ _) Hlt).
  rewrite Uint128_mul_Decimal_spec, (proj2 (N.ltb_lt _ _) Hfee). simpl.
  rewrite Uint128_add_spec, (proj2 (N.ltb_lt _ _)) by lia. simpl.
  rewrite Uint128_add_spec, (proj2 (N.ltb_lt _ _)) by lia. simpl.
  rewrite Uint128_add_spec, (proj2 (N.ltb_lt _ _)) by lia. simpl.
  rewrite Uint128_checked_sub_spec, (proj2 (N.leb_gt _ _)) by lia. done.
Qed.

Lemma mint_fails_above_par_witness :
  mint_after_fee (mkDecimal 1100000000000000000) (mkDecimal 0)
    (set_exchange_rate (mkDecimal 1050000000000000000) (initial_state 0 1050)) 1000 95 0 100
  = Err OverflowErr.
Proof.
  apply mint_fails_above_par; vm_compute; reflexivity.
Defined.

(** C25. The slashing check only ever lowers the bond: with delegations, the bond
    becomes the smaller of itself and the stake the chain reports, and the rate is
    recomputed exactly when it was lowered; with none, nothing changes.  No other
    part of the store is written, and of the state only the bond and the rate. *)
Theorem slashing_lowers_bond `{H : Host} {HS : HostSpec H} q env s s' :
  slashing q env s = Ok ((), s') →
  ∃ params st ds st',
    st_parameters s = Some params ∧ st_state s = Some st ∧
    query_all_delegations q (contract_address env) = Ok ds ∧
    s' = HubState.set_state st' s ∧
    match ds with
    | [] => st' = st
    | _ =>
        let stake := stake_in (underlying_coin_denom params) ds in
        total_bond_amount st' = N.min (total_bond_amount st) stake ∧
        if stake <? total_bond_amount st
        then ∃ ti cb, query_total_issued q s = Ok ti ∧ st_current_batch s = Some cb ∧
               st' = set_exchange_rate (mkDecimal (rate_of stake (ti + requested_with_fee cb)))
                       (set_total_bond_amount stake st)
        else st' = st
    end.
Proof.
  intros Hrun. apply slashing_spec in Hrun as (params & st & ds & Hp & Hst & Hds & Hcase).
  exists params, st, ds. destruct Hcase as [[-> ->]|(Hne & ti & cb & Hti & Hcb & ->)].
  - exists st. do 3 (split; [done|]). split; [|done]. destruct s; simpl in *. by subst.
  - eexists. do 4 (split; [done|]). destruct ds as [|d ds]; [done|].
    set (stake := stake_in _ _). unfold slashed_state.
    destruct (N.ltb_spec stake (total_bond_amount st)); simpl.
    + split; [lia|]. by exists ti, cb.
    + split; [lia|done].
Qed.

Lemma slashing_lowers_bond_witness :
  ∃ params st ds st',
    st_parameters bond_store = Some params ∧ st_state bond_store = Some st ∧
    query_all_delegations bond_q mock_contract = Ok ds ∧
    store_at (slashing bond_q (mock_env 0) bond_store) = HubState.set_state st' bond_store ∧
    match ds with
    | [] => st' = st
    | _ =>
        let stake := stake_in (underlying_coin_denom params) ds in
        total_bond_amount st' = N.min (total_bond_amount st) stake ∧
        if stake <? total_bond_amount st
        then ∃ ti cb, query_total_issued bond_q bond_store = Ok ti ∧
               st_current_batch bond_store = Some cb ∧
               st' = set_exchange_rate (mkDecimal (rate_of stake (ti + requested_with_fee cb)))
                       (set_total_bond_amount stake st)
        else st' = st
    end.
Proof. apply (slashing_lowers_bond bond_q (mock_env 0)). vm_compute; reflexivity. Defined.

(** C24. Compounding: only the configured rewards contract can call it - not the hub
    itself, as the comment of the function has it - and of the coins
    it sends, the protocol fee goes to the collector and all the rest is delegated
    to one of the hub's validators, added to the bond and, divided by the supply
    with the open batch, to the exchange rate. *)
Theorem rewards_compounded `{H : Host} {HS : HostSpec H} q env info s r s' :
  execute_update_exchange_rate q env info s = Ok (r, s') →
  ∃ st c raw params pay cb ti ds collector,
    st_state s = Some st ∧ st_config s = Some (ConfigJson c) ∧
    rewards_contract c = Some raw ∧ addr_humanize raw = Ok (sender info) ∧
    st_parameters s = Some params ∧ st_current_batch s = Some cb ∧
    find_payment (underlying_coin_denom params) (funds info) = Some pay ∧
    query_total_issued q s = Ok ti ∧ ti + requested_with_fee cb ≠ 0 ∧
    query_all_delegations q (contract_address env) = Ok ds ∧
    let fee := amount pay * atomics (protocol_fee params) / dec_unit in
    let coin := underlying_coin_denom params in
    let rest := amount pay - fee in
    fee ≤ amount pay ∧
    s' = HubState.set_state
      (set_total_bond_amount (total_bond_amount st + rest)
        (set_exchange_rate (mkDecimal (atomics (exchange_rate st)
           + rest * dec_unit / (ti + requested_with_fee cb))) st)) s ∧
    (fee ≠ 0 → ∃ fc, protocol_fee_collector c = Some fc ∧ addr_humanize fc = Ok collector) ∧
    ∃ staked,
      messages r = (if fee =? 0 then [] else [BankSend collector [mkCoin coin fee]]) ++ staked ∧
      if rest =? 0 then staked = []
      else ∃ d, d ∈ ds ∧ staked = [StakingDelegate (validator d) (mkCoin coin rest)].
Proof. apply execute_update_exchange_rate_spec. Qed.

(** The rewards contract sends 100 with a protocol fee of 5 percent. *)
Definition fee_store : HubStore :=
  store_of (slashing_calls ++
    [mkCall (mock_querier [] 0 0) 0 (mock_info "owner1" [])
       (UpdateParams None None None None (Some (mkDecimal 50000000000000000)));
     mkCall (mock_querier [] 0 0) 0 (mock_info "owner1" []) (UpdateConfig None (Some "treasury"))]).
Definition rewards_info : MessageInfo := mock_info "rewards_contract" [uluna 100].
Definition rewards_run : outcome (Response WasmBody * HubStore) :=
  execute_update_exchange_rate bond_q (mock_env 0) rewards_info fee_store.

Lemma rewards_compounded_witness :
  ∃ st c raw params pay cb ti ds collector,
    st_state fee_store = Some st ∧ st_config fee_store = Some (ConfigJson c) ∧
    rewards_contract c = Some raw ∧ addr_humanize raw = Ok (sender rewards_info) ∧
    st_parameters fee_store = Some params ∧ st_current_batch fee_store = Some cb ∧
    find_payment (underlying_coin_denom params) (funds rewards_info) = Some pay ∧
    query_total_issued bond_q fee_store = Ok ti ∧ ti + requested_with_fee cb ≠ 0 ∧
    query_all_delegations bond_q (contract_address (mock_env 0)) = Ok ds ∧
    let fee := amount pay * atomics (protocol_fee params) / dec_unit in
    let coin := underlying_coin_denom params in
    let rest := amount pay - fee in
    fee ≤ amount pay ∧
    store_at rewards_run = HubState.set_state
      (set_total_bond_amount (total_bond_amount st + rest)
        (set_exchange_rate (mkDecimal (atomics (exchange_rate st)
           + rest * dec_unit / (ti + requested_with_fee cb))) st)) fee_store ∧
    (fee ≠ 0 → ∃ fc, protocol_fee_collector c = Some fc ∧ addr_humanize fc = Ok collector) ∧
    ∃ staked,
      messages (resp_at rewards_run) =
        (if fee =? 0 then [] else [BankSend collector [mkCoin coin fee]]) ++ staked ∧
      if rest =? 0 then staked = []
      else ∃ d, d ∈ ds ∧ staked = [StakingDelegate (validator d) (mkCoin coin rest)].
Proof.
  apply (rewards_compounded bond_q (mock_env 0) rewards_info fee_store (resp_at rewards_run)).
  vm_compute; reflexivity.
Defined.

(** A slashing check that finds no loss changes nothing. *)
Lemma no_loss_no_change `{H : Host} {HS : HostSpec H} q env s s1 params st ds :
  st_parameters s = Some params → st_state s = Some st →
  query_all_delegations q (contract_address env) = Ok ds →
  total_bond_amount st ≤ stake_in (underlying_coin_denom params) ds →
  slashing q env s = Ok ((), s1) → s1 = s.
Proof.
  intros Hp Hst Hds Hle Hsl. apply slashing_spec in Hsl as (params' & st' & ds' & Hp' & Hst' & Hds' & Hcase).
  simplify_eq. destruct Hcase as [[_ ->]|(_ & ti & cb & _ & _ & ->)]; [done|].
  rewrite Hds in Hds'. injection Hds' as <-.
  unfold slashed_state. apply N.ltb_ge in Hle. rewrite Hle. destruct s; simpl in *. by subst.
Qed.

(** C28. A stale rate blocks the hub: when the stored rate is below the threshold but the
    tokens with the open batch have become fewer than the bond - after a slashing,
    holders burn tokens, and the rate is not refreshed - no request to unbond
    succeeds, whoever sends it and whatever its amount, nor does any payment that
    does not close the gap; and CheckSlashing leaves everything as it is. *)
Theorem stale_rate_blocks `{H : Host} {HS : HostSpec H} q env s params st cb ds supply :
  st_parameters s = Some params → st_state s = Some st → st_current_batch s = Some cb →
  query_all_delegations q (contract_address env) = Ok ds → query_total_issued q s = Ok supply →
  total_bond_amount st ≤ stake_in (underlying_coin_denom params) ds →
  atomics (exchange_rate st) < atomics (er_threshold params) →
  supply + requested_with_fee cb < total_bond_amount st →
  (∀ a u, is_ok (execute_unbond q env a u s) = false) ∧
  (∀ info v,
    (∀ pay m, funds info = [pay] → decimal_division (amount pay) (exchange_rate st) = Ok m →
      supply + m + requested_with_fee cb < total_bond_amount st + amount pay) →
    is_ok (execute_bond q env info v s) = false) ∧
  (∀ r s', execute_slashing q env s = Ok (r, s') → s' = s).
Proof.
  intros Hp Hst Hcb Hds Hti Hle Hrate Hgap. split; [|split].
  - intros a u. destruct (execute_unbond q env a u s) as [[r s']| | |] eqn:Hrun; try done. exfalso.
    apply execute_unbond_spec in Hrun as (params' & cb' & s1 & st' & supply' & owed & s2 & msgs & c & raw
      & token & Hp' & Hcb' & Hsl & Hst' & Hsup & _ & Hfee & _).
    apply (no_loss_no_change _ _ _ _ _ _ _ Hp Hst Hds Hle) in Hsl as ->. unfold supply_or_zero in Hsup.
    rewrite Hti in Hsup. simplify_eq/=. apply unbond_after_fee_ok in Hfee as (_ & _ & Hpeg).
    specialize (Hpeg Hrate). lia.
  - intros info v Hpay. destruct (execute_bond q env info v s) as [[r s']| | |] eqn:Hrun; try done. exfalso.
    apply execute_bond_spec in Hrun as (params' & cb' & pay & s1 & st' & supply' & m & minted & c & raw
      & token & _ & Hp' & Hcb' & Hf & _ & _ & Hsl & Hst' & Hsup & Hm & Hfee & _).
    apply (no_loss_no_change _ _ _ _ _ _ _ Hp Hst Hds Hle) in Hsl as ->. unfold supply_or_zero in Hsup.
    rewrite Hti in Hsup. simplify_eq/=. apply mint_after_fee_ok in Hfee as (_ & _ & Hpeg).
    specialize (Hpeg Hrate). specialize (Hpay _ _ Hf Hm). lia.
  - intros r s' Hrun. unfold execute_slashing in Hrun. bind Hrun as x s1 Hsl. destruct x.
    apply (no_loss_no_change _ _ _ _ _ _ _ Hp Hst Hds Hle) in Hsl as ->.
    bind Hrun as st' Hst'. by apply cm_ret_ok in Hrun as [= _ ->].
Qed.

Definition burned_store : HubStore := store_of slashing_calls.
Definition burned_q : Querier := mock_querier (del 900) 0 800.
Lemma stale_rate_blocks_witness :
  is_ok (execute_unbond burned_q (mock_env 0) 100 "addr1000" burned_store) = false ∧
  is_ok (execute_bond burned_q (mock_env 0) (mock_info "addr1000" [uluna 10]) "default-validator"
    burned_store) = false.
Proof.
  destruct (stale_rate_blocks burned_q (mock_env 0) burned_store
    (mkParameters 30 "uluna" 2 (mkDecimal 0) (mkDecimal dec_unit) (mkDecimal 0))
    (default (initial_state 0 0) (st_state burned_store)) (mkCurrentBatch 1 0) (del 900) 800)
    as (Hunbond & Hbond & _).
  - vm_compute; reflexivity.
  - vm_compute; reflexivity.
  - vm_compute; reflexivity.
  - vm_compute; reflexivity.
  - vm_compute; reflexivity.
  - vm_compute; discriminate.
  - vm_compute; reflexivity.
  - vm_compute; reflexivity.
  - split; [exact (Hunbond 100 "addr1000")|]. apply Hbond. intros pay m [= <-] Hm.
    vm_compute in Hm. injection Hm as <-. vm_compute; reflexivity.
Defined.
