(* ===== verification/PropAdmin.v ===== *)
(** * Properties of administration and access control

    The pause switch, the administrator's rights, the configuration, the whitelist,
    instantiation, migration and the token's receive hook. *)
From S2P Require Import Prelude Bytes Cosmwasm RefHost Protocol HubState HubStateFacts.
From S2P Require Import HubMath HubCore HubConfig HubBond HubUnbond HubContract Scenario.
From S2P Require Import HubCoreFacts HubBondFacts HubUnbondFacts HubAdminFacts HubInvariant.
From S2P Require Import HubSolvency HubWhitelist Runs.

(** A paused hub refuses every message except [Pause] and [Unpause], with the
    pause error. *)
Theorem paused_refuses `{H : Host} {HS : HostSpec H} `{HK : HookSerde} q env info msg s :
  st_pause s = Some true → msg ≠ Pause → msg ≠ Unpause →
  execute q env info msg s = Err (GenericErr "Contract is paused cannot perform the tx").
Proof.
  intros Hp Hpause Hunpause. unfold execute.
  assert (is_contract_paused s = Err (GenericErr "Contract is paused cannot perform the tx")) as Hpd.
  { unfold is_contract_paused, load_pause, item_load. by rewrite Hp. }
  destruct msg; try done; unfold mbind, cm_bind, reads; by rewrite Hpd.
Qed.

Definition paused_store : HubStore :=
  store_of [mkCall (mock_querier [] 0 0) 0 (mock_info "owner1" []) Pause].
Lemma paused_refuses_witness :
  execute (mock_querier [] 0 0) (mock_env 0) (mock_info "bob" []) CheckSlashing paused_store =
    Err (GenericErr "Contract is paused cannot perform the tx").
Proof. apply paused_refuses; [vm_compute; reflexivity|discriminate|discriminate]. Defined.

(** C30. The settings (administrator, pause switch, configuration, parameters,
    whitelist) are under the administrator's control: a message that changes any of
    them was sent by the administrator, or is the hub's own registration of a
    validator. *)
Theorem settings_need_admin `{H : Host} {HS : HostSpec H} `{HK : HookSerde} q env info msg s r s' :
  execute q env info msg s = Ok (r, s') → settings s' ≠ settings s →
  st_admin s = Some (Some (sender info)) ∨
  (sender info = contract_address env ∧ ∃ v, msg = RegisterValidator v).
Proof.
  intros Hrun Hne.
  assert (∀ A (m : cm HubStore A) a, keeps (preserves settings) m → m s = Ok (a, s') → False) as Hframe.
  { intros A m a Hm Hm'. apply Hne, (Hm _ _ _ Hm'). }
  destruct msg; simpl in Hrun;
    try solve [exfalso; eapply Hframe; [|exact Hrun]; solve_keeps].
  - bind Hrun as u Hu. by apply unwrap_assert_admin_ok in Hu; left.
  - bind Hrun as u Hu. by apply unwrap_assert_admin_ok in Hu; left.
  - bind Hrun as u Hu. unfold execute_update_config in Hrun. bind Hrun as u2 Hu2.
    by apply unwrap_assert_admin_ok in Hu2; left.
  - bind Hrun as u Hu. unfold execute_update_admin in Hrun. bind Hrun as a Ha. bind Hrun as x Hx.
    left. apply admin_assert_spec. destruct (admin_assert (st_admin s) (sender info)) as [e|[]] eqn:He;
      [|done]. rewrite (admin_execute_update_err _ _ _ _ He) in Hx. by destruct e.
  - bind Hrun as u Hu. apply register_spec in Hrun as (admin & Hadmin & [->|Hself] & _);
      [left|right; split; [done|by eexists]].
    destruct (st_admin s) as [o|] eqn:Hslot.
    + rewrite admin_get_spec in Hadmin. by injection Hadmin as ->.
    + destruct admin_get_none as [e He]. by rewrite He in Hadmin.
  - bind Hrun as u Hu. by apply deregister_spec in Hrun as [? _]; left.
  - bind Hrun as u Hu. unfold execute_update_params in Hrun. bind Hrun as u2 Hu2.
    by apply unwrap_assert_admin_ok in Hu2; left.
Qed.

Definition admin_run : outcome (Response WasmBody * HubStore) :=
  execute (mock_querier [] 0 0) (mock_env 0) (mock_info "owner1" []) Pause bob_store.
Lemma settings_need_admin_witness :
  st_admin bob_store = Some (Some "owner1") ∨
  ("owner1" = mock_contract ∧ ∃ v, Pause = RegisterValidator v).
Proof.
  apply (settings_need_admin (mock_querier [] 0 0) (mock_env 0) (mock_info "owner1" []) Pause
    bob_store (resp_at admin_run) (store_at admin_run)).
  - vm_compute; reflexivity.
  - intros Heq. apply (f_equal (λ x, x.1.1.1.2)) in Heq. vm_compute in Heq. discriminate Heq.
Defined.

(** The token contract is set once: after it has been registered no message
    changes it, nor the rewards contract. *)
Theorem token_contract_locked `{H : Host} {HS : HostSpec H} `{HK : HookSerde} q env info msg s r s' c :
  st_config s = Some (ConfigJson c) → token_contract_registered c = true →
  execute q env info msg s = Ok (r, s') →
  ∃ c', st_config s' = Some (ConfigJson c') ∧ token_contract_registered c' = true ∧
        token_contract c' = token_contract c ∧ rewards_contract c' = rewards_contract c.
Proof.
  intros Hc Hreg Hrun.
  assert (st_config s' = st_config s → ∃ c', st_config s' = Some (ConfigJson c') ∧
    token_contract_registered c' = true ∧ token_contract c' = token_contract c ∧
    rewards_contract c' = rewards_contract c) as Hsame by (intros ->; by exists c).
  assert (∀ A (m : cm HubStore A) a, keeps (preserves settings) m → m s = Ok (a, s') →
    st_config s' = st_config s) as Hframe.
  { intros A m a Hm Hm'. pose proof (Hm _ _ _ Hm') as Hs. unfold preserves, settings in Hs. congruence. }
  assert (∀ A (m : cm HubStore A) a, keeps (preserves st_config) m → m s = Ok (a, s') →
    st_config s' = st_config s) as Hframe2 by (intros A m a Hm Hm'; by apply (Hm _ _ _ Hm')).
  destruct msg as [| |tk fc|adm| |v|v|p1 p2 p3 p4 p5|v| | | |m]; simpl in Hrun;
    try solve [apply Hsame; eapply Hframe; [|exact Hrun]; solve_keeps].
  - apply Hsame. eapply Hframe2; [|exact Hrun]. solve_keeps.
  - apply Hsame. eapply Hframe2; [|exact Hrun]. solve_keeps.
  - bind Hrun as u Hu. unfold execute_update_config in Hrun. bind Hrun as u2 Hu2.
    bind Hrun as locked Hlocked. bind Hrun as u3 s1 H1. bind Hrun as u4 s2 H2.
    apply cm_ret_ok in Hrun as [= _ ->].
    assert (s1 = s) as ->.
    { destruct tk as [t|]; simpl in Hlocked; [|injection Hlocked as <-; by inv_ok].
      unfold load_config, item_load in Hlocked. rewrite Hc in Hlocked. simpl in Hlocked.
      injection Hlocked as <-. rewrite Hreg in H1. by inv_ok. }
    destruct fc as [f|]; [|inv_ok; by apply Hsame].
    bind H2 as raw Hraw. bind H2 as c0 Hc0. apply load_config_ok in Hc0.
    apply writes_ok in H2 as [= _ ->]. assert (c0 = c) as -> by congruence. by eexists.
  - apply Hsame. eapply Hframe2; [|exact Hrun].
    unfold execute_update_admin. solve_keeps.
  - apply Hsame. eapply Hframe2; [|exact Hrun].
    unfold execute_register_validator, store_white_validators. solve_keeps.
  - apply Hsame. eapply Hframe2; [|exact Hrun].
    unfold execute_deregister_validator, remove_white_validators. solve_keeps.
  - apply Hsame. eapply Hframe2; [|exact Hrun]. unfold execute_update_params. solve_keeps.
Qed.

Definition bob_config : Config :=
  match st_config bob_store with
  | Some (ConfigJson c) => c
  | _ => mkConfig false None None None
  end.
Lemma token_contract_locked_witness :
  ∃ c', st_config (store_at admin_run) = Some (ConfigJson c') ∧
    token_contract_registered c' = true ∧
    token_contract c' = token_contract bob_config ∧
    rewards_contract c' = rewards_contract bob_config.
Proof.
  apply (token_contract_locked (mock_querier [] 0 0) (mock_env 0) (mock_info "owner1" []) Pause
    bob_store (resp_at admin_run) (store_at admin_run) bob_config);
    vm_compute; reflexivity.
Defined.

(** Tokens are unbonded only by the token contract: a successful receive message
    came from the registered token contract with the unbond hook, and is exactly an
    unbonding of the received amount for the token's sender. *)
Theorem receive_is_token_unbond `{H : Host} {HS : HostSpec H} `{HK : HookSerde} q env info m s r s' :
  execute q env info (Receive m) s = Ok (r, s') →
  ∃ c raw, st_config s = Some (ConfigJson c) ∧ token_contract c = Some raw ∧
    addr_humanize raw = Ok (sender info) ∧ hook_from_binary (cw20_msg m) = Ok HookUnbond ∧
    execute_unbond q env (cw20_amount m) (cw20_sender m) s = Ok (r, s').
Proof.
  intros Hrun. simpl in Hrun. bind Hrun as u Hu. unfold receive_cw20 in Hrun.
  bind Hrun as hook Hhook. destruct hook. bind Hrun as c Hc. bind Hrun as raw Hraw.
  bind Hrun as token Htok. bind Hrun as u2 Hu2. apply load_config_ok in Hc.
  apply unwrap_option_ok in Htok. apply fail_if_ok, bool_decide_eq_false in Hu2.
  apply dec_stable in Hu2 as ->. apply addr_humanize_canonicalize in Hraw. by exists c, token.
Qed.

Definition receive_msg : Cw20ReceiveMsg := mkCw20ReceiveMsg "bob" 500 unbond_hook_json.
Definition receive_run : outcome (Response WasmBody * HubStore) :=
  execute (mock_querier (del 10000) 0 9500) (mock_env 40) (mock_info "token" [])
    (Receive receive_msg) bob_store.
Lemma receive_is_token_unbond_witness :
  ∃ c raw, st_config bob_store = Some (ConfigJson c) ∧ token_contract c = Some raw ∧
    addr_humanize raw = Ok "token" ∧ hook_from_binary unbond_hook_json = Ok HookUnbond ∧
    execute_unbond (mock_querier (del 10000) 0 9500) (mock_env 40) 500 "bob" bob_store =
      Ok (resp_at receive_run, store_at receive_run).
Proof.
  apply (receive_is_token_unbond (mock_querier (del 10000) 0 9500) (mock_env 40)
    (mock_info "token" []) receive_msg bob_store (resp_at receive_run) (store_at receive_run)).
  vm_compute; reflexivity.
Defined.

(** C31. Removing a validator: the list read from a reachable store loses exactly
    that validator, a non-empty whitelist never becomes empty, and if the chain
    reports a delegation of the hub there it is redelegated whole to a validator that
    is still whitelisted, followed by an update of the global index; if it reports
    none or the query fails, the hub sends no message. *)
Theorem deregister_keeps_whitelist `{H : Host} {HS : HostSpec H} `{HK : HookSerde} q env info v s r s' :
  reachable s → execute_deregister_validator q env info v s = Ok (r, s') →
  ∃ l l', read_validators s = Ok l ∧ read_validators s' = Ok l' ∧
    (∀ w, w ∈ l' ↔ w ∈ l ∧ w ≠ v) ∧ (l ≠ [] → l' ≠ []) ∧
    match query_delegation q (contract_address env) v with
    | Ok (Some d) => ∃ w, w ∈ l' ∧
        messages r = [StakingRedelegate v w (del_amount d);
                      WasmExecute (contract_address env) (ToHub UpdateGlobalIndex) []]
    | _ => messages r = []
    end.
Proof.
  intros Hs Hrun. pose proof (reachable_whitelist s Hs) as Hok.
  apply deregister_spec in Hrun as (_ & l & Hl & Hlen & Hrm & Hmsg).
  destruct (whitelisted_remove _ _ _ _ Hrm) as [Hok' Hin]. specialize (Hok' Hok).
  destruct (read_validators_spec s Hok) as (l0 & Hl0 & Hnd & Helem & _).
  assert (l0 = l) as -> by congruence.
  destruct (read_validators_spec s' Hok') as (l' & Hl' & Hnd' & Helem' & _).
  assert (∀ w, w ∈ l' ↔ w ∈ l ∧ w ≠ v) as Hll.
  { intros w. rewrite Helem', Hin, Helem. tauto. }
  exists l, l'. split; [done|]. split; [done|]. split; [done|]. split.
  - intros Hne ->. destruct l as [|x [|y l]]; [done|done|].
    apply NoDup_cons in Hnd as [Hxy _].
    assert (x = v) as ->.
    { destruct (decide (x = v)) as [|Hx]; [done|]. exfalso. apply (not_elem_of_nil x), Hll.
      split; [left|done]. }
    assert (y = v) as ->; [|apply Hxy; left].
    destruct (decide (y = v)) as [|Hy]; [done|]. exfalso. apply (not_elem_of_nil y), Hll.
    split; [right; left|done].
  - destruct (query_delegation _ _ _) as [[d|]| | |]; [|done..].
    destruct Hmsg as (w & l2 & Hl2 & Hw & ?). exists w. assert (l2 = l') as -> by congruence. done.
Qed.

Definition two_validators : list call :=
  [mkCall (mock_querier [] 0 0) 0 (mock_info "owner1" []) (RegisterValidator "default-validator2000")].
Definition two_store : HubStore := store_of two_validators.
Lemma two_store_reachable : reachable two_store.
Proof. apply fair_reachable_reachable, (scenario_fair two_validators); vm_compute; reflexivity. Qed.
Definition dereg_run : outcome (Response WasmBody * HubStore) :=
  execute_deregister_validator (mock_querier (del 100) 0 0) (mock_env 0) (mock_info "owner1" [])
    "default-validator" two_store.
Lemma deregister_keeps_whitelist_witness :
  ∃ l l', read_validators two_store = Ok l ∧ read_validators (store_at dereg_run) = Ok l' ∧
    (∀ w, w ∈ l' ↔ w ∈ l ∧ w ≠ "default-validator") ∧ (l ≠ [] → l' ≠ []) ∧
    match query_delegation (mock_querier (del 100) 0 0) mock_contract "default-validator" with
    | Ok (Some d) => ∃ w, w ∈ l' ∧
        messages (resp_at dereg_run) =
          [StakingRedelegate "default-validator" w (del_amount d);
           WasmExecute mock_contract (ToHub UpdateGlobalIndex) []]
    | _ => messages (resp_at dereg_run) = []
    end.
Proof.
  apply (deregister_keeps_whitelist (mock_querier (del 100) 0 0) (mock_env 0)
    (mock_info "owner1" []) "default-validator" two_store (resp_at dereg_run) (store_at dereg_run)).
  - exact two_store_reachable.
  - vm_compute; reflexivity.
Defined.

(** Registering a validator: by the administrator or the hub itself, only for a
    validator the chain knows; it joins the whitelist that [Bond] consults and
    nobody leaves it. *)
Theorem register_extends_whitelist `{H : Host} {HS : HostSpec H} q env info v s r s' :
  execute_register_validator q env info v s = Ok (r, s') →
  (st_admin s = Some (Some (sender info)) ∨ sender info = contract_address env) ∧
  (∃ vals, query_all_validators q = Ok vals ∧ v ∈ val_address <$> vals) ∧
  (∀ w, is_valid_validator w s' = Ok true ↔ w = v ∨ is_valid_validator w s = Ok true) ∧
  (∀ w, ∃ b, is_valid_validator w s' = Ok b).
Proof.
  intros Hrun. apply register_spec in Hrun as (admin & Hadmin & Hwho & Hvals & Hst & _).
  split; [|split; [done|split; [by apply (whitelisted_store _ _ _ _ Hst)|]]].
  - destruct Hwho as [->|?]; [left|by right]. destruct (st_admin s) as [o|].
    + rewrite admin_get_spec in Hadmin. by injection Hadmin as ->.
    + destruct admin_get_none as [e He]. by rewrite He in Hadmin.
  - intros w. unfold is_valid_validator. destruct (string_roundtrip w) as (k & -> & _). simpl.
    destruct (_ !! k); by eexists.
Qed.

Definition register_run : outcome (Response WasmBody * HubStore) :=
  execute_register_validator (mock_querier [] 0 0) (mock_env 0) (mock_info "owner1" [])
    "default-validator2000" bob_store.
Lemma register_extends_whitelist_witness :
  is_valid_validator "default-validator" (store_at register_run) = Ok true.
Proof.
  apply (register_extends_whitelist (mock_querier [] 0 0) (mock_env 0) (mock_info "owner1" [])
    "default-validator2000" bob_store (resp_at register_run)); [vm_compute; reflexivity|].
  right. vm_compute; reflexivity.
Defined.

(** Instantiation: it needs a positive payment in the bonded coin; the payment
    becomes the whole bond at rate one, the sender becomes administrator, batch 1
    is open and empty, the contract is not paused, and the hub registers the
    validator with itself, delegates the payment and redirects its rewards. *)
Theorem instantiate_spec_full `{H : Host} {HS : HostSpec H} env info msg r s :
  instantiate env info msg empty_store = Ok (r, s) →
  ∃ pay raw, find_payment (im_underlying_coin_denom msg) (funds info) = Some pay ∧
    denom pay = im_underlying_coin_denom msg ∧ 0 < amount pay ∧
    addr_humanize raw = Ok (im_rewards_contract msg) ∧
    st_admin s = Some (Some (sender info)) ∧ st_pause s = Some false ∧
    st_config s = Some (ConfigJson (mkConfig false None None (Some raw))) ∧
    st_current_batch s = Some (mkCurrentBatch 1 0) ∧
    st_state s = Some (mkState (mkDecimal dec_unit) (mkDecimal dec_unit) (amount pay)
      (block_time env) 0 0 0 (block_time env) 0) ∧
    messages r =
      [WasmExecute (contract_address env) (ToHub (RegisterValidator (im_validator msg))) [];
       StakingDelegate (im_validator msg) pay; SetWithdrawAddress (im_rewards_contract msg)].
Proof.
  intros Hrun. apply instantiate_spec in Hrun as (pay & raw & Hpay & Hraw & -> & Hmsg).
  exists pay, raw. split; [done|]. unfold find_payment in Hpay.
  apply find_some in Hpay as [_ [Hd Hpos]%andb_prop]. apply String.eqb_eq in Hd.
  apply N.ltb_lt in Hpos. do 2 (split; [done|]). split; [by apply addr_humanize_canonicalize|].
  do 4 (split; [done|]). split; [|done]. simpl. unfold initial_state. by rewrite Decimal_one_eq.
Qed.

Lemma instantiate_spec_full_witness :
  ∃ pay raw, find_payment "uluna" [uluna 1000000] = Some pay ∧
    denom pay = "uluna" ∧ 0 < amount pay ∧ addr_humanize raw = Ok "rewards_contract" ∧
    st_admin (store_at init_run) = Some (Some "owner1") ∧
    st_pause (store_at init_run) = Some false ∧
    st_config (store_at init_run) = Some (ConfigJson (mkConfig false None None (Some raw))) ∧
    st_current_batch (store_at init_run) = Some (mkCurrentBatch 1 0) ∧
    st_state (store_at init_run) = Some (mkState (mkDecimal dec_unit) (mkDecimal dec_unit)
      (amount pay) mock_time 0 0 0 mock_time 0) ∧
    messages (resp_at init_run) =
      [WasmExecute mock_contract (ToHub (RegisterValidator "default-validator")) [];
       StakingDelegate "default-validator" pay; SetWithdrawAddress "rewards_contract"].
Proof.
  apply (instantiate_spec_full (mock_env 0) (mock_info "owner1" [uluna 1000000]) sample_init_msg).
  vm_compute; reflexivity.
Defined.

(** Instantiation checks no parameter: whatever the epoch, the unbonding period,
    the threshold, the fees and the denomination are, it succeeds when the
    addresses can be canonicalised and a payment in that denomination came. *)
Theorem instantiate_accepts_any_params `{H : Host} {HS : HostSpec H} env info msg pay c raw a s :
  addr_canonicalize (sender info) = Ok c → addr_validate (sender info) = Ok a →
  addr_canonicalize (im_rewards_contract msg) = Ok raw →
  find_payment (im_underlying_coin_denom msg) (funds info) = Some pay →
  ∃ r s', instantiate env info msg s = Ok (r, s') ∧
    st_parameters s' = Some (mkParameters (im_epoch_period msg) (im_underlying_coin_denom msg)
      (im_unbonding_period msg) (im_peg_recovery_fee msg) (im_er_threshold msg)
      (im_protocol_fee msg)).
Proof.
  intros Hc Ha Hraw Hpay. unfold instantiate, mbind, cm_bind, lift, reads, writes.
  rewrite Hc. simpl. rewrite Hpay. simpl. rewrite Ha. simpl. rewrite admin_set_spec. simpl.
  rewrite Hraw. simpl. by eexists _, _.
Qed.

(** A protocol fee of 500 percent, a threshold of zero, an epoch of 10^9 seconds. *)
Definition absurd_init_msg : InstantiateMsg :=
  mkInstantiateMsg 1000000000 "uluna" 1000000000 (mkDecimal (9 * dec_unit)) (mkDecimal 0)
    "default-validator" (mkDecimal (5 * dec_unit)) "rewards_contract".
Lemma instantiate_accepts_any_params_witness :
  ∃ r s', instantiate (mock_env 0) (mock_info "owner1" [uluna 1]) absurd_init_msg empty_store
      = Ok (r, s') ∧
    st_parameters s' = Some (mkParameters 1000000000 "uluna" 1000000000 (mkDecimal (9 * dec_unit))
      (mkDecimal 0) (mkDecimal (5 * dec_unit))).
Proof.
  apply (instantiate_accepts_any_params (mock_env 0) (mock_info "owner1" [uluna 1])
    absurd_init_msg (uluna 1) (bytes_of_string "owner1") (bytes_of_string "rewards_contract")
    "owner1" empty_store); vm_compute; reflexivity.
Defined.

(** Migration: it reads the old document of the configuration as well as the
    new one, keeps the token contract and the fee collector, sets the rewards
    contract, and unlocks the token contract; afterwards the configuration can be
    loaded and nothing else has changed. *)
Theorem migrate_config_spec `{H : Host} {HS : HostSpec H} msg s r s' :
  migrate msg s = Ok (r, s') →
  ∃ legacy raw, read_legacy_config s = Ok legacy ∧
    addr_humanize raw = Ok (mm_rewards_contract msg) ∧
    load_config s' = Ok (mkConfig false (lc_token_contract legacy)
      (lc_protocol_fee_collector legacy) (Some raw)) ∧
    ledger s' = ledger s ∧ st_state s' = st_state s ∧ st_parameters s' = st_parameters s ∧
    st_admin s' = st_admin s ∧ st_validators s' = st_validators s ∧ st_pause s' = st_pause s ∧
    messages r = [SetWithdrawAddress (mm_rewards_contract msg)].
Proof.
  intros Hrun. unfold migrate in Hrun. bind Hrun as raw Hraw. bind Hrun as u s1 Hm.
  apply cm_ret_ok in Hrun as [= -> ->]. unfold migrate_config in Hm. bind Hm as legacy Hl.
  apply writes_ok in Hm as [= _ ->]. exists legacy, raw. split; [done|].
  split; [by apply addr_humanize_canonicalize|]. done.
Qed.

(** A store of the version before the rewards contract. *)
Definition legacy_store : HubStore :=
  mkHubStore (Some (Some "owner1")) (Some false)
    (Some (LegacyJson (mkLegacyConfig (Some (bytes_of_string "token")) None)))
    (st_parameters bob_store) (st_current_batch bob_store) (st_state bob_store) (st_wait bob_store)
    (st_history bob_store) (st_validators bob_store).
Definition migrate_run : outcome (Response WasmBody * HubStore) :=
  migrate (mkMigrateMsg "rewards_contract") legacy_store.
Lemma migrate_config_spec_witness :
  is_ok (load_config legacy_store) = false ∧
  ∃ legacy raw, read_legacy_config legacy_store = Ok legacy ∧
    addr_humanize raw = Ok "rewards_contract" ∧
    load_config (store_at migrate_run) = Ok (mkConfig false (lc_token_contract legacy)
      (lc_protocol_fee_collector legacy) (Some raw)) ∧
    ledger (store_at migrate_run) = ledger legacy_store ∧
    st_state (store_at migrate_run) = st_state legacy_store ∧
    st_parameters (store_at migrate_run) = st_parameters legacy_store ∧
    st_admin (store_at migrate_run) = st_admin legacy_store ∧
    st_validators (store_at migrate_run) = st_validators legacy_store ∧
    st_pause (store_at migrate_run) = st_pause legacy_store ∧
    messages (resp_at migrate_run) = [SetWithdrawAddress "rewards_contract"].
Proof.
  split; [reflexivity|].
  apply (migrate_config_spec (mkMigrateMsg "rewards_contract") legacy_store). vm_compute; reflexivity.
Defined.

(** Updating the parameters, by the administrator: each given field is
    replaced, each omitted one and the bonded coin's denomination are kept, and
    nothing else is written. *)
Theorem update_params_spec `{H : Host} {HS : HostSpec H} info epoch unbonding fee threshold pfee s r s' :
  execute_update_params info epoch unbonding fee threshold pfee s = Ok (r, s') →
  st_admin s = Some (Some (sender info)) ∧
  ∃ p, st_parameters s = Some p ∧
    s' = set_parameters (mkParameters (default (epoch_period p) epoch) (underlying_coin_denom p)
      (default (unbonding_period p) unbonding) (default (peg_recovery_fee p) fee)
      (default (er_threshold p) threshold) (default (protocol_fee p) pfee)) s.
Proof.
  intros Hrun. unfold execute_update_params in Hrun. bind Hrun as u Hu.
  apply unwrap_assert_admin_ok in Hu. bind Hrun as p Hp. apply load_parameters_ok in Hp. bind Hrun.
  apply cm_ret_ok in Hrun as [= _ ->]. split; [done|]. by exists p.
Qed.

Definition params_run : outcome (Response WasmBody * HubStore) :=
  execute_update_params (mock_info "owner1" []) (Some 60) None None None None bob_store.
Lemma update_params_spec_witness :
  st_admin bob_store = Some (Some "owner1") ∧
  ∃ p, st_parameters bob_store = Some p ∧
    store_at params_run = set_parameters (mkParameters 60 (underlying_coin_denom p)
      (unbonding_period p) (peg_recovery_fee p) (er_threshold p) (protocol_fee p)) bob_store.
Proof.
  apply (update_params_spec (mock_info "owner1" []) (Some 60) None None None None bob_store
    (resp_at params_run)). vm_compute; reflexivity.
Defined.
