(* ===== verification/PropStorage.v ===== *)
(** * Properties of the storage and of the queries (state.rs, signed_integer.rs) *)
From S2P Require Import Prelude Bytes Cosmwasm RefHost Protocol SignedInteger HubState.
From S2P Require Import HubStateFacts HubContract Scenario HubCoreFacts HubUnbondFacts.
From S2P Require Import HubWithdrawFacts HubInvariant HubPayments HubSolvency HubHistory.
From S2P Require Import Runs PropLedger PropWithdraw.

(** C33. The wait list is a ledger: after storing an amount for a batch and a user,
    reading that batch of that user gives the old amount plus the new one, and
    reading any other batch or user gives what it gave before. *)
Theorem wait_list_roundtrip `{H : Host} {HS : HostSpec H} b user n s s' :
  b < u64_bound → store_unbond_wait_list b user n s = Ok ((), s') →
  read_unbond_wait_list b user s' = Ok (default 0 (wait_entry s user b) + n) ∧
  ∀ b' user', b' < u64_bound → ¬ (user' = user ∧ b' = b) →
    read_unbond_wait_list b' user' s' = read_unbond_wait_list b' user' s.
Proof.
  intros Hb Hst.
  assert (∀ s0 a0 b0, b0 < u64_bound →
    read_unbond_wait_list b0 a0 s0 = item_load "Uint128" (wait_entry s0 a0 b0)) as Hread.
  { intros s0 a0 b0 Hb0. unfold read_unbond_wait_list, wait_entry, user_bucket.
    destruct (batch_key_some b0 Hb0) as (kb & Hkb & Hvb), (addr_key_some a0) as (ka & Hka & Hva).
    rewrite Hva, Hkb, Hka. simpl. by rewrite Hvb. }
  destruct (store_unbond_wait_list_spec _ _ _ _ _ Hb Hst) as (_ & _ & He & _). split.
  - rewrite Hread, He by done. by rewrite decide_True.
  - intros b' user' Hb' Hne. rewrite !Hread, He by done. rewrite decide_False; [done|].
    intros [-> ->]. by apply Hne.
Qed.

Lemma wait_list_roundtrip_witness :
  read_unbond_wait_list 1 "bob"
    (store_at (store_unbond_wait_list 1 "bob" 7 bob_store)) =
  Ok (default 0 (wait_entry bob_store "bob" 1) + 7).
Proof.
  apply (wait_list_roundtrip 1 "bob" 7 bob_store); [vm_compute; reflexivity|].
  vm_compute; reflexivity.
Defined.

(** The unbond-requests query never fails in a reachable store and lists the
    user's open claims: each batch once, and a batch with an amount exactly when
    that is what the user waits for in it. *)
Theorem unbond_requests_listed `{H : Host} {HS : HostSpec H} `{HK : HookSerde} user s :
  reachable s →
  ∃ l, get_unbond_requests user s = Ok l ∧ NoDup l.*1 ∧
    ∀ b v, (b, v) ∈ l ↔ b < u64_bound ∧ wait_entry s user b = Some v.
Proof.
  intros Hs. destruct (reachable_inv s Hs) as (cb & st & Hi).
  destruct (claims_exist s user (inv_wait_keys _ _ _ Hi)) as [l Hl].
  exists l. split; [by apply get_unbond_requests_claims|].
  split; [by apply (claims_NoDup s user)|]. intros b v. by apply claims_elem.
Qed.

Lemma unbond_requests_listed_witness :
  ∃ l, get_unbond_requests "bob" bob_store = Ok l ∧ NoDup l.*1 ∧
    ∀ b v, (b, v) ∈ l ↔ b < u64_bound ∧ wait_entry bob_store "bob" b = Some v.
Proof. apply unbond_requests_listed. exact bob_store_reachable. Defined.

(** C32. Pagination of the history: a page holds the closed batches that follow the
    given one, consecutively from the next number, as many as exist up to the
    limit (10 unless given, never more than 100). *)
Theorem history_pages `{H : Host} {HS : HostSpec H} `{HK : HookSerde} start limit s cb l :
  reachable s → st_current_batch s = Some cb →
  from_option (λ i, i < u64_bound) True start →
  all_unbond_history start limit s = Ok l →
  let first := match start with Some i => i + 1 | None => 1 end in
  N.of_nat (length l) = N.min (N.min (default 10 limit) 100) (cb_id cb - first) ∧
  ∀ k h, l !! k = Some h → hist s (first + N.of_nat k) = Some h ∧ batch_id h = first + N.of_nat k.
Proof.
  intros Hs Hcb Hstart Hl. destruct (reachable_inv s Hs) as (cb' & st & Hi).
  assert (cb' = cb) as -> by (pose proof (inv_cb _ _ _ Hi); congruence).
  destruct (all_unbond_history_spec s cb st start limit l Hi Hstart Hl) as [Hlen Hlook].
  split; [exact Hlen|]. intros k h Hk. pose proof (Hlook k h Hk) as Hh. split; [exact Hh|].
  assert (page_first start + N.of_nat k < u64_bound) as Hb.
  { apply lookup_lt_Some in Hk. pose proof (inv_bound _ _ _ Hi). lia. }
  by apply (inv_hist_id _ _ _ Hi _ _ Hb).
Qed.

Definition list_at {A} (o : outcome (list A)) : list A := match o with Ok l => l | _ => [] end.
Definition bob_page : list UnbondHistory := list_at (all_unbond_history None None bob_store).
Lemma bob_page_ok : all_unbond_history None None bob_store = Ok bob_page.
Proof. vm_compute; reflexivity. Qed.
Lemma bob_cb_ok : st_current_batch bob_store = Some bob_cb.
Proof. vm_compute; reflexivity. Qed.
Lemma history_pages_witness :
  N.of_nat (length bob_page) = N.min (N.min (default 10 None) 100) (cb_id bob_cb - 1).
Proof.
  exact (proj1 (history_pages None None bob_store bob_cb bob_page bob_store_reachable bob_cb_ok I
    bob_page_ok)).
Defined.

(** C37. The withdrawable query estimates at the current rates: it adds up the user's
    claims of exactly those batches that were closed strictly before the given
    time, released or not. *)
Theorem withdrawable_query_value `{H : Host} {HS : HostSpec H} user t s l x :
  claims s user l → query_get_finished_amount user t s = Ok x →
  x = sum_of (claim_payout s) (List.filter (λ bv,
        match hist s bv.1 with Some h => h_time h <? t | None => false end) l).
Proof.
  intros (k & Hk & Hl) Hrun. unfold query_get_finished_amount in Hrun. rewrite Hk in Hrun.
  simpl in Hrun. rewrite <- (N.add_0_l (sum_of _ _)).
  revert Hrun. generalize 0.
  induction Hl as [|[kb v] [b v'] r l (Hb & Hkb & Hv) Hl IH]; intros acc Hrun; simpl in *.
  - injection Hrun as <-. lia.
  - rewrite (u64_from_to b kb) in Hrun by done. simpl in Hrun. rewrite try_read_history in Hrun.
    simpl in Hrun. subst v'. destruct (hist s b) as [h|] eqn:Hh; [destruct (h_time h <? t)|];
      simpl in Hrun.
    + inv_cw. apply IH in Hrun as ->. simpl. unfold claim_payout at 2, claim_rate. simpl.
      rewrite Hh. lia.
    + by apply IH.
    + by apply IH.
Qed.

Lemma bob_claims : claims bob_store "bob" [(1, 1000)].
Proof.
  exists (34 :: bytes_of_string "bob" ++ [34]). split; [reflexivity|].
  assert (kv_range (wait_bucket bob_store (34 :: bytes_of_string "bob" ++ [34])) None =
    [([49], 1000)]) as -> by (vm_compute; reflexivity).
  constructor; [|constructor]. split; [vm_compute; reflexivity|]. split; vm_compute; reflexivity.
Qed.
Lemma withdrawable_query_value_witness :
  1000 = sum_of (claim_payout bob_store) (List.filter (λ bv,
    match hist bob_store bv.1 with Some h => h_time h <? mock_time + 120 | None => false end)
    [(1, 1000)]).
Proof.
  apply (withdrawable_query_value "bob" (mock_time + 120)); [exact bob_claims|].
  vm_compute; reflexivity.
Defined.

(** [SignedInt::from_subtraction] never fails; the result's magnitude and sign
    stand for the exact difference of the two unsigned numbers, and zero is not
    negative. *)
Theorem from_subtraction_exact `{M : Math} {MS : MathSpec M} a b :
  ∃ i, from_subtraction a b = Ok i ∧
    (if negative i then (- Z.of_N (magnitude i))%Z else Z.of_N (magnitude i))
      = (Z.of_N a - Z.of_N b)%Z ∧
    (negative i = true → magnitude i ≠ 0).
Proof. apply from_subtraction_value. Qed.

Lemma from_subtraction_exact_witness :
  ∃ i, from_subtraction 900 1000 = Ok i ∧
    (if negative i then (- Z.of_N (magnitude i))%Z else Z.of_N (magnitude i)) = (900 - 1000)%Z ∧
    (negative i = true → magnitude i ≠ 0).
Proof. apply (from_subtraction_exact 900 1000). Defined.
