(* ===== verification/PropRewards.v ===== *)
(** * Properties of the rewards contract, and of the two contracts together *)
From S2P Require Import Prelude Bytes Cosmwasm RefHost Protocol HubState HubStateFacts.
From S2P Require Import HubMath HubCore HubAutoCompound HubContract RewardsContract Scenario.
From S2P Require Import HubCoreFacts HubAdminFacts CompoundProgress Runs PropBond.

(** The rewards contract forwards everything, to the hub only: a successful
    [ProcessRewards] came from the hub, the contract was not paused, and its one
    message hands the whole balance of the underlying coin to the hub's
    [UpdateExchangeRate]; the store does not change. *)
Theorem process_rewards_forwards `{H : Host} {HS : HostSpec H} q env info s r s' :
  Rewards.execute q env info ProcessRewards s = Ok (r, s') →
  ∃ c bal, Rewards.rw_config s = Some c ∧ Rewards.rw_pause s = Some false ∧
    addr_humanize (hub_contract c) = Ok (sender info) ∧
    query_balance q (contract_address env) (rc_underlying_coin_denom c) = Ok bal ∧
    messages r = [WasmExecute (sender info) (ToHub UpdateExchangeRate) [bal]] ∧ s' = s.
Proof.
  intros Hrun. simpl in Hrun. bind Hrun as u Hu.
  unfold Rewards.is_contract_paused in Hu. bind Hu as p Hp. apply ok_or_ok in Hp.
  destruct p; [done|]. unfold Rewards.execute_process_rewards in Hrun.
  bind Hrun as c Hc. apply ok_or_ok in Hc. bind Hrun as hub Hhub. bind Hrun as u2 Hu2.
  apply fail_if_ok, bool_decide_eq_false in Hu2. apply dec_stable in Hu2. subst hub.
  bind Hrun as bal Hbal. apply cm_ret_ok in Hrun as [= -> ->].
  exists c, bal. simpl. by destruct bal.
Qed.

Definition rewards_store : Rewards.Store :=
  Rewards.mkStore (Some (Some "owner1")) (Some false)
    (Some (mkRewardsConfig (bytes_of_string mock_contract) "uluna")).
Definition rewards_env : Env := mkEnv 12345 mock_time "rewards_contract".
Definition process_run : outcome (Response WasmBody * Rewards.Store) :=
  Rewards.execute (mock_querier [] 100 0) rewards_env (mock_info mock_contract []) ProcessRewards
    rewards_store.
Lemma process_rewards_forwards_witness :
  ∃ c bal, Rewards.rw_config rewards_store = Some c ∧ Rewards.rw_pause rewards_store = Some false ∧
    addr_humanize (hub_contract c) = Ok mock_contract ∧
    query_balance (mock_querier [] 100 0) "rewards_contract" (rc_underlying_coin_denom c) = Ok bal ∧
    messages (resp_at process_run) = [WasmExecute mock_contract (ToHub UpdateExchangeRate) [bal]] ∧
    rewards_store = rewards_store.
Proof.
  apply (process_rewards_forwards (mock_querier [] 100 0) rewards_env (mock_info mock_contract [])).
  vm_compute; reflexivity.
Defined.

(** The two contracts fit together: when the rewards contract has processed its
    rewards, its message, delivered to a hub that is ready for it, succeeds, and the
    bond's increase and the protocol fee make up exactly the rewards contract's
    balance. *)
Theorem rewards_reach_the_bond `{H : Host} {HS : HostSpec H} `{HK : HookSerde}
    qr q renv rinfo env rs rr rs' c bal s st params fee :
  Rewards.execute qr renv rinfo ProcessRewards rs = Ok (rr, rs') →
  Rewards.rw_config rs = Some c →
  query_balance qr (contract_address renv) (rc_underlying_coin_denom c) = Ok bal →
  ready_for_rewards q env (contract_address renv) bal s st params fee →
  messages rr = [WasmExecute (sender rinfo) (ToHub UpdateExchangeRate) [bal]] ∧
  ∃ r s' st', execute q env (mkInfo (contract_address renv) [bal]) UpdateExchangeRate s = Ok (r, s') ∧
    st_state s' = Some st' ∧ total_bond_amount st' + fee = total_bond_amount st + amount bal.
Proof.
  intros Hrun Hc Hbal Hrd. split.
  - simpl in Hrun. bind Hrun as u Hu. unfold Rewards.execute_process_rewards in Hrun.
    bind Hrun as c' Hc'. apply ok_or_ok in Hc'. assert (c' = c) as -> by congruence.
    bind Hrun as hub Hhub. bind Hrun as u2 Hu2. apply fail_if_ok, bool_decide_eq_false in Hu2.
    apply dec_stable in Hu2. subst hub. bind Hrun as bal' Hbal'.
    assert (bal' = bal) as -> by congruence.
    apply cm_ret_ok in Hrun as [= -> ->]. by destruct bal.
  - exact (compound_total _ _ _ _ _ _ _ _ Hrd).
Qed.

Definition fee_params : Parameters :=
  mkParameters 30 "uluna" 2 (mkDecimal 0) (mkDecimal dec_unit) (mkDecimal 50000000000000000).
Definition fee_state : State := default (initial_state 0 0) (st_state fee_store).
Lemma fee_store_ready :
  ready_for_rewards bond_q (mock_env 0) "rewards_contract" (uluna 100) fee_store fee_state fee_params 5.
Proof.
  split; [vm_compute; reflexivity..| | | | | |vm_compute; reflexivity].
  - eexists _, _, _, _. repeat (split; [vm_compute; reflexivity|]). vm_compute; reflexivity.
  - split; vm_compute; reflexivity.
  - eexists. split; [vm_compute; reflexivity|discriminate].
  - split; [vm_compute; reflexivity|vm_compute; discriminate].
  - eexists _, _. do 2 (split; [vm_compute; reflexivity|]). split; [vm_compute; discriminate|].
    split; vm_compute; reflexivity.
Qed.
Lemma rewards_reach_the_bond_witness :
  messages (resp_at process_run) = [WasmExecute mock_contract (ToHub UpdateExchangeRate) [uluna 100]] ∧
  ∃ r s' st', execute bond_q (mock_env 0) (mkInfo "rewards_contract" [uluna 100])
      UpdateExchangeRate fee_store = Ok (r, s') ∧
    st_state s' = Some st' ∧ total_bond_amount st' + 5 = total_bond_amount fee_state + 100.
Proof.
  apply (rewards_reach_the_bond (mock_querier [] 100 0) bond_q rewards_env
    (mock_info mock_contract []) (mock_env 0) rewards_store (resp_at process_run) rewards_store
    (mkRewardsConfig (bytes_of_string mock_contract) "uluna") (uluna 100) fee_store fee_state
    fee_params 5).
  - vm_compute; reflexivity.
  - reflexivity.
  - vm_compute; reflexivity.
  - exact fee_store_ready.
Defined.
