(* ===== verification/PropBignumber.v ===== *)
(** * Properties of the 256-bit numbers *)
From Stdlib Require Import Ascii.
From S2P Require Import Prelude Cosmwasm RefHost Text BigInt Bignumber HubMath.
From S2P Require Import BignumberFacts.
From S2P Require Import RefBigInt.


Definition max_text : string :=
  "115792089237316195423570985008687907853269984665640564039457.584007913129639935".
Example max_displayed : Decimal256.to_string (B := ref_big) Decimal256.MAX = Ok max_text.
Proof. vm_compute. reflexivity. Qed.

(** C39. [Decimal256::from_str] never rounds.  Two numerals joined by a dot are the
    exact number they denote, refused when the second has more than 18 digits (also
    when they are zeros), and a panic when the number does not fit in 256 bits.  An
    empty numeral counts as zero: the empty string and [.23] are accepted, although
    the comment disallows them. *)
Theorem decimal256_from_str_exact `{B : BigInt} {BS : BigIntSpec B}
    (p1 p2 : string) (v1 v2 : N) :
  parse_dec p1 = Some v1 → parse_dec p2 = Some v2 → v1 < u256_bound → v2 < u256_bound →
  Decimal256.from_str (p1 +:+ "." +:+ p2) =
    (if (String.length p2 <=? 18)%nat then
       let n := v1 * dec_unit + v2 * 10 ^ N.of_nat (18 - String.length p2) in
       if n <? u256_bound then Ok (dec256 n) else Panic
     else Err (GenericErr "Cannot parse more than 18 fractional digits")) ∧
  Decimal256.from_str "" = Ok (dec256 0) ∧
  Decimal256.from_str ".23" = Ok (dec256 230000000000000000).
Proof.
  intros H1 H2 Hb1 Hb2. split; [by apply from_str_dotted|]. split.
  - by apply (from_str_one "" 0).
  - by apply (from_str_two "" "23" 0 23); [done|done|simpl; lia|].
Qed.
Lemma decimal256_from_str_exact_witness :
  Decimal256.from_str (B := ref_big) "7.123" = Ok (dec256 7123000000000000000) ∧
  Decimal256.from_str (B := ref_big) "" = Ok (dec256 0) ∧
  Decimal256.from_str (B := ref_big) ".23" = Ok (dec256 230000000000000000).
Proof.
  apply (decimal256_from_str_exact (B := ref_big) (BS := ref_big_spec) "7" "123" 7 123); done.
Defined.

(** C40. The hub's helpers through 256 bits lose nothing: on all 128-bit decimals the
    sum is cosmwasm_std's own sum, the product is the exact product rounded down once
    and the difference is exact; each panics exactly when the result is not a 128-bit
    decimal.  In particular no intermediate value overflows, and the conversions
    through text change nothing. *)
Theorem in_256_exact `{M : Math} {MS : MathSpec M} `{B : BigInt} {BS : BigIntSpec B}
    `{D : DecimalText} {DS : DecimalTextSpec D} (a b : Decimal) :
  atomics a < u128_bound → atomics b < u128_bound →
  decimal_summation_in_256 a b = Decimal_add a b ∧
  decimal_multiplication_in_256 a b =
    (let n := atomics a * atomics b / dec_unit in
     if n <? u128_bound then Ok (mkDecimal n) else Panic) ∧
  decimal_subtraction_in_256 a b =
    (if atomics b <=? atomics a then Ok (mkDecimal (atomics a - atomics b)) else Panic).
Proof.
  intros Ha Hb. rewrite Decimal_add_spec.
  by rewrite summation_in_256_eq, multiplication_in_256_eq, subtraction_in_256_eq.
Qed.

(** The repository's tests: 100 * 0.1111111 = 11.11111. *)
Lemma in_256_exact_witness :
  decimal_multiplication_in_256 (B := ref_big) (D := ref_decimal_text)
    (mkDecimal (100 * dec_unit)) (mkDecimal 111111100000000000) =
    Ok (mkDecimal 11111110000000000000).
Proof.
  exact (proj1 (proj2 (in_256_exact (B := ref_big) (BS := ref_big_spec)
    (D := ref_decimal_text) (DS := ref_decimal_text_spec)
    (mkDecimal (100 * dec_unit)) (mkDecimal 111111100000000000) eq_refl eq_refl))).
Defined.
